(** * cellSNP: pileup, aggregation and shard merging (src/cellsnp.c)

    A shallow embedding of the counting engine of cellsnp.c: the CIGAR
    resolver [pileup_read_with_fetch], the sample-group table
    [csp_mplp_push], the per-SNP statistics [csp_mplp_stat], the SNP driver
    [pileup_snp_with_fetch], the worker loop [pileup_positions_with_fetch]
    and the coordinator [run_mode_with_fetch] with [merge_mtx], [merge_vcf]
    and [rewrite_mtx]; and of what leads to it: the settings check
    [check_global_args] with the barcode order [csp_cmp_barcodes], and
    [main] from the check to the exit code.

    Conventions.
    - C integers are [Z]; where the source mixes signed and unsigned
      operands the conversion is written out ([u32], [to_size_t]).
    - A [double] is the rational [Q] it stands for ([min_maf] is a finite
      double); the conversions to [double] and the product of line 330
      round to nearest, ties to even ([double_round]).
    - A file is the list of its bytes ([list ascii]); a gzip-capable handle
      is modelled by the byte stream it carries.
    - Memory allocation is assumed to succeed. *)

From stdpp Require Import base gmap strings list.
From Stdlib Require Import ZArith QArith Qround Qpower Ascii String List Lia Lqa
  Bool DecimalString Sorted Permutation.
Import ListNotations.

Set Default Proof Using "Type".
Set Proof Using Clear Unused.

Local Open Scope Z_scope.

(** ** Machine integers *)

(** Conversion of a C [int] to [uint32_t] (the usual arithmetic conversions
    when an [int] meets a [uint32_t]). *)
Definition u32 (z : Z) : Z := z mod 2 ^ 32.

(** Conversion of a C [int] to [size_t] on an LP64 target. *)
Definition to_size_t (z : Z) : Z := z mod 2 ^ 64.

(** Values representable in a C [int]. *)
Definition is_int (z : Z) : Prop := - 2 ^ 31 <= z < 2 ^ 31.

(** ** Global settings (struct _gll_settings) *)

Record csp_snp_t := {
  chr : string;
  pos : Z;                   (* 0-based *)
  ref : ascii;               (* REF letter, the zero character when absent *)
  alt : ascii                (* ALT letter, the zero character when absent *)
}.

Record global_settings := {
  pl : list csp_snp_t;
  barcodes : list string;
  sample_ids : option (list string);
  cell_tag : option string;
  umi_tag : option string;
  nthread : Z;
  tp : bool;                 (* thread pool pointer is not NULL *)
  is_genotype : bool;
  double_gl : Z;
  min_count : Z;
  min_maf : Q;
  min_len : Z;
  min_mapq : Z;
  max_flag : Z
}.

Definition use_barcodes (gs : global_settings) : bool :=
  match cell_tag gs with Some _ => true | None => false end.

Definition use_sid (gs : global_settings) : bool :=
  match sample_ids gs with Some _ => true | None => false end.

Definition use_umi (gs : global_settings) : bool :=
  match umi_tag gs with Some _ => true | None => false end.

(** ** Alignment records *)

(** The part of htslib's [bam1_t] that the resolver reads.  [cigar] holds
    the raw [uint32_t] words; [seqi] and [quals] are the decoded
    [bam_seqi(bam_get_seq(b), i)] and [bam_get_qual(b)[i]]; [aux] is
    [get_bam_aux_str]: the string value of a two-letter tag, or NULL. *)
Record bam1_t := {
  core_pos : Z;
  core_qual : Z;
  core_flag : Z;
  cigar : list N;
  seqi : Z -> Z;
  quals : Z -> Z;
  aux : string -> option string
}.

Definition BAM_CMATCH : Z := 0.
Definition BAM_CINS : Z := 1.
Definition BAM_CDEL : Z := 2.
Definition BAM_CREF_SKIP : Z := 3.
Definition BAM_CSOFT_CLIP : Z := 4.
Definition BAM_CEQUAL : Z := 7.
Definition BAM_CDIFF : Z := 8.

(** Modelled from the spec: the macros [get_cigar_op] and [get_cigar_len]
    live in cellsnp_util.h; a CIGAR word carries the operation in its low
    four bits and the length above them (the BAM encoding). *)
Definition get_cigar_op (c : N) : Z := Z.of_N (N.land c 15).

Definition get_cigar_len (c : N) : Z := Z.of_N (N.shiftr c 4).

Definition is_match_class (op : Z) : bool :=
  (op =? BAM_CMATCH) || (op =? BAM_CEQUAL) || (op =? BAM_CDIFF).

Definition is_del_or_skip (op : Z) : bool :=
  (op =? BAM_CDEL) || (op =? BAM_CREF_SKIP).

Definition is_ins_or_clip (op : Z) : bool :=
  (op =? BAM_CINS) || (op =? BAM_CSOFT_CLIP).

(** csp_pileup_t: the transient per-read record. *)
Record csp_pileup_t := {
  b : bam1_t;
  qpos : Z;
  base : Z;
  qual : Z;
  is_refskip : bool;
  is_del : bool;
  umi : option string;
  cb : option string;
  laln : Z
}.

Definition set_umi (p : csp_pileup_t) (v : option string) : csp_pileup_t :=
  {| b := b p; qpos := qpos p; base := base p; qual := qual p;
     is_refskip := is_refskip p; is_del := is_del p; umi := v; cb := cb p;
     laln := laln p |}.

Definition set_cb (p : csp_pileup_t) (v : option string) : csp_pileup_t :=
  {| b := b p; qpos := qpos p; base := base p; qual := qual p;
     is_refskip := is_refskip p; is_del := is_del p; umi := umi p; cb := v;
     laln := laln p |}.

Definition set_site (p : csp_pileup_t) (q : Z) (rs dl : bool) : csp_pileup_t :=
  {| b := b p; qpos := q; base := base p; qual := qual p;
     is_refskip := rs; is_del := dl; umi := umi p; cb := cb p;
     laln := laln p |}.

Definition set_base_qual (p : csp_pileup_t) (q bs ql : Z) : csp_pileup_t :=
  {| b := b p; qpos := q; base := bs; qual := ql;
     is_refskip := is_refskip p; is_del := is_del p; umi := umi p; cb := cb p;
     laln := laln p |}.

Definition set_laln (p : csp_pileup_t) (l : Z) : csp_pileup_t :=
  {| b := b p; qpos := qpos p; base := base p; qual := qual p;
     is_refskip := is_refskip p; is_del := is_del p; umi := umi p; cb := cb p;
     laln := l |}.

(** ** ReadResolver: pileup_read_with_fetch *)

(** The first loop (lines 383-391).  [x], [y] and [laln] are the running
    reference coordinate, query coordinate and aligned length.  On [break]
    at operation [k] the result is [(op, px, py, laln, rest)]: the operation
    word of [k], the coordinates at its start, the length counter after it,
    and the operations after [k].  [None]: the loop ran off the list, so
    the following [assert(k < c->n_cigar)] fails. *)
Fixpoint find_pos (pos : Z) (cig : list N) (x y la : Z)
  : option (Z * Z * Z * Z * list N) :=
  match cig with
  | [] => None
  | c :: rest =>
      let op := get_cigar_op c in
      let l := get_cigar_len c in
      let '(x', y', la') :=
        if is_match_class op then (x + l, y + l, u32 (la + l))
        else if is_del_or_skip op then (x + l, y, la)
        else if is_ins_or_clip op then (x, y + l, la)
        else (x, y, la) in
      if x' >? pos then Some (op, x, y, la', rest)
      else find_pos pos rest x' y' la'
  end.

(** The second loop (lines 405-409). *)
Fixpoint rest_laln (cig : list N) (la : Z) : Z :=
  match cig with
  | [] => la
  | c :: rest =>
      let op := get_cigar_op c in
      let l := get_cigar_len c in
      rest_laln rest (if is_match_class op then u32 (la + l) else la)
  end.

(** Return codes: 0 success, 1 read not in proper format, 2 filtered.
    [None] stands for a failed [assert] (the process aborts). *)
Definition pileup_read_with_fetch (pos : Z) (p : csp_pileup_t)
    (gs : global_settings) : option (Z * csp_pileup_t) :=
  let p1 := match umi_tag gs with
            | Some t => set_umi p (aux (b p) t)
            | None => p
            end in
  if use_umi gs && negb (bool_decide (is_Some (umi p1))) then Some (1, p1) else
  let p2 := match cell_tag gs with
            | Some t => set_cb p1 (aux (b p1) t)
            | None => p1
            end in
  if use_barcodes gs && negb (bool_decide (is_Some (cb p2))) then Some (1, p2) else
  if core_qual (b p2) <? min_mapq gs then Some (2, p2) else
  if core_flag (b p2) >? max_flag gs then Some (2, p2) else
  if negb (core_pos (b p2) <=? pos) then None else
  let p3 := set_site p2 0 false false in
  match find_pos pos (cigar (b p3)) (core_pos (b p3)) 0 0 with
  | None => None
  | Some (op, px, py, la, rest) =>
      let p4 :=
        if is_match_class op then
          let q := py + (pos - px) in
          set_base_qual p3 q (seqi (b p3) q) (quals (b p3) q)
        else if is_del_or_skip op then
          set_site p3 py (op =? BAM_CREF_SKIP) true
        else p3 in
      if is_del p4 then Some (2, p4) else
      if is_refskip p4 then Some (2, p4) else
      let la' := rest_laln rest la in
      if la' <? u32 (min_len gs) then Some (2, p4)
      else Some (0, set_laln p4 la')
  end.

(** ** GroupTable: csp_plp_t, csp_mplp_t and csp_mplp_push *)

(** Per-sample-group record.  [bc] and [qu] are the five-slot arrays indexed
    by A, C, G, T, N; [hug] is the set of UMI strings seen at this SNP (the
    keys of the UMI hash map; its values are unused by the source).  The
    genotype buffers [qmat] and [gl] are functions of [qu], [bc] and the
    site's ref/alt and are left to [plp_genotype] below. *)
Record csp_plp_t := {
  bc : list Z;
  tc : Z;
  ad : Z;
  dp : Z;
  oth : Z;
  qu : list (list Z);
  hug : gset string
}.

(** Per-SNP aggregate.  [hsg] lists the sample groups in the order of
    [hsg_iter], each with its name (the hash-map key).  Site-wide counters
    carry the prefix [m_] because Rocq has one name space for fields. *)
Record csp_mplp_t := {
  hsg : list (string * csp_plp_t);
  m_bc : list Z;
  m_tc : Z;
  inf_rid : Z;
  inf_aid : Z;
  ref_idx : Z;
  alt_idx : Z;
  m_ad : Z;
  m_dp : Z;
  m_oth : Z;
  nr_ad : Z;
  nr_dp : Z;
  nr_oth : Z
}.

Definition nsg (m : csp_mplp_t) : Z := Z.of_nat (length (hsg m)).

(** Array read [a[i]]. *)
Definition arr_get (a : list Z) (i : Z) : Z := nth (Z.to_nat i) a 0.

(** Modelled from the spec: the macro [seq_nt16_idx2int] of cellsnp_util.h
    maps the 4-bit nucleotide code of a read base to the slot of A, C, G,
    T or N (htslib's seq_nt16_int table). *)
Definition seq_nt16_idx2int (code : Z) : Z :=
  nth (Z.to_nat code) [4; 0; 1; 4; 2; 4; 4; 4; 3; 4; 4; 4; 4; 4; 4; 4] 4.

Definition set_hsg (m : csp_mplp_t) (h : list (string * csp_plp_t)) : csp_mplp_t :=
  {| hsg := h; m_bc := m_bc m; m_tc := m_tc m; inf_rid := inf_rid m;
     inf_aid := inf_aid m; ref_idx := ref_idx m; alt_idx := alt_idx m;
     m_ad := m_ad m; m_dp := m_dp m; m_oth := m_oth m;
     nr_ad := nr_ad m; nr_dp := nr_dp m; nr_oth := nr_oth m |}.

Definition set_ref_alt (m : csp_mplp_t) (r a : Z) : csp_mplp_t :=
  {| hsg := hsg m; m_bc := m_bc m; m_tc := m_tc m; inf_rid := inf_rid m;
     inf_aid := inf_aid m; ref_idx := r; alt_idx := a;
     m_ad := m_ad m; m_dp := m_dp m; m_oth := m_oth m;
     nr_ad := nr_ad m; nr_dp := nr_dp m; nr_oth := nr_oth m |}.

(** [plp->bc[idx]++; csp_list_qu_push(plp->qu[idx], pileup->qual)]. *)
Definition plp_count (p : csp_pileup_t) (g : csp_plp_t) : csp_plp_t :=
  let idx := Z.to_nat (seq_nt16_idx2int (base p)) in
  {| bc := alter (fun c => c + 1) idx (bc g);
     tc := tc g; ad := ad g; dp := dp g; oth := oth g;
     qu := alter (fun l => l ++ [qual p]) idx (qu g);
     hug := hug g |}.

Definition plp_add_umi (u : string) (g : csp_plp_t) : csp_plp_t :=
  {| bc := bc g; tc := tc g; ad := ad g; dp := dp g; oth := oth g;
     qu := qu g; hug := {[u]} ∪ hug g |}.

(** [csp_map_sg_get]: position of the group named [k], if any. *)
Fixpoint sg_get (h : list (string * csp_plp_t)) (k : string) : option nat :=
  match h with
  | [] => None
  | (name, _) :: rest =>
      if String.eqb name k then Some O
      else match sg_get rest k with Some i => Some (S i) | None => None end
  end.

(** Lines 281-303, on the selected group. *)
Definition plp_push (p : csp_pileup_t) (gs : global_settings)
    (g : csp_plp_t) : csp_plp_t :=
  if use_umi gs then
    match umi p with
    | Some u =>
        if bool_decide (u ∈ hug g) then g
        else plp_count p (plp_add_umi u g)
    | None => g
    end
  else plp_count p g.

(** Return codes: 0 success, 1 barcode not in the list, -1 neither
    barcodes nor sample IDs are used.  (-2, a failed hash insertion, needs
    an allocation failure.) *)
Definition csp_mplp_push (p : csp_pileup_t) (m : csp_mplp_t) (sid : Z)
    (gs : global_settings) : Z * csp_mplp_t :=
  if use_barcodes gs then
    match cb p with
    | Some k =>
        match sg_get (hsg m) k with
        | None => (1, m)
        | Some i =>
            (0, set_hsg m (alter (fun e => (fst e, plp_push p gs (snd e))) i (hsg m)))
        end
    | None => (1, m)
    end
  else if use_sid gs then
    (0, set_hsg m (alter (fun e => (fst e, plp_push p gs (snd e)))
                         (Z.to_nat sid) (hsg m)))
  else (-1, m).

(** Modelled from the spec: [csp_plp_reset] / [csp_mplp_reset] of
    cellsnp_util.h.  "reset (counts zeroed, UMI set cleared) between SNPs":
    every group keeps its name and roster position and gets empty counts,
    empty quality lists and an empty UMI set; the site fields are zeroed
    and the allele indices invalidated. *)
Definition plp_empty : csp_plp_t :=
  {| bc := [0; 0; 0; 0; 0]; tc := 0; ad := 0; dp := 0; oth := 0;
     qu := [[]; []; []; []; []]; hug := ∅ |}.

Definition mplp_of_roster (names : list string) : csp_mplp_t :=
  {| hsg := map (fun n => (n, plp_empty)) names;
     m_bc := [0; 0; 0; 0; 0]; m_tc := 0;
     inf_rid := -1; inf_aid := -1; ref_idx := -1; alt_idx := -1;
     m_ad := 0; m_dp := 0; m_oth := 0;
     nr_ad := 0; nr_dp := 0; nr_oth := 0 |}.

Definition csp_mplp_reset (m : csp_mplp_t) : csp_mplp_t :=
  mplp_of_roster (map fst (hsg m)).

(** Modelled from the spec: [csp_mplp_init] with [csp_mplp_set_sg] (both in
    cellsnp_util.h) as used by [csp_mplp_prepare] (lines 204-240):
    "prepare creates one empty per-sample-group record for every configured
    sample name".  [None]: neither grouping is configured (return -1). *)
Definition csp_mplp_prepare (gs : global_settings) : option csp_mplp_t :=
  if use_barcodes gs then Some (mplp_of_roster (barcodes gs))
  else match sample_ids gs with
       | Some ids => Some (mplp_of_roster ids)
       | None => None
       end.

(** ** AggregateStats: csp_mplp_stat *)

Definition slots : list Z := [0; 1; 2; 3; 4].

(** Lines 322-325 for one group: [plp->tc += plp->bc[j]]. *)
Definition plp_sum (g : csp_plp_t) : csp_plp_t :=
  {| bc := bc g;
     tc := fold_left (fun t j => t + arr_get (bc g) j) slots (tc g);
     ad := ad g; dp := dp g; oth := oth g; qu := qu g; hug := hug g |}.

(** Lines 322-325, site side: [mplp->bc[j] += plp->bc[j]]. *)
Definition bc_accum (acc : list Z) (g : csp_plp_t) : list Z :=
  fold_left (fun a j => alter (fun v => v + arr_get (bc g) j) (Z.to_nat j) a)
            slots acc.

(** Lines 320-327: the summing step. *)
Definition csp_mplp_sum (m : csp_mplp_t) : csp_mplp_t :=
  let h := map (fun e => (fst e, plp_sum (snd e))) (hsg m) in
  let sbc := fold_left (fun a e => bc_accum a (snd e)) (hsg m) (m_bc m) in
  let stc := fold_left (fun t i => t + arr_get sbc i) slots (m_tc m) in
  {| hsg := h; m_bc := sbc; m_tc := stc; inf_rid := inf_rid m;
     inf_aid := inf_aid m; ref_idx := ref_idx m; alt_idx := alt_idx m;
     m_ad := m_ad m; m_dp := m_dp m; m_oth := m_oth m;
     nr_ad := nr_ad m; nr_dp := nr_dp m; nr_oth := nr_oth m |}.

(** Modelled from the spec: [csp_infer_allele] of cellsnp_util.h.  "the two
    bases with the highest and second-highest total counts, ties broken by
    a fixed base-priority ordering": the first slot in the order A, C, G,
    T, N holding the largest count, then the first of the other slots
    holding the largest count among them. *)
Definition best_slot (counts : list Z) (cands : list Z) (init : Z) : Z :=
  fold_left (fun k i => if arr_get counts k <? arr_get counts i then i else k)
            cands init.

Definition csp_infer_allele (counts : list Z) : Z * Z :=
  let r := best_slot counts [1; 2; 3; 4] 0 in
  let others := List.filter (fun i => negb (i =? r)) slots in
  let a := best_slot counts (tl others) (hd 0 others) in
  (r, a).

Definition set_inf (m : csp_mplp_t) (r a : Z) : csp_mplp_t :=
  {| hsg := hsg m; m_bc := m_bc m; m_tc := m_tc m; inf_rid := r;
     inf_aid := a; ref_idx := ref_idx m; alt_idx := alt_idx m;
     m_ad := m_ad m; m_dp := m_dp m; m_oth := m_oth m;
     nr_ad := nr_ad m; nr_dp := nr_dp m; nr_oth := nr_oth m |}.

Definition set_m_adp (m : csp_mplp_t) (a d o : Z) : csp_mplp_t :=
  {| hsg := hsg m; m_bc := m_bc m; m_tc := m_tc m; inf_rid := inf_rid m;
     inf_aid := inf_aid m; ref_idx := ref_idx m; alt_idx := alt_idx m;
     m_ad := a; m_dp := d; m_oth := o;
     nr_ad := nr_ad m; nr_dp := nr_dp m; nr_oth := nr_oth m |}.

Definition set_groups (m : csp_mplp_t) (h : list (string * csp_plp_t))
    (na nd no : Z) : csp_mplp_t :=
  {| hsg := h; m_bc := m_bc m; m_tc := m_tc m; inf_rid := inf_rid m;
     inf_aid := inf_aid m; ref_idx := ref_idx m; alt_idx := alt_idx m;
     m_ad := m_ad m; m_dp := m_dp m; m_oth := m_oth m;
     nr_ad := na; nr_dp := nd; nr_oth := no |}.

Definition set_adp (g : csp_plp_t) (a d o : Z) : csp_plp_t :=
  {| bc := bc g; tc := tc g; ad := a; dp := d; oth := o;
     qu := qu g; hug := hug g |}.

(** *** The [double] arithmetic of line 330

    A finite [double] is given by its value, a rational number; [min_maf]
    is one.  [double_round] rounds a rational to the nearest double, a tie
    going to the even significand, as the conversions and the
    multiplication of binary64 do: 53 significant bits and, below 2^-1022,
    the fixed spacing 2^-1074 of the subnormal numbers.  A result beyond
    the largest double stands for infinity: it is above every [size_t]
    count, as infinity is. *)

(** floor (log2 x) of a positive rational. *)
Definition Qlog2 (x : Q) : Z :=
  if Qle_bool 1 x then Z.log2 (Qfloor x)
  else - Z.log2_up (Qceiling (/ x)).

(** The nearest integer, a tie going to the even one. *)
Definition round_half_even (x : Q) : Z :=
  let f := Qfloor x in
  match Qcompare (x - inject_Z f) (1 # 2) with
  | Lt => f
  | Gt => f + 1
  | Eq => if Z.even f then f else f + 1
  end.

(** The spacing of the doubles around a positive [x]. *)
Definition double_ulp (x : Q) : Q :=
  (2 ^ Z.max (Qlog2 x - 52) (-1074))%Q.

Definition double_round_pos (x : Q) : Q :=
  (inject_Z (round_half_even (x / double_ulp x)) * double_ulp x)%Q.

Definition double_round (x : Q) : Q :=
  match Qcompare x 0 with
  | Eq => 0%Q
  | Gt => double_round_pos x
  | Lt => (- double_round_pos (- x))%Q
  end.

(** The conversion of a [size_t] operand to [double]. *)
Definition double_of_size_t (z : Z) : Q := double_round (inject_Z z).

(** [x < t * min_maf] as line 330 computes it: both counts converted to
    [double], the product rounded, the comparison on doubles. *)
Definition below_maf (x t : Z) (maf : Q) : bool :=
  negb (Qle_bool (double_round (double_of_size_t t * maf))
                 (double_of_size_t x)).

(** ** Text and files *)

Definition tab : ascii := "009"%char.
Definition nl : ascii := "010"%char.

Definition bytes (s : string) : list ascii := list_ascii_of_string s.

(** [%ld] / [%d] of a counter. *)
Definition dec (z : Z) : list ascii :=
  bytes (NilZero.string_of_int (Z.to_int z)).

(** csp_fs_t: a file with its [is_tmp] mark and the bytes written so far. *)
Record csp_fs_t := {
  is_tmp : bool;
  data : list ascii
}.

Definition csp_fs_puts (s : list ascii) (f : csp_fs_t) : csp_fs_t :=
  {| is_tmp := is_tmp f; data := data f ++ s |}.

(** [csp_fs_getln]: the next line without its newline and the bytes after
    it; [None] at end of file. *)
Fixpoint read_line (s : list ascii) : list ascii * list ascii :=
  match s with
  | [] => ([], [])
  | c :: s' =>
      if Ascii.eqb c nl then ([], s')
      else let '(l, r) := read_line s' in (c :: l, r)
  end.

Definition csp_fs_getln (s : list ascii) : option (list ascii * list ascii) :=
  match s with
  | [] => None
  | _ => Some (read_line s)
  end.

(** The lines that successive [csp_fs_getln] calls return until end of
    file (see [file_lines_getln]). *)
Fixpoint file_lines (s : list ascii) : list (list ascii) :=
  match s with
  | [] => []
  | c :: s' =>
      if Ascii.eqb c nl then [] :: file_lines s'
      else match file_lines s' with
           | [] => [[c]]
           | l :: ls => (c :: l) :: ls
           end
  end.

Definition CSP_MTX_HEADER : list ascii :=
  bytes "%%MatrixMarket matrix coordinate integer general" ++ [nl]
  ++ bytes "%" ++ [nl].

(** Modelled from the spec: the macros [seq_nt16_char2int] and
    [seq_nt16_int2char] of cellsnp_util.h convert between a base letter
    and its slot in the order A, C, G, T, N. *)
Definition seq_nt16_char2int (c : ascii) : Z :=
  if Ascii.eqb c "A" || Ascii.eqb c "a" then 0
  else if Ascii.eqb c "C" || Ascii.eqb c "c" then 1
  else if Ascii.eqb c "G" || Ascii.eqb c "g" then 2
  else if Ascii.eqb c "T" || Ascii.eqb c "t" then 3
  else 4.

Definition seq_nt16_int2char (i : Z) : ascii :=
  nth (Z.to_nat i) ["A"; "C"; "G"; "T"; "N"]%char "N"%char.

(** Modelled from the spec: [csp_mplp_to_mtx] of cellsnp_util.h.  A final
    matrix has "one line per nonzero record:
    siteOrdinal<TAB>sampleOrdinal<TAB>count, 1-based ordinals ... samples
    in configured roster order"; a temporary fragment leaves the site
    ordinal to [merge_mtx], which prefixes it to every line, and closes
    each site with a blank line ("blank-line site boundaries"). *)
Fixpoint mtx_rows (sel : csp_plp_t -> Z) (tmp : bool) (idx i : Z)
    (h : list (string * csp_plp_t)) : list ascii :=
  match h with
  | [] => []
  | e :: rest =>
      (if sel (snd e) =? 0 then []
       else (if tmp then [] else dec idx ++ [tab])
            ++ dec i ++ [tab] ++ dec (sel (snd e)) ++ [nl])
      ++ mtx_rows sel tmp idx (i + 1) rest
  end.

Definition mtx_site (sel : csp_plp_t -> Z) (m : csp_mplp_t) (f : csp_fs_t)
    (idx : Z) : csp_fs_t :=
  csp_fs_puts (mtx_rows sel (is_tmp f) idx 1 (hsg m)
               ++ (if is_tmp f then [nl] else [])) f.

Definition csp_mplp_to_mtx (m : csp_mplp_t) (fs_ad fs_dp fs_oth : csp_fs_t)
    (idx : Z) : csp_fs_t * csp_fs_t * csp_fs_t :=
  (mtx_site ad m fs_ad idx, mtx_site dp m fs_dp idx, mtx_site oth m fs_oth idx).

(** A [size_t] counter as [%ld] prints it: the same 64 bits read as a
    [long]. *)
Definition to_long (z : Z) : Z :=
  let w := z mod 2 ^ 64 in
  if w <? 2 ^ 63 then w else w - 2 ^ 64.

(** The [ksprintf] of lines 580-581; AD, DP and OTH are printed with
    [%ld]. *)
Definition vcf_base_record (snp : csp_snp_t) (m : csp_mplp_t) : list ascii :=
  bytes (chr snp) ++ [tab] ++ dec (pos snp + 1) ++ [tab] ++ bytes "." ++ [tab]
  ++ [seq_nt16_int2char (ref_idx m)] ++ [tab]
  ++ [seq_nt16_int2char (alt_idx m)] ++ [tab] ++ bytes "." ++ [tab]
  ++ bytes "PASS" ++ [tab]
  ++ bytes "AD=" ++ dec (to_long (m_ad m)) ++ bytes ";DP=" ++ dec (to_long (m_dp m))
  ++ bytes ";OTH=" ++ dec (to_long (m_oth m)).

(** ** Read source *)

(** An opened input file.  [name2id] is [csp_sam_hdr_name2id] on its
    header; [itr_query tid beg end] is [sam_itr_queryi]: NULL, or the reads
    that [sam_itr_next] yields in order together with its final negative
    return value (-1 at the end of the region, below -1 on error). *)
Record csp_bam_fs := {
  name2id : string -> Z;
  itr_query : Z -> Z -> Z -> option (list bam1_t * Z)
}.

Definition set_b (p : csp_pileup_t) (r : bam1_t) : csp_pileup_t :=
  {| b := r; qpos := qpos p; base := base p; qual := qual p;
     is_refskip := is_refskip p; is_del := is_del p; umi := umi p; cb := cb p;
     laln := laln p |}.

Definition bam_init : bam1_t :=
  {| core_pos := 0; core_qual := 0; core_flag := 0; cigar := [];
     seqi := fun _ => 0; quals := fun _ => 0; aux := fun _ => None |}.

(** [csp_pileup_init]: a zeroed record around a fresh [bam1_t]. *)
Definition csp_pileup_init : csp_pileup_t :=
  {| b := bam_init; qpos := 0; base := 0; qual := 0; is_refskip := false;
     is_del := false; umi := None; cb := None; laln := 0 |}.

(** ** Worker bookkeeping *)

Record out_files := {
  out_mtx_ad : csp_fs_t;
  out_mtx_dp : csp_fs_t;
  out_mtx_oth : csp_fs_t;
  out_vcf_base : csp_fs_t;
  out_vcf_cells : csp_fs_t
}.

(** thread_data: the shard [n, n + m) of [gs->pl], its output files, and
    the tallies and running state it reports (prefix [d_]). *)
Record thread_data := {
  d_n : nat;
  d_m : nat;
  d_out : out_files;
  d_ns : Z;
  d_nr_ad : Z;
  d_nr_dp : Z;
  d_nr_oth : Z;
  d_ret : Z
}.

Definition thdata_init (n m : nat) (o : out_files) : thread_data :=
  {| d_n := n; d_m := m; d_out := o; d_ns := 0; d_nr_ad := 0;
     d_nr_dp := 0; d_nr_oth := 0; d_ret := -1 |}.

Definition set_ret (d : thread_data) (r : Z) : thread_data :=
  {| d_n := d_n d; d_m := d_m d; d_out := d_out d; d_ns := d_ns d;
     d_nr_ad := d_nr_ad d; d_nr_dp := d_nr_dp d; d_nr_oth := d_nr_oth d;
     d_ret := r |}.

(** ** Merging and rewriting *)

(** The body of the [while] loop of [merge_mtx] (lines 688-695); the state
    is [(k, m, out)]. *)
Definition merge_line (st : Z * Z * csp_fs_t) (ln : list ascii)
  : Z * Z * csp_fs_t :=
  let '(k, m, out) := st in
  match ln with
  | [] => (k + 1, m, out)
  | _ => (k, m + 1, csp_fs_puts (dec k ++ [tab] ++ ln ++ [nl]) out)
  end.

(** [merge_mtx]: the merged file, [*ns], [*nr] and [*ret]. *)
Definition merge_mtx (out : csp_fs_t) (ins : list csp_fs_t)
  : csp_fs_t * Z * Z * Z :=
  let '(k, m, out') :=
    fold_left (fun st f => fold_left merge_line (file_lines (data f)) st)
              ins (1, 0, out) in
  (out', k - 1, m, 0).

(** [merge_vcf]: byte-exact concatenation; the result and [*ret]. *)
Definition merge_vcf (out : csp_fs_t) (ins : list csp_fs_t) : csp_fs_t * Z :=
  (fold_left (fun o f => csp_fs_puts (data f) o) ins out, 0).

(** The first loop of [rewrite_mtx] (lines 762-765): copy the leading
    comment lines of [fs] to [new].  The result is the last line read
    ([None] when [csp_fs_getln] hit the end of the file), the unread rest
    of [fs], and [new].  Every call consumes at least one byte, so a fuel
    of one more than the length of the file is never exhausted. *)
Fixpoint skip_comments (fuel : nat) (fs new : list ascii)
  : option (list ascii) * list ascii * list ascii :=
  match fuel with
  | O => (None, fs, new)
  | S n =>
      match csp_fs_getln fs with
      | None => (None, fs, new)
      | Some (s, rest) =>
          match s with
          | c :: _ =>
              if Ascii.eqb c "%" then skip_comments n rest (new ++ s ++ [nl])
              else (Some s, rest, new)
          | [] => (Some s, rest, new)
          end
      end
  end.

Definition mtx_summary (ns nsmp nr : Z) : list ascii :=
  dec ns ++ [tab] ++ dec nsmp ++ [tab] ++ dec nr ++ [nl].

(** [rewrite_mtx]: 0 on success, 1 when the file has no record while
    [nr != 0]; the file is replaced only on success. *)
Definition rewrite_mtx (f : csp_fs_t) (ns nsmp nr : Z) : Z * csp_fs_t :=
  let '(ln, rest, new) := skip_comments (S (length (data f))) (data f) [] in
  let s := match ln with Some s => s | None => [] end in
  if bool_decide (s = []) && negb (nr =? 0) then (1, f)
  else
    let new1 := new ++ mtx_summary ns nsmp nr in
    let new2 := if negb (nr =? 0) then new1 ++ s ++ [nl] else new1 in
    (0, {| is_tmp := is_tmp f; data := new2 ++ rest |}).

(** [create_tmp_files]: [n] empty temporary files. *)
Definition create_tmp_files (n : nat) : list csp_fs_t :=
  repeat {| is_tmp := true; data := [] |} n.

Definition sumZ (l : list Z) : Z := fold_left Z.add l 0.

Definition set_out_ad (o : out_files) (f : csp_fs_t) : out_files :=
  {| out_mtx_ad := f; out_mtx_dp := out_mtx_dp o; out_mtx_oth := out_mtx_oth o;
     out_vcf_base := out_vcf_base o; out_vcf_cells := out_vcf_cells o |}.

Definition set_out_dp (o : out_files) (f : csp_fs_t) : out_files :=
  {| out_mtx_ad := out_mtx_ad o; out_mtx_dp := f; out_mtx_oth := out_mtx_oth o;
     out_vcf_base := out_vcf_base o; out_vcf_cells := out_vcf_cells o |}.

Definition set_out_oth (o : out_files) (f : csp_fs_t) : out_files :=
  {| out_mtx_ad := out_mtx_ad o; out_mtx_dp := out_mtx_dp o; out_mtx_oth := f;
     out_vcf_base := out_vcf_base o; out_vcf_cells := out_vcf_cells o |}.

Definition set_out_base (o : out_files) (f : csp_fs_t) : out_files :=
  {| out_mtx_ad := out_mtx_ad o; out_mtx_dp := out_mtx_dp o;
     out_mtx_oth := out_mtx_oth o;
     out_vcf_base := f; out_vcf_cells := out_vcf_cells o |}.

Definition set_out_cells (o : out_files) (f : csp_fs_t) : out_files :=
  {| out_mtx_ad := out_mtx_ad o; out_mtx_dp := out_mtx_dp o;
     out_mtx_oth := out_mtx_oth o;
     out_vcf_base := out_vcf_base o; out_vcf_cells := f |}.

(** One matrix of the merging stage (lines 878-882 and their two copies):
    write the summary line from the shard sums, merge, compare.  The
    boolean is [false] on [goto fail]. *)
Definition merge_one_mtx (final : csp_fs_t) (tmps : list csp_fs_t)
    (ns nsample nr : Z) : bool * csp_fs_t :=
  let f1 := csp_fs_puts (mtx_summary ns nsample nr) final in
  let '(f2, ns_merge, nr_merge, ret) := merge_mtx f1 tmps in
  if (ret <? 0) || negb (ns_merge =? ns) || negb (nr_merge =? nr)
  then (false, f2) else (true, f2).

(** Lines 873-906: the merging stage over the shard reports [ds]. *)
Definition merge_shards (gs : global_settings) (nsample : Z)
    (ds : list thread_data) (o : out_files) : Z * out_files :=
  let nr_ad := sumZ (map d_nr_ad ds) in
  let nr_dp := sumZ (map d_nr_dp ds) in
  let nr_oth := sumZ (map d_nr_oth ds) in
  let ns := sumZ (map d_ns ds) in
  let '(ok, f) :=
    merge_one_mtx (out_mtx_ad o) (map (fun d => out_mtx_ad (d_out d)) ds)
                  ns nsample nr_ad in
  let o1 := set_out_ad o f in
  if negb ok then (-1, o1) else
  let '(ok, f) :=
    merge_one_mtx (out_mtx_dp o1) (map (fun d => out_mtx_dp (d_out d)) ds)
                  ns nsample nr_dp in
  let o2 := set_out_dp o1 f in
  if negb ok then (-1, o2) else
  let '(ok, f) :=
    merge_one_mtx (out_mtx_oth o2) (map (fun d => out_mtx_oth (d_out d)) ds)
                  ns nsample nr_oth in
  let o3 := set_out_oth o2 f in
  if negb ok then (-1, o3) else
  let '(vb, ret) :=
    merge_vcf (out_vcf_base o3) (map (fun d => out_vcf_base (d_out d)) ds) in
  let o4 := set_out_base o3 vb in
  if ret <? 0 then (-1, o4) else
  if is_genotype gs then
    let '(vc, ret) :=
      merge_vcf (out_vcf_cells o4) (map (fun d => out_vcf_cells (d_out d)) ds) in
    let o5 := set_out_cells o4 vc in
    if ret <? 0 then (-1, o5) else (0, o5)
  else (0, o4).

(** ** Vocabulary for the statements *)

(** Reference bases, query bases and aligned bases consumed by one CIGAR
    operation and by a list of operations. *)
Definition op_ref_len (c : N) : Z :=
  if is_match_class (get_cigar_op c) || is_del_or_skip (get_cigar_op c)
  then get_cigar_len c else 0.

Definition op_qry_len (c : N) : Z :=
  if is_match_class (get_cigar_op c) || is_ins_or_clip (get_cigar_op c)
  then get_cigar_len c else 0.

Definition op_aln_len (c : N) : Z :=
  if is_match_class (get_cigar_op c) then get_cigar_len c else 0.

Definition ref_len (cig : list N) : Z :=
  fold_right (fun c acc => op_ref_len c + acc) 0 cig.

Definition qry_len (cig : list N) : Z :=
  fold_right (fun c acc => op_qry_len c + acc) 0 cig.

Definition aln_len (cig : list N) : Z :=
  fold_right (fun c acc => op_aln_len c + acc) 0 cig.

(** The group a push addresses: the roster position of the read's barcode
    in barcode mode, the source index in sample-ID mode. *)
Definition push_target (p : csp_pileup_t) (m : csp_mplp_t) (sid : Z)
    (gs : global_settings) : option nat :=
  if use_barcodes gs then
    match cb p with Some k => sg_get (hsg m) k | None => None end
  else if use_sid gs then Some (Z.to_nat sid) else None.

(** A sequence of pushes, each with its [sid] argument. *)
Definition push_all (gs : global_settings) (l : list (csp_pileup_t * Z))
    (m : csp_mplp_t) : csp_mplp_t :=
  fold_left (fun m e => snd (csp_mplp_push (fst e) m (snd e) gs)) l m.

(** The push outcomes as the specification names them. *)
Inductive PushOutcome := Counted | DuplicateUMI | UnknownGroup | Error.

(** What a push does, in the specification's terms. *)
Definition push_outcome (p : csp_pileup_t) (m : csp_mplp_t) (sid : Z)
    (gs : global_settings) : PushOutcome :=
  if use_barcodes gs || use_sid gs then
    match push_target p m sid gs with
    | None => UnknownGroup
    | Some i =>
        match umi_tag gs, umi p, hsg m !! i with
        | Some _, Some u, Some (_, g) =>
            if bool_decide (u ∈ hug g) then DuplicateUMI else Counted
        | _, _, _ => Counted
        end
    end
  else Error.

(** The observation a push records, if any: the roster position of the
    group that counts the read and the slot of the read's base.  A push
    records nothing when it addresses no group or when, under UMI
    grouping, the group has already seen the read's UMI. *)
Definition push_records (p : csp_pileup_t) (m : csp_mplp_t) (sid : Z)
    (gs : global_settings) : option (nat * Z) :=
  match push_target p m sid gs with
  | Some i =>
      match hsg m !! i with
      | Some (_, g) =>
          if use_umi gs then
            match umi p with
            | Some u =>
                if bool_decide (u ∈ hug g) then None
                else Some (i, seq_nt16_idx2int (base p))
            | None => None
            end
          else Some (i, seq_nt16_idx2int (base p))
      | None => None
      end
  | None => None
  end.

(** The observations that a sequence of pushes records, in push order. *)
Fixpoint recorded (gs : global_settings) (l : list (csp_pileup_t * Z))
    (m : csp_mplp_t) : list (nat * Z) :=
  match l with
  | [] => []
  | e :: rest =>
      option_list (push_records (fst e) m (snd e) gs)
      ++ recorded gs rest (snd (csp_mplp_push (fst e) m (snd e) gs))
  end.

(** How many of the observations [os] satisfy [P]. *)
Definition count_obs (P : nat * Z -> bool) (os : list (nat * Z)) : Z :=
  Z.of_nat (length (List.filter P os)).

(** Number of quality values a group retains. *)
Definition retained (g : csp_plp_t) : Z := Z.of_nat (length (concat (qu g))).

(** A group between reset and the summing step: five count slots and five
    quality lists, every retained observation counted once, and a total
    that is still zero. *)
Definition plp_pending (g : csp_plp_t) : Prop :=
  length (bc g) = 5%nat /\ length (qu g) = 5%nat /\ tc g = 0
  /\ sumZ (bc g) = retained g.

(** A table between reset and the summing step. *)
Definition mplp_pending (m : csp_mplp_t) : Prop :=
  m_bc m = [0; 0; 0; 0; 0] /\ m_tc m = 0
  /\ Forall (fun e => plp_pending (snd e)) (hsg m)
  /\ nr_ad m = 0 /\ nr_dp m = 0 /\ nr_oth m = 0.

(** Groups with a nonzero value of the counter [sel]. *)
Definition nonzero (sel : csp_plp_t -> Z) (h : list (string * csp_plp_t)) : Z :=
  Z.of_nat (length (List.filter (fun e => negb (sel (snd e) =? 0)) h)).

(** The settings with other statistical thresholds. *)
Definition set_thresholds (gs : global_settings) (c : Z) (f : Q)
  : global_settings :=
  {| pl := pl gs; barcodes := barcodes gs; sample_ids := sample_ids gs;
     cell_tag := cell_tag gs; umi_tag := umi_tag gs; nthread := nthread gs;
     tp := tp gs; is_genotype := is_genotype gs; double_gl := double_gl gs;
     min_count := c; min_maf := f; min_len := min_len gs;
     min_mapq := min_mapq gs; max_flag := max_flag gs |}.

(** The settings with another number of workers. *)
Definition set_workers (gs : global_settings) (n : Z) (pool : bool)
  : global_settings :=
  {| pl := pl gs; barcodes := barcodes gs; sample_ids := sample_ids gs;
     cell_tag := cell_tag gs; umi_tag := umi_tag gs; nthread := n;
     tp := pool; is_genotype := is_genotype gs; double_gl := double_gl gs;
     min_count := min_count gs; min_maf := min_maf gs; min_len := min_len gs;
     min_mapq := min_mapq gs; max_flag := max_flag gs |}.

(** ** Example inputs *)

(** Bulk settings: one sample ID per input file, no UMI, thresholds
    [c] and [f]. *)
Definition ex_gs_bulk (ids : list string) (c : Z) (f : Q) : global_settings :=
  {| pl := []; barcodes := []; sample_ids := Some ids; cell_tag := None;
     umi_tag := None; nthread := 1; tp := false; is_genotype := false;
     double_gl := 0; min_count := c; min_maf := f; min_len := 0;
     min_mapq := 0; max_flag := 255 |}.

(** One group holding A:10, C:1, G:5 before the summing step, with the
    SNP list supplying ref = A (0) and alt = C (1). *)
Definition ex_maf_mplp : csp_mplp_t :=
  set_ref_alt
    (set_hsg (mplp_of_roster ["S0"%string])
       [("S0"%string,
         {| bc := [10; 1; 5; 0; 0]; tc := 0; ad := 0; dp := 0; oth := 0;
            qu := [[]; []; []; []; []]; hug := ∅ |})])
    0 1.

(** Two pileup records agree on what a push reads. *)
Definition pagree (gs : global_settings) (p q : csp_pileup_t) : Prop :=
  (use_umi gs = true -> umi p = umi q)
  /\ (use_barcodes gs = true -> cb p = cb q)
  /\ base p = base q /\ qual p = qual q.

(** A byte that can stand inside a matrix line: not a newline, and not the
    comment mark. *)
Definition line_char (c : ascii) : Prop := c <> nl /\ c <> "%"%char.

(** Blank and non-blank lines over a list of fragments. *)
Definition blank_lines (frs : list csp_fs_t) : Z :=
  sumZ (map (fun f => Z.of_nat (length (List.filter
                        (fun l => bool_decide (l = [])) (file_lines (data f)))))
            frs).

Definition record_lines (frs : list csp_fs_t) : Z :=
  sumZ (map (fun f => Z.of_nat (length (List.filter
                        (fun l => negb (bool_decide (l = [])))
                        (file_lines (data f)))))
            frs).

(** A read starting at [start] with CIGAR [cig], the same base code and
    quality at every query offset, and the tags UR = [u] and CB = [c]. *)
Definition ex_read (start : Z) (cig : list N) (code q : Z)
    (u c : option string) : bam1_t :=
  {| core_pos := start; core_qual := 60; core_flag := 0; cigar := cig;
     seqi := fun _ => code; quals := fun _ => q;
     aux := fun k => if String.eqb k "UR" then u
                     else if String.eqb k "CB" then c else None |}.

(** An input file that knows the chromosome [chrom] only and yields
    [reads beg] for a region starting at [beg]. *)
Definition ex_source (chrom : string) (reads : Z -> list bam1_t) : csp_bam_fs :=
  {| name2id := fun c => if String.eqb c chrom then 0 else -1;
     itr_query := fun _ beg _ => Some (reads beg, -1) |}.

Definition ex_snp (c : string) (p : Z) : csp_snp_t :=
  {| chr := c; pos := p; ref := "000"%char; alt := "000"%char |}.

(** A genotyping back end that never fails and prints nothing. *)
Definition ex_genotype : Z -> Z -> Z -> csp_plp_t -> bool :=
  fun _ _ _ _ => true.

Definition ex_to_vcf : Z -> csp_mplp_t -> list ascii := fun _ _ => [].

(** 5M 2D 10M from position 100: the words 5*16+0, 2*16+2, 10*16+0. *)
Definition ex_cigar : list N := [80; 34; 160]%N.

Definition ex_pileup : csp_pileup_t :=
  set_b csp_pileup_init (ex_read 100 ex_cigar 2 30 None None).

(** Bulk settings with UMI grouping. *)
Definition ex_gs_umi : global_settings :=
  {| pl := []; barcodes := []; sample_ids := Some ["S0"%string];
     cell_tag := None; umi_tag := Some "UR"%string; nthread := 1; tp := false;
     is_genotype := false; double_gl := 0; min_count := 1; min_maf := 0;
     min_len := 0; min_mapq := 0; max_flag := 255 |}.

(** A resolved read with UMI [u] and base code [code]. *)
Definition ex_umi_pileup (u : string) (code : Z) : csp_pileup_t :=
  {| b := ex_read 100 ex_cigar code 30 (Some u) None; qpos := 6; base := code;
     qual := 30; is_refskip := false; is_del := false; umi := Some u;
     cb := None; laln := 15 |}.

(** Two input files for chromosome "1" at position 108: the first lacks
    the chromosome, the second holds one read showing a C. *)
Definition ex_missing : csp_bam_fs := ex_source "2" (fun _ => []).

Definition ex_good : csp_bam_fs :=
  ex_source "1" (fun _ => [ex_read 100 ex_cigar 2 30 None None]).

(** An input file for chromosome "1" without reads. *)
Definition ex_empty : csp_bam_fs := ex_source "1" (fun _ => []).

(** A shard report whose AD fragment holds two records of one site while
    the worker reported one record. *)
Definition ex_report : thread_data :=
  {| d_n := 0; d_m := 1;
     d_out :=
       {| out_mtx_ad :=
            {| is_tmp := true;
               data := dec 1 ++ [tab] ++ dec 3 ++ [nl]
                       ++ dec 2 ++ [tab] ++ dec 4 ++ [nl] ++ [nl] |};
          out_mtx_dp := {| is_tmp := true; data := [] |};
          out_mtx_oth := {| is_tmp := true; data := [] |};
          out_vcf_base := {| is_tmp := true; data := [] |};
          out_vcf_cells := {| is_tmp := true; data := [] |} |};
     d_ns := 1; d_nr_ad := 1; d_nr_dp := 0; d_nr_oth := 0; d_ret := 0 |}.

(** A run over five SNPs of chromosome "1" and two bulk samples; the
    files hold, per position, reads showing the bases below. *)
Definition ex_run_reads (code1 code2 : Z) (beg : Z) : list bam1_t :=
  if beg =? 103 then []
  else [ex_read 100 ex_cigar code1 30 None None;
        ex_read 100 ex_cigar code2 30 None None;
        ex_read 100 ex_cigar code1 30 None None].

Definition ex_run_fs : list csp_bam_fs :=
  [ex_source "1" (ex_run_reads 1 2); ex_source "1" (ex_run_reads 1 1)].

Definition ex_run_gs : global_settings :=
  {| pl := [ex_snp "1" 108; ex_snp "1" 103; ex_snp "1" 109; ex_snp "1" 110;
            ex_snp "1" 111];
     barcodes := []; sample_ids := Some ["S0"%string; "S1"%string];
     cell_tag := None; umi_tag := None; nthread := 1; tp := false;
     is_genotype := false; double_gl := 0; min_count := 2; min_maf := 0;
     min_len := 0; min_mapq := 0; max_flag := 255 |}.

(** ** Vocabulary for the statements on reads and tables *)

(** The read [r] carries every tag the settings ask for. *)
Definition has_tags (gs : global_settings) (r : bam1_t) : Prop :=
  (forall k, umi_tag gs = Some k -> is_Some (aux r k))
  /\ (forall k, cell_tag gs = Some k -> is_Some (aux r k)).

(** The alignment of [r] spans the reference position [t]. *)
Definition covers (r : bam1_t) (t : Z) : Prop :=
  core_pos r <= t < core_pos r + ref_len (cigar r).

(** Bases counted in a table, over all groups. *)
Definition table_total (m : csp_mplp_t) : Z :=
  sumZ (map (fun e => sumZ (bc (snd e))) (hsg m)).

(** Every count slot of a group holds the number of quality values kept
    for it. *)
Definition plp_counted (g : csp_plp_t) : Prop :=
  length (bc g) = 5%nat /\ length (qu g) = 5%nat
  /\ forall j, (j < 5)%nat ->
       nth j (bc g) 0 = Z.of_nat (length (nth j (qu g) [])).

(** ** Vocabulary for the statements on files *)

(** A line of text: no newline inside. *)
Definition one_line (l : list ascii) : Prop := Forall (fun c => c <> nl) l.

(** The text of the lines [ls], each closed by a newline. *)
Definition lines_text (ls : list (list ascii)) : list ascii :=
  concat (map (fun l => l ++ [nl]) ls).

(** A matrix fragment of a worker: for every site its rows, then a blank
    line. *)
Definition frag_text (sites : list (list (list ascii))) : list ascii :=
  concat (map (fun rows => lines_text rows ++ [nl]) sites).

(** The rows of the sites [sites], each row prefixed with the ordinal of
    its site, the first site being number [k]. *)
Fixpoint numbered (k : Z) (sites : list (list (list ascii))) : list ascii :=
  match sites with
  | [] => []
  | rows :: rest =>
      lines_text (map (fun l => dec k ++ [tab] ++ l) rows)
      ++ numbered (k + 1) rest
  end.

(** A row of a fragment: a non-empty line. *)
Definition is_row (l : list ascii) : Prop := l <> [] /\ one_line l.

(** A comment line of a matrix file: it starts with the comment mark. *)
Definition is_comment (l : list ascii) : Prop :=
  one_line l /\ exists l', l = "%"%char :: l'.

(** ** Further example inputs *)

(** An input file for chromosome "1" whose iterator breaks at position
    110 and elsewhere yields the reads of [ex_run_reads 1 2]. *)
Definition ex_broken : csp_bam_fs :=
  {| name2id := fun c => if String.eqb c "1" then 0 else -1;
     itr_query := fun _ beg _ =>
       if beg =? 110 then Some ([], -2) else Some (ex_run_reads 1 2 beg, -1) |}.

(** One bulk sample over three SNPs, the second of which hits the broken
    iterator. *)
Definition ex_fail_gs : global_settings :=
  {| pl := [ex_snp "1" 108; ex_snp "1" 110; ex_snp "1" 111];
     barcodes := []; sample_ids := Some ["S0"%string];
     cell_tag := None; umi_tag := None; nthread := 1; tp := false;
     is_genotype := false; double_gl := 0; min_count := 2; min_maf := 0;
     min_len := 0; min_mapq := 0; max_flag := 255 |}.

(** Three pushes into the group of sample 0: C, G, C. *)
Definition ex_pushes : list (csp_pileup_t * Z) :=
  [(ex_umi_pileup "U1" 2, 0); (ex_umi_pileup "U2" 4, 0);
   (ex_umi_pileup "U3" 2, 0)].

(** Two fragments: a site with one row and a site without rows; then a
    site with two rows. *)
Definition ex_frags : list (list (list (list ascii))) :=
  [[[dec 1 ++ [tab] ++ dec 3]; []];
   [[dec 2 ++ [tab] ++ dec 1; dec 3 ++ [tab] ++ dec 4]]].

(** The comment lines of [CSP_MTX_HEADER]. *)
Definition ex_mtx_comments : list (list ascii) :=
  [bytes "%%MatrixMarket matrix coordinate integer general"; bytes "%"].

(** The double nearest to 0.1, and one group holding A:9, C:1 before the
    summing step, the SNP list supplying no ref/alt. *)
Definition ex_tenth : Q := 3602879701896397 # 36028797018963968.

Definition ex_tenth_mplp : csp_mplp_t :=
  set_hsg (mplp_of_roster ["S0"%string])
    [("S0"%string,
      {| bc := [9; 1; 0; 0; 0]; tc := 0; ad := 0; dp := 0; oth := 0;
         qu := [[]; []; []; []; []]; hug := ∅ |})].
(** ** Command-line settings: gll_set_default and check_global_args *)

(** What [check_global_args] asks of the system: [hts_readlines] gives the
    lines of a file or fails (NULL); [access] and [mkdir] hold when the
    C call returns 0. *)
Record sys_env := {
  hts_readlines : string -> option (list string);
  access : string -> bool;
  mkdir : string -> bool
}.

(** [csp_cmp_barcodes]: [strcmp] on the two strings, as a sign. *)
Definition csp_cmp_barcodes (x y : string) : Z :=
  match String.compare x y with
  | Lt => -1
  | Eq => 0
  | Gt => 1
  end.

(** [qsort] with the comparison [cmp].  For a comparison that is a total
    order and answers 0 on equal elements only, the sorted arrangement is
    the same whatever the algorithm (see [qsort_barcodes_sorted]); the
    model computes it by insertion. *)
Fixpoint qsort_insert (cmp : string -> string -> Z) (x : string)
    (l : list string) : list string :=
  match l with
  | [] => [x]
  | y :: l' =>
      if cmp x y <=? 0 then x :: l else y :: qsort_insert cmp x l'
  end.

Definition qsort (cmp : string -> string -> Z) (l : list string)
  : list string :=
  fold_right (qsort_insert cmp) [] l.

(** The order of [strcmp]. *)
Definition str_le (x y : string) : Prop := csp_cmp_barcodes x y <= 0.

Module Cli.

(** struct _gll_settings, as far as the options go: the output handles,
    the SNP list and the thread pool are set up after the check.  A NULL
    pointer is [None]; the counters [nin], [nbarcode], [nsid] and [nchrom]
    are the lengths of their arrays. *)
Record gll_settings := {
  in_fn_file : option string;
  in_fns : option (list string);
  out_dir : option string;
  is_out_zip : bool;
  is_genotype : bool;
  pos_list_file : option string;
  barcode_file : option string;
  barcodes : option (list string);
  sid_list_file : option string;
  sample_ids : option (list string);
  chrom_all : option (list string);
  cell_tag : option string;
  umi_tag : option string;
  nthread : Z;
  min_count : Z;
  min_maf : Q;
  double_gl : Z;
  min_len : Z;
  min_mapq : Z;
  max_flag : Z
}.

Definition nin (gs : gll_settings) : nat :=
  match in_fns gs with Some l => length l | None => O end.

Definition nsid (gs : gll_settings) : nat :=
  match sample_ids gs with Some l => length l | None => O end.

Definition set_in_fns (gs : gll_settings) (v : option (list string))
  : gll_settings :=
  {| in_fn_file := in_fn_file gs; in_fns := v; out_dir := out_dir gs;
     is_out_zip := is_out_zip gs; is_genotype := is_genotype gs;
     pos_list_file := pos_list_file gs; barcode_file := barcode_file gs;
     barcodes := barcodes gs; sid_list_file := sid_list_file gs;
     sample_ids := sample_ids gs; chrom_all := chrom_all gs;
     cell_tag := cell_tag gs; umi_tag := umi_tag gs; nthread := nthread gs;
     min_count := min_count gs; min_maf := min_maf gs;
     double_gl := double_gl gs; min_len := min_len gs;
     min_mapq := min_mapq gs; max_flag := max_flag gs |}.

Definition set_barcodes (gs : gll_settings) (v : option (list string))
  : gll_settings :=
  {| in_fn_file := in_fn_file gs; in_fns := in_fns gs; out_dir := out_dir gs;
     is_out_zip := is_out_zip gs; is_genotype := is_genotype gs;
     pos_list_file := pos_list_file gs; barcode_file := barcode_file gs;
     barcodes := v; sid_list_file := sid_list_file gs;
     sample_ids := sample_ids gs; chrom_all := chrom_all gs;
     cell_tag := cell_tag gs; umi_tag := umi_tag gs; nthread := nthread gs;
     min_count := min_count gs; min_maf := min_maf gs;
     double_gl := double_gl gs; min_len := min_len gs;
     min_mapq := min_mapq gs; max_flag := max_flag gs |}.

Definition set_sample_ids (gs : gll_settings) (v : option (list string))
  : gll_settings :=
  {| in_fn_file := in_fn_file gs; in_fns := in_fns gs; out_dir := out_dir gs;
     is_out_zip := is_out_zip gs; is_genotype := is_genotype gs;
     pos_list_file := pos_list_file gs; barcode_file := barcode_file gs;
     barcodes := barcodes gs; sid_list_file := sid_list_file gs;
     sample_ids := v; chrom_all := chrom_all gs;
     cell_tag := cell_tag gs; umi_tag := umi_tag gs; nthread := nthread gs;
     min_count := min_count gs; min_maf := min_maf gs;
     double_gl := double_gl gs; min_len := min_len gs;
     min_mapq := min_mapq gs; max_flag := max_flag gs |}.

Definition set_cell_tag (gs : gll_settings) (v : option string)
  : gll_settings :=
  {| in_fn_file := in_fn_file gs; in_fns := in_fns gs; out_dir := out_dir gs;
     is_out_zip := is_out_zip gs; is_genotype := is_genotype gs;
     pos_list_file := pos_list_file gs; barcode_file := barcode_file gs;
     barcodes := barcodes gs; sid_list_file := sid_list_file gs;
     sample_ids := sample_ids gs; chrom_all := chrom_all gs;
     cell_tag := v; umi_tag := umi_tag gs; nthread := nthread gs;
     min_count := min_count gs; min_maf := min_maf gs;
     double_gl := double_gl gs; min_len := min_len gs;
     min_mapq := min_mapq gs; max_flag := max_flag gs |}.

Definition set_umi_tag (gs : gll_settings) (v : option string)
  : gll_settings :=
  {| in_fn_file := in_fn_file gs; in_fns := in_fns gs; out_dir := out_dir gs;
     is_out_zip := is_out_zip gs; is_genotype := is_genotype gs;
     pos_list_file := pos_list_file gs; barcode_file := barcode_file gs;
     barcodes := barcodes gs; sid_list_file := sid_list_file gs;
     sample_ids := sample_ids gs; chrom_all := chrom_all gs;
     cell_tag := cell_tag gs; umi_tag := v; nthread := nthread gs;
     min_count := min_count gs; min_maf := min_maf gs;
     double_gl := double_gl gs; min_len := min_len gs;
     min_mapq := min_mapq gs; max_flag := max_flag gs |}.

Definition set_regions (gs : gll_settings) (f : option string)
    (c : option (list string)) : gll_settings :=
  {| in_fn_file := in_fn_file gs; in_fns := in_fns gs; out_dir := out_dir gs;
     is_out_zip := is_out_zip gs; is_genotype := is_genotype gs;
     pos_list_file := f; barcode_file := barcode_file gs;
     barcodes := barcodes gs; sid_list_file := sid_list_file gs;
     sample_ids := sample_ids gs; chrom_all := c;
     cell_tag := cell_tag gs; umi_tag := umi_tag gs; nthread := nthread gs;
     min_count := min_count gs; min_maf := min_maf gs;
     double_gl := double_gl gs; min_len := min_len gs;
     min_mapq := min_mapq gs; max_flag := max_flag gs |}.

Definition CSP_CHROM_ALL : list string :=
  ["1"; "2"; "3"; "4"; "5"; "6"; "7"; "8"; "9"; "10"; "11"; "12"; "13";
   "14"; "15"; "16"; "17"; "18"; "19"; "20"; "21"; "22"]%string.

(** [gll_set_default] (lines 130-150). *)
Definition gll_set_default : gll_settings :=
  {| in_fn_file := None; in_fns := None; out_dir := None;
     is_out_zip := false; is_genotype := false;
     pos_list_file := None; barcode_file := None; barcodes := None;
     sid_list_file := None; sample_ids := None;
     chrom_all := Some CSP_CHROM_ALL;
     cell_tag := Some "CB"%string; umi_tag := Some "UR"%string;
     nthread := 1; min_count := 20; min_maf := 0; double_gl := 0;
     min_len := 30; min_mapq := 20; max_flag := 255 |}.

(** The state of [check_global_args] between two of its stages: the
    settings so far ([Go]), a [return] with its code ([Ret]), or a store
    through a NULL pointer ([Fault]). *)
Inductive checked :=
| Go (gs : gll_settings)
| Ret (code : Z) (gs : gll_settings)
| Fault.

Definition and_then (c : checked) (f : gll_settings -> checked) : checked :=
  match c with
  | Go gs => f gs
  | Ret code gs => Ret code gs
  | Fault => Fault
  end.

(** [strcmp(s, "None") == 0 || strcmp(s, "none") == 0]. *)
Definition is_none_word (s : string) : bool :=
  String.eqb s "None" || String.eqb s "none".

Definition is_set {A} (o : option A) : bool :=
  match o with Some _ => true | None => false end.

(** Lines 1087-1098: the input files. *)
Definition check_in_fns (env : sys_env) (gs : gll_settings) : checked :=
  match in_fn_file gs with
  | Some f =>
      match in_fns gs with
      | Some _ => Ret (-1) gs
      | None =>
          match hts_readlines env f with
          | None => Ret (-2) gs
          | Some l =>
              if (length l =? 0)%nat then Ret (-2) (set_in_fns gs (Some l))
              else Go (set_in_fns gs (Some l))
          end
      end
  | None =>
      match in_fns gs with
      | None => Ret (-1) gs
      | Some _ => Go gs
      end
  end.

(** Lines 1099-1101: every input file exists. *)
Definition check_in_exist (env : sys_env) (gs : gll_settings) : checked :=
  match in_fns gs with
  | Some l => if forallb (access env) l then Go gs else Ret (-2) gs
  | None => Go gs
  end.

(** Lines 1102-1107: the output directory exists or can be made. *)
Definition check_out_dir (env : sys_env) (gs : gll_settings) : checked :=
  match out_dir gs with
  | Some d =>
      if negb (access env d) && negb (mkdir env d) then Ret (-2) gs
      else Go gs
  | None => Ret (-1) gs
  end.

(** Lines 1113-1119: a cell tag "None" is no cell tag; sample IDs rule
    out a barcode file and switch the cell tag off. *)
Definition check_cell_tag (gs : gll_settings) : checked :=
  let gs1 :=
    match cell_tag gs with
    | Some t => if is_none_word t then set_cell_tag gs None else gs
    | None => gs
    end in
  if is_set (sample_ids gs1) || is_set (sid_list_file gs1) then
    if is_set (barcode_file gs1) then Ret (-1) gs1
    else Go (set_cell_tag gs1 None)
  else Go gs1.

(** Lines 1132-1148: the sample IDs when no barcodes are used. *)
Definition check_sample_ids (env : sys_env) (gs : gll_settings) : checked :=
  let finish gs' :=
    if negb (nin gs' =? nsid gs')%nat then Ret (-2) gs' else Go gs' in
  match sample_ids gs with
  | None =>
      match sid_list_file gs with
      | None =>
          (* gs->sample_ids[i] = ... with gs->sample_ids == NULL *)
          if (nin gs =? 0)%nat then finish gs else Fault
      | Some f =>
          match hts_readlines env f with
          | None => Ret (-2) gs
          | Some l => finish (set_sample_ids gs (Some l))
          end
      end
  | Some _ =>
      if is_set (sid_list_file gs) then Ret (-1) gs else finish gs
  end.

(** Lines 1120-1149: barcodes or sample IDs. *)
Definition check_grouping (env : sys_env) (gs : gll_settings) : checked :=
  match cell_tag gs, barcode_file gs with
  | Some _, Some f =>
      if is_set (sample_ids gs) || is_set (sid_list_file gs) then Ret (-1) gs
      else match hts_readlines env f with
           | None => Ret (-2) (set_barcodes gs None)
           | Some l => Go (set_barcodes gs (Some (qsort csp_cmp_barcodes l)))
           end
  | Some _, None => Ret (-1) gs
  | None, Some _ => Ret (-1) gs
  | None, None => check_sample_ids env gs
  end.

(** Lines 1153-1156: a SNP list or chromosomes. *)
Definition check_regions (gs : gll_settings) : checked :=
  let no_list :=
    match pos_list_file gs with
    | Some f => is_none_word f
    | None => true
    end in
  if no_list then
    match chrom_all gs with
    | None => Ret (-1) gs
    | Some c => Go (set_regions gs None (Some c))
    end
  else Go (set_regions gs (pos_list_file gs) None).

(** Lines 1157-1162: the UMI tag. *)
Definition check_umi_tag (gs : gll_settings) : checked :=
  match umi_tag gs with
  | Some t =>
      if String.eqb t "Auto" then
        Go (set_umi_tag gs (if is_set (barcodes gs) then Some "UR"%string
                            else None))
      else if is_none_word t then Go (set_umi_tag gs None)
      else Go gs
  | None => Go gs
  end.

Definition check_stages (env : sys_env) (gs : gll_settings) : checked :=
  and_then (and_then (and_then (and_then (and_then (and_then
    (check_in_fns env gs) (check_in_exist env)) (check_out_dir env))
    check_cell_tag) (check_grouping env)) check_regions) check_umi_tag.

(** [check_global_args]: the return code with the settings as the call
    leaves them; [None] when it stores through a NULL pointer. *)
Definition check_global_args (env : sys_env) (gs : gll_settings)
  : option (Z * gll_settings) :=
  match check_stages env gs with
  | Go gs' => Some (0, gs')
  | Ret code gs' => Some (code, gs')
  | Fault => None
  end.

End Cli.

(** ** Example settings *)

(** A system with the barcode file "bc.tsv" (three barcodes, unsorted)
    and the sample list "ids.tsv", where every path exists. *)
Definition ex_env : sys_env :=
  {| hts_readlines := fun f =>
       if String.eqb f "bc.tsv" then Some ["TTG"; "AAC"; "CCA"]%string
       else if String.eqb f "ids.tsv" then Some ["S0"; "S1"]%string
       else None;
     access := fun _ => true;
     mkdir := fun _ => true |}.

(** The settings after the options [-s fns -O out -R snps.vcf], a barcode
    file [bf], a sample list [sf] and a cell tag [ct], over the defaults. *)
Definition ex_cli (bf sf ct : option string) (fns : list string)
  : Cli.gll_settings :=
  {| Cli.in_fn_file := None; Cli.in_fns := Some fns;
     Cli.out_dir := Some "out"%string;
     Cli.is_out_zip := false; Cli.is_genotype := false;
     Cli.pos_list_file := Some "snps.vcf"%string;
     Cli.barcode_file := bf; Cli.barcodes := None;
     Cli.sid_list_file := sf; Cli.sample_ids := None;
     Cli.chrom_all := Some Cli.CSP_CHROM_ALL;
     Cli.cell_tag := ct; Cli.umi_tag := Some "UR"%string;
     Cli.nthread := 1; Cli.min_count := 20; Cli.min_maf := 0;
     Cli.double_gl := 0; Cli.min_len := 30; Cli.min_mapq := 20;
     Cli.max_flag := 255 |}.

(** [-s a.bam -O out -R snps.vcf -b bc.tsv]. *)
Definition ex_cli_barcodes : Cli.gll_settings :=
  ex_cli (Some "bc.tsv"%string) None (Some "CB"%string) ["a.bam"%string].

(** [-s a.bam,b.bam -O out -R snps.vcf -i ids.tsv]. *)
Definition ex_cli_bulk : Cli.gll_settings :=
  ex_cli None (Some "ids.tsv"%string) (Some "CB"%string)
         ["a.bam"; "b.bam"]%string.

(** [-s a.bam -O out -R snps.vcf --cellTAG None]. *)
Definition ex_cli_bare : Cli.gll_settings :=
  ex_cli None None (Some "None"%string) ["a.bam"%string].

(** [-s a.bam -O out -b bc.tsv]: no SNP list, the default chromosomes. *)
Definition ex_cli_chroms : Cli.gll_settings :=
  Cli.set_regions ex_cli_barcodes None (Some Cli.CSP_CHROM_ALL).

(** ** The system as the run sees it *)

(** What the run asks of the system: [get_snplist] loads the SNPs of a
    list file ([None]: the call fails); [csp_bam_fs_build] opens an input
    file. *)
Record run_env := {
  get_snplist : string -> option (list csp_snp_t);
  csp_bam_fs_build : string -> csp_bam_fs
}.

(** A system whose SNP lists hold the one SNP 1:108 and whose alignment
    files all hold the reads of [ex_good]. *)
Definition ex_renv : run_env :=
  {| get_snplist := fun _ => Some [ex_snp "1" 108];
     csp_bam_fs_build := fun _ => ex_good |}.
(** ** The engine, over the genotyping back end *)

Section Engine.

(** The genotype-likelihood code works on [double]s and lives in
    cellsnp_util.h ([get_qual_vector], [qual_matrix_to_geno],
    [csp_mplp_to_vcf]).  What the engine needs of it:
    - [plp_genotype double_gl ref_idx alt_idx plp] is [true] when lines
      342-348 run through for the group [plp], [false] when one of the two
      helpers returns a negative value;
    - [csp_mplp_to_vcf double_gl mplp] is the per-sample text appended to
      a record of the cells VCF. *)
Variable plp_genotype : Z -> Z -> Z -> csp_plp_t -> bool.
Variable csp_mplp_to_vcf : Z -> csp_mplp_t -> list ascii.

(** The loop of lines 336-350.  [nr] is [(nr_ad, nr_dp, nr_oth)]; the
    boolean is [false] when the loop left through [return -1]. *)
Fixpoint stat_groups (gs : global_settings) (r a : Z)
    (h : list (string * csp_plp_t)) (nr : Z * Z * Z)
  : bool * list (string * csp_plp_t) * (Z * Z * Z) :=
  match h with
  | [] => (true, [], nr)
  | (name, g) :: rest =>
      let '(na, nd, no) := nr in
      let adv := arr_get (bc g) a in
      let dpv := arr_get (bc g) r + adv in
      let othv := to_size_t (tc g - dpv) in
      let g' := set_adp g adv dpv othv in
      let nr' := (if adv =? 0 then na else na + 1,
                  if dpv =? 0 then nd else nd + 1,
                  if othv =? 0 then no else no + 1) in
      if is_genotype gs && negb (plp_genotype (double_gl gs) r a g')
      then (false, (name, g') :: rest, nr')
      else let '(ok, rest', nr'') := stat_groups gs r a rest nr' in
           (ok, (name, g') :: rest', nr'')
  end.

(** [csp_mplp_stat]: 0 success, -1 error, 1 not passing filters. *)
Definition csp_mplp_stat (m : csp_mplp_t) (gs : global_settings)
  : Z * csp_mplp_t :=
  let m1 := csp_mplp_sum m in
  if m_tc m1 <? to_size_t (min_count gs) then (1, m1) else
  let '(r, a) := csp_infer_allele (m_bc m1) in
  let m2 := set_inf m1 r a in
  if below_maf (arr_get (m_bc m2) (inf_aid m2)) (m_tc m2) (min_maf gs)
  then (1, m2) else
  let m3 := if (ref_idx m2 <? 0) || (alt_idx m2 <? 0)
            then set_ref_alt m2 (inf_rid m2) (inf_aid m2) else m2 in
  let adv := arr_get (m_bc m3) (alt_idx m3) in
  let dpv := arr_get (m_bc m3) (ref_idx m3) + adv in
  let m4 := set_m_adp m3 adv dpv (to_size_t (m_tc m3 - dpv)) in
  let '(ok, h, (na, nd, no)) :=
    stat_groups gs (ref_idx m4) (alt_idx m4) (hsg m4)
                (nr_ad m4, nr_dp m4, nr_oth m4) in
  (if ok then 0 else -1, set_groups m4 h na nd no).

(** ** SiteDriver: pileup_snp_with_fetch *)

(** The [while] loop of lines 445-456 over the reads of source [i].  The
    boolean is [false] on [goto fail] (always with state -1); [None] is a
    failed assertion inside the resolver. *)
Fixpoint pileup_reads (gs : global_settings) (spos i : Z) (rs : list bam1_t)
    (p : csp_pileup_t) (m : csp_mplp_t) (npushed : Z)
  : option (bool * csp_pileup_t * csp_mplp_t * Z) :=
  match rs with
  | [] => Some (true, p, m, npushed)
  | r :: rest =>
      match pileup_read_with_fetch spos (set_b p r) gs with
      | None => None
      | Some (st, p') =>
          if st =? 0 then
            if use_barcodes gs || use_sid gs then
              let '(rc, m') :=
                csp_mplp_push p' m (if use_barcodes gs then -1 else i) gs in
              if rc <? 0 then Some (false, p', m', npushed)
              else pileup_reads gs spos i rest p' m'
                                (if rc =? 0 then npushed + 1 else npushed)
            else Some (false, p', m, npushed)
          else if st <? 0 then Some (false, p', m, npushed)
          else pileup_reads gs spos i rest p' m npushed
      end
  end.

(** The [for] loop of lines 439-459 from source [i] on.  The first
    component is 0 when the loop ran through and otherwise the [state] of
    the [goto fail]. *)
Fixpoint pileup_sources (gs : global_settings) (snp : csp_snp_t)
    (fs : list csp_bam_fs) (i : Z) (p : csp_pileup_t) (m : csp_mplp_t)
    (npushed : Z) : option (Z * csp_pileup_t * csp_mplp_t * Z) :=
  match fs with
  | [] => Some (0, p, m, npushed)
  | bs :: rest =>
      let tid := name2id bs (chr snp) in
      if tid <? 0 then Some (1, p, m, npushed) else
      match itr_query bs tid (pos snp) (pos snp + 1) with
      | None => Some (1, p, m, npushed)
      | Some (rs, ret) =>
          match pileup_reads gs (pos snp) i rs p m npushed with
          | None => None
          | Some (false, p', m', n') => Some (-1, p', m', n')
          | Some (true, p', m', n') =>
              if ret <? -1 then Some (-1, p', m', n')
              else pileup_sources gs snp rest (i + 1) p' m' n'
          end
      end
  end.

Definition zero_char : ascii := "000"%char.

(** Lines 437-438: the ref/alt supplied by the SNP list, -1 when absent. *)
Definition mplp_set_snp (m : csp_mplp_t) (snp : csp_snp_t) : csp_mplp_t :=
  set_ref_alt m
    (if Ascii.eqb (ref snp) zero_char then -1
     else seq_nt16_char2int (ref snp))
    (if Ascii.eqb (alt snp) zero_char then -1
     else seq_nt16_char2int (alt snp)).

(** [pileup_snp_with_fetch]: 0 success, -1 error, 1 pileup failure
    without error; [None] is a failed assertion. *)
Definition pileup_snp_with_fetch (snp : csp_snp_t) (fs : list csp_bam_fs)
    (p : csp_pileup_t) (m : csp_mplp_t) (gs : global_settings)
  : option (Z * csp_pileup_t * csp_mplp_t) :=
  let m0 := mplp_set_snp m snp in
  match pileup_sources gs snp fs 0 p m0 0 with
  | None => None
  | Some (st, p', m', npushed) =>
      if negb (st =? 0) then Some (st, p', m') else
      if npushed <? to_size_t (min_count gs) then Some (1, p', m') else
      let '(ret, m'') := csp_mplp_stat m' gs in
      if negb (ret =? 0) then Some (if ret >? 0 then 1 else -1, p', m'')
      else Some (0, p', m'')
  end.

(** ** Worker: pileup_positions_with_fetch *)

(** Lines 577-588: tallies and output of one passing SNP. *)
Definition output_snp (gs : global_settings) (snp : csp_snp_t)
    (m : csp_mplp_t) (d : thread_data) : thread_data :=
  let ns := d_ns d + 1 in
  let o := d_out d in
  let '(fa, fd, fo) :=
    csp_mplp_to_mtx m (out_mtx_ad o) (out_mtx_dp o) (out_mtx_oth o) ns in
  let s := vcf_base_record snp m in
  let vb := csp_fs_puts [nl] (csp_fs_puts s (out_vcf_base o)) in
  let vc :=
    if is_genotype gs then
      csp_fs_puts [nl]
        (csp_fs_puts (csp_mplp_to_vcf (double_gl gs) m)
           (csp_fs_puts ([tab] ++ bytes "GT:AD:DP:OTH:PL:ALL")
              (csp_fs_puts s (out_vcf_cells o))))
    else out_vcf_cells o in
  {| d_n := d_n d; d_m := d_m d;
     d_out := {| out_mtx_ad := fa; out_mtx_dp := fd; out_mtx_oth := fo;
                 out_vcf_base := vb; out_vcf_cells := vc |};
     d_ns := ns; d_nr_ad := d_nr_ad d + nr_ad m;
     d_nr_dp := d_nr_dp d + nr_dp m; d_nr_oth := d_nr_oth d + nr_oth m;
     d_ret := d_ret d |}.

(** The loop of lines 554-590 over the SNPs of the shard. *)
Fixpoint pileup_loop (gs : global_settings) (fs : list csp_bam_fs)
    (snps : list csp_snp_t) (p : csp_pileup_t) (m : csp_mplp_t)
    (d : thread_data) : option thread_data :=
  match snps with
  | [] => Some (set_ret d 0)
  | snp :: rest =>
      match pileup_snp_with_fetch snp fs p m gs with
      | None => None
      | Some (ret, p', m') =>
          if negb (ret =? 0) then
            if ret <? 0 then Some d
            else pileup_loop gs fs rest p' (csp_mplp_reset m') d
          else pileup_loop gs fs rest p' (csp_mplp_reset m')
                           (output_snp gs snp m' d)
      end
  end.

(** [pileup_positions_with_fetch]: the thread data after the worker ran;
    [None] when an assertion aborted the process. *)
Definition pileup_positions_with_fetch (gs : global_settings)
    (fs : list csp_bam_fs) (d : thread_data) : option thread_data :=
  let d0 := thdata_init (d_n d) (d_m d) (d_out d) in
  match csp_mplp_prepare gs with
  | None => Some d0
  | Some m =>
      pileup_loop gs fs (firstn (d_m d) (skipn (d_n d) (pl gs)))
                  csp_pileup_init m d0
  end.

(** ** ShardCoordinator: run_mode_with_fetch *)

(** The thread pool: every job runs to completion on its own thread data
    and its own files, so the jobs are independent of the schedule. *)
Fixpoint thpool_run (gs : global_settings) (fs : list csp_bam_fs)
    (tds : list thread_data) : option (list thread_data) :=
  match tds with
  | [] => Some []
  | d :: rest =>
      match pileup_positions_with_fetch gs fs d, thpool_run gs fs rest with
      | Some d', Some rest' => Some (d' :: rest')
      | _, _ => None
      end
  end.

Definition tmp_out : out_files :=
  let t := {| is_tmp := true; data := [] |} in
  {| out_mtx_ad := t; out_mtx_dp := t; out_mtx_oth := t;
     out_vcf_base := t; out_vcf_cells := t |}.

(** Lines 838-865: [mtd - 1] shards of [mpos] SNPs and a last shard with
    the remainder. *)
Definition make_shards (size mtd : nat) : list thread_data :=
  let mpos := (size / mtd)%nat in
  let npos := ((mtd - 1) * mpos)%nat in
  map (fun ntd => thdata_init (ntd * mpos) mpos tmp_out) (seq 0 (mtd - 1))
  ++ (if (npos <? size)%nat then [thdata_init npos (size - npos) tmp_out]
      else []).

Definition nsample_of (gs : global_settings) : Z :=
  if use_barcodes gs then Z.of_nat (length (barcodes gs))
  else match sample_ids gs with
       | Some ids => Z.of_nat (length ids)
       | None => 0
       end.

(** The branch of lines 806-953. *)
Definition run_multi (gs : global_settings) (fs : list csp_bam_fs)
    (o : out_files) : option (Z * out_files) :=
  let n := Z.to_nat (nthread gs) in
  let tds := make_shards (length (pl gs)) n in
  if negb (length tds =? n)%nat then None   (* td[nthread - 1] is NULL *)
  else
    match thpool_run gs fs tds with
    | None => None
    | Some ds =>
        if existsb (fun d => d_ret d <? 0) ds then Some (-1, o)
        else Some (merge_shards gs (nsample_of gs) ds o)
    end.

(** The branch of lines 954-1011. *)
Definition run_single (gs : global_settings) (fs : list csp_bam_fs)
    (o : out_files) : option (Z * out_files) :=
  match pileup_positions_with_fetch gs fs
          (thdata_init 0 (length (pl gs)) o) with
  | None => None
  | Some d =>
      let o1 := d_out d in
      if d_ret d <? 0 then Some (-1, o1) else
      let '(r, f) := rewrite_mtx (out_mtx_ad o1) (d_ns d) (nsample_of gs)
                                 (d_nr_ad d) in
      let o2 := set_out_ad o1 f in
      if negb (r =? 0) then Some (-1, o2) else
      let '(r, f) := rewrite_mtx (out_mtx_dp o2) (d_ns d) (nsample_of gs)
                                 (d_nr_dp d) in
      let o3 := set_out_dp o2 f in
      if negb (r =? 0) then Some (-1, o3) else
      let '(r, f) := rewrite_mtx (out_mtx_oth o3) (d_ns d) (nsample_of gs)
                                 (d_nr_oth d) in
      let o4 := set_out_oth o3 f in
      if negb (r =? 0) then Some (-1, o4) else Some (0, o4)
  end.

(** [run_mode_with_fetch]: the return value and the final files; [None]
    when the process aborted. *)
Definition run_mode_with_fetch (gs : global_settings) (fs : list csp_bam_fs)
    (o : out_files) : option (Z * out_files) :=
  if (length fs =? 0)%nat
     || ((length (barcodes gs) =? 0)%nat
         && (match sample_ids gs with
             | Some ids => (length ids =? 0)%nat
             | None => true
             end))
     || (length (pl gs) =? 0)%nat
  then Some (-1, o)
  else if tp gs && (nthread gs >? 1) then run_multi gs fs o
  else if nthread gs =? 1 then run_single gs fs o
  else Some (-1, o).

(** ** Vocabulary for the filter statements *)

(** The SNP passes: the driver returns 0 from the pileup record [p] and
    the reset table of the roster [names]. *)
Definition snp_passes (gs : global_settings) (fs : list csp_bam_fs)
    (p : csp_pileup_t) (names : list string) (snp : csp_snp_t) : bool :=
  match pileup_snp_with_fetch snp fs p (mplp_of_roster names) gs with
  | Some (st, _, _) => st =? 0
  | None => false
  end.

Definition count_passing (gs : global_settings) (fs : list csp_bam_fs)
    (p : csp_pileup_t) (names : list string) (snps : list csp_snp_t) : nat :=
  length (List.filter (snp_passes gs fs p names) snps).

(** The source loop as the specification words it: "missing chromosome is
    a per-source skip, not a global failure".  Used only to state that
    reading; the code is [pileup_sources]. *)
Fixpoint pileup_sources_skip (gs : global_settings) (snp : csp_snp_t)
    (fs : list csp_bam_fs) (i : Z) (p : csp_pileup_t) (m : csp_mplp_t)
    (npushed : Z) : option (Z * csp_pileup_t * csp_mplp_t * Z) :=
  match fs with
  | [] => Some (0, p, m, npushed)
  | bs :: rest =>
      let tid := name2id bs (chr snp) in
      if tid <? 0 then pileup_sources_skip gs snp rest (i + 1) p m npushed else
      match itr_query bs tid (pos snp) (pos snp + 1) with
      | None => Some (1, p, m, npushed)
      | Some (rs, ret) =>
          match pileup_reads gs (pos snp) i rs p m npushed with
          | None => None
          | Some (false, p', m', n') => Some (-1, p', m', n')
          | Some (true, p', m', n') =>
              if ret <? -1 then Some (-1, p', m', n')
              else pileup_sources_skip gs snp rest (i + 1) p' m' n'
          end
      end
  end.

(** ** Vocabulary for the coordinator statements *)

(** The roster the table is prepared with. *)
Definition roster (gs : global_settings) : option (list string) :=
  if use_barcodes gs then Some (barcodes gs) else sample_ids gs.

(** The SNPs of [snps] that pass, each with its statistics, in list
    order; [None] when one of them fails or aborts. *)
Fixpoint passing (gs : global_settings) (fs : list csp_bam_fs)
    (names : list string) (snps : list csp_snp_t)
  : option (list (csp_snp_t * csp_mplp_t)) :=
  match snps with
  | [] => Some []
  | snp :: rest =>
      match pileup_snp_with_fetch snp fs csp_pileup_init
              (mplp_of_roster names) gs with
      | None => None
      | Some (ret, _, m') =>
          if ret <? 0 then None else
          match passing gs fs names rest with
          | None => None
          | Some ps => Some (if ret =? 0 then (snp, m') :: ps else ps)
          end
      end
  end.

(** The output of the passing SNPs [ps], appended by a worker. *)
Definition emit (gs : global_settings) (ps : list (csp_snp_t * csp_mplp_t))
    (d : thread_data) : thread_data :=
  fold_left (fun d e => output_snp gs (fst e) (snd e) d) ps d.

(** The matrix text of the passing SNPs [ps], the first of which gets the
    ordinal [ns0 + 1]: in the format of a temporary fragment ([tmp]) or of
    a final file. *)
Fixpoint mtx_body (sel : csp_plp_t -> Z) (tmp : bool) (ns0 : Z)
    (ps : list (csp_snp_t * csp_mplp_t)) : list ascii :=
  match ps with
  | [] => []
  | e :: rest =>
      (mtx_rows sel tmp (ns0 + 1) 1 (hsg (snd e))
       ++ (if tmp then [nl] else []))
      ++ mtx_body sel tmp (ns0 + 1) rest
  end.

Definition vcf_base_body (ps : list (csp_snp_t * csp_mplp_t)) : list ascii :=
  concat (map (fun e => vcf_base_record (fst e) (snd e) ++ [nl]) ps).

Definition vcf_cells_body (gs : global_settings)
    (ps : list (csp_snp_t * csp_mplp_t)) : list ascii :=
  if is_genotype gs then
    concat (map (fun e => vcf_base_record (fst e) (snd e)
                          ++ ([tab] ++ bytes "GT:AD:DP:OTH:PL:ALL")
                          ++ csp_mplp_to_vcf (double_gl gs) (snd e) ++ [nl]) ps)
  else [].

(** The final files of a run over the passing SNPs [ps], given the files
    [o] as [main] left them. *)
Definition final_mtx (f : csp_fs_t) (sel : csp_plp_t -> Z) (nsample nr : Z)
    (ps : list (csp_snp_t * csp_mplp_t)) : csp_fs_t :=
  csp_fs_puts (mtx_summary (Z.of_nat (length ps)) nsample nr
               ++ mtx_body sel false 0 ps) f.

Definition final_outputs (gs : global_settings) (o : out_files)
    (ps : list (csp_snp_t * csp_mplp_t)) : out_files :=
  {| out_mtx_ad := final_mtx (out_mtx_ad o) ad (nsample_of gs)
                     (sumZ (map (fun e => nr_ad (snd e)) ps)) ps;
     out_mtx_dp := final_mtx (out_mtx_dp o) dp (nsample_of gs)
                     (sumZ (map (fun e => nr_dp (snd e)) ps)) ps;
     out_mtx_oth := final_mtx (out_mtx_oth o) oth (nsample_of gs)
                     (sumZ (map (fun e => nr_oth (snd e)) ps)) ps;
     out_vcf_base := csp_fs_puts (vcf_base_body ps) (out_vcf_base o);
     out_vcf_cells := csp_fs_puts (vcf_cells_body gs ps) (out_vcf_cells o) |}.

(** The output files as [main] leaves them before the run (lines
    1322-1383): the three matrices hold the Matrix Market comment lines,
    the two VCF files hold their headers [vb] and [vc]; none is marked
    temporary. *)
Definition main_outputs (vb vc : list ascii) : out_files :=
  {| out_mtx_ad := {| is_tmp := false; data := CSP_MTX_HEADER |};
     out_mtx_dp := {| is_tmp := false; data := CSP_MTX_HEADER |};
     out_mtx_oth := {| is_tmp := false; data := CSP_MTX_HEADER |};
     out_vcf_base := {| is_tmp := false; data := vb |};
     out_vcf_cells := {| is_tmp := false; data := vc |} |}.

(** The SNPs of the shard described by a thread data. *)
Definition shard_snps (gs : global_settings) (d : thread_data)
  : list csp_snp_t :=
  firstn (d_m d) (skipn (d_n d) (pl gs)).

(** The thread data a worker leaves after a shard whose passing SNPs are
    [ps]. *)
Definition shard_done (gs : global_settings) (d : thread_data)
    (ps : list (csp_snp_t * csp_mplp_t)) : thread_data :=
  set_ret (emit gs ps (thdata_init (d_n d) (d_m d) (d_out d))) 0.

(** ** main: from the settings check to the run (lines 1301-1410) *)

(** The version string of the header (the macro CSP_VERSION comes from
    cellsnp_util.h). *)
Variable CSP_VERSION : string.

Definition dq : ascii := "034"%char.

(** A meta line of a VCF header that ends with a quoted description. *)
Definition vcf_described (head desc : string) : list ascii :=
  bytes head ++ [dq] ++ bytes desc ++ [dq] ++ bytes ">" ++ [nl].

Definition CSP_VCF_CELLS_HEADER : list ascii :=
  bytes "##fileformat=VCFv4.2" ++ [nl]
  ++ bytes "##source=cellSNP_v" ++ bytes CSP_VERSION ++ [nl]
  ++ vcf_described "##FILTER=<ID=PASS,Description=" "All filters passed"
  ++ vcf_described "##FILTER=<ID=.,Description=" "Filter info not available"
  ++ vcf_described "##INFO=<ID=DP,Number=1,Type=Integer,Description="
                   "total counts for ALT and REF"
  ++ vcf_described "##INFO=<ID=AD,Number=1,Type=Integer,Description="
                   "total counts for ALT"
  ++ vcf_described "##INFO=<ID=OTH,Number=1,Type=Integer,Description="
                   "total counts for other bases from REF and ALT"
  ++ vcf_described "##FORMAT=<ID=GT,Number=1,Type=String,Description="
                   "Genotype"
  ++ vcf_described "##FORMAT=<ID=PL,Number=G,Type=Integer,Description="
                   "List of Phred-scaled genotype likelihoods"
  ++ vcf_described "##FORMAT=<ID=DP,Number=1,Type=Integer,Description="
                   "total counts for ALT and REF"
  ++ vcf_described "##FORMAT=<ID=AD,Number=1,Type=Integer,Description="
                   "total counts for ALT"
  ++ vcf_described "##FORMAT=<ID=OTH,Number=1,Type=Integer,Description="
                   "total counts for other bases from REF and ALT"
  ++ vcf_described "##FORMAT=<ID=ALL,Number=5,Type=Integer,Description="
                   "total counts for all bases in order of A,C,G,T,N".

Definition CSP_VCF_CELLS_CONTIG : list ascii :=
  concat (map (fun c => bytes "##contig=<ID=" ++ bytes c ++ bytes ">" ++ [nl])
              ["1"; "2"; "3"; "4"; "5"; "6"; "7"; "8"; "9"; "10"; "11"; "12";
               "13"; "14"; "15"; "16"; "17"; "18"; "19"; "20"; "21"; "22";
               "X"; "Y"]%string).

Definition CSP_VCF_BASE_HEADER : list ascii :=
  bytes "##fileformat=VCFv4.2" ++ [nl].

(** "#CHROM\tPOS\tID\tREF\tALT\tQUAL\tFILTER\tINFO". *)
Definition vcf_columns : list ascii :=
  bytes "#CHROM" ++ [tab] ++ bytes "POS" ++ [tab] ++ bytes "ID" ++ [tab]
  ++ bytes "REF" ++ [tab] ++ bytes "ALT" ++ [tab] ++ bytes "QUAL" ++ [tab]
  ++ bytes "FILTER" ++ [tab] ++ bytes "INFO".

(** One line per name. *)
Definition name_lines (names : list string) : list ascii :=
  concat (map (fun n => bytes n ++ [nl]) names).

(** One tab-led column per name. *)
Definition name_columns (names : list string) : list ascii :=
  concat (map (fun n => tab :: bytes n) names).

(** Lines 1350-1354: the content of the samples file. *)
Definition samples_text (gs : Cli.gll_settings) : list ascii :=
  match Cli.cell_tag gs with
  | Some _ =>
      name_lines (match Cli.barcodes gs with Some l => l | None => [] end)
  | None =>
      match Cli.sample_ids gs with
      | Some l => name_lines l
      | None => []
      end
  end.

(** Lines 1365-1374: the header of the cells VCF; [None] on
    "neither barcodes or sample IDs exist". *)
Definition vcf_cells_header (gs : Cli.gll_settings) : option (list ascii) :=
  let head := CSP_VCF_CELLS_HEADER ++ CSP_VCF_CELLS_CONTIG
              ++ vcf_columns ++ [tab] ++ bytes "FORMAT" in
  match Cli.cell_tag gs, Cli.barcodes gs with
  | Some _, Some l => Some (head ++ name_columns l ++ [nl])
  | _, _ =>
      match Cli.sample_ids gs with
      | Some l => Some (head ++ name_columns l ++ [nl])
      | None => None
      end
  end.

(** The settings the engine reads, once the SNP list [snps] is loaded
    and the thread pool is set up (lines 1311-1314). *)
Definition engine_settings (gs : Cli.gll_settings) (snps : list csp_snp_t)
  : global_settings :=
  {| pl := snps;
     barcodes := match Cli.barcodes gs with Some l => l | None => [] end;
     sample_ids := Cli.sample_ids gs;
     cell_tag := Cli.cell_tag gs; umi_tag := Cli.umi_tag gs;
     nthread := Cli.nthread gs; tp := Cli.nthread gs >? 1;
     is_genotype := Cli.is_genotype gs; double_gl := Cli.double_gl gs;
     min_count := Cli.min_count gs; min_maf := Cli.min_maf gs;
     min_len := Cli.min_len gs; min_mapq := Cli.min_mapq gs;
     max_flag := Cli.max_flag gs |}.

Definition run_mode1 := run_mode_with_fetch.

(** [run_mode2] (lines 1018-1020). *)
Definition run_mode2 (gs : Cli.gll_settings) : Z := 0.

Definition run_mode3 := run_mode_with_fetch.

(** The files [main] has written: the five files of the run (the cells
    VCF counts with genotyping only) and the samples file. *)
Record main_files := {
  m_out : out_files;
  m_samples : list ascii
}.

(** [main] after [getopt_long]: the exit code and the files written, if
    any; [None] when the process is aborted.  Opening, writing and closing
    files are taken to succeed. *)
Definition main_run (env : sys_env) (renv : run_env) (gs : Cli.gll_settings)
  : option (Z * option main_files) :=
  match Cli.check_global_args env gs with
  | None => None
  | Some (ret, gs1) =>
      if ret <? 0 then Some (1, None) else
      let samples := samples_text gs1 in
      let vb := CSP_VCF_BASE_HEADER ++ vcf_columns ++ [nl] in
      let written o := Some {| m_out := o; m_samples := samples |} in
      match (if Cli.is_genotype gs1 then vcf_cells_header gs1
             else Some []) with
      | None => Some (1, written (main_outputs vb []))
      | Some vc =>
          let o := main_outputs vb vc in
          match Cli.pos_list_file gs1 with
          | Some f =>
              match get_snplist renv f with
              | Some (snp :: snps) =>
                  let egs := engine_settings gs1 (snp :: snps) in
                  let fs := map (csp_bam_fs_build renv)
                              (match Cli.in_fns gs1 with
                               | Some l => l
                               | None => []
                               end) in
                  match (if Cli.is_set (Cli.barcodes gs1)
                         then run_mode1 egs fs o else run_mode3 egs fs o) with
                  | None => None
                  | Some (r, o') =>
                      if r <? 0 then Some (1, written o')
                      else Some (0, written o')
                  end
              | _ => Some (1, written o)
              end
          | None =>
              match Cli.chrom_all gs1 with
              | Some _ =>
                  if run_mode2 gs1 <? 0 then Some (1, written o)
                  else Some (0, written o)
              | None => Some (1, written o)
              end
          end
      end
  end.

(** * Properties *)

(** Turn a boolean comparison in a hypothesis into its proposition. *)
Ltac zb H :=
  first [ apply Z.gtb_lt in H
        | rewrite Z.gtb_ltb in H; apply Z.ltb_ge in H
        | apply Z.ltb_lt in H | apply Z.ltb_ge in H
        | apply Z.leb_le in H | apply Z.leb_gt in H
        | apply Z.eqb_eq in H | apply Z.eqb_neq in H ].

(** ** ReadResolver *)

Lemma get_cigar_len_nonneg c : 0 <= get_cigar_len c.
Proof. unfold get_cigar_len. lia. Qed.

Lemma op_ref_len_nonneg c : 0 <= op_ref_len c.
Proof.
  unfold op_ref_len. pose proof (get_cigar_len_nonneg c).
  destruct (_ || _); lia.
Qed.

Lemma ref_len_nonneg cig : 0 <= ref_len cig.
Proof.
  induction cig as [|c cig IH]; simpl; [lia|].
  pose proof (op_ref_len_nonneg c). lia.
Qed.

Lemma ref_len_app l1 l2 : ref_len (l1 ++ l2) = ref_len l1 + ref_len l2.
Proof. induction l1 as [|c l1 IH]; simpl; lia. Qed.

Lemma aln_len_app l1 l2 : aln_len (l1 ++ l2) = aln_len l1 + aln_len l2.
Proof. induction l1 as [|c l1 IH]; simpl; lia. Qed.

Lemma u32_add_l a c : u32 (u32 a + c) = u32 (a + c).
Proof. unfold u32. apply Zplus_mod_idemp_l. Qed.

Lemma u32_idem a : u32 (u32 a) = u32 a.
Proof. unfold u32. apply Zmod_mod. Qed.

(** The three operation classes exclude one another. *)
Lemma op_classes op :
  (is_match_class op = true -> is_del_or_skip op = false /\ is_ins_or_clip op = false)
  /\ (is_del_or_skip op = true -> is_ins_or_clip op = false).
Proof.
  unfold is_match_class, is_del_or_skip, is_ins_or_clip,
    BAM_CMATCH, BAM_CEQUAL, BAM_CDIFF, BAM_CDEL, BAM_CREF_SKIP, BAM_CINS,
    BAM_CSOFT_CLIP.
  split; intros H; repeat split;
    repeat (apply orb_true_iff in H; destruct H as [H|H]);
    apply Z.eqb_eq in H; subst; reflexivity.
Qed.

(** One iteration of the first loop, in terms of the consumed lengths. *)
Lemma find_pos_step t c rest x y la :
  find_pos t (c :: rest) x y (u32 la) =
    if x + op_ref_len c >? t
    then Some (get_cigar_op c, x, y, u32 (la + op_aln_len c), rest)
    else find_pos t rest (x + op_ref_len c) (y + op_qry_len c)
                  (u32 (la + op_aln_len c)).
Proof.
  simpl. unfold op_ref_len, op_qry_len, op_aln_len.
  destruct (op_classes (get_cigar_op c)) as [Hm Hd].
  destruct (is_match_class (get_cigar_op c)) eqn:Em.
  - destruct (Hm eq_refl) as [-> ->]. simpl. rewrite u32_add_l. reflexivity.
  - destruct (is_del_or_skip (get_cigar_op c)) eqn:Ed.
    + rewrite (Hd eq_refl). simpl. rewrite !Z.add_0_r. reflexivity.
    + destruct (is_ins_or_clip (get_cigar_op c)); simpl;
        rewrite !Z.add_0_r; reflexivity.
Qed.

(** Operations that end at or before the target are walked over. *)
Lemma find_pos_skip t pre : forall rest x y la,
  x + ref_len pre <= t ->
  find_pos t (pre ++ rest) x y (u32 la) =
  find_pos t rest (x + ref_len pre) (y + qry_len pre) (u32 (la + aln_len pre)).
Proof.
  induction pre as [|c pre IH]; intros rest x y la Hle.
  - simpl. rewrite !Z.add_0_r. reflexivity.
  - change ((c :: pre) ++ rest) with (c :: (pre ++ rest)).
    rewrite find_pos_step.
    change (ref_len (c :: pre)) with (op_ref_len c + ref_len pre) in *.
    change (qry_len (c :: pre)) with (op_qry_len c + qry_len pre).
    change (aln_len (c :: pre)) with (op_aln_len c + aln_len pre).
    pose proof (op_ref_len_nonneg c). pose proof (ref_len_nonneg pre).
    destruct (x + op_ref_len c >? t) eqn:E; [apply Z.gtb_lt in E; lia|].
    rewrite IH by lia. f_equal; [lia|lia|f_equal; lia].
Qed.

(** The second loop adds the aligned length of the remaining operations. *)
Lemma rest_laln_total rest : forall la,
  rest_laln rest (u32 la) = u32 (la + aln_len rest).
Proof.
  induction rest as [|c rest IH]; intros la; simpl.
  - rewrite Z.add_0_r. reflexivity.
  - unfold op_aln_len. destruct (is_match_class (get_cigar_op c)).
    + rewrite u32_add_l, IH. f_equal. lia.
    + rewrite IH. f_equal.
Qed.

(** The operation at which the first loop breaks advanced the reference
    coordinate, so it is a match-class operation, a deletion or a
    reference skip ("cannot be other operations"). *)
Lemma find_pos_op t cig : forall x y la op px py la' rest,
  x <= t ->
  find_pos t cig x y la = Some (op, px, py, la', rest) ->
  is_match_class op || is_del_or_skip op = true.
Proof.
  induction cig as [|c cig IH]; intros x y la op px py la' rest Hx H;
    [discriminate|].
  simpl in H.
  destruct (is_match_class (get_cigar_op c)) eqn:Em.
  - destruct (x + get_cigar_len c >? t) eqn:E.
    + inversion H; subst. rewrite Em. reflexivity.
    + zb E. eapply IH; [|exact H]. lia.
  - destruct (is_del_or_skip (get_cigar_op c)) eqn:Ed.
    + destruct (x + get_cigar_len c >? t) eqn:E.
      * inversion H; subst. rewrite Ed. apply orb_true_r.
      * zb E. eapply IH; [|exact H]. lia.
    + destruct (is_ins_or_clip (get_cigar_op c)).
      * destruct (x >? t) eqn:E; [apply Z.gtb_lt in E; lia|].
        eapply IH; [|exact H]. lia.
      * destruct (x >? t) eqn:E; [apply Z.gtb_lt in E; lia|].
        eapply IH; [|exact H]. lia.
Qed.

Lemma tag_filter_pass (tag : option string) (r : bam1_t) (v : option string) :
  (forall k, tag = Some k -> is_Some (aux r k)) ->
  forall k, tag = Some k ->
  negb (bool_decide (is_Some (aux r k))) = false.
Proof.
  intros H k Hk. rewrite bool_decide_eq_true_2; [reflexivity|]. apply H, Hk.
Qed.

(** C7.  For a read that starts at or before the target position [t] and
    passes the tag, mapping-quality and flag filters, let [c] be the CIGAR
    operation covering [t], starting at reference coordinate [x] and query
    coordinate [y].  If [c] is a match-class operation the resolver returns
    base and quality at query offset [y + (t - x)], and rejects the read
    (code 2) exactly when the aligned length summed over the whole CIGAR,
    operations after [c] included, is below the configured minimum (both
    as [uint32_t]); if [c] is a deletion or a reference skip the read is
    rejected.  No other operation can cover [t]. *)
Theorem resolver_site_and_length (gs : global_settings) (p : csp_pileup_t)
    (t : Z) (pre post : list N) (c : N) :
  (forall k, umi_tag gs = Some k -> is_Some (aux (b p) k)) ->
  (forall k, cell_tag gs = Some k -> is_Some (aux (b p) k)) ->
  min_mapq gs <= core_qual (b p) ->
  core_flag (b p) <= max_flag gs ->
  core_pos (b p) <= t ->
  cigar (b p) = pre ++ c :: post ->
  core_pos (b p) + ref_len pre <= t < core_pos (b p) + ref_len pre + op_ref_len c ->
  let x := core_pos (b p) + ref_len pre in
  let y := qry_len pre in
  let total := u32 (aln_len (cigar (b p))) in
  (is_match_class (get_cigar_op c) = true ->
     exists p',
       pileup_read_with_fetch t p gs
         = Some (if total <? u32 (min_len gs) then 2 else 0, p')
       /\ qpos p' = y + (t - x)
       /\ base p' = seqi (b p) (y + (t - x))
       /\ qual p' = quals (b p) (y + (t - x))
       /\ (u32 (min_len gs) <= total -> laln p' = total))
  /\ (is_del_or_skip (get_cigar_op c) = true ->
     exists p', pileup_read_with_fetch t p gs = Some (2, p')
                /\ is_del p' = true)
  /\ is_match_class (get_cigar_op c) || is_del_or_skip (get_cigar_op c) = true.
Proof.
  intros Humi Hcb Hq Hf Hpos Hcig Hcov x y total.
  assert (Hfind : forall p3, b p3 = b p ->
    find_pos t (cigar (b p3)) (core_pos (b p3)) 0 0
    = Some (get_cigar_op c, x, y, u32 (aln_len pre + op_aln_len c), post)).
  { intros p3 ->. rewrite Hcig. change 0 with (u32 0) at 2.
    rewrite find_pos_skip by lia. rewrite find_pos_step.
    destruct (_ >? t) eqn:E; [|zb E; lia].
    reflexivity. }
  assert (Htot : rest_laln post (u32 (aln_len pre + op_aln_len c)) = total).
  { rewrite rest_laln_total. unfold total. rewrite Hcig, aln_len_app. simpl.
    f_equal. lia. }
  assert (Hpre :
    pileup_read_with_fetch t p gs =
    let p1 := match umi_tag gs with Some tg => set_umi p (aux (b p) tg) | None => p end in
    let p2 := match cell_tag gs with Some tg => set_cb p1 (aux (b p1) tg) | None => p1 end in
    let p3 := set_site p2 0 false false in
    match find_pos t (cigar (b p3)) (core_pos (b p3)) 0 0 with
    | None => None
    | Some (op, px, py, la, rest) =>
        let p4 :=
          if is_match_class op then
            let q := py + (t - px) in
            set_base_qual p3 q (seqi (b p3) q) (quals (b p3) q)
          else if is_del_or_skip op then
            set_site p3 py (op =? BAM_CREF_SKIP) true
          else p3 in
        if is_del p4 then Some (2, p4) else
        if is_refskip p4 then Some (2, p4) else
        let la' := rest_laln rest la in
        if la' <? u32 (min_len gs) then Some (2, p4)
        else Some (0, set_laln p4 la')
    end).
  { unfold pileup_read_with_fetch, use_umi, use_barcodes.
    destruct (umi_tag gs) as [ut|] eqn:Eu; simpl.
    - destruct (Humi ut eq_refl) as [v Hv]. rewrite Hv. simpl.
      destruct (cell_tag gs) as [ct|] eqn:Ec; simpl.
      + destruct (Hcb ct eq_refl) as [w Hw]. rewrite Hw. simpl.
        destruct (core_qual (b p) <? min_mapq gs) eqn:E1; [apply Z.ltb_lt in E1; lia|].
        destruct (core_flag (b p) >? max_flag gs) eqn:E2; [apply Z.gtb_lt in E2; lia|].
        destruct (core_pos (b p) <=? t) eqn:E3; [|apply Z.leb_gt in E3; lia].
        reflexivity.
      + destruct (core_qual (b p) <? min_mapq gs) eqn:E1; [apply Z.ltb_lt in E1; lia|].
        destruct (core_flag (b p) >? max_flag gs) eqn:E2; [apply Z.gtb_lt in E2; lia|].
        destruct (core_pos (b p) <=? t) eqn:E3; [|apply Z.leb_gt in E3; lia].
        reflexivity.
    - destruct (cell_tag gs) as [ct|] eqn:Ec; simpl.
      + destruct (Hcb ct eq_refl) as [w Hw]. rewrite Hw. simpl.
        destruct (core_qual (b p) <? min_mapq gs) eqn:E1; [apply Z.ltb_lt in E1; lia|].
        destruct (core_flag (b p) >? max_flag gs) eqn:E2; [apply Z.gtb_lt in E2; lia|].
        destruct (core_pos (b p) <=? t) eqn:E3; [|apply Z.leb_gt in E3; lia].
        reflexivity.
      + destruct (core_qual (b p) <? min_mapq gs) eqn:E1; [apply Z.ltb_lt in E1; lia|].
        destruct (core_flag (b p) >? max_flag gs) eqn:E2; [apply Z.gtb_lt in E2; lia|].
        destruct (core_pos (b p) <=? t) eqn:E3; [|apply Z.leb_gt in E3; lia].
        reflexivity. }
  cbv zeta in Hpre.
  rewrite Hfind in Hpre
    by (destruct (umi_tag gs), (cell_tag gs); reflexivity).
  rewrite Htot in Hpre.
  assert (Hb : b (match cell_tag gs with
                  | Some tg => set_cb (match umi_tag gs with
                                       | Some tg0 => set_umi p (aux (b p) tg0)
                                       | None => p end)
                                (aux (b (match umi_tag gs with
                                       | Some tg0 => set_umi p (aux (b p) tg0)
                                       | None => p end)) tg)
                  | None => match umi_tag gs with
                            | Some tg0 => set_umi p (aux (b p) tg0)
                            | None => p end
                  end) = b p)
    by (destruct (umi_tag gs), (cell_tag gs); reflexivity).
  split; [|split].
  - intros Hm. rewrite Hm in Hpre. simpl in Hpre. rewrite Hb in Hpre.
    destruct (total <? u32 (min_len gs)) eqn:El.
    + eexists. split; [exact Hpre|]. simpl.
      repeat split; try reflexivity. apply Z.ltb_lt in El. lia.
    + eexists. split; [exact Hpre|]. simpl. repeat split; reflexivity.
  - intros Hd. destruct (op_classes (get_cigar_op c)) as [Hmc _].
    destruct (is_match_class (get_cigar_op c)) eqn:Em.
    + destruct (Hmc eq_refl) as [Hx _]. congruence.
    + rewrite Hd in Hpre. simpl in Hpre. eexists. split; [exact Hpre|].
      reflexivity.
  - unfold op_ref_len in Hcov.
    destruct (is_match_class (get_cigar_op c) || is_del_or_skip (get_cigar_op c));
      [reflexivity|lia].
Qed.

(** ** GroupTable *)

Lemma set_hsg_id m : set_hsg m (hsg m) = m.
Proof. destruct m; reflexivity. Qed.

Lemma alter_lookup_id {A} (f : A -> A) (l : list A) i x :
  l !! i = Some x -> f x = x -> alter f i l = l.
Proof.
  revert i. induction l as [|a l IH]; intros [|i] H Hf; simpl in *; try done.
  - inversion H; subst. by rewrite Hf.
  - f_equal. by apply IH.
Qed.

Lemma alter_lookup_eq {A} (f : A -> A) (l : list A) i x :
  l !! i = Some x -> alter f i l !! i = Some (f x).
Proof.
  revert i. induction l as [|a l IH]; intros [|i] H; simpl in *; try done.
  - by inversion H.
  - by apply IH.
Qed.

Lemma alter_lookup_none {A} (f : A -> A) (l : list A) : forall i,
  l !! i = None -> alter f i l = l.
Proof.
  induction l as [|a l IH]; intros [|i] H; simpl in H; try done.
  change (alter f (S i) (a :: l)) with (a :: alter f i l).
  f_equal. by apply IH.
Qed.

(** A push never renames a group, so barcode lookups are stable. *)
Lemma sg_get_alter (f : csp_plp_t -> csp_plp_t) h k : forall i,
  sg_get (alter (fun e => (fst e, f (snd e))) i h) k = sg_get h k.
Proof.
  induction h as [|[name g] h IH]; intros [|i]; simpl; try reflexivity.
  rewrite <- (IH i). reflexivity.
Qed.

(** The push in terms of the addressed group. *)
Lemma csp_mplp_push_target p m sid gs :
  csp_mplp_push p m sid gs =
  match push_target p m sid gs with
  | Some i =>
      (0, set_hsg m (alter (fun e => (fst e, plp_push p gs (snd e))) i (hsg m)))
  | None => (if use_barcodes gs then 1 else -1, m)
  end.
Proof.
  unfold csp_mplp_push, push_target.
  destruct (use_barcodes gs).
  - destruct (cb p) as [k|]; [|reflexivity]. destruct (sg_get (hsg m) k); reflexivity.
  - destruct (use_sid gs); reflexivity.
Qed.

Lemma push_target_after p q m sid sid' gs :
  push_target q (snd (csp_mplp_push p m sid gs)) sid' gs
  = push_target q m sid' gs.
Proof.
  rewrite csp_mplp_push_target. unfold push_target at 1 3.
  destruct (push_target p m sid gs); simpl; [|reflexivity].
  destruct (use_barcodes gs); [|reflexivity].
  destruct (cb q); [|reflexivity]. apply sg_get_alter.
Qed.

Lemma seq_nt16_idx2int_range code : 0 <= seq_nt16_idx2int code < 5.
Proof.
  unfold seq_nt16_idx2int.
  destruct (Z.to_nat code) as [|[|[|[|[|[|[|[|[|[|[|[|[|[|[|[|n]]]]]]]]]]]]]]]];
    simpl; try lia.
  destruct n; simpl; lia.
Qed.

(** Incrementing one slot of a five-slot array adds one to its sum. *)
Lemma sumZ_alter_succ (l : list Z) (i : nat) :
  length l = 5%nat -> (i < 5)%nat ->
  sumZ (alter (fun c => c + 1) i l) = sumZ l + 1.
Proof.
  intros Hl Hi.
  destruct l as [|a0 [|a1 [|a2 [|a3 [|a4 [|a5 l]]]]]]; try discriminate.
  destruct i as [|[|[|[|[|i]]]]]; unfold sumZ; simpl; lia.
Qed.

(** A read whose UMI is already in the group's set changes nothing. *)
Lemma plp_push_duplicate p gs g u :
  use_umi gs = true -> umi p = Some u -> u ∈ hug g -> plp_push p gs g = g.
Proof.
  intros Hu Hp Hin. unfold plp_push. rewrite Hu, Hp.
  by rewrite bool_decide_eq_true_2.
Qed.

Lemma plp_push_first p gs g u :
  use_umi gs = true -> umi p = Some u -> u ∉ hug g ->
  plp_push p gs g = plp_count p (plp_add_umi u g).
Proof.
  intros Hu Hp Hin. unfold plp_push. rewrite Hu, Hp.
  by rewrite bool_decide_eq_false_2.
Qed.

Lemma push_duplicate p m sid gs u i name g :
  use_umi gs = true -> umi p = Some u ->
  push_target p m sid gs = Some i ->
  hsg m !! i = Some (name, g) -> u ∈ hug g ->
  csp_mplp_push p m sid gs = (0, m).
Proof.
  intros Hu Hp Ht Hg Hin. rewrite csp_mplp_push_target, Ht.
  rewrite (alter_lookup_id _ _ _ _ Hg).
  - by rewrite set_hsg_id.
  - simpl. by rewrite (plp_push_duplicate p gs g u).
Qed.

(** C3.  With UMI grouping enabled, let the reads [p :: ps] carry the same
    UMI [u] and address the same sample group, which has not seen [u] yet.
    The first push records the base and quality of [p] (one slot of the
    group's base counts goes up by one, so their sum goes up by exactly
    one); every later push returns 0 and leaves the table as it is, so the
    table after all the pushes is the table after the first. *)
Theorem umi_dedup_idempotent (gs : global_settings) (m : csp_mplp_t)
    (sid : Z) (p : csp_pileup_t) (ps : list csp_pileup_t) (u : string)
    (i : nat) (name : string) (g : csp_plp_t) :
  use_umi gs = true ->
  Forall (fun q => umi q = Some u /\ push_target q m sid gs = Some i) (p :: ps) ->
  hsg m !! i = Some (name, g) ->
  u ∉ hug g ->
  length (bc g) = 5%nat ->
  let m1 := snd (csp_mplp_push p m sid gs) in
  let g1 := plp_count p (plp_add_umi u g) in
  let idx := Z.to_nat (seq_nt16_idx2int (base p)) in
  hsg m1 !! i = Some (name, g1)
  /\ bc g1 = alter (fun c => c + 1) idx (bc g)
  /\ qu g1 = alter (fun l => l ++ [qual p]) idx (qu g)
  /\ sumZ (bc g1) = sumZ (bc g) + 1
  /\ Forall (fun q => csp_mplp_push q m1 sid gs = (0, m1)) ps
  /\ push_all gs (map (fun q => (q, sid)) (p :: ps)) m = m1.
Proof.
  intros Hu Hall Hg Hnin Hlen m1 g1 idx.
  inversion Hall as [|? ? [Hpu Hpt] Hps]; subst.
  assert (Hg1 : hsg m1 !! i = Some (name, g1)).
  { unfold m1. rewrite csp_mplp_push_target, Hpt. simpl.
    rewrite (alter_lookup_eq _ _ _ _ Hg). simpl.
    by rewrite (plp_push_first p gs g u). }
  assert (Hin : u ∈ hug g1)
    by (unfold g1; simpl; apply elem_of_union; left; by apply elem_of_singleton).
  assert (Hlater : Forall (fun q => csp_mplp_push q m1 sid gs = (0, m1)) ps).
  { eapply Forall_impl; [|exact Hps]. intros q [Hq Hqt]. simpl.
    apply (push_duplicate q m1 sid gs u i name g1); auto.
    unfold m1. by rewrite push_target_after. }
  repeat split; auto.
  - apply sumZ_alter_succ; [exact Hlen|].
    pose proof (seq_nt16_idx2int_range (base p)). unfold idx. lia.
  - unfold push_all. simpl. fold m1.
    clear -Hlater. induction ps as [|q ps IH]; simpl; [reflexivity|].
    inversion Hlater as [|? ? Hq Hrest]; subst. rewrite Hq. simpl. by apply IH.
Qed.

Lemma push_target_modes p m sid gs i :
  push_target p m sid gs = Some i -> use_barcodes gs || use_sid gs = true.
Proof.
  unfold push_target. destruct (use_barcodes gs); [reflexivity|].
  destruct (use_sid gs); [reflexivity|discriminate].
Qed.

Lemma push_outcome_hit p m sid gs i :
  push_target p m sid gs = Some i ->
  push_outcome p m sid gs = Counted \/ push_outcome p m sid gs = DuplicateUMI.
Proof.
  intros Ht. unfold push_outcome.
  rewrite (push_target_modes _ _ _ _ _ Ht), Ht.
  destruct (umi_tag gs); [|by left].
  destruct (umi p); [|by left].
  destruct (hsg m !! i) as [[? g]|]; [|by left].
  destruct (bool_decide _); [by right|by left].
Qed.

Lemma push_outcome_duplicate p m sid gs :
  push_outcome p m sid gs = DuplicateUMI ->
  exists u i name g,
    use_umi gs = true /\ umi p = Some u /\ push_target p m sid gs = Some i
    /\ hsg m !! i = Some (name, g) /\ u ∈ hug g.
Proof.
  unfold push_outcome, use_umi.
  destruct (use_barcodes gs || use_sid gs); [|discriminate].
  destruct (push_target p m sid gs) as [i|]; [|discriminate].
  destruct (umi_tag gs); [|discriminate].
  destruct (umi p) as [u|]; [|discriminate].
  destruct (hsg m !! i) as [[name g]|] eqn:Eg; [|discriminate].
  destruct (bool_decide (u ∈ hug g)) eqn:Ed; [|discriminate].
  intros _. exists u, i, name, g. apply bool_decide_eq_true in Ed. auto.
Qed.

Lemma push_outcome_error p m sid gs :
  push_outcome p m sid gs = Error <-> use_barcodes gs || use_sid gs = false.
Proof.
  unfold push_outcome. destruct (use_barcodes gs || use_sid gs); [|done].
  split; [|discriminate].
  destruct (push_target p m sid gs); [|discriminate].
  destruct (umi_tag gs); [|discriminate].
  destruct (umi p); [|discriminate].
  destruct (hsg m !! n) as [[? g]|]; [|discriminate].
  destruct (bool_decide _); discriminate.
Qed.

(** A push that records nothing leaves the table as it is. *)
Lemma push_records_none p m sid gs :
  push_records p m sid gs = None -> snd (csp_mplp_push p m sid gs) = m.
Proof.
  unfold push_records. rewrite csp_mplp_push_target.
  destruct (push_target p m sid gs) as [i|]; [|reflexivity].
  cbn [snd]. destruct (hsg m !! i) as [[name g]|] eqn:E.
  - intros H. rewrite (alter_lookup_id _ _ _ _ E); [apply set_hsg_id|].
    cbn [fst snd]. f_equal. unfold plp_push.
    destruct (use_umi gs); [|discriminate].
    destruct (umi p); [|reflexivity].
    destruct (bool_decide _); [reflexivity | discriminate].
  - intros _. rewrite alter_lookup_none by exact E. apply set_hsg_id.
Qed.

(** A push that records an observation returns 0, adds one to the count
    of the read's base in the addressed group and appends the read's
    quality there; under UMI grouping the UMI joins the group's set. *)
Lemma push_records_some p m sid gs i s :
  push_records p m sid gs = Some (i, s) ->
  fst (csp_mplp_push p m sid gs) = 0
  /\ s = seq_nt16_idx2int (base p)
  /\ exists name g g1,
       hsg m !! i = Some (name, g)
       /\ hsg (snd (csp_mplp_push p m sid gs)) !! i = Some (name, g1)
       /\ bc g1 = alter (fun c => c + 1) (Z.to_nat s) (bc g)
       /\ qu g1 = alter (fun l => l ++ [qual p]) (Z.to_nat s) (qu g)
       /\ hug g1 = (if use_umi gs
                    then match umi p with
                         | Some u => {[u]} ∪ hug g
                         | None => hug g
                         end
                    else hug g).
Proof.
  unfold push_records. rewrite csp_mplp_push_target.
  destruct (push_target p m sid gs) as [t|]; [|discriminate].
  destruct (hsg m !! t) as [[name g]|] eqn:E; [|discriminate].
  cbn [fst snd hsg set_hsg]. intros H.
  assert (Hc : t = i /\ s = seq_nt16_idx2int (base p)
               /\ plp_push p gs g
                  = plp_count p (if use_umi gs
                                 then match umi p with
                                      | Some u => plp_add_umi u g
                                      | None => g
                                      end
                                 else g)).
  { unfold plp_push. destruct (use_umi gs).
    - destruct (umi p) as [u|]; [|discriminate].
      destruct (bool_decide _); [discriminate|].
      injection H as <- <-. done.
    - injection H as <- <-. done. }
  destruct Hc as (<- & -> & Hpush).
  split; [reflexivity|]. split; [reflexivity|].
  exists name, g, (plp_push p gs g).
  split; [exact E|]. split; [by rewrite (alter_lookup_eq _ _ _ _ E)|].
  rewrite Hpush. unfold plp_count. cbn [bc qu hug].
  destruct (use_umi gs); [destruct (umi p)|]; by split_and!.
Qed.

(** The read loop after a prefix of reads that it ran through. *)
Lemma pileup_reads_app gs t i rs1 rs2 pb mb nb : forall p m n,
  pileup_reads gs t i rs1 p m n = Some (true, pb, mb, nb) ->
  pileup_reads gs t i (rs1 ++ rs2) p m n = pileup_reads gs t i rs2 pb mb nb.
Proof.
  induction rs1 as [|r rs1 IH]; intros p m n H; cbn [pileup_reads app] in *.
  - by injection H as <- <- <-.
  - destruct (pileup_read_with_fetch t (set_b p r) gs) as [[st p1]|];
      [|discriminate].
    destruct (st =? 0).
    + destruct (use_barcodes gs || use_sid gs); [|discriminate].
      destruct (csp_mplp_push p1 m _ gs) as [rc m1].
      destruct (rc <? 0); [discriminate|]. by apply IH.
    + destruct (st <? 0); [discriminate|]. by apply IH.
Qed.

(** A read loop that stops ends the source loop with state -1, whatever
    sources follow. *)
Lemma pileup_sources_stop gs snp bs fs2 rs ret pa ma na p1 m1 n1 fs1 :
  forall i p m n,
  pileup_sources gs snp fs1 i p m n = Some (0, pa, ma, na) ->
  0 <= name2id bs (chr snp) ->
  itr_query bs (name2id bs (chr snp)) (pos snp) (pos snp + 1) = Some (rs, ret) ->
  pileup_reads gs (pos snp) (i + Z.of_nat (length fs1)) rs pa ma na
    = Some (false, p1, m1, n1) ->
  pileup_sources gs snp (fs1 ++ bs :: fs2) i p m n = Some (-1, p1, m1, n1).
Proof.
  induction fs1 as [|b1 fs1 IH]; intros i p m n H Hid Hq Hr;
    cbn [pileup_sources app] in *.
  - injection H as <- <- <-.
    destruct (name2id bs (chr snp) <? 0) eqn:E; zb E; [lia|].
    rewrite Hq. cbn [length] in Hr. rewrite Z.add_0_r in Hr. by rewrite Hr.
  - destruct (name2id b1 (chr snp) <? 0); [discriminate|].
    destruct (itr_query b1 _ _ _) as [[rs1 ret1]|]; [|discriminate].
    destruct (pileup_reads gs (pos snp) i rs1 p m n)
      as [[[[ok p2] m2] n2]|]; [|discriminate].
    destruct ok; [|discriminate].
    destruct (ret1 <? -1); [discriminate|].
    apply IH; try assumption.
    replace (i + 1 + Z.of_nat (length fs1))
      with (i + Z.of_nat (length (b1 :: fs1))) by (cbn [length]; lia).
    exact Hr.
Qed.

(** C5, as the code has it (memory allocation succeeding).  The return
    value of a push tells three cases apart: -1 when neither grouping is
    configured, 1 when the barcode is not in the roster, 0 otherwise.  A
    read counted and a read dropped as a UMI duplicate both return 0.  The
    table is unchanged after a duplicate and after every push that does
    not return 0; a push that records an observation returns 0, adds one
    to the count of the read's base in the addressed group and appends
    the read's quality there.  In the read loop of the driver, after a
    read that the resolver accepted, a counted push and a duplicate both
    add one to [npushed] and the loop goes on; an unknown barcode leaves
    [npushed] and the table alone and the loop goes on; and without a
    grouping the loop stops at the first accepted read, wherever it comes,
    which makes the driver return -1 for the SNP. *)
Theorem push_return_codes (p : csp_pileup_t) (m : csp_mplp_t) (sid : Z)
    (gs : global_settings) :
  let r := fst (csp_mplp_push p m sid gs) in
  let m' := snd (csp_mplp_push p m sid gs) in
  (push_outcome p m sid gs = Error <-> r = -1)
  /\ (push_outcome p m sid gs = UnknownGroup <-> r = 1)
  /\ (push_outcome p m sid gs = Counted \/ push_outcome p m sid gs = DuplicateUMI
      <-> r = 0)
  /\ (r <> 0 -> m' = m)
  /\ (push_outcome p m sid gs = DuplicateUMI -> m' = m)
  /\ (push_records p m sid gs = None -> m' = m)
  /\ (forall i s,
        push_records p m sid gs = Some (i, s) ->
        r = 0 /\ s = seq_nt16_idx2int (base p)
        /\ exists name g g1,
             hsg m !! i = Some (name, g) /\ hsg m' !! i = Some (name, g1)
             /\ bc g1 = alter (fun c => c + 1) (Z.to_nat s) (bc g)
             /\ qu g1 = alter (fun l => l ++ [qual p]) (Z.to_nat s) (qu g)
             /\ hug g1 = (if use_umi gs
                          then match umi p with
                               | Some u => {[u]} ∪ hug g
                               | None => hug g
                               end
                          else hug g))
  /\ (forall spos i p0 r0 rest n,
        sid = (if use_barcodes gs then -1 else i) ->
        pileup_read_with_fetch spos (set_b p0 r0) gs = Some (0, p) ->
        pileup_reads gs spos i (r0 :: rest) p0 m n
        = match push_outcome p m sid gs with
          | Counted | DuplicateUMI => pileup_reads gs spos i rest p m' (n + 1)
          | UnknownGroup => pileup_reads gs spos i rest p m n
          | Error => Some (false, p, m, n)
          end)
  /\ (push_outcome p m sid gs = Error ->
      forall snp fs1 bs fs2 rs1 r0 rest ret p0 m0 pa ma na pb mb nb,
        pileup_sources gs snp fs1 0 p0 (mplp_set_snp m0 snp) 0
          = Some (0, pa, ma, na) ->
        0 <= name2id bs (chr snp) ->
        itr_query bs (name2id bs (chr snp)) (pos snp) (pos snp + 1)
          = Some (rs1 ++ r0 :: rest, ret) ->
        pileup_reads gs (pos snp) (Z.of_nat (length fs1)) rs1 pa ma na
          = Some (true, pb, mb, nb) ->
        pileup_read_with_fetch (pos snp) (set_b pb r0) gs = Some (0, p) ->
        pileup_snp_with_fetch snp (fs1 ++ bs :: fs2) p0 m0 gs
        = Some (-1, p, mb)).
Proof.
  cbv zeta.
  assert (Hdup : push_outcome p m sid gs = DuplicateUMI ->
                 snd (csp_mplp_push p m sid gs) = m).
  { intros H. destruct (push_outcome_duplicate _ _ _ _ H)
      as (u & i & name & g & Hu & Hp & Ht & Hg & Hin).
    by rewrite (push_duplicate p m sid gs u i name g). }
  assert (Herr : push_outcome p m sid gs = Error
                 <-> fst (csp_mplp_push p m sid gs) = -1).
  { rewrite csp_mplp_push_target.
    destruct (push_target p m sid gs) as [i|] eqn:Et; simpl.
    - destruct (push_outcome_hit _ _ _ _ _ Et) as [-> | ->]; split; done.
    - unfold push_outcome. rewrite Et. unfold push_target in Et.
      destruct (use_barcodes gs); simpl; [split; done|].
      destruct (use_sid gs); [discriminate|]. split; done. }
  assert (Hunk : push_outcome p m sid gs = UnknownGroup
                 <-> fst (csp_mplp_push p m sid gs) = 1).
  { rewrite csp_mplp_push_target.
    destruct (push_target p m sid gs) as [i|] eqn:Et; simpl.
    - destruct (push_outcome_hit _ _ _ _ _ Et) as [-> | ->]; split; done.
    - unfold push_outcome. rewrite Et. unfold push_target in Et.
      destruct (use_barcodes gs); simpl; [split; done|].
      destruct (use_sid gs); [discriminate|]. split; done. }
  assert (Hzero : push_outcome p m sid gs = Counted
                  \/ push_outcome p m sid gs = DuplicateUMI
                  <-> fst (csp_mplp_push p m sid gs) = 0).
  { rewrite csp_mplp_push_target.
    destruct (push_target p m sid gs) as [i|] eqn:Et; simpl.
    - split; [done|]. intros _. by apply (push_outcome_hit _ _ _ _ i).
    - unfold push_outcome. rewrite Et. unfold push_target in Et.
      destruct (use_barcodes gs); simpl; [split; [intros [|]; done | done]|].
      destruct (use_sid gs); [discriminate|].
      split; [intros [|]; done | done]. }
  assert (Hkeep : fst (csp_mplp_push p m sid gs) <> 0 ->
                  snd (csp_mplp_push p m sid gs) = m).
  { rewrite csp_mplp_push_target.
    destruct (push_target p m sid gs); simpl; done. }
  split_and!; try assumption.
  - apply push_records_none.
  - intros i s. apply push_records_some.
  - intros spos i p0 r0 rest n Hsid Hres.
    cbn [pileup_reads]. rewrite Hres. change (0 =? 0) with true. cbv iota.
    destruct (use_barcodes gs || use_sid gs) eqn:Eg.
    + rewrite <- Hsid.
      destruct (csp_mplp_push p m sid gs) as [rc m1]. cbn [fst snd] in *.
      destruct (push_outcome p m sid gs) eqn:Eo.
      * assert (rc = 0) as -> by (apply Hzero; by left). reflexivity.
      * assert (rc = 0) as -> by (apply Hzero; by right). reflexivity.
      * assert (rc = 1) as -> by (by apply Hunk).
        rewrite Hkeep by done. reflexivity.
      * apply push_outcome_error in Eo. congruence.
    + rewrite (proj2 (push_outcome_error p m sid gs) Eg). reflexivity.
  - intros Ho snp fs1 bs fs2 rs1 r0 rest ret p0 m0 pa ma na pb mb nb
           Hpre Hid Hq Hrs Hres.
    apply push_outcome_error in Ho.
    unfold pileup_snp_with_fetch.
    rewrite (pileup_sources_stop gs snp bs fs2 (rs1 ++ r0 :: rest) ret
               pa ma na p mb nb fs1 0 p0 (mplp_set_snp m0 snp) 0 Hpre Hid Hq);
      [reflexivity|].
    rewrite Z.add_0_l, (pileup_reads_app _ _ _ _ _ _ _ _ _ _ _ Hrs).
    cbn [pileup_reads]. rewrite Hres.
    change (0 =? 0) with true. cbv iota. rewrite Ho. reflexivity.
Qed.

(** ** The summing step *)

Lemma fold_add_acc (l : list Z) : forall a, fold_left Z.add l a = a + sumZ l.
Proof.
  unfold sumZ. induction l as [|x l IH]; intros a; cbn [fold_left]; [lia|].
  rewrite (IH (a + x)), (IH (0 + x)). lia.
Qed.

Lemma sumZ_cons x l : sumZ (x :: l) = x + sumZ l.
Proof. unfold sumZ. simpl. rewrite fold_add_acc. reflexivity. Qed.

Lemma sumZ_app l1 l2 : sumZ (l1 ++ l2) = sumZ l1 + sumZ l2.
Proof.
  induction l1 as [|x l1 IH]; simpl; [reflexivity|].
  rewrite !sumZ_cons, IH. lia.
Qed.

Lemma concat_alter_snoc {A} (q : list (list A)) (i : nat) (x : A) :
  (i < length q)%nat ->
  length (concat (alter (fun l => l ++ [x]) i q)) = S (length (concat q)).
Proof.
  revert i. induction q as [|l q IH]; intros [|i] Hi; simpl in *; try lia.
  - rewrite !length_app. simpl. lia.
  - rewrite !length_app. change (list_alter ?f i q) with (alter f i q).
    rewrite IH by lia. lia.
Qed.

Lemma plp_pending_empty : plp_pending plp_empty.
Proof. repeat split. Qed.

Lemma plp_count_pending p g : plp_pending g -> plp_pending (plp_count p g).
Proof.
  intros (Hb & Hq & Ht & Hs).
  pose proof (seq_nt16_idx2int_range (base p)) as Hr.
  unfold plp_pending, retained, plp_count. simpl.
  rewrite !length_alter. repeat split; auto.
  rewrite sumZ_alter_succ by (auto; lia).
  rewrite concat_alter_snoc by lia.
  unfold retained in Hs. lia.
Qed.

Lemma plp_push_pending p gs g : plp_pending g -> plp_pending (plp_push p gs g).
Proof.
  intros H. unfold plp_push.
  destruct (use_umi gs); [|by apply plp_count_pending].
  destruct (umi p) as [u|]; [|exact H].
  destruct (bool_decide _); [exact H|].
  apply plp_count_pending. exact H.
Qed.

Lemma Forall_alter_keep {A} (P : A -> Prop) (f : A -> A) (l : list A) i :
  (forall x, P x -> P (f x)) -> Forall P l -> Forall P (alter f i l).
Proof.
  intros Hf H. revert i. induction H as [|x l Hx Hl IH]; intros [|i]; simpl;
    constructor; auto.
  apply IH.
Qed.

Lemma push_pending p m sid gs :
  mplp_pending m -> mplp_pending (snd (csp_mplp_push p m sid gs)).
Proof.
  intros (Hb & Ht & Hg & Hn). rewrite csp_mplp_push_target.
  destruct (push_target p m sid gs); cbn [snd];
    [|unfold mplp_pending; tauto].
  unfold mplp_pending. cbn [m_bc m_tc nr_ad nr_dp nr_oth hsg set_hsg].
  split_and!; try tauto.
  apply Forall_alter_keep; [|exact Hg].
  intros [name g] H. simpl in *. by apply plp_push_pending.
Qed.

Lemma push_all_pending gs l : forall m,
  mplp_pending m -> mplp_pending (push_all gs l m).
Proof.
  unfold push_all. induction l as [|e l IH]; intros m H; simpl; [exact H|].
  apply IH. by apply push_pending.
Qed.

Lemma roster_pending names r a :
  mplp_pending (set_ref_alt (mplp_of_roster names) r a).
Proof.
  split_and!; try reflexivity. simpl.
  apply Forall_map, Forall_forall. intros n _.
  apply plp_pending_empty.
Qed.

(** Five-slot arrays, slot by slot. *)
Lemma five_slots (l : list Z) :
  length l = 5%nat ->
  l = [arr_get l 0; arr_get l 1; arr_get l 2; arr_get l 3; arr_get l 4].
Proof.
  intros H.
  destruct l as [|a0 [|a1 [|a2 [|a3 [|a4 [|a5 l]]]]]]; try discriminate.
  reflexivity.
Qed.

Lemma plp_sum_total g :
  length (bc g) = 5%nat -> tc g = 0 -> tc (plp_sum g) = sumZ (bc g).
Proof.
  intros Hl Ht. unfold plp_sum. simpl. rewrite Ht.
  destruct (bc g) as [|a0 [|a1 [|a2 [|a3 [|a4 [|a5 l]]]]]]; try discriminate.
  unfold sumZ, slots, arr_get. simpl. lia.
Qed.

Lemma bc_accum_slots acc g :
  length acc = 5%nat ->
  bc_accum acc g =
    [arr_get acc 0 + arr_get (bc g) 0; arr_get acc 1 + arr_get (bc g) 1;
     arr_get acc 2 + arr_get (bc g) 2; arr_get acc 3 + arr_get (bc g) 3;
     arr_get acc 4 + arr_get (bc g) 4].
Proof.
  intros Hl.
  destruct acc as [|a0 [|a1 [|a2 [|a3 [|a4 [|a5 l]]]]]]; try discriminate.
  reflexivity.
Qed.

(** The site-wide slots after the first loop are the starting slots plus
    the slots of every group. *)
Lemma site_bc_sum (h : list (string * csp_plp_t)) : forall acc,
  length acc = 5%nat ->
  let s := fold_left (fun a e => bc_accum a (snd e)) h acc in
  length s = 5%nat
  /\ forall j, 0 <= j < 5 ->
       arr_get s j = arr_get acc j + sumZ (map (fun e => arr_get (bc (snd e)) j) h).
Proof.
  induction h as [|e h IH]; intros acc Hl; simpl.
  - split; [exact Hl|]. intros j _. unfold sumZ. simpl. lia.
  - assert (Hl' : length (bc_accum acc (snd e)) = 5%nat)
      by (rewrite bc_accum_slots by exact Hl; reflexivity).
    destruct (IH _ Hl') as [H5 Hj]. split; [exact H5|].
    intros j Hr. rewrite (Hj j Hr), sumZ_cons.
    rewrite bc_accum_slots by exact Hl.
    assert (j = 0 \/ j = 1 \/ j = 2 \/ j = 3 \/ j = 4) as Hc by lia.
    destruct Hc as [-> | [-> | [-> | [-> | ->]]]]; unfold arr_get; simpl; lia.
Qed.

Lemma site_tc_sum (s : list Z) (t0 : Z) :
  length s = 5%nat ->
  fold_left (fun t i => t + arr_get s i) slots t0 = t0 + sumZ s.
Proof.
  intros Hl.
  destruct s as [|a0 [|a1 [|a2 [|a3 [|a4 [|a5 l]]]]]]; try discriminate.
  unfold sumZ, slots, arr_get. simpl. lia.
Qed.

Lemma sumZ_slots (f : Z -> Z) :
  sumZ (map f slots) = f 0 + f 1 + f 2 + f 3 + f 4.
Proof. unfold sumZ, slots, arr_get. simpl. lia. Qed.

(** Summation over groups and over slots commute. *)
Lemma sumZ_groups_slots (h : list (string * csp_plp_t)) :
  Forall (fun e => length (bc (snd e)) = 5%nat) h ->
  sumZ (map (fun e => sumZ (bc (snd e))) h)
  = sumZ (map (fun j => sumZ (map (fun e => arr_get (bc (snd e)) j) h)) slots).
Proof.
  intros H. rewrite sumZ_slots. induction H as [|e h He Hh IH]; simpl.
  - reflexivity.
  - rewrite !sumZ_cons, IH.
    destruct (bc (snd e)) as [|a0 [|a1 [|a2 [|a3 [|a4 [|a5 l]]]]]];
      try discriminate.
    unfold sumZ at 1. unfold arr_get. simpl. lia.
Qed.

(** The summing step on a table that was reset and then pushed into. *)
Lemma sum_pending (m : csp_mplp_t) :
  mplp_pending m ->
  let m' := csp_mplp_sum m in
  length (m_bc m') = 5%nat
  /\ m_tc m' = sumZ (m_bc m')
  /\ Forall (fun e => length (bc (snd e)) = 5%nat
                      /\ tc (snd e) = sumZ (bc (snd e))
                      /\ tc (snd e) = retained (snd e)) (hsg m')
  /\ (forall j, 0 <= j < 5 ->
        arr_get (m_bc m') j = sumZ (map (fun e => arr_get (bc (snd e)) j) (hsg m')))
  /\ m_tc m' = sumZ (map (fun e => tc (snd e)) (hsg m')).
Proof.
  intros Hp m'.
  destruct Hp as (Hb & Ht & Hg & _).
  assert (H0 : length (m_bc m) = 5%nat) by (rewrite Hb; reflexivity).
  destruct (site_bc_sum (hsg m) (m_bc m) H0) as [H5 Hj]. cbv zeta in H5, Hj.
  assert (Hgroups : Forall (fun e => length (bc (snd e)) = 5%nat
                      /\ tc (snd e) = sumZ (bc (snd e))
                      /\ tc (snd e) = retained (snd e)) (hsg m')).
  { unfold m', csp_mplp_sum. cbn [hsg].
    apply Forall_map. eapply Forall_impl; [|exact Hg].
    intros [name g] (Hl & Hq & Htc & Hs). cbn [snd] in *.
    rewrite plp_sum_total by assumption.
    change (bc (plp_sum g)) with (bc g).
    change (retained (plp_sum g)) with (retained g). auto. }
  assert (Hslot : forall j, 0 <= j < 5 ->
        arr_get (m_bc m') j = sumZ (map (fun e => arr_get (bc (snd e)) j) (hsg m'))).
  { intros j Hr. unfold m', csp_mplp_sum. cbn [m_bc hsg].
    rewrite (Hj j Hr), Hb, map_map. cbn [snd].
    assert (arr_get [0; 0; 0; 0; 0] j = 0) as ->.
    { assert (j = 0 \/ j = 1 \/ j = 2 \/ j = 3 \/ j = 4) as Hc by lia.
      destruct Hc as [-> | [-> | [-> | [-> | ->]]]]; reflexivity. }
    reflexivity. }
  assert (Htot : m_tc m' = sumZ (m_bc m')).
  { unfold m', csp_mplp_sum. cbn [m_tc m_bc].
    rewrite site_tc_sum by exact H5. rewrite Ht. lia. }
  split_and!; auto.
  rewrite Htot.
  transitivity (sumZ (map (fun e => sumZ (bc (snd e))) (hsg m'))).
  - rewrite sumZ_groups_slots
      by (eapply Forall_impl; [|exact Hgroups]; intros e (? & _); assumption).
    rewrite sumZ_slots.
    rewrite <- !Hslot by lia.
    assert (H5' : length (m_bc m') = 5%nat) by exact H5.
    destruct (m_bc m') as [|a0 [|a1 [|a2 [|a3 [|a4 [|a5 l0]]]]]];
      try discriminate.
    unfold sumZ, arr_get. simpl. lia.
  - f_equal. apply map_ext_Forall. eapply Forall_impl; [|exact Hgroups].
    intros e (_ & He & _). simpl. congruence.
Qed.

Lemma sumZ_nonneg (l : list Z) : Forall (fun x => 0 <= x) l -> 0 <= sumZ l.
Proof.
  induction 1 as [|x l Hx Hl IH]; [unfold sumZ; simpl; lia|].
  rewrite sumZ_cons. lia.
Qed.

(** The summed total of a pushed table is not negative. *)
Lemma sum_pending_nonneg (m : csp_mplp_t) :
  mplp_pending m -> 0 <= m_tc (csp_mplp_sum m).
Proof.
  intros Hp. destruct (sum_pending m Hp) as (_ & _ & Hg & _ & Ht).
  rewrite Ht. apply sumZ_nonneg, Forall_map.
  eapply Forall_impl; [|exact Hg]. intros e (_ & _ & ->). unfold retained. lia.
Qed.

Lemma sumZ_map_alter {A} (g : A -> Z) (f : A -> A) (h : list A) : forall i x,
  h !! i = Some x ->
  sumZ (map g (alter f i h)) = sumZ (map g h) + (g (f x) - g x).
Proof.
  induction h as [|a h IH]; intros [|i] x H; simpl in H; try discriminate.
  - injection H as ->. cbn [alter list_alter map]. rewrite !sumZ_cons. lia.
  - change (alter f (S i) (a :: h)) with (a :: alter f i h).
    cbn [map]. rewrite !sumZ_cons, (IH i x H). lia.
Qed.

(** *** The pushes behind the sums *)

Lemma count_obs_app P os1 os2 :
  count_obs P (os1 ++ os2) = count_obs P os1 + count_obs P os2.
Proof. unfold count_obs. rewrite List.filter_app, length_app. lia. Qed.

Lemma count_obs_cons P o os :
  count_obs P (o :: os) = (if P o then 1 else 0) + count_obs P os.
Proof.
  unfold count_obs. cbn [List.filter]. destruct (P o); cbn [length]; lia.
Qed.

(** Every observation falls into one of the five slots, so counting slot
    by slot counts everything once. *)
Lemma count_obs_slots P os :
  Forall (fun o => 0 <= snd o < 5) os ->
  sumZ (map (fun j => count_obs (fun o => P o && (snd o =? j)) os) slots)
  = count_obs P os.
Proof.
  rewrite sumZ_slots. induction 1 as [|o os Ho Hos IH]; [reflexivity|].
  rewrite !count_obs_cons, <- IH.
  assert (snd o = 0 \/ snd o = 1 \/ snd o = 2 \/ snd o = 3 \/ snd o = 4)
    as Hc by lia.
  destruct (P o); destruct Hc as [-> | [-> | [-> | [-> | ->]]]];
    cbn -[count_obs]; lia.
Qed.

Ltac nat_lits :=
  repeat match goal with
         | |- context [Z.to_nat ?k] =>
             let v := eval vm_compute in (Z.to_nat k) in
             change (Z.to_nat k) with v
         end.

Lemma plp_count_slot p g j :
  length (bc g) = 5%nat -> 0 <= j < 5 ->
  arr_get (bc (plp_count p g)) j
  = arr_get (bc g) j + (if seq_nt16_idx2int (base p) =? j then 1 else 0).
Proof.
  intros Hl Hj. unfold plp_count. cbn [bc].
  pose proof (seq_nt16_idx2int_range (base p)) as Hr.
  generalize dependent (seq_nt16_idx2int (base p)). intros s Hr.
  destruct (bc g) as [|a0 [|a1 [|a2 [|a3 [|a4 [|a5 l]]]]]]; try discriminate.
  assert (s = 0 \/ s = 1 \/ s = 2 \/ s = 3 \/ s = 4) as Hs by lia.
  assert (j = 0 \/ j = 1 \/ j = 2 \/ j = 3 \/ j = 4) as Hc by lia.
  destruct Hs as [-> | [-> | [-> | [-> | ->]]]];
    destruct Hc as [-> | [-> | [-> | [-> | ->]]]]; unfold arr_get; nat_lits;
    cbn; lia.
Qed.

(** One push, seen from a group and a slot: the count goes up by one
    exactly when the push records an observation for them. *)
Lemma push_slot p m sid gs i name g1 j :
  Forall (fun e => length (bc (snd e)) = 5%nat) (hsg m) -> 0 <= j < 5 ->
  hsg (snd (csp_mplp_push p m sid gs)) !! i = Some (name, g1) ->
  exists g,
    hsg m !! i = Some (name, g)
    /\ arr_get (bc g1) j
       = arr_get (bc g) j
         + count_obs (fun o => (fst o =? i)%nat && (snd o =? j))
                     (option_list (push_records p m sid gs)).
Proof.
  intros Hl Hj. rewrite csp_mplp_push_target. unfold push_records.
  destruct (push_target p m sid gs) as [t|]; cbn [snd hsg set_hsg].
  2:{ intros H. exists g1. split; [exact H|]. cbn. unfold count_obs. cbn. lia. }
  destruct (decide (t = i)) as [->|Hne].
  - rewrite list_lookup_alter, decide_True by reflexivity.
    destruct (hsg m !! i) as [[name0 g0]|] eqn:E; [|discriminate].
    intros H. cbn in H. injection H as <- <-. exists g0. split; [reflexivity|].
    assert (H5 : length (bc g0) = 5%nat).
    { eapply Forall_lookup_1 in Hl; [|exact E]. exact Hl. }
    unfold plp_push. destruct (use_umi gs).
    + destruct (umi p) as [u|]; [|unfold count_obs; cbn; lia].
      case_bool_decide; [unfold count_obs; cbn; lia|].
      rewrite plp_count_slot by assumption. cbn [bc plp_add_umi].
      unfold option_list. cbn [option_rect]. rewrite count_obs_cons. cbn [fst snd].
      rewrite Nat.eqb_refl. unfold count_obs. cbn.
      destruct (_ =? j); lia.
    + rewrite plp_count_slot by assumption.
      unfold option_list. cbn [option_rect]. rewrite count_obs_cons. cbn [fst snd].
      rewrite Nat.eqb_refl. unfold count_obs. cbn.
      destruct (_ =? j); lia.
  - rewrite list_lookup_alter_ne by exact Hne.
    intros H. exists g1. split; [exact H|].
    assert (Hz : forall o, option_list
               (match hsg m !! t with
                | Some (_, g) =>
                    if use_umi gs then
                      match umi p with
                      | Some u =>
                          if bool_decide (u ∈ hug g) then None
                          else Some (t, seq_nt16_idx2int (base p))
                      | None => None
                      end
                    else Some (t, seq_nt16_idx2int (base p))
                | None => None
                end) = o ->
              count_obs (fun o => (fst o =? i)%nat && (snd o =? j)) o = 0).
    { intros o <-.
      assert (Hti : (t =? i)%nat = false) by (by apply Nat.eqb_neq).
      destruct (hsg m !! t) as [[? g]|]; [|reflexivity].
      destruct (use_umi gs).
      - destruct (umi p); [|reflexivity].
        case_bool_decide; [reflexivity|].
        unfold option_list. cbn [option_rect]. rewrite count_obs_cons. cbn [fst snd].
        rewrite Hti. reflexivity.
      - unfold option_list. cbn [option_rect]. rewrite count_obs_cons. cbn [fst snd].
        rewrite Hti. reflexivity. }
    rewrite (Hz _ eq_refl). lia.
Qed.

Lemma push_lengths p m sid gs :
  Forall (fun e => length (bc (snd e)) = 5%nat) (hsg m) ->
  Forall (fun e => length (bc (snd e)) = 5%nat)
         (hsg (snd (csp_mplp_push p m sid gs))).
Proof.
  intros H. rewrite csp_mplp_push_target.
  destruct (push_target p m sid gs); [|exact H].
  cbn [snd set_hsg hsg]. apply Forall_alter_keep; [|exact H].
  intros [name g] Hg. cbn [fst snd] in *. unfold plp_push.
  assert (Hc : forall g0, length (bc g0) = 5%nat ->
                 length (bc (plp_count p g0)) = 5%nat).
  { intros g0 H0. unfold plp_count. cbn [bc]. by rewrite length_alter. }
  destruct (use_umi gs); [|by apply Hc].
  destruct (umi p); [|exact Hg]. case_bool_decide; [exact Hg|]. by apply Hc.
Qed.

(** A sequence of pushes, seen from a group and a slot. *)
Lemma push_all_slot gs l i j : forall m name g1,
  Forall (fun e => length (bc (snd e)) = 5%nat) (hsg m) -> 0 <= j < 5 ->
  hsg (push_all gs l m) !! i = Some (name, g1) ->
  exists g,
    hsg m !! i = Some (name, g)
    /\ arr_get (bc g1) j
       = arr_get (bc g) j
         + count_obs (fun o => (fst o =? i)%nat && (snd o =? j))
                     (recorded gs l m).
Proof.
  induction l as [|[p sid] l IH]; intros m name g1 Hl Hj H.
  - exists g1. split; [exact H|]. unfold count_obs. cbn. lia.
  - cbn [push_all fold_left fst snd] in H. cbn [recorded fst snd].
    fold (push_all gs l (snd (csp_mplp_push p m sid gs))) in H.
    destruct (IH _ _ _ (push_lengths p m sid gs Hl) Hj H) as (g2 & H2 & E2).
    destruct (push_slot p m sid gs i name g2 j Hl Hj H2) as (g & Hg & E).
    exists g. split; [exact Hg|]. rewrite count_obs_app. lia.
Qed.

(** One push, seen from a slot of the whole table. *)
Lemma push_column p m sid gs j :
  Forall (fun e => length (bc (snd e)) = 5%nat) (hsg m) -> 0 <= j < 5 ->
  sumZ (map (fun e => arr_get (bc (snd e)) j)
            (hsg (snd (csp_mplp_push p m sid gs))))
  = sumZ (map (fun e => arr_get (bc (snd e)) j) (hsg m))
    + count_obs (fun o => snd o =? j) (option_list (push_records p m sid gs)).
Proof.
  intros Hl Hj. rewrite csp_mplp_push_target. unfold push_records.
  destruct (push_target p m sid gs) as [t|]; cbn [snd hsg set_hsg];
    [|unfold count_obs; cbn; lia].
  destruct (hsg m !! t) as [[name g]|] eqn:E.
  2:{ rewrite alter_lookup_none by exact E. unfold count_obs. cbn. lia. }
  rewrite (sumZ_map_alter _ _ _ _ _ E). cbn [fst snd].
  assert (H5 : length (bc g) = 5%nat).
  { eapply Forall_lookup_1 in Hl; [|exact E]. exact Hl. }
  unfold plp_push. destruct (use_umi gs).
  - destruct (umi p) as [u|]; [|unfold count_obs; cbn; lia].
    case_bool_decide; [unfold count_obs; cbn; lia|].
    rewrite plp_count_slot by assumption. cbn [bc plp_add_umi]. unfold option_list. cbn [option_rect].
    rewrite count_obs_cons. cbn [snd]. unfold count_obs. cbn.
    destruct (_ =? j); lia.
  - rewrite plp_count_slot by assumption. unfold option_list.
    cbn [option_rect]. rewrite count_obs_cons. cbn [snd]. unfold count_obs. cbn.
    destruct (_ =? j); lia.
Qed.

Lemma push_all_column gs l j : forall m,
  Forall (fun e => length (bc (snd e)) = 5%nat) (hsg m) -> 0 <= j < 5 ->
  sumZ (map (fun e => arr_get (bc (snd e)) j) (hsg (push_all gs l m)))
  = sumZ (map (fun e => arr_get (bc (snd e)) j) (hsg m))
    + count_obs (fun o => snd o =? j) (recorded gs l m).
Proof.
  induction l as [|[p sid] l IH]; intros m Hl Hj.
  - unfold count_obs. cbn. lia.
  - cbn [push_all fold_left fst snd recorded].
    fold (push_all gs l (snd (csp_mplp_push p m sid gs))).
    rewrite (IH _ (push_lengths p m sid gs Hl) Hj).
    rewrite (push_column p m sid gs j Hl Hj), count_obs_app. lia.
Qed.

Lemma recorded_slots gs l : forall m,
  Forall (fun o => 0 <= snd o < 5) (recorded gs l m).
Proof.
  induction l as [|[p sid] l IH]; intros m; [constructor|].
  cbn [recorded fst snd]. apply Forall_app. split; [|apply IH].
  unfold push_records.
  destruct (push_target p m sid gs) as [t|]; [|constructor].
  destruct (hsg m !! t) as [[? g]|]; [|constructor].
  pose proof (seq_nt16_idx2int_range (base p)).
  destruct (use_umi gs).
  - destruct (umi p); [|constructor].
    case_bool_decide; constructor; [assumption | constructor].
  - constructor; [assumption | constructor].
Qed.

Lemma roster_lengths names r a :
  Forall (fun e => length (bc (snd e)) = 5%nat)
         (hsg (set_ref_alt (mplp_of_roster names) r a)).
Proof.
  cbn [hsg set_ref_alt mplp_of_roster]. apply Forall_map, Forall_forall.
  intros n _. reflexivity.
Qed.

(** C2.  Take any roster, any supplied ref/alt and any sequence of pushes
    into the table as reset for the SNP, and let [obs] be the observations
    these pushes recorded (a push records one unless it addresses no group
    or repeats a UMI of its group).  After the summing step of
    [csp_mplp_stat] the site-wide total is the sum of the five site-wide
    base counts, every group's total is the sum of its five base counts
    and the number of quality values it holds, every site-wide base count
    is the sum of that count over the groups, and the site-wide total is
    the sum of the group totals.  The step leaves the names, counts and
    quality lists of the groups as the pushes left them, and its sums
    count every recorded observation exactly once: the site-wide count of
    a base is the number of observations of that base, the site-wide total
    is the number of observations, a group's total is the number of
    observations of that group and its count of a base the number of its
    observations of that base. *)
Theorem sum_step_totals (gs : global_settings) (names : list string)
    (r a : Z) (l : list (csp_pileup_t * Z)) :
  let m0 := set_ref_alt (mplp_of_roster names) r a in
  let m := push_all gs l m0 in
  let m' := csp_mplp_sum m in
  let obs := recorded gs l m0 in
  length (m_bc m') = 5%nat
  /\ m_tc m' = sumZ (m_bc m')
  /\ Forall (fun e => length (bc (snd e)) = 5%nat
                      /\ tc (snd e) = sumZ (bc (snd e))
                      /\ tc (snd e) = retained (snd e)) (hsg m')
  /\ (forall j, 0 <= j < 5 ->
        arr_get (m_bc m') j = sumZ (map (fun e => arr_get (bc (snd e)) j) (hsg m')))
  /\ m_tc m' = sumZ (map (fun e => tc (snd e)) (hsg m'))
  /\ Forall2 (fun e' e => fst e' = fst e /\ bc (snd e') = bc (snd e)
                          /\ qu (snd e') = qu (snd e)) (hsg m') (hsg m)
  /\ (forall j, 0 <= j < 5 ->
        arr_get (m_bc m') j = count_obs (fun o => snd o =? j) obs)
  /\ m_tc m' = Z.of_nat (length obs)
  /\ (forall i name g,
        hsg m' !! i = Some (name, g) ->
        tc g = count_obs (fun o => (fst o =? i)%nat) obs
        /\ forall j, 0 <= j < 5 ->
             arr_get (bc g) j
             = count_obs (fun o => (fst o =? i)%nat && (snd o =? j)) obs).
Proof.
  intros m0 m m' obs.
  assert (Hp : mplp_pending m) by apply push_all_pending, roster_pending.
  destruct (sum_pending m Hp) as (H5 & Htot & Hg & Hcol & Hsum).
  fold m' in H5, Htot, Hg, Hcol, Hsum.
  assert (Hkeep : Forall2 (fun e' e => fst e' = fst e /\ bc (snd e') = bc (snd e)
                          /\ qu (snd e') = qu (snd e)) (hsg m') (hsg m)).
  { unfold m', csp_mplp_sum. cbn [hsg]. apply Forall2_fmap_l.
    apply Forall_Forall2_diag, Forall_forall. intros e _. by split_and!. }
  assert (Hobs : Forall (fun o => 0 <= snd o < 5) obs) by apply recorded_slots.
  assert (Hsite : forall j, 0 <= j < 5 ->
            arr_get (m_bc m') j = count_obs (fun o => snd o =? j) obs).
  { intros j Hj. rewrite (Hcol j Hj).
    unfold m', csp_mplp_sum. cbn [hsg]. rewrite map_map. cbn [snd plp_sum bc].
    unfold m. rewrite (push_all_column gs l j m0 (roster_lengths _ _ _) Hj).
    fold obs.
    assert (H0 : sumZ (map (fun e => arr_get (bc (snd e)) j) (hsg m0)) = 0).
    { unfold m0. cbn [hsg set_ref_alt mplp_of_roster]. rewrite map_map.
      cbn [snd]. clear -Hj. induction names as [|n ns IH]; [reflexivity|].
      cbn [map]. rewrite sumZ_cons, IH.
      assert (j = 0 \/ j = 1 \/ j = 2 \/ j = 3 \/ j = 4) as Hc by lia.
      destruct Hc as [-> | [-> | [-> | [-> | ->]]]]; reflexivity. }
    lia. }
  assert (Hgroup : forall i name g,
            hsg m' !! i = Some (name, g) ->
            forall j, 0 <= j < 5 ->
              arr_get (bc g) j
              = count_obs (fun o => (fst o =? i)%nat && (snd o =? j)) obs).
  { intros i name g Hi j Hj.
    unfold m', csp_mplp_sum in Hi. cbn [hsg] in Hi.
    rewrite list_lookup_fmap in Hi.
    destruct (hsg m !! i) as [[name1 g1]|] eqn:E1; [|discriminate].
    cbn in Hi. injection Hi as <- <-. cbn [bc plp_sum].
    destruct (push_all_slot gs l i j m0 name1 g1 (roster_lengths _ _ _) Hj E1)
      as (g0 & H0 & ->).
    fold obs. unfold m0 in H0. cbn [hsg set_ref_alt mplp_of_roster] in H0.
    rewrite list_lookup_fmap in H0.
    destruct (names !! i); [|discriminate]. cbn in H0. injection H0 as _ <-.
    assert (j = 0 \/ j = 1 \/ j = 2 \/ j = 3 \/ j = 4) as Hc by lia.
    destruct Hc as [-> | [-> | [-> | [-> | ->]]]]; unfold arr_get; nat_lits;
      cbn -[count_obs]; lia. }
  split_and!; try assumption.
  - assert (Hlen : count_obs (fun _ => true) obs = Z.of_nat (length obs)).
    { unfold count_obs. clear. induction obs as [|o os IH]; [reflexivity|].
      cbn [List.filter length] in *. lia. }
    rewrite Htot, <- Hlen, <- (count_obs_slots (fun _ => true) obs Hobs).
    cbn [andb]. rewrite sumZ_slots, <- !Hsite by lia.
    rewrite (five_slots (m_bc m') H5) at 1. unfold sumZ. cbn [fold_left]. lia.
  - intros i name g Hi. split; [|by apply (Hgroup i name g Hi)].
    pose proof (Forall_lookup_1 _ _ _ _ Hg Hi) as (Hl & Ht & _).
    cbn [snd] in Hl, Ht.
    rewrite Ht, <- (count_obs_slots (fun o => (fst o =? i)%nat) obs Hobs).
    rewrite sumZ_slots, <- !(Hgroup i name g Hi) by lia.
    rewrite (five_slots (bc g) Hl) at 1. unfold sumZ. cbn [fold_left]. lia.
Qed.

(** ** AggregateStats *)

(** *** The double arithmetic *)

Lemma two_pow_pos k : (0 < 2 ^ k)%Q.
Proof. by apply Qpower_0_lt. Qed.

Lemma two_pow_Z k : 0 <= k -> (2 ^ k == inject_Z (2 ^ k))%Q.
Proof. intros H. by rewrite Zpower_Qpower. Qed.

Lemma two_pow_le a b : a <= b -> (2 ^ a <= 2 ^ b)%Q.
Proof. intros H. by apply Qpower_le_compat_l. Qed.

Lemma two_pow_split a b : (2 ^ (a + b) == 2 ^ a * 2 ^ b)%Q.
Proof. by apply Qpower_plus. Qed.


Lemma Qinv_le_contravar a b : (0 < a)%Q -> (a <= b)%Q -> (/ b <= / a)%Q.
Proof.
  intros Ha Hab. apply Qle_shift_inv_l; [exact Ha|].
  assert (Hb : (0 < b)%Q) by lra.
  rewrite Qmult_comm. apply Qle_shift_div_r; [exact Hb|]. lra.
Qed.

Lemma Qlog2_spec x :
  (0 < x)%Q -> (2 ^ Qlog2 x <= x)%Q /\ (x < 2 ^ (Qlog2 x + 1))%Q.
Proof.
  intros Hx. unfold Qlog2.
  destruct (Qle_bool 1 x) eqn:E.
  - apply Qle_bool_iff in E.
    assert (Hf : 1 <= Qfloor x).
    { change 1 with (Qfloor 1). by apply Qfloor_resp_le. }
    pose proof (Z.log2_spec (Qfloor x) ltac:(lia)) as [H1 H2].
    pose proof (Z.log2_nonneg (Qfloor x)) as H0.
    split.
    + rewrite two_pow_Z by lia.
      eapply Qle_trans; [|apply Qfloor_le]. by rewrite <- Zle_Qle.
    + rewrite two_pow_Z by lia.
      eapply Qlt_le_trans; [apply Qlt_floor|]. rewrite <- Zle_Qle. lia.
  - assert (Hlt : (x < 1)%Q).
    { apply Qnot_le_lt. intros H. apply Qle_bool_iff in H. congruence. }
    assert (Hy : (1 < / x)%Q).
    { apply Qlt_shift_inv_l; [exact Hx|]. by rewrite Qmult_1_l. }
    assert (Hc : 1 < Qceiling (/ x)).
    { pose proof (Qle_ceiling (/ x)) as Hle.
      assert (H : (inject_Z 1 < inject_Z (Qceiling (/ x)))%Q)
        by (eapply Qlt_le_trans; eauto).
      by rewrite <- Zlt_Qlt in H. }
    pose proof (Z.log2_up_spec _ Hc) as [H1 H2].
    set (c := Z.log2_up (Qceiling (/ x))) in *.
    assert (Hc0 : 0 < c) by (by apply Z.log2_up_pos).
    assert (Hxx : (x == / / x)%Q) by (by rewrite Qinv_involutive).
    split.
    + rewrite Qpower_opp. rewrite Hxx at 1.
      apply Qinv_le_contravar; [lra|].
      eapply Qle_trans; [apply Qle_ceiling|].
      rewrite two_pow_Z by lia. by rewrite <- Zle_Qle.
    + replace (- c + 1) with (- (c - 1)) by lia.
      rewrite Qpower_opp. rewrite Hxx at 1.
      assert (Hy0 : (0 < / x)%Q) by lra.
      apply (proj1 (Qinv_lt_contravar (2 ^ (c - 1)) (/ x) (two_pow_pos _) Hy0)).
      eapply Qle_lt_trans; [|apply Qceiling_lt].
      rewrite two_pow_Z by lia. rewrite <- Zle_Qle.
      replace (c - 1) with (Z.pred c) by lia. lia.
Qed.

(** ** Rounding to an integer *)

Lemma rhe_bounds t :
  Qfloor t <= round_half_even t <= Qfloor t + 1.
Proof.
  unfold round_half_even.
  destruct (_ ?= _)%Q; [destruct (Z.even _)| |]; lia.
Qed.

Lemma rhe_int t : (t == inject_Z (Qfloor t))%Q -> round_half_even t = Qfloor t.
Proof.
  intros H. unfold round_half_even.
  assert (E : (t - inject_Z (Qfloor t) ?= 1 # 2)%Q = Lt).
  { apply (proj1 (Qlt_alt _ _)). lra. }
  by rewrite E.
Qed.

Lemma rhe_mono t u : (t <= u)%Q -> round_half_even t <= round_half_even u.
Proof.
  intros H. pose proof (Qfloor_resp_le _ _ H) as Hf.
  destruct (Z.eq_dec (Qfloor t) (Qfloor u)) as [E|E].
  - unfold round_half_even. rewrite E.
    destruct (t - inject_Z (Qfloor u) ?= 1 # 2)%Q eqn:Et;
      destruct (u - inject_Z (Qfloor u) ?= 1 # 2)%Q eqn:Eu;
      first [apply (proj2 (Qeq_alt _ _)) in Et | apply (proj2 (Qlt_alt _ _)) in Et
            | apply (proj2 (Qgt_alt _ _)) in Et];
      first [apply (proj2 (Qeq_alt _ _)) in Eu | apply (proj2 (Qlt_alt _ _)) in Eu
            | apply (proj2 (Qgt_alt _ _)) in Eu];
      try (destruct (Z.even (Qfloor u))); try lia; exfalso; lra.
  - pose proof (rhe_bounds t). pose proof (rhe_bounds u). lia.
Qed.

Lemma rhe_le_int t n : (t <= inject_Z n)%Q -> round_half_even t <= n.
Proof.
  intros H. pose proof (Qfloor_resp_le _ _ H) as Hf. rewrite Qfloor_Z in Hf.
  destruct (Z.eq_dec (Qfloor t) n) as [E|E].
  - rewrite rhe_int; [lia|].
    pose proof (Qfloor_le t). rewrite E in *. lra.
  - pose proof (rhe_bounds t). lia.
Qed.

Lemma rhe_ge_int t n : (inject_Z n <= t)%Q -> n <= round_half_even t.
Proof.
  intros H. pose proof (Qfloor_resp_le _ _ H) as Hf. rewrite Qfloor_Z in Hf.
  pose proof (rhe_bounds t). lia.
Qed.

(** ** Rounding to a double *)

Lemma Qlog2_mono x y : (0 < x)%Q -> (x <= y)%Q -> Qlog2 x <= Qlog2 y.
Proof.
  intros Hx Hxy.
  destruct (Qlog2_spec x Hx) as [H1 _].
  destruct (Qlog2_spec y ltac:(lra)) as [_ H2].
  assert (H : (2 ^ Qlog2 x < 2 ^ (Qlog2 y + 1))%Q) by lra.
  apply Qpower_lt_compat_l_inv in H; [lia | reflexivity].
Qed.

Lemma Qdiv_le_compat x y z : (0 < z)%Q -> (x <= y)%Q -> (x / z <= y / z)%Q.
Proof.
  intros Hz H. unfold Qdiv. apply Qmult_le_compat_r; [exact H|].
  apply Qinv_le_0_compat. lra.
Qed.

Lemma two_pow_div a b : (2 ^ a / 2 ^ b == 2 ^ (a - b))%Q.
Proof. by rewrite Qpower_minus. Qed.

Lemma double_round_pos_mono x y :
  (0 < x)%Q -> (x <= y)%Q -> (double_round_pos x <= double_round_pos y)%Q.
Proof.
  intros Hx Hxy.
  assert (Hy : (0 < y)%Q) by lra.
  pose proof (Qlog2_mono x y Hx Hxy) as He.
  destruct (Qlog2_spec x Hx) as [X1 X2].
  destruct (Qlog2_spec y Hy) as [Y1 Y2].
  unfold double_round_pos, double_ulp.
  set (ex := Qlog2 x) in *. set (ey := Qlog2 y) in *.
  set (kx := Z.max (ex - 52) (-1074)). set (ky := Z.max (ey - 52) (-1074)).
  destruct (Z.eq_dec kx ky) as [E|E].
  - rewrite E. apply Qmult_le_compat_r; [|apply Qlt_le_weak, two_pow_pos].
    rewrite <- Zle_Qle. apply rhe_mono.
    apply Qdiv_le_compat; [apply two_pow_pos | exact Hxy].
  - assert (Hk : kx < ky) by lia.
    assert (Hky : ky = ey - 52) by lia.
    assert (Hex : ex + 1 <= ey) by lia.
    apply Qle_trans with (2 ^ ey)%Q.
    + assert (Hd : 0 <= ey - kx) by lia.
      assert (Ht : (x / 2 ^ kx <= inject_Z (2 ^ (ey - kx)))%Q).
      { rewrite <- two_pow_Z by exact Hd. rewrite <- two_pow_div.
        apply Qdiv_le_compat; [apply two_pow_pos|].
        pose proof (two_pow_le (ex + 1) ey Hex). lra. }
      apply rhe_le_int in Ht.
      setoid_replace (2 ^ ey)%Q with (inject_Z (2 ^ (ey - kx)) * 2 ^ kx)%Q
        using relation Qeq.
      * apply Qmult_le_compat_r; [|apply Qlt_le_weak, two_pow_pos].
        by rewrite <- Zle_Qle.
      * rewrite <- two_pow_Z by exact Hd. rewrite <- two_pow_split.
        by replace (ey - kx + kx) with ey by lia.
    + assert (Hu : (inject_Z (2 ^ 52) <= y / 2 ^ ky)%Q).
      { rewrite <- two_pow_Z by lia.
        replace 52 with (ey - ky) by lia. rewrite <- two_pow_div.
        apply Qdiv_le_compat; [apply two_pow_pos | exact Y1]. }
      apply rhe_ge_int in Hu.
      setoid_replace (2 ^ ey)%Q with (inject_Z (2 ^ 52) * 2 ^ ky)%Q
        using relation Qeq.
      * apply Qmult_le_compat_r; [|apply Qlt_le_weak, two_pow_pos].
        by rewrite <- Zle_Qle.
      * rewrite <- two_pow_Z by lia. rewrite <- two_pow_split.
        by replace (52 + ky) with ey by lia.
Qed.

Lemma double_round_pos_nonneg x : (0 < x)%Q -> (0 <= double_round_pos x)%Q.
Proof.
  intros Hx. unfold double_round_pos.
  apply Qmult_le_0_compat; [|apply Qlt_le_weak, two_pow_pos].
  change 0%Q with (inject_Z 0). rewrite <- Zle_Qle.
  apply rhe_ge_int. change (inject_Z 0) with 0%Q.
  apply Qle_shift_div_l; [apply two_pow_pos|]. lra.
Qed.

(** Rounding keeps the order. *)
Lemma double_round_mono x y :
  (x <= y)%Q -> (double_round x <= double_round y)%Q.
Proof.
  intros H. unfold double_round.
  destruct (x ?= 0)%Q eqn:Ex; destruct (y ?= 0)%Q eqn:Ey;
    first [apply (proj2 (Qeq_alt _ _)) in Ex | apply (proj2 (Qlt_alt _ _)) in Ex
          | apply (proj2 (Qgt_alt _ _)) in Ex];
    first [apply (proj2 (Qeq_alt _ _)) in Ey | apply (proj2 (Qlt_alt _ _)) in Ey
          | apply (proj2 (Qgt_alt _ _)) in Ey];
    try (exfalso; lra).
  - lra.
  - by apply double_round_pos_nonneg.
  - pose proof (double_round_pos_nonneg (- x) ltac:(lra)). lra.
  - pose proof (double_round_pos_mono (- y) (- x) ltac:(lra) ltac:(lra)). lra.
  - pose proof (double_round_pos_nonneg (- x) ltac:(lra)).
    pose proof (double_round_pos_nonneg y Ey). lra.
  - by apply double_round_pos_mono.
Qed.

Lemma double_round_nonneg x : (0 <= x)%Q -> (0 <= double_round x)%Q.
Proof.
  intros H. change 0%Q with (double_round 0) at 1. by apply double_round_mono.
Qed.

(** Raising the frequency threshold keeps a rejection. *)
Lemma below_maf_mono x t f1 f2 :
  0 <= t -> (f1 <= f2)%Q ->
  below_maf x t f1 = true -> below_maf x t f2 = true.
Proof.
  intros Ht Hf. unfold below_maf. rewrite !negb_true_iff.
  intros H1. apply not_true_iff_false. intros H2.
  apply not_true_iff_false in H1. apply H1.
  apply Qle_bool_iff in H2. apply Qle_bool_iff.
  eapply Qle_trans; [|exact H2]. apply double_round_mono.
  rewrite !(Qmult_comm (double_of_size_t t)).
  apply Qmult_le_compat_r; [exact Hf|].
  apply double_round_nonneg. change 0%Q with (inject_Z 0).
  by rewrite <- Zle_Qle.
Qed.

Lemma rhe_comp t u : (t == u)%Q -> round_half_even t = round_half_even u.
Proof.
  intros H. unfold round_half_even. rewrite (Qfloor_comp _ _ H).
  assert (E : (t - inject_Z (Qfloor u) ?= 1 # 2)%Q
              = (u - inject_Z (Qfloor u) ?= 1 # 2)%Q) by (by rewrite H).
  by rewrite E.
Qed.

Lemma rhe_Z n : round_half_even (inject_Z n) = n.
Proof. rewrite rhe_int; rewrite Qfloor_Z; reflexivity. Qed.

(** Counts up to 2^53 are doubles: the conversion is exact. *)
Lemma double_of_size_t_exact z :
  0 <= z <= 2 ^ 53 -> (double_of_size_t z == inject_Z z)%Q.
Proof.
  intros Hz. unfold double_of_size_t, double_round.
  destruct (inject_Z z ?= 0)%Q eqn:E;
    first [apply (proj2 (Qeq_alt _ _)) in E | apply (proj2 (Qlt_alt _ _)) in E
          | apply (proj2 (Qgt_alt _ _)) in E].
  - by rewrite E.
  - exfalso. change 0%Q with (inject_Z 0) in E. rewrite <- Zlt_Qlt in E. lia.
  - change 0%Q with (inject_Z 0) in E. rewrite <- Zlt_Qlt in E.
    unfold double_round_pos, double_ulp.
    destruct (Qlog2_spec (inject_Z z)) as [H1 H2];
      [change 0%Q with (inject_Z 0); by rewrite <- Zlt_Qlt|].
    set (e := Qlog2 (inject_Z z)) in *.
    assert (He : e <= 53).
    { assert (H : (2 ^ e <= 2 ^ 53)%Q).
      { eapply Qle_trans; [exact H1|]. rewrite two_pow_Z by lia.
        rewrite <- Zle_Qle. lia. }
      apply (Qpower_le_compat_l_inv 2 e 53) in H; [exact H | reflexivity]. }
    assert (He0 : 0 <= e).
    { assert (H : (2 ^ 0 < 2 ^ (e + 1))%Q).
      { eapply Qle_lt_trans; [|exact H2]. change (2 ^ 0)%Q with (inject_Z 1).
        rewrite <- Zle_Qle. lia. }
      apply (Qpower_lt_compat_l_inv 2 0 (e + 1)) in H; [lia | reflexivity]. }
    set (k := Z.max (e - 52) (-1074)).
    destruct (Z.le_gt_cases k 0) as [Hk|Hk].
    + assert (Hq : (inject_Z z / 2 ^ k == inject_Z (z * 2 ^ (- k)))%Q).
      { rewrite inject_Z_mult, <- two_pow_Z by lia. rewrite Qpower_opp.
        unfold Qdiv. reflexivity. }
      rewrite (rhe_comp _ _ Hq), rhe_Z, inject_Z_mult, <- two_pow_Z by lia.
      rewrite <- Qmult_assoc, <- two_pow_split.
      replace (- k + k) with 0 by lia. change (2 ^ 0)%Q with 1%Q. ring.
    + (* k = 1: z = 2^53 *)
      assert (e = 53) by lia. assert (k = 1) by lia.
      assert (Hz53 : z = 2 ^ 53).
      { rewrite H, two_pow_Z in H1 by lia. rewrite <- Zle_Qle in H1. lia. }
      rewrite H0, Hz53. vm_compute. reflexivity.
Qed.

(** The frequency test, spelled out. *)
Lemma below_maf_lt x t maf :
  below_maf x t maf = true
  <-> (double_of_size_t x < double_round (double_of_size_t t * maf))%Q.
Proof.
  unfold below_maf. rewrite negb_true_iff, <- not_true_iff_false, Qle_bool_iff.
  split; [apply Qnot_le_lt | apply Qlt_not_le].
Qed.

(** The group loop, when it runs through, sets AD, DP and OTH of every
    group from the site-wide ref/alt and leaves names and counts alone. *)
Lemma stat_groups_ok gs r a h : forall nr h' nr',
  stat_groups gs r a h nr = (true, h', nr') ->
  h' = map (fun e => (fst e,
              set_adp (snd e) (arr_get (bc (snd e)) a)
                      (arr_get (bc (snd e)) r + arr_get (bc (snd e)) a)
                      (to_size_t (tc (snd e)
                         - (arr_get (bc (snd e)) r + arr_get (bc (snd e)) a))))) h.
Proof.
  induction h as [|[name g] h IH]; intros [[na nd] no] h' nr' H; simpl in H.
  - by inversion H.
  - destruct (is_genotype gs && negb _); [discriminate|].
    destruct (stat_groups gs r a h _) as [[ok rest'] nr''] eqn:E.
    inversion H; subst. simpl. f_equal. eapply IH. exact E.
Qed.

Lemma stat_groups_names gs r a h : forall nr,
  map fst (snd (fst (stat_groups gs r a h nr))) = map fst h.
Proof.
  induction h as [|[name g] h IH]; intros [[na nd] no]; simpl; [reflexivity|].
  destruct (is_genotype gs && negb _); [reflexivity|].
  specialize (IH (if arr_get (bc g) a =? 0 then na else na + 1,
                  if arr_get (bc g) r + arr_get (bc g) a =? 0 then nd else nd + 1,
                  if to_size_t (tc g - (arr_get (bc g) r + arr_get (bc g) a)) =? 0
                  then no else no + 1)).
  destruct (stat_groups gs r a h _) as [[ok rest'] nr'']. simpl in *.
  by rewrite IH.
Qed.

(** The statistics in one equation per exit. *)
Lemma csp_mplp_stat_cases m gs :
  let m1 := csp_mplp_sum m in
  let r := fst (csp_infer_allele (m_bc m1)) in
  let a := snd (csp_infer_allele (m_bc m1)) in
  let m2 := set_inf m1 r a in
  let m3 := if (ref_idx m <? 0) || (alt_idx m <? 0)
            then set_ref_alt m2 r a else m2 in
  let adv := arr_get (m_bc m1) (alt_idx m3) in
  let dpv := arr_get (m_bc m1) (ref_idx m3) + adv in
  let m4 := set_m_adp m3 adv dpv (to_size_t (m_tc m1 - dpv)) in
  let sg := stat_groups gs (ref_idx m3) (alt_idx m3) (hsg m1)
                        (nr_ad m, nr_dp m, nr_oth m) in
  csp_mplp_stat m gs =
    if m_tc m1 <? to_size_t (min_count gs) then (1, m1)
    else if below_maf (arr_get (m_bc m1) a) (m_tc m1) (min_maf gs) then (1, m2)
    else (if fst (fst sg) then 0 else -1,
          set_groups m4 (snd (fst sg)) (fst (fst (snd sg))) (snd (fst (snd sg)))
                     (snd (snd sg))).
Proof.
  cbv zeta. unfold csp_mplp_stat.
  destruct (m_tc (csp_mplp_sum m) <? to_size_t (min_count gs)); [reflexivity|].
  destruct (csp_infer_allele (m_bc (csp_mplp_sum m))) as [r a]. cbn [fst snd].
  cbn [m_bc m_tc inf_aid inf_rid set_inf].
  destruct (below_maf _ _ _); [reflexivity|].
  change (ref_idx (set_inf (csp_mplp_sum m) r a)) with (ref_idx m).
  change (alt_idx (set_inf (csp_mplp_sum m) r a)) with (alt_idx m).
  destruct ((ref_idx m <? 0) || (alt_idx m <? 0));
    cbn [m_bc m_tc ref_idx alt_idx hsg nr_ad nr_dp nr_oth set_m_adp set_ref_alt
         set_inf csp_mplp_sum];
    match goal with |- context [stat_groups ?g ?r ?a ?h ?n] =>
      destruct (stat_groups g r a h n) as [[ok h'] [[na nd] no]] end;
    reflexivity.
Qed.

(** C6.  For every SNP that passes the minimum-aggregate-count check the
    allele inference runs on the summed counts and its result is stored in
    [inf_rid]/[inf_aid], whatever ref/alt the SNP list supplied.  When the
    SNP also passes the allele-frequency check, the inferred pair becomes
    the SNP's ref/alt exactly when the supplied pair is not valid (one of
    the two indices is negative); a valid supplied pair is kept.  The
    site-wide and, when the group loop runs through, the per-group AD, DP
    and OTH are computed from the ref/alt so fixed. *)
Theorem stat_inference_and_install (m : csp_mplp_t) (gs : global_settings) :
  let m1 := csp_mplp_sum m in
  let r := fst (csp_infer_allele (m_bc m1)) in
  let a := snd (csp_infer_allele (m_bc m1)) in
  let res := snd (csp_mplp_stat m gs) in
  to_size_t (min_count gs) <= m_tc m1 ->
  (inf_rid res = r /\ inf_aid res = a)
  /\ (fst (csp_mplp_stat m gs) <> 1 ->
      ((ref_idx m < 0 \/ alt_idx m < 0) -> ref_idx res = r /\ alt_idx res = a)
      /\ ((0 <= ref_idx m /\ 0 <= alt_idx m) ->
          ref_idx res = ref_idx m /\ alt_idx res = alt_idx m)
      /\ m_ad res = arr_get (m_bc m1) (alt_idx res)
      /\ m_dp res = arr_get (m_bc m1) (ref_idx res) + m_ad res
      /\ m_oth res = to_size_t (m_tc m1 - m_dp res)
      /\ (fst (csp_mplp_stat m gs) = 0 ->
          Forall (fun e =>
                    ad (snd e) = arr_get (bc (snd e)) (alt_idx res)
                    /\ dp (snd e) = arr_get (bc (snd e)) (ref_idx res) + ad (snd e)
                    /\ oth (snd e) = to_size_t (tc (snd e) - dp (snd e)))
                 (hsg res))).
Proof.
  cbv zeta. intros Hcount.
  rewrite !csp_mplp_stat_cases. cbv zeta.
  destruct (m_tc (csp_mplp_sum m) <? to_size_t (min_count gs)) eqn:Ec;
    [zb Ec; lia|].
  destruct (below_maf _ _ _) eqn:Em; cbn [fst snd].
  - split; [split; reflexivity|]. intros H. done.
  - split.
    + destruct ((ref_idx m <? 0) || (alt_idx m <? 0)); split; reflexivity.
    + intros _.
      destruct ((ref_idx m <? 0) || (alt_idx m <? 0)) eqn:Ev.
      * split_and!; try reflexivity.
        { intros _. split; reflexivity. }
        { intros [H1 H2]. apply orb_true_iff in Ev as [Ev|Ev]; zb Ev; lia. }
        intros Hok.
        match goal with |- context [stat_groups ?g ?r ?a ?h ?n] =>
          destruct (stat_groups g r a h n) as [[ok h'] nr'] eqn:Es end.
        cbn [fst snd] in *. destruct ok; [|done].
        rewrite (stat_groups_ok _ _ _ _ _ _ _ Es). cbn [hsg set_groups].
        apply Forall_map, Forall_forall. intros e _. cbn. auto.
      * apply orb_false_iff in Ev as [E1 E2]. zb E1. zb E2.
        split_and!; try reflexivity.
        { intros [H|H]; lia. }
        { intros _. split; reflexivity. }
        intros Hok.
        match goal with |- context [stat_groups ?g ?r ?a ?h ?n] =>
          destruct (stat_groups g r a h n) as [[ok h'] nr'] eqn:Es end.
        cbn [fst snd] in *. destruct ok; [|done].
        rewrite (stat_groups_ok _ _ _ _ _ _ _ Es). cbn [hsg set_groups].
        apply Forall_map, Forall_forall. intros e _. cbn. auto.
Qed.

Lemma stat_reject_iff m gs :
  let m1 := csp_mplp_sum m in
  let a := snd (csp_infer_allele (m_bc m1)) in
  fst (csp_mplp_stat m gs) = 1
  <-> (m_tc m1 < to_size_t (min_count gs)
       \/ (double_of_size_t (arr_get (m_bc m1) a)
           < double_round (double_of_size_t (m_tc m1) * min_maf gs))%Q).
Proof.
  cbv zeta. rewrite csp_mplp_stat_cases. cbv zeta.
  destruct (m_tc (csp_mplp_sum m) <? to_size_t (min_count gs)) eqn:Ec; zb Ec.
  - cbn [fst]. split; [intros _; by left | done].
  - destruct (below_maf _ _ _) eqn:Em; cbn [fst].
    + apply below_maf_lt in Em. split; [intros _; by right | done].
    + split.
      * match goal with |- context [stat_groups ?g ?r ?a ?h ?n] =>
          destruct (fst (fst (stat_groups g r a h n))) end; discriminate.
      * intros [H|H]; [lia|]. apply below_maf_lt in H. congruence.
Qed.

(** C10.  [csp_mplp_stat] returns 1 exactly when the summed total is below
    the minimum count or the count of the inferred alt (the second slot
    returned by the allele inference) is below total x min_maf, the
    comparison being made on doubles as line 330 makes it.  The decision
    is the same whatever ref/alt the SNP list supplied; the count of a
    supplied alt plays no role in it.  First example: with A:10, C:1, G:5,
    supplied ref A and alt C, and min_maf 1/4, the supplied alt's count 1
    is below 16 x 1/4 = 4, yet the SNP passes because the inferred alt G
    has count 5, and the supplied alt is kept (AD = 1).  Second example:
    with A:9, C:1 and min_maf the double nearest to 0.1, the count 1 is
    below the exact product 10 x min_maf, but the product rounds to 1.0
    and the SNP passes. *)
Theorem maf_filter_uses_inferred_alt (m : csp_mplp_t) (gs : global_settings) :
  let m1 := csp_mplp_sum m in
  let a := snd (csp_infer_allele (m_bc m1)) in
  (fst (csp_mplp_stat m gs) = 1
   <-> (m_tc m1 < to_size_t (min_count gs)
        \/ (double_of_size_t (arr_get (m_bc m1) a)
            < double_round (double_of_size_t (m_tc m1) * min_maf gs))%Q))
  /\ (forall r' a',
        fst (csp_mplp_stat (set_ref_alt m r' a') gs) = 1
        <-> fst (csp_mplp_stat m gs) = 1)
  /\ (let gs0 := ex_gs_bulk ["S0"%string] 0 (1 # 4) in
      let res := csp_mplp_stat ex_maf_mplp gs0 in
      alt_idx ex_maf_mplp = 1
      /\ below_maf (arr_get (m_bc (csp_mplp_sum ex_maf_mplp)) 1)
                   (m_tc (csp_mplp_sum ex_maf_mplp)) (min_maf gs0) = true
      /\ fst res = 0 /\ alt_idx (snd res) = 1 /\ inf_aid (snd res) = 2
      /\ m_ad (snd res) = 1)
  /\ (let gs1 := ex_gs_bulk ["S0"%string] 0 ex_tenth in
      let m1 := csp_mplp_sum ex_tenth_mplp in
      (double_round (1 # 10) == ex_tenth)%Q
      /\ arr_get (m_bc m1) (snd (csp_infer_allele (m_bc m1))) = 1
      /\ m_tc m1 = 10
      /\ (1 < 10 * ex_tenth)%Q
      /\ (double_round (10 * ex_tenth) == 1)%Q
      /\ fst (csp_mplp_stat ex_tenth_mplp gs1) = 0).
Proof.
  cbv zeta. split; [apply stat_reject_iff|]. split.
  - intros r' a'. rewrite !stat_reject_iff. reflexivity.
  - split; vm_compute; repeat split; reflexivity.
Qed.

(** ** SiteDriver *)

(** The read loop keeps the table in pushed-after-reset shape. *)
Lemma pileup_reads_pending gs t i rs : forall p m n ok p' m' n',
  mplp_pending m ->
  pileup_reads gs t i rs p m n = Some (ok, p', m', n') ->
  mplp_pending m'.
Proof.
  induction rs as [|r rs IH]; intros p m n ok p' m' n' Hm H; simpl in H.
  - by inversion H; subst.
  - destruct (pileup_read_with_fetch t (set_b p r) gs) as [[st p1]|];
      [|discriminate].
    destruct (st =? 0).
    + destruct (use_barcodes gs || use_sid gs).
      * destruct (csp_mplp_push p1 m _ gs) as [rc m1] eqn:Ep.
        assert (Hm1 : mplp_pending m1).
        { replace m1 with (snd (csp_mplp_push p1 m
                     (if use_barcodes gs then -1 else i) gs))
            by (rewrite Ep; reflexivity).
          by apply push_pending. }
        destruct (rc <? 0).
        -- by inversion H; subst.
        -- eapply IH; [exact Hm1 | exact H].
      * by inversion H; subst.
    + destruct (st <? 0).
      * by inversion H; subst.
      * eapply IH; [exact Hm | exact H].
Qed.

Lemma pileup_sources_pending gs snp fs : forall i p m n st p' m' n',
  mplp_pending m ->
  pileup_sources gs snp fs i p m n = Some (st, p', m', n') ->
  mplp_pending m'.
Proof.
  induction fs as [|bs fs IH]; intros i p m n st p' m' n' Hm H; simpl in H.
  - by inversion H; subst.
  - destruct (name2id bs (chr snp) <? 0); [by inversion H; subst|].
    destruct (itr_query bs _ _ _) as [[rs ret]|]; [|by inversion H; subst].
    destruct (pileup_reads gs (pos snp) i rs p m n)
      as [[[[ok p1] m1] n1]|] eqn:Er; [|discriminate].
    pose proof (pileup_reads_pending _ _ _ _ _ _ _ _ _ _ _ Hm Er) as Hm1.
    destruct ok; [|by inversion H; subst].
    destruct (ret <? -1); [by inversion H; subst|].
    eapply IH; [exact Hm1 | exact H].
Qed.

(** The statistical thresholds play no role before the final checks. *)
Lemma pileup_reads_thresholds gs c f t i rs : forall p m n,
  pileup_reads (set_thresholds gs c f) t i rs p m n
  = pileup_reads gs t i rs p m n.
Proof.
  induction rs as [|r rs IH]; intros p m n; simpl; [reflexivity|].
  change (pileup_read_with_fetch t (set_b p r) (set_thresholds gs c f))
    with (pileup_read_with_fetch t (set_b p r) gs).
  destruct (pileup_read_with_fetch t (set_b p r) gs) as [[st p1]|];
    [|reflexivity].
  change (use_barcodes (set_thresholds gs c f)) with (use_barcodes gs).
  change (use_sid (set_thresholds gs c f)) with (use_sid gs).
  destruct (st =? 0).
  - destruct (use_barcodes gs || use_sid gs); [|reflexivity].
    change (csp_mplp_push p1 m (if use_barcodes gs then -1 else i)
              (set_thresholds gs c f))
      with (csp_mplp_push p1 m (if use_barcodes gs then -1 else i) gs).
    destruct (csp_mplp_push p1 m _ gs) as [rc m1].
    destruct (rc <? 0); [reflexivity|]. apply IH.
  - destruct (st <? 0); [reflexivity|]. apply IH.
Qed.

Lemma pileup_sources_thresholds gs c f snp fs : forall i p m n,
  pileup_sources (set_thresholds gs c f) snp fs i p m n
  = pileup_sources gs snp fs i p m n.
Proof.
  induction fs as [|bs fs IH]; intros i p m n; simpl; [reflexivity|].
  destruct (name2id bs (chr snp) <? 0); [reflexivity|].
  destruct (itr_query bs _ _ _) as [[rs ret]|]; [|reflexivity].
  rewrite pileup_reads_thresholds.
  destruct (pileup_reads gs (pos snp) i rs p m n)
    as [[[[ok p1] m1] n1]|]; [|reflexivity].
  destruct ok; [|reflexivity]. destruct (ret <? -1); [reflexivity|]. apply IH.
Qed.

Lemma stat_groups_thresholds gs c f r a h nr :
  stat_groups (set_thresholds gs c f) r a h nr = stat_groups gs r a h nr.
Proof.
  revert nr. induction h as [|[name g] h IH]; intros [[na nd] no]; simpl;
    [reflexivity|].
  destruct (is_genotype gs && negb _); [reflexivity|]. rewrite IH. reflexivity.
Qed.

Lemma to_size_t_small z : 0 <= z < 2 ^ 31 -> to_size_t z = z.
Proof. intros H. unfold to_size_t. apply Z.mod_small. lia. Qed.

(** Lowering the thresholds keeps a passing result of the statistics. *)
Lemma stat_thresholds_mono gs m c1 c2 f1 f2 :
  0 <= m_tc (csp_mplp_sum m) ->
  0 <= c1 -> c1 <= c2 -> c2 < 2 ^ 31 -> (f1 <= f2)%Q ->
  fst (csp_mplp_stat m (set_thresholds gs c2 f2)) = 0 ->
  csp_mplp_stat m (set_thresholds gs c1 f1)
  = csp_mplp_stat m (set_thresholds gs c2 f2).
Proof.
  intros Ht H0 H12 H2 Hf. rewrite !csp_mplp_stat_cases. cbv zeta.
  rewrite !stat_groups_thresholds.
  change (min_count (set_thresholds gs c1 f1)) with c1.
  change (min_count (set_thresholds gs c2 f2)) with c2.
  change (min_maf (set_thresholds gs c1 f1)) with f1.
  change (min_maf (set_thresholds gs c2 f2)) with f2.
  rewrite (to_size_t_small c1), (to_size_t_small c2) by lia.
  destruct (m_tc (csp_mplp_sum m) <? c2) eqn:E2; [discriminate|]. zb E2.
  destruct (below_maf _ _ f2) eqn:Em2; [discriminate|]. intros _.
  destruct (m_tc (csp_mplp_sum m) <? c1) eqn:E1; [zb E1; lia|].
  destruct (below_maf _ _ f1) eqn:Em1; [|reflexivity].
  exfalso. apply not_true_iff_false in Em2. apply Em2.
  by apply (below_maf_mono _ _ f1 f2).
Qed.

(** Per SNP: what passes under the higher thresholds passes under the
    lower ones, with the same result. *)
Lemma snp_thresholds_mono gs fs p names snp c1 c2 f1 f2 p' m' :
  0 <= c1 -> c1 <= c2 -> c2 < 2 ^ 31 -> (f1 <= f2)%Q ->
  pileup_snp_with_fetch snp fs p (mplp_of_roster names)
    (set_thresholds gs c2 f2) = Some (0, p', m') ->
  pileup_snp_with_fetch snp fs p (mplp_of_roster names)
    (set_thresholds gs c1 f1) = Some (0, p', m').
Proof.
  intros H0 H12 H2 Hf. unfold pileup_snp_with_fetch.
  rewrite !pileup_sources_thresholds.
  set (m0 := mplp_set_snp (mplp_of_roster names) snp).
  destruct (pileup_sources gs snp fs 0 p m0 0)
    as [[[[st p1] m1] n1]|] eqn:Es; [|discriminate].
  assert (Hm1 : mplp_pending m1).
  { eapply pileup_sources_pending; [|exact Es]. apply roster_pending. }
  destruct (negb (st =? 0)); [auto|].
  change (min_count (set_thresholds gs c1 f1)) with c1.
  change (min_count (set_thresholds gs c2 f2)) with c2.
  rewrite (to_size_t_small c1), (to_size_t_small c2) by lia.
  destruct (n1 <? c2) eqn:E2; [discriminate|]. zb E2.
  destruct (n1 <? c1) eqn:E1; [zb E1; lia|].
  destruct (csp_mplp_stat m1 (set_thresholds gs c2 f2)) as [ret2 m2] eqn:S2.
  destruct (negb (ret2 =? 0)) eqn:Er.
  - destruct (ret2 >? 0); discriminate.
  - apply negb_false_iff in Er. zb Er. subst ret2.
    rewrite (stat_thresholds_mono gs m1 c1 c2 f1 f2), S2; auto.
    + apply sum_pending_nonneg, Hm1.
    + by rewrite S2.
Qed.

Lemma filter_length_mono {A} (f g : A -> bool) (l : list A) :
  (forall x, f x = true -> g x = true) ->
  (length (List.filter f l) <= length (List.filter g l))%nat.
Proof.
  intros H. induction l as [|x l IH]; simpl; [lia|].
  destruct (f x) eqn:Ef.
  - rewrite (H x Ef). simpl. lia.
  - destruct (g x); simpl; lia.
Qed.

(** C8, as the code has it.  With every other input fixed, take
    thresholds [c1 <= c2] for the minimum count, both non-negative values
    of an [int], and [f1 <= f2] for the minimum allele frequency.  Every
    SNP that passes under [(c2, f2)] passes under [(c1, f1)], so the number
    of passing SNPs does not go up when a threshold is raised. *)
Theorem thresholds_monotone (gs : global_settings) (fs : list csp_bam_fs)
    (p : csp_pileup_t) (names : list string) (snps : list csp_snp_t)
    (c1 c2 : Z) (f1 f2 : Q) :
  0 <= c1 -> c1 <= c2 -> c2 < 2 ^ 31 -> (f1 <= f2)%Q ->
  (forall snp,
     snp_passes (set_thresholds gs c2 f2) fs p names snp = true ->
     snp_passes (set_thresholds gs c1 f1) fs p names snp = true)
  /\ (count_passing (set_thresholds gs c2 f2) fs p names snps
      <= count_passing (set_thresholds gs c1 f1) fs p names snps)%nat.
Proof.
  intros H0 H12 H2 Hf.
  assert (Hsnp : forall snp,
     snp_passes (set_thresholds gs c2 f2) fs p names snp = true ->
     snp_passes (set_thresholds gs c1 f1) fs p names snp = true).
  { intros snp. unfold snp_passes.
    destruct (pileup_snp_with_fetch snp fs p (mplp_of_roster names)
                (set_thresholds gs c2 f2)) as [[[st p'] m']|] eqn:E;
      [|discriminate].
    intros Hst. zb Hst. subst st.
    by rewrite (snp_thresholds_mono gs fs p names snp c1 c2 f1 f2 p' m'). }
  split; [exact Hsnp|]. unfold count_passing. by apply filter_length_mono.
Qed.

(** A source that lacks the chromosome ends the source loop with state 1,
    whatever sources follow it. *)
Lemma pileup_sources_missing gs snp bs fs2 p1 m1 n1 fs1 : forall i p m n,
  name2id bs (chr snp) < 0 ->
  pileup_sources gs snp fs1 i p m n = Some (0, p1, m1, n1) ->
  pileup_sources gs snp (fs1 ++ bs :: fs2) i p m n = Some (1, p1, m1, n1).
Proof.
  induction fs1 as [|b1 fs1 IH]; intros i p m n Hneg H; simpl in H |- *.
  - inversion H; subst.
    destruct (name2id bs (chr snp) <? 0) eqn:E; [reflexivity|zb E; lia].
  - destruct (name2id b1 (chr snp) <? 0); [discriminate|].
    destruct (itr_query b1 _ _ _) as [[rs ret]|]; [|discriminate].
    destruct (pileup_reads gs (pos snp) i rs p m n)
      as [[[[ok p2] m2] n2]|]; [|discriminate].
    destruct ok; [|discriminate].
    destruct (ret <? -1); [discriminate|]. by apply IH.
Qed.

(** C4, as the code has it.  When the SNP's chromosome cannot be resolved
    for the source [bs], after the sources [fs1] before it were read
    without failure, the source loop stops there: the sources [fs2] after
    [bs] are not consulted, [pileup_snp_with_fetch] returns 1 (a pileup
    failure without error) with the table as the earlier sources left it,
    and the worker resets the table and goes on with the next SNP; no
    output is written for this SNP. *)
Theorem missing_chrom_rejects_snp (gs : global_settings) (snp : csp_snp_t)
    (fs1 fs2 : list csp_bam_fs) (bs : csp_bam_fs) (p p1 : csp_pileup_t)
    (m m1 : csp_mplp_t) (n1 : Z) (rest : list csp_snp_t) (d : thread_data) :
  name2id bs (chr snp) < 0 ->
  pileup_sources gs snp fs1 0 p (mplp_set_snp m snp) 0 = Some (0, p1, m1, n1) ->
  let fs := fs1 ++ bs :: fs2 in
  pileup_snp_with_fetch snp fs p m gs = Some (1, p1, m1)
  /\ pileup_loop gs fs (snp :: rest) p m d
     = pileup_loop gs fs rest p1 (csp_mplp_reset m1) d.
Proof.
  intros Hneg Hpre fs.
  assert (Hsnp : pileup_snp_with_fetch snp fs p m gs = Some (1, p1, m1)).
  { unfold pileup_snp_with_fetch, fs.
    by rewrite (pileup_sources_missing gs snp bs fs2 p1 m1 n1 fs1). }
  split; [exact Hsnp|]. simpl. rewrite Hsnp. reflexivity.
Qed.

(** ** The pileup record carries nothing from read to read *)

(** The resolver overwrites every field that a push reads: its return
    code, and on success the fields read by [csp_mplp_push], depend on the
    read alone ("the values in it will be immediately overwritten"). *)
Lemma resolver_indep gs t r p q :
  match pileup_read_with_fetch t (set_b p r) gs,
        pileup_read_with_fetch t (set_b q r) gs with
  | Some (st, p'), Some (st', q') => st = st' /\ (st = 0 -> pagree gs p' q')
  | None, None => True
  | _, _ => False
  end.
Proof.
  unfold pileup_read_with_fetch, pagree, use_umi, use_barcodes.
  destruct (umi_tag gs) as [ut|], (cell_tag gs) as [ct|];
    cbn -[find_pos rest_laln Z.ltb Z.gtb Z.leb];
    try destruct (aux r ut) as [u|]; try destruct (aux r ct) as [c|];
    cbn -[find_pos rest_laln Z.ltb Z.gtb Z.leb]; try done;
    destruct (core_qual r <? min_mapq gs); try done;
    destruct (core_flag r >? max_flag gs); try done;
    (destruct (core_pos r <=? t) eqn:Epos;
       cbn -[find_pos rest_laln Z.ltb Z.gtb Z.leb]; [zb Epos | done]);
    (destruct (find_pos t (cigar r) (core_pos r) 0 0)
       as [[[[[op px] py] la] rest]|] eqn:Ef; [|done]);
    pose proof (find_pos_op _ _ _ _ _ _ _ _ _ _ Epos Ef) as Hop;
    (destruct (is_match_class op);
       [| destruct (is_del_or_skip op); [|discriminate]]);
    cbn -[find_pos rest_laln Z.ltb Z.gtb Z.leb];
    try destruct (rest_laln rest la <? u32 (min_len gs));
    cbn -[find_pos rest_laln Z.ltb Z.gtb Z.leb];
    (split; [reflexivity|]; intros H0; try discriminate H0; repeat split;
     intros; first [reflexivity | discriminate]).
Qed.

(** A push reads the barcode (in barcode mode), the UMI (in UMI mode), the
    base and the quality, and nothing else. *)
Lemma push_agree gs p q m sid :
  pagree gs p q -> csp_mplp_push p m sid gs = csp_mplp_push q m sid gs.
Proof.
  intros (Hu & Hc & Hb & Hq).
  assert (Hplp : forall g, plp_push p gs g = plp_push q gs g).
  { intros g. unfold plp_push, plp_count. rewrite Hb, Hq.
    destruct (use_umi gs); [|reflexivity]. rewrite (Hu eq_refl).
    reflexivity. }
  unfold csp_mplp_push.
  destruct (use_barcodes gs).
  - rewrite (Hc eq_refl). destruct (cb q) as [k|]; [|reflexivity].
    destruct (sg_get (hsg m) k); [|reflexivity].
    do 2 f_equal. apply list_alter_ext; [|reflexivity].
    intros e _. by rewrite Hplp.
  - destruct (use_sid gs); [|reflexivity].
    do 2 f_equal. apply list_alter_ext; [|reflexivity].
    intros e _. by rewrite Hplp.
Qed.

Lemma pileup_reads_indep gs t i rs : forall p q m n,
  match pileup_reads gs t i rs p m n, pileup_reads gs t i rs q m n with
  | Some (ok, _, m1, n1), Some (ok', _, m2, n2) =>
      ok = ok' /\ m1 = m2 /\ n1 = n2
  | None, None => True
  | _, _ => False
  end.
Proof.
  induction rs as [|r rs IH]; intros p q m n; simpl; [done|].
  pose proof (resolver_indep gs t r p q) as Hr.
  destruct (pileup_read_with_fetch t (set_b p r) gs) as [[st p1]|],
           (pileup_read_with_fetch t (set_b q r) gs) as [[st' q1]|];
    try done.
  destruct Hr as [<- Hag].
  destruct (st =? 0) eqn:E0.
  - zb E0. specialize (Hag E0).
    destruct (use_barcodes gs || use_sid gs); [|done].
    rewrite (push_agree gs p1 q1 m _ Hag).
    destruct (csp_mplp_push q1 m _ gs) as [rc m1].
    destruct (rc <? 0); [done|]. apply IH.
  - destruct (st <? 0); [done|]. apply IH.
Qed.

Lemma pileup_sources_indep gs snp fs : forall i p q m n,
  match pileup_sources gs snp fs i p m n, pileup_sources gs snp fs i q m n with
  | Some (st, _, m1, n1), Some (st', _, m2, n2) =>
      st = st' /\ m1 = m2 /\ n1 = n2
  | None, None => True
  | _, _ => False
  end.
Proof.
  induction fs as [|bs fs IH]; intros i p q m n; simpl; [done|].
  destruct (name2id bs (chr snp) <? 0); [done|].
  destruct (itr_query bs _ _ _) as [[rs ret]|]; [|done].
  pose proof (pileup_reads_indep gs (pos snp) i rs p q m n) as Hr.
  destruct (pileup_reads gs (pos snp) i rs p m n) as [[[[ok p1] m1] n1]|],
           (pileup_reads gs (pos snp) i rs q m n) as [[[[ok' q1] m2] n2]|];
    try done.
  destruct Hr as (<- & <- & <-).
  destruct ok; [|done]. destruct (ret <? -1); [done|]. apply IH.
Qed.

(** The outcome of a SNP does not depend on the pileup record the worker
    carries over from earlier reads. *)
Lemma pileup_snp_indep gs snp fs m p q :
  match pileup_snp_with_fetch snp fs p m gs,
        pileup_snp_with_fetch snp fs q m gs with
  | Some (st, _, m1), Some (st', _, m2) => st = st' /\ m1 = m2
  | None, None => True
  | _, _ => False
  end.
Proof.
  unfold pileup_snp_with_fetch.
  pose proof (pileup_sources_indep gs snp fs 0 p q (mplp_set_snp m snp) 0) as Hs.
  destruct (pileup_sources gs snp fs 0 p (mplp_set_snp m snp) 0)
    as [[[[st p1] m1] n1]|],
    (pileup_sources gs snp fs 0 q (mplp_set_snp m snp) 0)
    as [[[[st' q1] m2] n2]|]; try done.
  destruct Hs as (<- & <- & <-).
  destruct (negb (st =? 0)); [done|].
  destruct (n1 <? to_size_t (min_count gs)); [done|].
  destruct (csp_mplp_stat m1 gs) as [ret m3].
  destruct (negb (ret =? 0)); done.
Qed.

(** ** Names and record tallies *)

Lemma push_names p m sid gs :
  map fst (hsg (snd (csp_mplp_push p m sid gs))) = map fst (hsg m).
Proof.
  rewrite csp_mplp_push_target.
  destruct (push_target p m sid gs) as [i|]; [|reflexivity]. simpl.
  generalize (hsg m). intros h. revert i.
  induction h as [|e h IH]; intros [|i]; simpl; try reflexivity.
  f_equal. apply IH.
Qed.

Lemma pileup_reads_names gs t i rs : forall p m n ok p' m' n',
  pileup_reads gs t i rs p m n = Some (ok, p', m', n') ->
  map fst (hsg m') = map fst (hsg m).
Proof.
  induction rs as [|r rs IH]; intros p m n ok p' m' n' H; simpl in H.
  - by inversion H; subst.
  - destruct (pileup_read_with_fetch t (set_b p r) gs) as [[st p1]|];
      [|discriminate].
    destruct (st =? 0).
    + destruct (use_barcodes gs || use_sid gs).
      * pose proof (push_names p1 m (if use_barcodes gs then -1 else i) gs) as Hn.
        destruct (csp_mplp_push p1 m _ gs) as [rc m1]. simpl in Hn.
        destruct (rc <? 0).
        -- by inversion H; subst.
        -- rewrite <- Hn. eapply IH. exact H.
      * by inversion H; subst.
    + destruct (st <? 0).
      * by inversion H; subst.
      * eapply IH. exact H.
Qed.

Lemma pileup_sources_names gs snp fs : forall i p m n st p' m' n',
  pileup_sources gs snp fs i p m n = Some (st, p', m', n') ->
  map fst (hsg m') = map fst (hsg m).
Proof.
  induction fs as [|bs fs IH]; intros i p m n st p' m' n' H; simpl in H.
  - by inversion H; subst.
  - destruct (name2id bs (chr snp) <? 0); [by inversion H; subst|].
    destruct (itr_query bs _ _ _) as [[rs ret]|]; [|by inversion H; subst].
    destruct (pileup_reads gs (pos snp) i rs p m n)
      as [[[[ok p1] m1] n1]|] eqn:Er; [|discriminate].
    pose proof (pileup_reads_names _ _ _ _ _ _ _ _ _ _ _ Er) as Hn.
    destruct ok; [|by inversion H; subst].
    destruct (ret <? -1); [by inversion H; subst|].
    rewrite <- Hn. eapply IH. exact H.
Qed.

Lemma stat_names m gs :
  map fst (hsg (snd (csp_mplp_stat m gs))) = map fst (hsg m).
Proof.
  rewrite csp_mplp_stat_cases. cbv zeta.
  assert (Hs : map fst (hsg (csp_mplp_sum m)) = map fst (hsg m)).
  { unfold csp_mplp_sum. cbn [hsg]. rewrite map_map. reflexivity. }
  destruct (_ <? _); [exact Hs|].
  destruct (below_maf _ _ _); [exact Hs|].
  cbn [snd hsg set_groups]. rewrite stat_groups_names. exact Hs.
Qed.

Lemma pileup_snp_names gs snp fs p m st p' m' :
  pileup_snp_with_fetch snp fs p m gs = Some (st, p', m') ->
  map fst (hsg m') = map fst (hsg m).
Proof.
  unfold pileup_snp_with_fetch.
  destruct (pileup_sources gs snp fs 0 p (mplp_set_snp m snp) 0)
    as [[[[st1 p1] m1] n1]|] eqn:Es; [|discriminate].
  pose proof (pileup_sources_names _ _ _ _ _ _ _ _ _ _ _ Es) as Hn.
  change (hsg (mplp_set_snp m snp)) with (hsg m) in Hn.
  destruct (negb (st1 =? 0)); [intros H; by inversion H; subst|].
  destruct (n1 <? to_size_t (min_count gs)); [intros H; by inversion H; subst|].
  pose proof (stat_names m1 gs) as Hst.
  destruct (csp_mplp_stat m1 gs) as [ret m3]. simpl in Hst.
  destruct (negb (ret =? 0)); intros H; inversion H; subst; congruence.
Qed.

Lemma roster_names names : map fst (hsg (mplp_of_roster names)) = names.
Proof.
  simpl. rewrite map_map. simpl. apply map_id.
Qed.

(** After any SNP the reset table is the table of the roster again. *)
Lemma reset_after_snp gs snp fs p names st p' m' :
  pileup_snp_with_fetch snp fs p (mplp_of_roster names) gs = Some (st, p', m') ->
  csp_mplp_reset m' = mplp_of_roster names.
Proof.
  intros H. unfold csp_mplp_reset.
  by rewrite (pileup_snp_names _ _ _ _ _ _ _ _ H), roster_names.
Qed.

(** The group loop counts the groups with nonzero AD, DP and OTH. *)
Lemma stat_groups_counts gs r a h : forall na nd no h' na' nd' no',
  stat_groups gs r a h (na, nd, no) = (true, h', (na', nd', no')) ->
  na' = na + nonzero ad h' /\ nd' = nd + nonzero dp h'
  /\ no' = no + nonzero oth h'.
Proof.
  unfold nonzero.
  induction h as [|[name g] h IH]; intros na nd no h' na' nd' no' H;
    simpl in H.
  - inversion H; subst. simpl. lia.
  - destruct (is_genotype gs && negb _); [discriminate|].
    destruct (stat_groups gs r a h _) as [[ok rest'] [[x y] z]] eqn:E.
    inversion H; subst. apply IH in E. destruct E as (-> & -> & ->).
    cbn [List.filter snd ad dp oth set_adp].
    destruct (arr_get (bc g) a =? 0);
      destruct (arr_get (bc g) r + arr_get (bc g) a =? 0);
      destruct (to_size_t _ =? 0); cbn [negb length]; lia.
Qed.

(** ** Worker *)

Lemma csp_fs_puts_puts a c f :
  csp_fs_puts c (csp_fs_puts a f) = csp_fs_puts (a ++ c) f.
Proof. unfold csp_fs_puts. simpl. by rewrite app_assoc. Qed.

Lemma csp_fs_puts_nil f : csp_fs_puts [] f = f.
Proof. destruct f. unfold csp_fs_puts. simpl. by rewrite app_nil_r. Qed.

Lemma output_snp_ret gs snp m d : d_ret (output_snp gs snp m d) = d_ret d.
Proof. reflexivity. Qed.

Lemma emit_ret gs ps : forall d, d_ret (emit gs ps d) = d_ret d.
Proof.
  unfold emit. induction ps as [|e ps IH]; intros d; simpl; [reflexivity|].
  by rewrite IH.
Qed.

(** The worker loop on a shard whose SNPs all run through: it appends the
    output of the passing ones and reports success. *)
Lemma pileup_loop_ok gs fs names snps : forall ps p d,
  passing gs fs names snps = Some ps ->
  pileup_loop gs fs snps p (mplp_of_roster names) d
  = Some (set_ret (emit gs ps d) 0).
Proof.
  induction snps as [|snp snps IH]; intros ps p d H; simpl in H |- *.
  - by inversion H; subst.
  - pose proof (pileup_snp_indep gs snp fs (mplp_of_roster names)
                  csp_pileup_init p) as Hi.
    destruct (pileup_snp_with_fetch snp fs csp_pileup_init
                (mplp_of_roster names) gs) as [[[ret p0] m0]|] eqn:E0;
      [|discriminate].
    destruct (pileup_snp_with_fetch snp fs p (mplp_of_roster names) gs)
      as [[[ret' p1] m1]|]; [|done].
    destruct Hi as [<- <-].
    rewrite (reset_after_snp _ _ _ _ _ _ _ _ E0).
    destruct (ret <? 0) eqn:En; [discriminate|].
    destruct (passing gs fs names snps) as [ps'|]; [|discriminate].
    inversion H; subst.
    destruct (ret =? 0); simpl; by rewrite (IH ps').
Qed.

(** The worker loop on a shard with a failing SNP: the process aborts, or
    the worker stops with its running state as it was. *)
Lemma pileup_loop_fail gs fs names snps : forall p d,
  passing gs fs names snps = None ->
  pileup_loop gs fs snps p (mplp_of_roster names) d = None
  \/ exists d', pileup_loop gs fs snps p (mplp_of_roster names) d = Some d'
                /\ d_ret d' = d_ret d.
Proof.
  induction snps as [|snp snps IH]; intros p d H; simpl in H |- *;
    [discriminate|].
  pose proof (pileup_snp_indep gs snp fs (mplp_of_roster names)
                csp_pileup_init p) as Hi.
  destruct (pileup_snp_with_fetch snp fs csp_pileup_init
              (mplp_of_roster names) gs) as [[[ret p0] m0]|] eqn:E0.
  - destruct (pileup_snp_with_fetch snp fs p (mplp_of_roster names) gs)
      as [[[ret' p1] m1]|]; [|done].
    destruct Hi as [<- <-].
    rewrite (reset_after_snp _ _ _ _ _ _ _ _ E0).
    destruct (ret <? 0) eqn:En.
    + right. exists d. zb En.
      destruct (ret =? 0) eqn:Ez; [zb Ez; lia|]. simpl. done.
    + destruct (passing gs fs names snps) as [ps'|]; [discriminate|].
      destruct (ret =? 0); simpl.
      * destruct (IH p1 (output_snp gs snp m0 d) eq_refl)
          as [Hn | (d' & Hd & Hr)]; [by left|].
        right. exists d'. split; [exact Hd|]. by rewrite Hr.
      * apply IH. reflexivity.
  - destruct (pileup_snp_with_fetch snp fs p (mplp_of_roster names) gs)
      as [[[ret' p1] m1]|]; [done|]. by left.
Qed.

Lemma passing_app gs fs names l1 l2 :
  passing gs fs names (l1 ++ l2)
  = match passing gs fs names l1, passing gs fs names l2 with
    | Some p1, Some p2 => Some (p1 ++ p2)
    | _, _ => None
    end.
Proof.
  induction l1 as [|snp l1 IH]; simpl.
  - by destruct (passing gs fs names l2).
  - destruct (pileup_snp_with_fetch snp fs csp_pileup_init
                (mplp_of_roster names) gs) as [[[ret p0] m0]|];
      [|reflexivity].
    destruct (ret <? 0); [reflexivity|]. rewrite IH.
    destruct (passing gs fs names l1), (passing gs fs names l2);
      try reflexivity.
    by destruct (ret =? 0).
Qed.

(** What [emit] appends and adds up. *)
Lemma emit_spec gs ps : forall d,
  emit gs ps d =
  {| d_n := d_n d; d_m := d_m d;
     d_out :=
       {| out_mtx_ad :=
            csp_fs_puts (mtx_body ad (is_tmp (out_mtx_ad (d_out d))) (d_ns d) ps)
                        (out_mtx_ad (d_out d));
          out_mtx_dp :=
            csp_fs_puts (mtx_body dp (is_tmp (out_mtx_dp (d_out d))) (d_ns d) ps)
                        (out_mtx_dp (d_out d));
          out_mtx_oth :=
            csp_fs_puts (mtx_body oth (is_tmp (out_mtx_oth (d_out d))) (d_ns d) ps)
                        (out_mtx_oth (d_out d));
          out_vcf_base := csp_fs_puts (vcf_base_body ps) (out_vcf_base (d_out d));
          out_vcf_cells :=
            csp_fs_puts (vcf_cells_body gs ps) (out_vcf_cells (d_out d)) |};
     d_ns := d_ns d + Z.of_nat (length ps);
     d_nr_ad := d_nr_ad d + sumZ (map (fun e => nr_ad (snd e)) ps);
     d_nr_dp := d_nr_dp d + sumZ (map (fun e => nr_dp (snd e)) ps);
     d_nr_oth := d_nr_oth d + sumZ (map (fun e => nr_oth (snd e)) ps);
     d_ret := d_ret d |}.
Proof.
  induction ps as [|e ps IH]; intros d.
  - unfold emit, vcf_base_body, vcf_cells_body. simpl.
    destruct (is_genotype gs); rewrite !csp_fs_puts_nil;
      destruct d as [? ? [] ? ? ? ? ?]; simpl; f_equal; unfold sumZ; simpl; lia.
  - change (emit gs (e :: ps) d)
      with (emit gs ps (output_snp gs (fst e) (snd e) d)).
    rewrite IH. unfold output_snp, csp_mplp_to_mtx, mtx_site.
    cbn [d_n d_m d_out d_ns d_nr_ad d_nr_dp d_nr_oth d_ret
         out_mtx_ad out_mtx_dp out_mtx_oth out_vcf_base out_vcf_cells].
    rewrite !csp_fs_puts_puts.
    cbn [is_tmp csp_fs_puts length map mtx_body].
    rewrite !sumZ_cons.
    f_equal; [|lia..].
    unfold vcf_base_body, vcf_cells_body.
    destruct (is_genotype gs); cbn [map concat];
      rewrite ?csp_fs_puts_puts; f_equal; f_equal;
      rewrite <- ?app_assoc; reflexivity.
Qed.

(** ** Lines of text *)

(** Equal lists up to the nesting of appends. *)
Ltac list_eq :=
  repeat (rewrite <- app_assoc || rewrite <- app_comm_cons
          || rewrite app_nil_l || rewrite app_nil_r);
  reflexivity.

Lemma uint_chars (u : Decimal.uint) :
  Forall line_char (bytes (NilEmpty.string_of_uint u)).
Proof.
  induction u; simpl; constructor; auto; split; discriminate.
Qed.

Lemma dec_chars z : Forall line_char (dec z).
Proof.
  unfold dec. destruct (Z.to_int z) as [u|u]; simpl.
  - unfold NilZero.string_of_uint.
    destruct u; try apply uint_chars.
    simpl. constructor; [split; discriminate|constructor].
  - constructor; [split; discriminate|].
    unfold NilZero.string_of_uint.
    destruct u; try apply uint_chars.
    simpl. constructor; [split; discriminate|constructor].
Qed.

Lemma dec_nonempty z : exists c l, dec z = c :: l.
Proof.
  unfold dec. destruct (Z.to_int z) as [u|u]; simpl.
  - unfold NilZero.string_of_uint. destruct u; simpl; eauto.
  - eauto.
Qed.

Lemma tab_char : line_char tab.
Proof. split; discriminate. Qed.

Lemma eqb_nl_false c : c <> nl -> Ascii.eqb c nl = false.
Proof. intros H. by apply Ascii.eqb_neq. Qed.

(** A newline-free line followed by a newline is the first line read. *)
Lemma file_lines_line (l rest : list ascii) :
  Forall line_char l ->
  file_lines (l ++ nl :: rest) = l :: file_lines rest.
Proof.
  induction 1 as [|c l [Hc _] Hl IH]; simpl.
  - reflexivity.
  - rewrite (eqb_nl_false c Hc), IH. reflexivity.
Qed.

Lemma read_line_line (l rest : list ascii) :
  Forall line_char l -> read_line (l ++ nl :: rest) = (l, rest).
Proof.
  induction 1 as [|c l [Hc _] Hl IH]; simpl.
  - reflexivity.
  - rewrite (eqb_nl_false c Hc), IH. reflexivity.
Qed.

(** [file_lines] is what repeated [csp_fs_getln] calls return. *)
Lemma file_lines_getln (s : list ascii) :
  file_lines s = match csp_fs_getln s with
                 | None => []
                 | Some (l, r) => l :: file_lines r
                 end.
Proof.
  induction s as [|c s IH]; [reflexivity|].
  unfold csp_fs_getln. cbn [file_lines read_line].
  destruct (Ascii.eqb c nl); [reflexivity|].
  rewrite IH. unfold csp_fs_getln.
  destruct s as [|c' s']; [reflexivity|].
  destruct (read_line (c' :: s')) as [l r]. reflexivity.
Qed.

(** ** merge_mtx *)

(** One matrix record as a fragment holds it. *)
Lemma tmp_row_chars i v : Forall line_char (dec i ++ [tab] ++ dec v).
Proof.
  apply Forall_app. split; [apply dec_chars|].
  constructor; [apply tab_char | apply dec_chars].
Qed.

Lemma merge_line_row k m out i v :
  merge_line (k, m, out) (dec i ++ [tab] ++ dec v)
  = (k, m + 1,
     csp_fs_puts (dec k ++ [tab] ++ (dec i ++ [tab] ++ dec v) ++ [nl]) out).
Proof.
  unfold merge_line. destruct (dec_nonempty i) as (c & l & Hd).
  rewrite Hd. reflexivity.
Qed.

(** Merging the rows of one site: every row gets the running ordinal [k]
    in front, which is the row as the direct path writes it. *)
Lemma merge_rows sel k h : forall i idx m out tail,
  fold_left merge_line (file_lines (mtx_rows sel true idx i h ++ tail))
            (k, m, out)
  = fold_left merge_line (file_lines tail)
              (k, m + nonzero sel h, csp_fs_puts (mtx_rows sel false k i h) out).
Proof.
  unfold nonzero.
  induction h as [|e h IH]; intros i idx m out tail; simpl.
  - rewrite Z.add_0_r, csp_fs_puts_nil. reflexivity.
  - destruct (sel (snd e) =? 0); simpl.
    + apply IH.
    + set (v := sel (snd e)).
      set (rows := mtx_rows sel true idx (i + 1) h).
      match goal with |- fold_left _ (file_lines ?x) _ = _ =>
        replace x with ((dec i ++ [tab] ++ dec v) ++ nl :: (rows ++ tail))
          by list_eq
      end.
      match goal with |- _ = fold_left _ _ (_, _, csp_fs_puts ?x _) =>
        replace x with ((dec k ++ [tab] ++ (dec i ++ [tab] ++ dec v) ++ [nl])
                        ++ mtx_rows sel false k (i + 1) h)
          by list_eq
      end.
      rewrite file_lines_line by apply tmp_row_chars.
      cbn [fold_left]. rewrite merge_line_row.
      unfold rows. rewrite IH, csp_fs_puts_puts.
      do 3 f_equal. lia.
Qed.

Lemma triple_eq {A B C} (a a' : A) (b b' : B) (c c' : C) :
  a = a' -> b = b' -> c = c' -> (a, b, c) = (a', b', c').
Proof. by intros -> -> ->. Qed.

(** Merging one fragment: the ordinal advances by the number of sites,
    the record counter by the number of records, and the text appended is
    the text of the direct path for the same sites. *)
Lemma merge_fragment sel ps : forall ns0 k m out,
  fold_left merge_line (file_lines (mtx_body sel true ns0 ps)) (k, m, out)
  = (k + Z.of_nat (length ps),
     m + sumZ (map (fun e => nonzero sel (hsg (snd e))) ps),
     csp_fs_puts (mtx_body sel false (k - 1) ps) out).
Proof.
  induction ps as [|e ps IH]; intros ns0 k m out.
  - simpl. rewrite csp_fs_puts_nil. unfold sumZ. simpl.
    apply triple_eq; [lia | lia | reflexivity].
  - cbn [mtx_body map length]. rewrite <- app_assoc.
    rewrite merge_rows. cbn [app file_lines].
    change (Ascii.eqb nl nl) with true. cbn [fold_left merge_line].
    rewrite IH, csp_fs_puts_puts, sumZ_cons, app_nil_r.
    apply triple_eq; [lia | lia |].
    replace (k - 1 + 1) with k by lia.
    replace (k + 1 - 1) with k by lia. reflexivity.
Qed.

Lemma mtx_body_app sel tmp ps1 : forall ns0 ps2,
  mtx_body sel tmp ns0 (ps1 ++ ps2)
  = mtx_body sel tmp ns0 ps1
    ++ mtx_body sel tmp (ns0 + Z.of_nat (length ps1)) ps2.
Proof.
  induction ps1 as [|e ps1 IH]; intros ns0 ps2.
  - simpl. by rewrite Z.add_0_r.
  - cbn [app mtx_body length]. rewrite IH, <- !app_assoc.
    do 3 f_equal. f_equal. lia.
Qed.

(** Merging the fragments of consecutive shards, from a running state. *)
Lemma merge_fragments sel (parts : list (list (csp_snp_t * csp_mplp_t))) :
  forall (frs : list csp_fs_t) k m out,
  Forall2 (fun f ps => exists ns0, data f = mtx_body sel true ns0 ps)
          frs parts ->
  fold_left (fun st f => fold_left merge_line (file_lines (data f)) st)
            frs (k, m, out)
  = (k + Z.of_nat (length (concat parts)),
     m + sumZ (map (fun e => nonzero sel (hsg (snd e))) (concat parts)),
     csp_fs_puts (mtx_body sel false (k - 1) (concat parts)) out).
Proof.
  induction parts as [|ps parts IH]; intros frs k m out H;
    inversion H as [|f ? frs' ? [ns0 Hf] Hrest]; subst.
  - simpl. rewrite csp_fs_puts_nil. unfold sumZ. simpl.
    apply triple_eq; [lia | lia | reflexivity].
  - cbn [fold_left concat]. rewrite Hf, merge_fragment, (IH _ _ _ _ Hrest).
    rewrite length_app, map_app, sumZ_app, mtx_body_app, csp_fs_puts_puts.
    apply triple_eq; [lia | lia |].
    do 3 f_equal. lia.
Qed.

(** [merge_mtx] on the fragments of consecutive shards: the body of the
    direct path, the number of sites and the number of records. *)
Lemma merge_mtx_fragments sel parts frs out :
  Forall2 (fun f ps => exists ns0, data f = mtx_body sel true ns0 ps)
          frs parts ->
  merge_mtx out frs
  = (csp_fs_puts (mtx_body sel false 0 (concat parts)) out,
     Z.of_nat (length (concat parts)),
     sumZ (map (fun e => nonzero sel (hsg (snd e))) (concat parts)), 0).
Proof.
  intros H. unfold merge_mtx. rewrite (merge_fragments sel parts frs _ _ _ H).
  f_equal. apply triple_eq; [reflexivity | lia | lia].
Qed.

(** ** rewrite_mtx *)

Lemma nonzero_nonneg sel h : 0 <= nonzero sel h.
Proof. unfold nonzero. lia. Qed.

(** The rows of a site in a final file: nothing, or a first line that
    starts with a digit of the ordinal. *)
Lemma mtx_rows_shape sel idx h : forall i,
  (mtx_rows sel false idx i h = [] /\ nonzero sel h = 0)
  \/ (exists c l rest,
        mtx_rows sel false idx i h = (c :: l) ++ nl :: rest
        /\ Forall line_char (c :: l) /\ 0 < nonzero sel h).
Proof.
  unfold nonzero.
  induction h as [|e h IH]; intros i; cbn [mtx_rows List.filter].
  - left. split; reflexivity.
  - destruct (sel (snd e) =? 0); cbn [negb].
    + rewrite app_nil_l. apply IH.
    + right.
      destruct (dec_nonempty idx) as (c & l & Hd).
      exists c, (l ++ [tab] ++ dec i ++ [tab] ++ dec (sel (snd e))),
             (mtx_rows sel false idx (i + 1) h).
      split_and!.
      * rewrite Hd. list_eq.
      * change (c :: l ++ [tab] ++ dec i ++ [tab] ++ dec (sel (snd e)))
          with ((c :: l) ++ [tab] ++ dec i ++ [tab] ++ dec (sel (snd e))).
        rewrite <- Hd.
        repeat (apply Forall_app; split);
          first [apply dec_chars | constructor; [apply tab_char|constructor]].
      * cbn [length]. lia.
Qed.

Lemma mtx_body_shape sel ps : forall ns0,
  (mtx_body sel false ns0 ps = []
   /\ sumZ (map (fun e => nonzero sel (hsg (snd e))) ps) = 0)
  \/ (exists c l rest,
        mtx_body sel false ns0 ps = (c :: l) ++ nl :: rest
        /\ Forall line_char (c :: l)
        /\ 0 < sumZ (map (fun e => nonzero sel (hsg (snd e))) ps)).
Proof.
  induction ps as [|e ps IH]; intros ns0; cbn [mtx_body map].
  - left. split; reflexivity.
  - rewrite sumZ_cons, app_nil_r.
    destruct (mtx_rows_shape sel (ns0 + 1) (hsg (snd e)) 1)
      as [[-> ->] | (c & l & rest & -> & Hl & Hn)].
    + rewrite app_nil_l. apply IH.
    + right. exists c, l, (rest ++ mtx_body sel false (ns0 + 1) ps).
      split_and!; [list_eq | exact Hl |].
      assert (0 <= sumZ (map (fun e => nonzero sel (hsg (snd e))) ps)).
      { apply sumZ_nonneg, Forall_map, Forall_forall. intros x _.
        apply nonzero_nonneg. }
      lia.
Qed.

(** The comment loop of [rewrite_mtx] on a file that holds the Matrix
    Market comment lines and then records. *)
Lemma skip_header_empty n :
  skip_comments (S (S (S n))) CSP_MTX_HEADER [] = (None, [], CSP_MTX_HEADER).
Proof. reflexivity. Qed.

Lemma skip_header_records n c l rest :
  Forall line_char (c :: l) ->
  skip_comments (S (S (S n))) (CSP_MTX_HEADER ++ (c :: l) ++ nl :: rest) []
  = (Some (c :: l), rest, CSP_MTX_HEADER).
Proof.
  intros Hl.
  inversion Hl as [|? ? [Hn Hp] Hl']; subst.
  assert (Hc : Ascii.eqb c "%" = false) by (by apply Ascii.eqb_neq).
  pose proof (read_line_line l rest Hl') as Hr.
  cbn. rewrite (eqb_nl_false c Hn), Hr, Hc. reflexivity.
Qed.

Lemma rewrite_mtx_direct sel ps ns nsmp :
  let nr := sumZ (map (fun e => nonzero sel (hsg (snd e))) ps) in
  rewrite_mtx {| is_tmp := false;
                 data := CSP_MTX_HEADER ++ mtx_body sel false 0 ps |}
              ns nsmp nr
  = (0, {| is_tmp := false;
           data := CSP_MTX_HEADER
                   ++ mtx_summary ns nsmp nr ++ mtx_body sel false 0 ps |}).
Proof.
  intros nr. unfold rewrite_mtx. cbn [data is_tmp].
  destruct (mtx_body_shape sel ps 0)
    as [[Hb Hn] | (c & l & rest & Hb & Hl & Hn)]; fold nr in Hn; rewrite Hb.
  - rewrite app_nil_r.
    change (length CSP_MTX_HEADER) with 51%nat.
    rewrite skip_header_empty. rewrite Hn. cbn.
    rewrite !app_nil_r. reflexivity.
  - rewrite length_app.
    change (length CSP_MTX_HEADER) with 51%nat.
    change (S (51 + length ((c :: l) ++ nl :: rest)))
      with (S (S (S (49 + length ((c :: l) ++ nl :: rest))))).
    rewrite skip_header_records by exact Hl.
    destruct (nr =? 0) eqn:E; [zb E; lia|].
    rewrite bool_decide_eq_false_2 by discriminate.
    cbn [andb negb]. do 2 f_equal. list_eq.
Qed.

(** ** Record tallies of passing SNPs *)

Lemma stat_ok_counts m gs m' :
  mplp_pending m -> csp_mplp_stat m gs = (0, m') ->
  nr_ad m' = nonzero ad (hsg m') /\ nr_dp m' = nonzero dp (hsg m')
  /\ nr_oth m' = nonzero oth (hsg m').
Proof.
  intros (_ & _ & _ & Ha & Hd & Ho). rewrite csp_mplp_stat_cases. cbv zeta.
  destruct (_ <? _); [discriminate|].
  destruct (below_maf _ _ _); [discriminate|].
  rewrite Ha, Hd, Ho.
  match goal with |- context [stat_groups ?g ?r ?a ?h ?n] =>
    destruct (stat_groups g r a h n) as [[ok h'] [[na nd] no]] eqn:Es end.
  cbn [fst snd]. destruct ok; [|discriminate].
  intros H. inversion H; subst. cbn [nr_ad nr_dp nr_oth hsg set_groups].
  destruct (stat_groups_counts _ _ _ _ _ _ _ _ _ _ _ Es) as (-> & -> & ->).
  lia.
Qed.

Lemma snp_ok_counts gs fs p names snp p' m' :
  pileup_snp_with_fetch snp fs p (mplp_of_roster names) gs = Some (0, p', m') ->
  nr_ad m' = nonzero ad (hsg m') /\ nr_dp m' = nonzero dp (hsg m')
  /\ nr_oth m' = nonzero oth (hsg m').
Proof.
  unfold pileup_snp_with_fetch.
  destruct (pileup_sources gs snp fs 0 p _ 0)
    as [[[[st p1] m1] n1]|] eqn:Es; [|discriminate].
  assert (Hm1 : mplp_pending m1).
  { eapply pileup_sources_pending; [|exact Es]. apply roster_pending. }
  destruct (negb (st =? 0)) eqn:E0.
  { intros H. inversion H; subst. discriminate. }
  destruct (n1 <? to_size_t (min_count gs)); [discriminate|].
  destruct (csp_mplp_stat m1 gs) as [ret m3] eqn:St.
  destruct (negb (ret =? 0)) eqn:Er.
  - destruct (ret >? 0); discriminate.
  - intros H. inversion H; subst. apply negb_false_iff in Er. zb Er. subst.
    by apply (stat_ok_counts m1 gs).
Qed.

Lemma passing_counts gs fs names snps : forall ps,
  passing gs fs names snps = Some ps ->
  Forall (fun e => nr_ad (snd e) = nonzero ad (hsg (snd e))
                   /\ nr_dp (snd e) = nonzero dp (hsg (snd e))
                   /\ nr_oth (snd e) = nonzero oth (hsg (snd e))) ps.
Proof.
  induction snps as [|snp snps IH]; intros ps H; simpl in H.
  - inversion H; subst. constructor.
  - destruct (pileup_snp_with_fetch snp fs csp_pileup_init
                (mplp_of_roster names) gs) as [[[ret p0] m0]|] eqn:E0;
      [|discriminate].
    destruct (ret <? 0); [discriminate|].
    destruct (passing gs fs names snps) as [ps'|]; [|discriminate].
    inversion H; subst. specialize (IH ps' eq_refl).
    destruct (ret =? 0) eqn:Ez; [|exact IH]. zb Ez. subst.
    constructor; [|exact IH]. simpl.
    by apply (snp_ok_counts gs fs csp_pileup_init names snp p0).
Qed.

Lemma passing_tallies gs fs names snps ps :
  passing gs fs names snps = Some ps ->
  sumZ (map (fun e => nr_ad (snd e)) ps)
    = sumZ (map (fun e => nonzero ad (hsg (snd e))) ps)
  /\ sumZ (map (fun e => nr_dp (snd e)) ps)
    = sumZ (map (fun e => nonzero dp (hsg (snd e))) ps)
  /\ sumZ (map (fun e => nr_oth (snd e)) ps)
    = sumZ (map (fun e => nonzero oth (hsg (snd e))) ps).
Proof.
  intros H. pose proof (passing_counts _ _ _ _ _ H) as Hc.
  split_and!; f_equal; apply map_ext_Forall;
    (eapply Forall_impl; [|exact Hc]); intros e (Ha & Hd & Ho); assumption.
Qed.

(** ** The worker on a shard *)

Lemma prepare_roster gs :
  csp_mplp_prepare gs = match roster gs with
                        | Some names => Some (mplp_of_roster names)
                        | None => None
                        end.
Proof.
  unfold csp_mplp_prepare, roster. destruct (use_barcodes gs); [reflexivity|].
  destruct (sample_ids gs); reflexivity.
Qed.

Lemma worker_ok gs fs names d ps :
  roster gs = Some names ->
  passing gs fs names (firstn (d_m d) (skipn (d_n d) (pl gs))) = Some ps ->
  pileup_positions_with_fetch gs fs d
  = Some (set_ret (emit gs ps (thdata_init (d_n d) (d_m d) (d_out d))) 0).
Proof.
  intros Hr Hp. unfold pileup_positions_with_fetch.
  rewrite prepare_roster, Hr. by apply pileup_loop_ok.
Qed.

Lemma worker_fail gs fs d :
  match roster gs with
  | Some names =>
      passing gs fs names (firstn (d_m d) (skipn (d_n d) (pl gs))) = None
  | None => True
  end ->
  pileup_positions_with_fetch gs fs d = None
  \/ exists d', pileup_positions_with_fetch gs fs d = Some d' /\ d_ret d' = -1.
Proof.
  unfold pileup_positions_with_fetch. rewrite prepare_roster.
  destruct (roster gs) as [names|]; intros H.
  - destruct (pileup_loop_fail gs fs names _ csp_pileup_init
                (thdata_init (d_n d) (d_m d) (d_out d)) H)
      as [Hn | (d' & Hd & Hret)]; [by left|].
    right. exists d'. split; [exact Hd|]. rewrite Hret. reflexivity.
  - right. eexists. split; reflexivity.
Qed.

(** ** The single-worker path *)

Lemma run_single_ok gs fs vb vc names ps :
  roster gs = Some names ->
  passing gs fs names (pl gs) = Some ps ->
  run_single gs fs (main_outputs vb vc)
  = Some (0, final_outputs gs (main_outputs vb vc) ps).
Proof.
  intros Hr Hp. unfold run_single.
  rewrite (worker_ok gs fs names _ ps Hr)
    by (cbn [d_n d_m thdata_init skipn]; by rewrite firstn_all).
  rewrite emit_spec.
  cbn [d_out d_ret d_ns d_nr_ad d_nr_dp d_nr_oth set_ret thdata_init
       out_mtx_ad out_mtx_dp out_mtx_oth out_vcf_base out_vcf_cells
       main_outputs is_tmp set_out_ad set_out_dp set_out_oth].
  change (0 <? 0) with false. cbv iota.
  destruct (passing_tallies _ _ _ _ _ Hp) as (Ha & Hd & Ho).
  rewrite !Z.add_0_l, Ha, Hd, Ho.
  unfold csp_fs_puts at 1. cbn [data is_tmp].
  rewrite rewrite_mtx_direct. cbn [negb Z.eqb].
  cbn [out_mtx_ad out_mtx_dp out_mtx_oth out_vcf_base out_vcf_cells
       set_out_ad set_out_dp set_out_oth].
  unfold csp_fs_puts at 1. cbn [data is_tmp].
  rewrite rewrite_mtx_direct. cbn [negb Z.eqb].
  cbn [out_mtx_ad out_mtx_dp out_mtx_oth out_vcf_base out_vcf_cells
       set_out_ad set_out_dp set_out_oth].
  unfold csp_fs_puts at 1. cbn [data is_tmp].
  rewrite rewrite_mtx_direct. cbn [negb Z.eqb].
  unfold final_outputs, final_mtx, main_outputs, set_out_oth, csp_fs_puts.
  cbn [out_mtx_ad out_mtx_dp out_mtx_oth out_vcf_base out_vcf_cells
       data is_tmp].
  rewrite Ha, Hd, Ho. reflexivity.
Qed.

Lemma run_single_iff gs fs vb vc out :
  run_single gs fs (main_outputs vb vc) = Some (0, out)
  <-> exists names ps,
        roster gs = Some names /\ passing gs fs names (pl gs) = Some ps
        /\ out = final_outputs gs (main_outputs vb vc) ps.
Proof.
  split.
  - intros H.
    assert (Hfail :
      (pileup_positions_with_fetch gs fs
         (thdata_init 0 (length (pl gs)) (main_outputs vb vc)) = None
       \/ exists d', pileup_positions_with_fetch gs fs
                       (thdata_init 0 (length (pl gs)) (main_outputs vb vc))
                     = Some d' /\ d_ret d' = -1) -> False).
    { unfold run_single in H. intros [Hn | (d' & Hd & Hret)].
      - rewrite Hn in H. discriminate.
      - rewrite Hd, Hret in H. discriminate. }
    destruct (roster gs) as [names|] eqn:Hr.
    + destruct (passing gs fs names (pl gs)) as [ps|] eqn:Hp.
      * exists names, ps. split_and!; try done.
        rewrite (run_single_ok gs fs vb vc names ps Hr Hp) in H. congruence.
      * exfalso. apply Hfail, worker_fail. rewrite Hr.
        cbn [d_n d_m thdata_init skipn]. by rewrite firstn_all.
    + exfalso. apply Hfail, worker_fail. by rewrite Hr.
  - intros (names & ps & Hr & Hp & ->). by apply (run_single_ok _ _ _ _ names).
Qed.

(** ** Sharding *)

Lemma shards_prefix (snps : list csp_snp_t) (mpos : nat) : forall k,
  concat (map (fun i => firstn mpos (skipn (i * mpos) snps)) (seq 0 k))
  = firstn (k * mpos) snps.
Proof.
  induction k as [|k IH]; [reflexivity|].
  rewrite seq_S, map_app, concat_app, IH. cbn [map concat Nat.add].
  rewrite app_nil_r.
  replace (S k * mpos)%nat with (k * mpos + mpos)%nat by lia.
  apply take_take_drop.
Qed.

Lemma last_shard_start (size n : nat) :
  (0 < size)%nat -> (0 < n)%nat -> ((n - 1) * (size / n) < size)%nat.
Proof.
  intros Hs Hn. pose proof (Nat.Div0.mul_div_le size n).
  destruct (size / n)%nat eqn:E; nia.
Qed.

(** The shards are [nthread] many and, in order, make up the SNP list. *)
Lemma shards_cover gs (n : nat) :
  (0 < length (pl gs))%nat -> (0 < n)%nat ->
  length (make_shards (length (pl gs)) n) = n
  /\ concat (map (shard_snps gs) (make_shards (length (pl gs)) n)) = pl gs
  /\ Forall (fun d => d_out d = tmp_out) (make_shards (length (pl gs)) n).
Proof.
  intros Hs Hn. unfold make_shards.
  pose proof (last_shard_start _ _ Hs Hn) as Hlt.
  destruct (Nat.ltb_spec ((n - 1) * (length (pl gs) / n)) (length (pl gs)));
    [|lia].
  split_and!.
  - rewrite length_app, length_map, length_seq. simpl. lia.
  - rewrite map_app, concat_app, map_map.
    unfold shard_snps at 1. cbn [d_n d_m thdata_init].
    rewrite shards_prefix. cbn [map concat]. unfold shard_snps.
    cbn [d_n d_m thdata_init]. rewrite app_nil_r.
    rewrite (firstn_all2 (skipn _ _)) by (rewrite length_skipn; lia).
    apply firstn_skipn.
  - apply Forall_app. split.
    + apply Forall_map, Forall_forall. intros i _. reflexivity.
    + constructor; [reflexivity|constructor].
Qed.

Lemma passing_concat gs fs names (ls : list (list csp_snp_t)) :
  match passing gs fs names (concat ls) with
  | Some ps =>
      exists parts,
        Forall2 (fun l p => passing gs fs names l = Some p) ls parts
        /\ concat parts = ps
  | None => Exists (fun l => passing gs fs names l = None) ls
  end.
Proof.
  induction ls as [|l ls IH]; cbn [concat].
  - simpl. exists []. split; [constructor|reflexivity].
  - rewrite passing_app.
    destruct (passing gs fs names l) as [p1|] eqn:E1.
    + destruct (passing gs fs names (concat ls)) as [p2|].
      * destruct IH as (parts & Hf & Hc). exists (p1 :: parts).
        split; [by constructor|]. simpl. by rewrite Hc.
      * by apply Exists_cons_tl.
    + by apply Exists_cons_hd.
Qed.

(** ** The thread pool *)

Lemma thpool_ok gs fs names tds : forall parts,
  roster gs = Some names ->
  Forall2 (fun d ps => passing gs fs names (shard_snps gs d) = Some ps)
          tds parts ->
  thpool_run gs fs tds = Some (zip_with (shard_done gs) tds parts).
Proof.
  intros parts Hr H. induction H as [|d ps tds parts Hd Hrest IH];
    [reflexivity|].
  cbn [thpool_run zip_with]. rewrite (worker_ok gs fs names d ps Hr Hd), IH.
  reflexivity.
Qed.

Lemma thpool_fail gs fs tds :
  Exists (fun d =>
            pileup_positions_with_fetch gs fs d = None
            \/ exists d', pileup_positions_with_fetch gs fs d = Some d'
                          /\ d_ret d' = -1) tds ->
  thpool_run gs fs tds = None
  \/ exists ds, thpool_run gs fs tds = Some ds
                /\ existsb (fun d => d_ret d <? 0) ds = true.
Proof.
  induction 1 as [d tds [Hn | (d' & Hd & Hret)] | d tds Hex IH];
    cbn [thpool_run].
  - rewrite Hn. by left.
  - rewrite Hd. destruct (thpool_run gs fs tds) as [rest|]; [|by left].
    right. eexists. split; [reflexivity|]. simpl. by rewrite Hret.
  - destruct (pileup_positions_with_fetch gs fs d) as [d'|]; [|by left].
    destruct IH as [-> | (ds & -> & Hex')]; [by left|].
    right. eexists. split; [reflexivity|]. simpl. rewrite Hex'.
    apply orb_true_r.
Qed.

(** ** The merging stage on the reports of successful workers *)

Lemma shard_done_spec gs d ps :
  d_out d = tmp_out ->
  let r := shard_done gs d ps in
  d_ret r = 0
  /\ d_ns r = Z.of_nat (length ps)
  /\ d_nr_ad r = sumZ (map (fun e => nr_ad (snd e)) ps)
  /\ d_nr_dp r = sumZ (map (fun e => nr_dp (snd e)) ps)
  /\ d_nr_oth r = sumZ (map (fun e => nr_oth (snd e)) ps)
  /\ data (out_mtx_ad (d_out r)) = mtx_body ad true 0 ps
  /\ data (out_mtx_dp (d_out r)) = mtx_body dp true 0 ps
  /\ data (out_mtx_oth (d_out r)) = mtx_body oth true 0 ps
  /\ data (out_vcf_base (d_out r)) = vcf_base_body ps
  /\ data (out_vcf_cells (d_out r)) = vcf_cells_body gs ps.
Proof.
  intros Ho. unfold shard_done. rewrite emit_spec.
  cbn [set_ret thdata_init d_out d_ret d_ns d_nr_ad d_nr_dp d_nr_oth
       out_mtx_ad out_mtx_dp out_mtx_oth out_vcf_base out_vcf_cells].
  rewrite Ho. cbn. split_and!; reflexivity.
Qed.

Lemma vcf_base_body_concat parts :
  concat (map vcf_base_body parts) = vcf_base_body (concat parts).
Proof.
  unfold vcf_base_body. induction parts as [|ps parts IH]; [reflexivity|].
  cbn [map concat]. by rewrite IH, map_app, concat_app.
Qed.

Lemma vcf_cells_body_concat gs parts :
  concat (map (vcf_cells_body gs) parts) = vcf_cells_body gs (concat parts).
Proof.
  unfold vcf_cells_body. destruct (is_genotype gs).
  - induction parts as [|ps parts IH]; [reflexivity|].
    cbn [map concat]. by rewrite IH, map_app, concat_app.
  - induction parts as [|ps parts IH]; [reflexivity|]. exact IH.
Qed.

Lemma merge_vcf_concat out frs :
  merge_vcf out frs = (csp_fs_puts (concat (map data frs)) out, 0).
Proof.
  unfold merge_vcf. f_equal. revert out.
  induction frs as [|f frs IH]; intros out; cbn [fold_left map concat].
  - by rewrite csp_fs_puts_nil.
  - by rewrite IH, csp_fs_puts_puts.
Qed.

(** What the coordinator reads off the reports of successful workers. *)
Lemma shard_reports gs tds : forall parts,
  Forall (fun d => d_out d = tmp_out) tds ->
  length tds = length parts ->
  let ds := zip_with (shard_done gs) tds parts in
  existsb (fun d => d_ret d <? 0) ds = false
  /\ sumZ (map d_ns ds) = Z.of_nat (length (concat parts))
  /\ sumZ (map d_nr_ad ds) = sumZ (map (fun e => nr_ad (snd e)) (concat parts))
  /\ sumZ (map d_nr_dp ds) = sumZ (map (fun e => nr_dp (snd e)) (concat parts))
  /\ sumZ (map d_nr_oth ds) = sumZ (map (fun e => nr_oth (snd e)) (concat parts))
  /\ Forall2 (fun f ps => exists ns0, data f = mtx_body ad true ns0 ps)
             (map (fun d => out_mtx_ad (d_out d)) ds) parts
  /\ Forall2 (fun f ps => exists ns0, data f = mtx_body dp true ns0 ps)
             (map (fun d => out_mtx_dp (d_out d)) ds) parts
  /\ Forall2 (fun f ps => exists ns0, data f = mtx_body oth true ns0 ps)
             (map (fun d => out_mtx_oth (d_out d)) ds) parts
  /\ map data (map (fun d => out_vcf_base (d_out d)) ds)
     = map vcf_base_body parts
  /\ map data (map (fun d => out_vcf_cells (d_out d)) ds)
     = map (vcf_cells_body gs) parts.
Proof.
  induction tds as [|d tds IH]; intros [|ps parts] Hout Hlen;
    try discriminate; cbn zeta.
  - cbn. split_and!; try reflexivity; constructor.
  - inversion Hout as [|? ? Hd Hrest]; subst.
    injection Hlen as Hlen.
    destruct (IH parts Hrest Hlen)
      as (He & Hns & Ha & Hdp & Ho & Fa & Fd & Fo & Vb & Vc).
    destruct (shard_done_spec gs d ps Hd)
      as (Hr & H1 & H2 & H3 & H4 & H5 & H6 & H7 & H8 & H9).
    cbn [zip_with map existsb concat].
    rewrite !sumZ_cons, !map_app, !sumZ_app, length_app.
    rewrite Hr, He, Hns, Ha, Hdp, Ho, H1, H2, H3, H4, H8, H9, Vb, Vc.
    split_and!; try reflexivity; try lia;
      constructor; try assumption; by exists 0.
Qed.

Lemma merge_one_mtx_ok sel final frs parts nsample :
  Forall2 (fun f ps => exists ns0, data f = mtx_body sel true ns0 ps)
          frs parts ->
  merge_one_mtx final frs (Z.of_nat (length (concat parts))) nsample
    (sumZ (map (fun e => nonzero sel (hsg (snd e))) (concat parts)))
  = (true, final_mtx final sel nsample
             (sumZ (map (fun e => nonzero sel (hsg (snd e))) (concat parts)))
             (concat parts)).
Proof.
  intros H. unfold merge_one_mtx.
  rewrite (merge_mtx_fragments sel parts frs _ H).
  rewrite !Z.eqb_refl. cbn [orb negb Z.ltb Z.compare].
  unfold final_mtx. by rewrite csp_fs_puts_puts.
Qed.

Lemma merge_shards_ok gs o tds parts :
  Forall (fun d => d_out d = tmp_out) tds ->
  length tds = length parts ->
  sumZ (map (fun e => nr_ad (snd e)) (concat parts))
    = sumZ (map (fun e => nonzero ad (hsg (snd e))) (concat parts)) ->
  sumZ (map (fun e => nr_dp (snd e)) (concat parts))
    = sumZ (map (fun e => nonzero dp (hsg (snd e))) (concat parts)) ->
  sumZ (map (fun e => nr_oth (snd e)) (concat parts))
    = sumZ (map (fun e => nonzero oth (hsg (snd e))) (concat parts)) ->
  merge_shards gs (nsample_of gs) (zip_with (shard_done gs) tds parts) o
  = (0, final_outputs gs o (concat parts)).
Proof.
  intros Hout Hlen Ta Td To.
  destruct (shard_reports gs tds parts Hout Hlen)
    as (_ & Hns & Ha & Hdp & Ho & Fa & Fd & Fo & Vb & Vc).
  cbv zeta in *. unfold merge_shards.
  rewrite Hns, Ha, Hdp, Ho, Ta, Td, To.
  rewrite (merge_one_mtx_ok ad _ _ parts _ Fa). cbn [negb].
  cbn [out_mtx_dp set_out_ad].
  rewrite (merge_one_mtx_ok dp _ _ parts _ Fd). cbn [negb].
  cbn [out_mtx_oth set_out_dp set_out_ad].
  rewrite (merge_one_mtx_ok oth _ _ parts _ Fo). cbn [negb].
  rewrite !merge_vcf_concat, Vb, Vc.
  rewrite vcf_base_body_concat, vcf_cells_body_concat.
  change (0 <? 0) with false. cbv iota.
  unfold final_outputs. rewrite Ta, Td, To.
  destruct (is_genotype gs) eqn:Eg.
  - reflexivity.
  - unfold vcf_cells_body. rewrite Eg, csp_fs_puts_nil. reflexivity.
Qed.

(** ** The multi-worker path *)

Lemma run_multi_iff gs fs vb vc out :
  (0 < length (pl gs))%nat -> 0 < nthread gs ->
  run_multi gs fs (main_outputs vb vc) = Some (0, out)
  <-> exists names ps,
        roster gs = Some names /\ passing gs fs names (pl gs) = Some ps
        /\ out = final_outputs gs (main_outputs vb vc) ps.
Proof.
  intros Hs Hn. unfold run_multi.
  set (n := Z.to_nat (nthread gs)).
  assert (Hn' : (0 < n)%nat) by (unfold n; lia).
  destruct (shards_cover gs n Hs Hn') as (Hlen & Hcat & Htmp).
  set (tds := make_shards (length (pl gs)) n) in *.
  rewrite Hlen, Nat.eqb_refl. cbn [negb].
  assert (Hfail :
    Exists (fun d =>
              pileup_positions_with_fetch gs fs d = None
              \/ exists d', pileup_positions_with_fetch gs fs d = Some d'
                            /\ d_ret d' = -1) tds ->
    forall r, match thpool_run gs fs tds with
              | Some ds =>
                  if existsb (fun d => d_ret d <? 0) ds
                  then Some (-1, main_outputs vb vc)
                  else Some (merge_shards gs (nsample_of gs) ds
                                          (main_outputs vb vc))
              | None => None
              end = Some (0, r) -> False).
  { intros Hex r. destruct (thpool_fail gs fs tds Hex) as [-> | (ds & -> & ->)];
      discriminate. }
  destruct (roster gs) as [names|] eqn:Hr.
  - pose proof (passing_concat gs fs names (map (shard_snps gs) tds)) as Hpc.
    rewrite Hcat in Hpc.
    destruct (passing gs fs names (pl gs)) as [ps|] eqn:Hp.
    + destruct Hpc as (parts & Hf & Hc).
      apply Forall2_fmap_l in Hf.
      assert (Hlp : length tds = length parts) by (eapply Forall2_length; eauto).
      rewrite (thpool_ok gs fs names tds parts Hr Hf).
      destruct (shard_reports gs tds parts Htmp Hlp) as (-> & _).
      destruct (passing_tallies _ _ _ _ _ Hp) as (Ta & Td & To).
      rewrite <- Hc in Ta, Td, To.
      rewrite (merge_shards_ok gs _ tds parts Htmp Hlp Ta Td To), Hc.
      split.
      * intros H. exists names, ps. split_and!; try done. congruence.
      * intros (names' & ps' & Hn1 & Hp1 & ->). congruence.
    + split.
      * intros H. exfalso. eapply Hfail; [|exact H].
        apply Exists_fmap in Hpc. eapply Exists_impl; [|exact Hpc].
        intros d Hd. apply worker_fail. by rewrite Hr.
      * intros (names' & ps' & Hn1 & Hp1 & _). congruence.
  - split.
    + intros H. exfalso. eapply Hfail; [|exact H].
      destruct tds as [|d tds']; [simpl in Hlen; lia|].
      apply Exists_cons_hd, worker_fail. by rewrite Hr.
    + intros (names' & ps' & Hn1 & _). discriminate.
Qed.

(** ** The number of workers plays no role inside a worker *)

Lemma pileup_reads_workers gs k t0 t i rs : forall p m n,
  pileup_reads (set_workers gs k t0) t i rs p m n
  = pileup_reads gs t i rs p m n.
Proof.
  induction rs as [|r rs IH]; intros p m n; simpl; [reflexivity|].
  change (pileup_read_with_fetch t (set_b p r) (set_workers gs k t0))
    with (pileup_read_with_fetch t (set_b p r) gs).
  destruct (pileup_read_with_fetch t (set_b p r) gs) as [[st p1]|];
    [|reflexivity].
  change (use_barcodes (set_workers gs k t0)) with (use_barcodes gs).
  change (use_sid (set_workers gs k t0)) with (use_sid gs).
  destruct (st =? 0).
  - destruct (use_barcodes gs || use_sid gs); [|reflexivity].
    change (csp_mplp_push p1 m (if use_barcodes gs then -1 else i)
              (set_workers gs k t0))
      with (csp_mplp_push p1 m (if use_barcodes gs then -1 else i) gs).
    destruct (csp_mplp_push p1 m _ gs) as [rc m1].
    destruct (rc <? 0); [reflexivity|]. apply IH.
  - destruct (st <? 0); [reflexivity|]. apply IH.
Qed.

Lemma pileup_sources_workers gs k t0 snp fs : forall i p m n,
  pileup_sources (set_workers gs k t0) snp fs i p m n
  = pileup_sources gs snp fs i p m n.
Proof.
  induction fs as [|bs fs IH]; intros i p m n; simpl; [reflexivity|].
  destruct (name2id bs (chr snp) <? 0); [reflexivity|].
  destruct (itr_query bs _ _ _) as [[rs ret]|]; [|reflexivity].
  rewrite pileup_reads_workers.
  destruct (pileup_reads gs (pos snp) i rs p m n)
    as [[[[ok p1] m1] n1]|]; [|reflexivity].
  destruct ok; [|reflexivity]. destruct (ret <? -1); [reflexivity|]. apply IH.
Qed.

Lemma stat_groups_workers gs k t0 r a h nr :
  stat_groups (set_workers gs k t0) r a h nr = stat_groups gs r a h nr.
Proof.
  revert nr. induction h as [|[name g] h IH]; intros [[na nd] no]; simpl;
    [reflexivity|].
  destruct (is_genotype gs && negb _); [reflexivity|]. rewrite IH. reflexivity.
Qed.

Lemma stat_workers gs k t0 m :
  csp_mplp_stat m (set_workers gs k t0) = csp_mplp_stat m gs.
Proof.
  rewrite !csp_mplp_stat_cases. cbv zeta. rewrite !stat_groups_workers.
  reflexivity.
Qed.

Lemma pileup_snp_workers gs k t0 snp fs p m :
  pileup_snp_with_fetch snp fs p m (set_workers gs k t0)
  = pileup_snp_with_fetch snp fs p m gs.
Proof.
  unfold pileup_snp_with_fetch. rewrite pileup_sources_workers.
  destruct (pileup_sources gs snp fs 0 p (mplp_set_snp m snp) 0)
    as [[[[st p1] m1] n1]|]; [|reflexivity].
  rewrite stat_workers. reflexivity.
Qed.

Lemma passing_workers gs k t0 fs names snps :
  passing (set_workers gs k t0) fs names snps = passing gs fs names snps.
Proof.
  induction snps as [|snp snps IH]; simpl; [reflexivity|].
  rewrite pileup_snp_workers, IH. reflexivity.
Qed.

(** ** The merge check *)

Lemma merge_line_counts lines : forall k m out,
  let r := fold_left merge_line lines (k, m, out) in
  fst (fst r) = k + Z.of_nat (length (List.filter
                                (fun l => bool_decide (l = [])) lines))
  /\ snd (fst r) = m + Z.of_nat (length (List.filter
                                (fun l => negb (bool_decide (l = []))) lines))
  /\ exists body, snd r = csp_fs_puts body out.
Proof.
  induction lines as [|l lines IH]; intros k m out; cbn zeta.
  - simpl. split_and!; try lia. exists []. by rewrite csp_fs_puts_nil.
  - cbn [fold_left List.filter]. destruct l as [|c l]; cbn [merge_line].
    + rewrite bool_decide_eq_true_2 by reflexivity. cbn [negb length].
      destruct (IH (k + 1) m out) as (H1 & H2 & H3).
      split_and!; [lia | lia | exact H3].
    + rewrite bool_decide_eq_false_2 by discriminate. cbn [negb length].
      destruct (IH k (m + 1) (csp_fs_puts (dec k ++ [tab] ++ (c :: l) ++ [nl]) out))
        as (H1 & H2 & body & H3).
      split_and!; [lia | lia |].
      eexists. rewrite H3, csp_fs_puts_puts. reflexivity.
Qed.

(** [merge_mtx] counts sites from blank lines and records from non-blank
    lines, and only appends to the output file. *)
Lemma merge_mtx_counts out frs :
  exists body,
    merge_mtx out frs
    = (csp_fs_puts body out, blank_lines frs, record_lines frs, 0).
Proof.
  unfold merge_mtx, blank_lines, record_lines.
  assert (H : forall k m o,
    let r := fold_left
               (fun st f => fold_left merge_line (file_lines (data f)) st)
               frs (k, m, o) in
    fst (fst r) = k + sumZ (map (fun f => Z.of_nat (length (List.filter
                        (fun l => bool_decide (l = [])) (file_lines (data f)))))
                        frs)
    /\ snd (fst r) = m + sumZ (map (fun f => Z.of_nat (length (List.filter
                        (fun l => negb (bool_decide (l = [])))
                        (file_lines (data f))))) frs)
    /\ exists body, snd r = csp_fs_puts body o).
  { induction frs as [|f frs IH]; intros k m o; cbn zeta.
    - simpl. unfold sumZ. simpl. split_and!; try lia.
      exists []. by rewrite csp_fs_puts_nil.
    - cbn [fold_left map]. rewrite !sumZ_cons.
      pose proof (merge_line_counts (file_lines (data f)) k m o) as Hl.
      cbv zeta in Hl.
      destruct (fold_left merge_line (file_lines (data f)) (k, m, o))
        as [[k1 m1] o1]. cbn [fst snd] in Hl.
      destruct Hl as (-> & -> & body1 & ->).
      destruct (IH (k + Z.of_nat (length (List.filter
                        (fun l => bool_decide (l = [])) (file_lines (data f)))))
                   (m + Z.of_nat (length (List.filter
                        (fun l => negb (bool_decide (l = [])))
                        (file_lines (data f)))))
                   (csp_fs_puts body1 o)) as (H1 & H2 & body & H3).
      split_and!; [lia | lia |].
      eexists. rewrite H3, csp_fs_puts_puts. reflexivity. }
  specialize (H 1 0 out). cbv zeta in H.
  destruct (fold_left _ frs (1, 0, out)) as [[k1 m1] o1]. cbn [fst snd] in H.
  destruct H as (-> & -> & body & ->).
  exists body. f_equal. apply triple_eq; [reflexivity | lia | lia].
Qed.

Lemma merge_one_mtx_spec final frs ns nsample nr :
  exists body,
    merge_one_mtx final frs ns nsample nr
    = (bool_decide (blank_lines frs = ns /\ record_lines frs = nr),
       csp_fs_puts (mtx_summary ns nsample nr ++ body) final).
Proof.
  unfold merge_one_mtx.
  destruct (merge_mtx_counts (csp_fs_puts (mtx_summary ns nsample nr) final) frs)
    as (body & ->).
  exists body. rewrite csp_fs_puts_puts. cbn [orb Z.ltb Z.compare].
  destruct (blank_lines frs =? ns) eqn:E1; zb E1; cbn [negb orb].
  - destruct (record_lines frs =? nr) eqn:E2; zb E2; cbn [negb].
    + by rewrite bool_decide_eq_true_2.
    + rewrite bool_decide_eq_false_2; [reflexivity|]. intros [_ H]. done.
  - rewrite bool_decide_eq_false_2; [reflexivity|]. intros [H _]. done.
Qed.

(** C9, as the code has it.  In the merging stage over the shard reports
    [ds]: [merge_mtx] counts sites from the blank lines and records from
    the non-blank lines of the fragments; the summary line written into
    each merged matrix carries the per-shard sums; the stage returns 0
    exactly when, for the AD, DP and OTH matrices, these counts equal the
    per-shard sums, and -1 otherwise, which makes the run return -1.  A
    successful multi-worker run passed this check.  Nothing is rolled
    back: the AD matrix holds its summary line and merged records even
    when the stage returns -1. *)
Theorem merge_counts_checked (gs : global_settings) (nsample : Z)
    (ds : list thread_data) (o : out_files) :
  let ns := sumZ (map d_ns ds) in
  let fa := map (fun d => out_mtx_ad (d_out d)) ds in
  let fd := map (fun d => out_mtx_dp (d_out d)) ds in
  let fo := map (fun d => out_mtx_oth (d_out d)) ds in
  let agree frs nr := blank_lines frs = ns /\ record_lines frs = nr in
  let res := merge_shards gs nsample ds o in
  (forall out frs, exists body,
      merge_mtx out frs
      = (csp_fs_puts body out, blank_lines frs, record_lines frs, 0))
  /\ (fst res = 0
      <-> agree fa (sumZ (map d_nr_ad ds)) /\ agree fd (sumZ (map d_nr_dp ds))
          /\ agree fo (sumZ (map d_nr_oth ds)))
  /\ (fst res = 0 \/ fst res = -1)
  /\ (exists body,
        out_mtx_ad (snd res)
        = csp_fs_puts (mtx_summary ns nsample (sumZ (map d_nr_ad ds)) ++ body)
                      (out_mtx_ad o))
  /\ (fst res = 0 ->
      (exists body,
         out_mtx_dp (snd res)
         = csp_fs_puts (mtx_summary ns nsample (sumZ (map d_nr_dp ds)) ++ body)
                       (out_mtx_dp o))
      /\ (exists body,
            out_mtx_oth (snd res)
            = csp_fs_puts (mtx_summary ns nsample (sumZ (map d_nr_oth ds)) ++ body)
                          (out_mtx_oth o)))
  /\ (forall fs out,
        run_multi gs fs o = Some (0, out) ->
        exists ds',
          thpool_run gs fs (make_shards (length (pl gs)) (Z.to_nat (nthread gs)))
          = Some ds'
          /\ merge_shards gs (nsample_of gs) ds' o = (0, out))
  /\ (forall fs ds',
        length (make_shards (length (pl gs)) (Z.to_nat (nthread gs)))
        = Z.to_nat (nthread gs) ->
        thpool_run gs fs (make_shards (length (pl gs)) (Z.to_nat (nthread gs)))
        = Some ds' ->
        fst (merge_shards gs (nsample_of gs) ds' o) = -1 ->
        exists o', run_multi gs fs o = Some (-1, o')).
Proof.
  cbv zeta. split; [apply merge_mtx_counts|].
  assert (Hstage :
    (fst (merge_shards gs nsample ds o) = 0
     <-> (blank_lines (map (fun d => out_mtx_ad (d_out d)) ds) = sumZ (map d_ns ds)
          /\ record_lines (map (fun d => out_mtx_ad (d_out d)) ds)
             = sumZ (map d_nr_ad ds))
         /\ (blank_lines (map (fun d => out_mtx_dp (d_out d)) ds) = sumZ (map d_ns ds)
             /\ record_lines (map (fun d => out_mtx_dp (d_out d)) ds)
                = sumZ (map d_nr_dp ds))
         /\ (blank_lines (map (fun d => out_mtx_oth (d_out d)) ds) = sumZ (map d_ns ds)
             /\ record_lines (map (fun d => out_mtx_oth (d_out d)) ds)
                = sumZ (map d_nr_oth ds)))
    /\ (fst (merge_shards gs nsample ds o) = 0
        \/ fst (merge_shards gs nsample ds o) = -1)
    /\ (exists body,
          out_mtx_ad (snd (merge_shards gs nsample ds o))
          = csp_fs_puts (mtx_summary (sumZ (map d_ns ds)) nsample
                           (sumZ (map d_nr_ad ds)) ++ body) (out_mtx_ad o))
    /\ (fst (merge_shards gs nsample ds o) = 0 ->
        (exists body,
           out_mtx_dp (snd (merge_shards gs nsample ds o))
           = csp_fs_puts (mtx_summary (sumZ (map d_ns ds)) nsample
                            (sumZ (map d_nr_dp ds)) ++ body) (out_mtx_dp o))
        /\ (exists body,
              out_mtx_oth (snd (merge_shards gs nsample ds o))
              = csp_fs_puts (mtx_summary (sumZ (map d_ns ds)) nsample
                               (sumZ (map d_nr_oth ds)) ++ body) (out_mtx_oth o)))).
  { unfold merge_shards.
    destruct (merge_one_mtx_spec (out_mtx_ad o)
                (map (fun d => out_mtx_ad (d_out d)) ds) (sumZ (map d_ns ds))
                nsample (sumZ (map d_nr_ad ds))) as (ba & ->).
    case_bool_decide as Ha; cbn [negb fst snd out_mtx_ad set_out_ad];
      [|split_and!; [split; [discriminate | tauto] | by right | by exists ba
                     | discriminate]].
    cbn [out_mtx_dp set_out_ad].
    destruct (merge_one_mtx_spec (out_mtx_dp o)
                (map (fun d => out_mtx_dp (d_out d)) ds) (sumZ (map d_ns ds))
                nsample (sumZ (map d_nr_dp ds))) as (bd & ->).
    case_bool_decide as Hd;
      cbn [negb fst snd out_mtx_ad out_mtx_dp set_out_ad set_out_dp];
      [|split_and!; [split; [discriminate | tauto] | by right | by exists ba
                     | discriminate]].
    cbn [out_mtx_oth set_out_ad set_out_dp].
    destruct (merge_one_mtx_spec (out_mtx_oth o)
                (map (fun d => out_mtx_oth (d_out d)) ds) (sumZ (map d_ns ds))
                nsample (sumZ (map d_nr_oth ds))) as (bo & ->).
    case_bool_decide as Ho;
      cbn [negb fst snd out_mtx_ad out_mtx_dp out_mtx_oth
           set_out_ad set_out_dp set_out_oth];
      [|split_and!; [split; [discriminate | tauto] | by right | by exists ba
                     | discriminate]].
    rewrite !merge_vcf_concat. change (0 <? 0) with false. cbv iota.
    destruct (is_genotype gs);
      cbn [fst snd out_mtx_ad out_mtx_dp out_mtx_oth
           set_out_ad set_out_dp set_out_oth set_out_base set_out_cells];
      (split_and!; [split; [tauto | reflexivity] | by left | by exists ba
                    | intros _; split; [by exists bd | by exists bo]]). }
  destruct Hstage as (H1 & H2 & H3 & H4).
  split_and!; try assumption.
  - intros fs out. unfold run_multi.
    destruct (negb _); [discriminate|].
    destruct (thpool_run gs fs _) as [ds'|]; [|discriminate].
    destruct (existsb _ ds'); [discriminate|].
    intros H. exists ds'. split; [reflexivity|]. congruence.
  - intros fs ds' Hlen Hrun Hm. unfold run_multi.
    rewrite Hlen, Nat.eqb_refl, Hrun. cbn [negb].
    destruct (existsb _ ds'); [by eexists|].
    destruct (merge_shards gs (nsample_of gs) ds' o) as [r o'].
    simpl in Hm. subst. by eexists.
Qed.
(** * Further properties of the code *)

(** ** ReadResolver *)

Lemma find_pos_none t cig : forall x y la,
  x <= t -> (find_pos t cig x y la = None <-> x + ref_len cig <= t).
Proof.
  induction cig as [|c rest IH]; intros x y la Hx.
  - cbn. split; [intros _; lia | reflexivity].
  - change (ref_len (c :: rest)) with (op_ref_len c + ref_len rest).
    pose proof (get_cigar_len_nonneg c) as Hl.
    pose proof (ref_len_nonneg rest) as Hr.
    pose proof (op_classes (get_cigar_op c)) as [Hm Hd].
    cbn [find_pos]. unfold op_ref_len.
    destruct (is_match_class (get_cigar_op c)) eqn:Em.
    + cbn [orb]. destruct (x + get_cigar_len c >? t) eqn:E; zb E.
      * split; [discriminate | lia].
      * rewrite IH by lia. lia.
    + cbn [orb]. destruct (is_del_or_skip (get_cigar_op c)) eqn:Ed.
      * destruct (x + get_cigar_len c >? t) eqn:E; zb E.
        -- split; [discriminate | lia].
        -- rewrite IH by lia. lia.
      * destruct (is_ins_or_clip (get_cigar_op c)) eqn:Ei.
        -- destruct (x >? t) eqn:E; zb E; [lia|].
           rewrite IH by lia. lia.
        -- destruct (x >? t) eqn:E; zb E; [lia|].
           rewrite IH by lia. lia.
Qed.

Lemma find_pos_inv t cig : forall x y la op px py la' rest,
  x <= t ->
  find_pos t cig x y la = Some (op, px, py, la', rest) ->
  exists pre c,
    cig = pre ++ c :: rest /\ op = get_cigar_op c
    /\ px = x + ref_len pre /\ py = y + qry_len pre
    /\ px <= t < px + op_ref_len c.
Proof.
  induction cig as [|c tl IH]; intros x y la op px py la' rest Hx H.
  - discriminate H.
  - cbn [find_pos] in H.
    assert (Hstep : forall x' y' la1,
              x' = x + op_ref_len c -> y' = y + op_qry_len c ->
              (if x' >? t then Some (get_cigar_op c, x, y, la1, tl)
               else find_pos t tl x' y' la1) = Some (op, px, py, la', rest) ->
              exists pre c0,
                c :: tl = pre ++ c0 :: rest /\ op = get_cigar_op c0
                /\ px = x + ref_len pre /\ py = y + qry_len pre
                /\ px <= t < px + op_ref_len c0).
    { intros x' y' la1 Ex Ey H1.
      destruct (x' >? t) eqn:E; zb E.
      - injection H1 as <- <- <- _ <-.
        exists [], c. cbn. split_and!; try reflexivity; lia.
      - apply IH in H1; [|lia].
        destruct H1 as (pre & c0 & -> & -> & -> & -> & Hc).
        exists (c :: pre), c0.
        change (ref_len (c :: pre)) with (op_ref_len c + ref_len pre).
        change (qry_len (c :: pre)) with (op_qry_len c + qry_len pre).
        split_and!; try reflexivity; lia. }
    pose proof (op_classes (get_cigar_op c)) as [Hm Hd].
    unfold op_ref_len, op_qry_len in Hstep.
    destruct (is_match_class (get_cigar_op c)) eqn:Em.
    + cbn [orb] in Hstep. eapply Hstep; [reflexivity | reflexivity | exact H].
    + destruct (is_del_or_skip (get_cigar_op c)) eqn:Ed.
      * rewrite (Hd eq_refl) in Hstep. cbn [orb] in Hstep.
        eapply Hstep; [reflexivity | | exact H]. lia.
      * destruct (is_ins_or_clip (get_cigar_op c)) eqn:Ei; cbn [orb] in Hstep.
        -- eapply Hstep; [| reflexivity | exact H]. lia.
        -- eapply Hstep; [| | exact H]; lia.
Qed.

Lemma qry_len_nonneg cig : 0 <= qry_len cig.
Proof.
  induction cig as [|c cig IH]; simpl; [lia|].
  unfold op_qry_len. pose proof (get_cigar_len_nonneg c).
  destruct (_ || _); lia.
Qed.

Lemma qry_len_app l1 l2 : qry_len (l1 ++ l2) = qry_len l1 + qry_len l2.
Proof. induction l1 as [|c l1 IH]; simpl; lia. Qed.

(** The tag filters of lines 371-372, decided. *)
Lemma has_tags_dec gs r : has_tags gs r \/ ~ has_tags gs r.
Proof.
  unfold has_tags.
  destruct (umi_tag gs) as [ut|], (cell_tag gs) as [ct|].
  - destruct (aux r ut) as [u|] eqn:Eu, (aux r ct) as [c|] eqn:Ec.
    + left. split; intros k [= <-]; eauto.
    + right. intros [_ H]. destruct (H ct eq_refl) as [v Hv]. congruence.
    + right. intros [H _]. destruct (H ut eq_refl) as [v Hv]. congruence.
    + right. intros [H _]. destruct (H ut eq_refl) as [v Hv]. congruence.
  - destruct (aux r ut) as [u|] eqn:Eu.
    + left. split; [intros k [= <-]; eauto | discriminate].
    + right. intros [H _]. destruct (H ut eq_refl) as [v Hv]. congruence.
  - destruct (aux r ct) as [c|] eqn:Ec.
    + left. split; [discriminate | intros k [= <-]; eauto].
    + right. intros [_ H]. destruct (H ct eq_refl) as [v Hv]. congruence.
  - left. split; discriminate.
Qed.

Lemma resolver_tag_missing gs p t :
  ~ has_tags gs (b p) ->
  exists p', pileup_read_with_fetch t p gs = Some (1, p') /\ b p' = b p.
Proof.
  intros Hn. unfold pileup_read_with_fetch, use_umi, use_barcodes.
  unfold has_tags in Hn.
  destruct (umi_tag gs) as [ut|] eqn:Eu; destruct (cell_tag gs) as [ct|] eqn:Ec;
    simpl.
  - destruct (aux (b p) ut) as [u|] eqn:Ea; simpl; [|eexists; split; reflexivity].
    destruct (aux (b p) ct) as [c|] eqn:Eb; simpl; [|eexists; split; reflexivity].
    exfalso. apply Hn. split; intros k [= <-]; eauto.
  - destruct (aux (b p) ut) as [u|] eqn:Ea; simpl; [|eexists; split; reflexivity].
    exfalso. apply Hn. split; [intros k [= <-]; eauto | discriminate].
  - destruct (aux (b p) ct) as [c|] eqn:Eb; simpl; [|eexists; split; reflexivity].
    exfalso. apply Hn. split; [discriminate | intros k [= <-]; eauto].
  - exfalso. apply Hn. split; discriminate.
Qed.

Lemma resolver_tail gs p t :
  has_tags gs (b p) ->
  exists p2,
    b p2 = b p
    /\ pileup_read_with_fetch t p gs =
       (if core_qual (b p) <? min_mapq gs then Some (2, p2) else
        if core_flag (b p) >? max_flag gs then Some (2, p2) else
        if negb (core_pos (b p) <=? t) then None else
        let p3 := set_site p2 0 false false in
        match find_pos t (cigar (b p)) (core_pos (b p)) 0 0 with
        | None => None
        | Some (op, px, py, la, rest) =>
            let p4 :=
              if is_match_class op then
                let q := py + (t - px) in
                set_base_qual p3 q (seqi (b p) q) (quals (b p) q)
              else if is_del_or_skip op then
                set_site p3 py (op =? BAM_CREF_SKIP) true
              else p3 in
            if is_del p4 then Some (2, p4) else
            if is_refskip p4 then Some (2, p4) else
            let la' := rest_laln rest la in
            if la' <? u32 (min_len gs) then Some (2, p4)
            else Some (0, set_laln p4 la')
        end).
Proof.
  intros [Hu Hc]. unfold pileup_read_with_fetch, use_umi, use_barcodes.
  destruct (umi_tag gs) as [ut|] eqn:Eu; destruct (cell_tag gs) as [ct|] eqn:Ec.
  - destruct (Hu ut eq_refl) as [u Ea]. destruct (Hc ct eq_refl) as [c Eb].
    exists (set_cb (set_umi p (Some u)) (Some c)).
    split; [reflexivity|]. simpl. rewrite Ea. simpl. rewrite Eb. reflexivity.
  - destruct (Hu ut eq_refl) as [u Ea].
    exists (set_umi p (Some u)).
    split; [reflexivity|]. simpl. rewrite Ea. reflexivity.
  - destruct (Hc ct eq_refl) as [c Eb].
    exists (set_cb p (Some c)).
    split; [reflexivity|]. simpl. rewrite Eb. reflexivity.
  - exists p. split; reflexivity.
Qed.

(** X1.  The two assertions of the resolver (lines 380 and 393) fail
    exactly for a read that carries the required tags, passes the MAPQ and
    flag filters, and whose alignment does not span the position: it
    starts after it, or its CIGAR ends at or before it.  A read whose CIGAR
    consumes no reference base (an empty CIGAR included) is of the second
    kind wherever it starts. *)
Theorem resolver_aborts_iff_uncovered (gs : global_settings)
    (p : csp_pileup_t) (t : Z) :
  (pileup_read_with_fetch t p gs = None
   <-> has_tags gs (b p) /\ min_mapq gs <= core_qual (b p)
       /\ core_flag (b p) <= max_flag gs /\ ~ covers (b p) t)
  /\ (ref_len (cigar (b p)) = 0 -> ~ covers (b p) t).
Proof.
  split; [|unfold covers; intros ->; lia].
  destruct (has_tags_dec gs (b p)) as [Ht|Hn].
  - destruct (resolver_tail gs p t Ht) as (p2 & _ & ->).
    unfold covers.
    destruct (core_qual (b p) <? min_mapq gs) eqn:Eq; zb Eq.
    { split; [discriminate | lia]. }
    destruct (core_flag (b p) >? max_flag gs) eqn:Ef; zb Ef.
    { split; [discriminate | lia]. }
    destruct (core_pos (b p) <=? t) eqn:Ep; zb Ep; cbn [negb].
    + pose proof (find_pos_none t (cigar (b p)) (core_pos (b p)) 0 0 Ep) as Hnone.
      destruct (find_pos t (cigar (b p)) (core_pos (b p)) 0 0)
        as [[[[[op px] py] la] rest]|] eqn:Efp.
      * assert (Hcov : ~ core_pos (b p) + ref_len (cigar (b p)) <= t).
        { intros H. apply Hnone in H. discriminate H. }
        split; [|lia]. cbv zeta.
        repeat match goal with
               | |- context [if ?c then _ else _] => destruct c
               end; discriminate.
      * split; [intros _|reflexivity].
        assert (core_pos (b p) + ref_len (cigar (b p)) <= t)
          by (apply Hnone; reflexivity).
        split_and!; try assumption; lia.
    + split; [intros _|reflexivity]. split_and!; try assumption; lia.
  - destruct (resolver_tag_missing gs p t Hn) as (p' & -> & _).
    split; [discriminate|]. intros [Ht _]. contradiction.
Qed.

(** X2.  Whenever the resolver accepts a read (code 0), the read spans
    the position, the query offset it reports lies inside the query
    sequence that the CIGAR describes, base and quality are the ones
    stored at that offset, no deletion or skip is flagged, and the
    recorded aligned length reaches the configured minimum. *)
Theorem resolver_offset_in_read (gs : global_settings) (p p' : csp_pileup_t)
    (t : Z) :
  pileup_read_with_fetch t p gs = Some (0, p') ->
  b p' = b p /\ covers (b p) t
  /\ 0 <= qpos p' < qry_len (cigar (b p))
  /\ base p' = seqi (b p) (qpos p') /\ qual p' = quals (b p) (qpos p')
  /\ is_del p' = false /\ is_refskip p' = false
  /\ u32 (min_len gs) <= laln p'.
Proof.
  intros H.
  destruct (has_tags_dec gs (b p)) as [Ht|Hn].
  2:{ destruct (resolver_tag_missing gs p t Hn) as (q & Hq & _).
      rewrite Hq in H. discriminate H. }
  destruct (resolver_tail gs p t Ht) as (p2 & Hb & Hr).
  rewrite Hr in H. clear Hr.
  destruct (core_qual (b p) <? min_mapq gs); [discriminate H|].
  destruct (core_flag (b p) >? max_flag gs); [discriminate H|].
  destruct (core_pos (b p) <=? t) eqn:Ep; zb Ep; cbn [negb] in H;
    [|discriminate H].
  destruct (find_pos t (cigar (b p)) (core_pos (b p)) 0 0)
    as [[[[[op px] py] la] rest]|] eqn:Efp; [|discriminate H].
  destruct (find_pos_inv _ _ _ _ _ _ _ _ _ _ Ep Efp)
    as (pre & c & Hcig & -> & -> & -> & Hc).
  pose proof (find_pos_op _ _ _ _ _ _ _ _ _ _ Ep Efp) as Hop.
  pose proof (op_classes (get_cigar_op c)) as [Hm Hd].
  cbv zeta in H.
  destruct (is_match_class (get_cigar_op c)) eqn:Em.
  - cbn in H.
    destruct (rest_laln rest la <? u32 (min_len gs)) eqn:El; zb El;
      [discriminate H|].
    injection H as <-. cbn.
    assert (Hq : op_qry_len c = op_ref_len c).
    { unfold op_qry_len, op_ref_len. rewrite Em. reflexivity. }
    pose proof (qry_len_nonneg pre). pose proof (qry_len_nonneg rest).
    pose proof (ref_len_nonneg rest).
    unfold covers. rewrite Hcig, qry_len_app, ref_len_app.
    change (qry_len (c :: rest)) with (op_qry_len c + qry_len rest).
    change (ref_len (c :: rest)) with (op_ref_len c + ref_len rest).
    split_and!; try reflexivity; try assumption; lia.
  - cbn [orb] in Hop. rewrite Hop in H. cbn in H. discriminate H.
Qed.

Lemma resolver_code_cases gs p p' t st :
  pileup_read_with_fetch t p gs = Some (st, p') ->
  (st = 0 \/ st = 1 \/ st = 2)
  /\ (st = 1 <-> ~ has_tags gs (b p))
  /\ b p' = b p.
Proof.
  intros H.
  destruct (has_tags_dec gs (b p)) as [Ht|Hn].
  - destruct (resolver_tail gs p t Ht) as (p2 & Hb & Hr).
    rewrite Hr in H. clear Hr.
    assert (Hres : (st = 0 \/ st = 2) /\ b p' = b p).
    { destruct (core_qual (b p) <? min_mapq gs);
        [injection H as <- <-; auto|].
      destruct (core_flag (b p) >? max_flag gs);
        [injection H as <- <-; auto|].
      destruct (negb (core_pos (b p) <=? t)); [discriminate H|].
      destruct (find_pos t (cigar (b p)) (core_pos (b p)) 0 0)
        as [[[[[op px] py] la] rest]|]; [|discriminate H].
      cbv zeta in H.
      destruct (is_match_class op); [|destruct (is_del_or_skip op)];
        cbn in H;
        repeat match type of H with
               | context [if ?c then _ else _] => destruct c
               end;
        injection H as <- <-; cbn; auto. }
    destruct Hres as [Hst Hbb]. split_and!; [tauto | | exact Hbb].
    split; [intros ->; destruct Hst; discriminate | intros Hc; contradiction].
  - destruct (resolver_tag_missing gs p t Hn) as (q & Hq & Hbq).
    rewrite Hq in H. injection H as <- <-.
    split_and!; [auto | tauto | exact Hbq].
Qed.

(** X3.  The resolver only ever reports 0, 1 or 2, never a negative
    code, and it reports 1 exactly when a required tag is missing: the
    tag filters come before every other filter and before the
    assertions.  The alignment record is handed back untouched. *)
Theorem resolver_codes (gs : global_settings) (p p' : csp_pileup_t)
    (t st : Z) :
  pileup_read_with_fetch t p gs = Some (st, p') ->
  (st = 0 \/ st = 1 \/ st = 2)
  /\ (st = 1 <-> ~ has_tags gs (b p))
  /\ b p' = b p.
Proof. apply resolver_code_cases. Qed.

(** A read that spans the position never trips an assertion. *)
Lemma resolver_returns gs p t :
  covers (b p) t ->
  exists st p',
    pileup_read_with_fetch t p gs = Some (st, p')
    /\ (st = 0 \/ st = 1 \/ st = 2).
Proof.
  intros [Hc1 Hc2].
  assert (Hsome : exists r, pileup_read_with_fetch t p gs = Some r).
  { destruct (has_tags_dec gs (b p)) as [Ht|Hn].
    - destruct (resolver_tail gs p t Ht) as (p2 & _ & ->).
      destruct (core_qual (b p) <? min_mapq gs); [eauto|].
      destruct (core_flag (b p) >? max_flag gs); [eauto|].
      destruct (core_pos (b p) <=? t) eqn:Ep; zb Ep; [|lia]. cbn [negb].
      pose proof (find_pos_none t (cigar (b p)) (core_pos (b p)) 0 0 Ep)
        as Hnone.
      destruct (find_pos t (cigar (b p)) (core_pos (b p)) 0 0)
        as [[[[[op px] py] la] rest]|].
      + cbv zeta.
        repeat match goal with
               | |- context [if ?c then _ else _] => destruct c
               end; eauto.
      + assert (core_pos (b p) + ref_len (cigar (b p)) <= t)
          by (by apply Hnone).
        lia.
    - destruct (resolver_tag_missing gs p t Hn) as (p' & -> & _). eauto. }
  destruct Hsome as [[st p'] H]. exists st, p'. split; [exact H|].
  by destruct (resolver_code_cases _ _ _ _ _ H) as (Hst & _).
Qed.


(** ** GroupTable *)

Lemma sg_get_lt h k : forall i, sg_get h k = Some i -> (i < length h)%nat.
Proof.
  induction h as [|[name g] h IH]; intros i H; simpl in *; [discriminate|].
  destruct (String.eqb name k).
  - injection H as <-. lia.
  - destruct (sg_get h k) as [j|]; [|discriminate].
    injection H as <-. specialize (IH j eq_refl). lia.
Qed.

Lemma push_target_lt p m sid gs i :
  push_target p m sid gs = Some i ->
  use_barcodes gs = true \/ (Z.to_nat sid < length (hsg m))%nat ->
  (i < length (hsg m))%nat.
Proof.
  unfold push_target. intros H Hr.
  destruct (use_barcodes gs).
  - destruct (cb p) as [k|]; [|discriminate]. by apply sg_get_lt in H.
  - destruct (use_sid gs); [|discriminate]. injection H as <-.
    destruct Hr as [Hr|Hr]; [discriminate | exact Hr].
Qed.

Lemma plp_count_counted p g : plp_counted g -> plp_counted (plp_count p g).
Proof.
  intros (Hb & Hq & Hs). unfold plp_counted, plp_count. cbn [bc qu].
  pose proof (seq_nt16_idx2int_range (base p)) as Hr.
  assert (Hi : (Z.to_nat (seq_nt16_idx2int (base p)) < 5)%nat) by lia.
  generalize dependent (Z.to_nat (seq_nt16_idx2int (base p))). intros idx Hi.
  destruct g as [bc0 tc0 ad0 dp0 oth0 qu0 hug0]. cbn [bc qu] in *.
  destruct bc0 as [|b0 [|b1 [|b2 [|b3 [|b4 [|]]]]]]; try discriminate Hb.
  destruct qu0 as [|q0 [|q1 [|q2 [|q3 [|q4 [|]]]]]]; try discriminate Hq.
  pose proof (Hs 0%nat ltac:(lia)) as H0. pose proof (Hs 1%nat ltac:(lia)) as H1.
  pose proof (Hs 2%nat ltac:(lia)) as H2. pose proof (Hs 3%nat ltac:(lia)) as H3.
  pose proof (Hs 4%nat ltac:(lia)) as H4. cbn in H0, H1, H2, H3, H4.
  destruct idx as [|[|[|[|[|]]]]]; try lia;
    (split; [reflexivity|]; split; [reflexivity|];
     intros [|[|[|[|[|]]]]] Hj; try lia; cbn; rewrite ?length_app; cbn; lia).
Qed.

Lemma plp_push_counted p gs g : plp_counted g -> plp_counted (plp_push p gs g).
Proof.
  intros H. unfold plp_push.
  destruct (use_umi gs); [|by apply plp_count_counted].
  destruct (umi p) as [u|]; [|exact H].
  case_bool_decide; [exact H|].
  apply plp_count_counted. exact H.
Qed.

Lemma plp_counted_empty : plp_counted plp_empty.
Proof.
  split; [reflexivity|]. split; [reflexivity|].
  intros [|[|[|[|[|]]]]] Hj; try lia; reflexivity.
Qed.

Lemma push_counted p m sid gs :
  Forall (fun e => plp_counted (snd e)) (hsg m) ->
  Forall (fun e => plp_counted (snd e)) (hsg (snd (csp_mplp_push p m sid gs))).
Proof.
  intros H. rewrite csp_mplp_push_target.
  destruct (push_target p m sid gs); [|exact H].
  cbn [snd set_hsg hsg].
  apply Forall_alter_keep; [|exact H].
  intros e He. cbn [snd]. by apply plp_push_counted.
Qed.

Lemma plp_counted_nonneg g j :
  plp_counted g -> 0 <= arr_get (bc g) j.
Proof.
  intros (Hb & Hq & Hs). unfold arr_get.
  destruct (Nat.lt_ge_cases (Z.to_nat j) 5) as [Hlt|Hge].
  - rewrite (Hs _ Hlt). lia.
  - rewrite nth_overflow by lia. lia.
Qed.

(** X4.  A push changes at most the group it addresses: the names and
    the order of the groups, every other group and all site-wide fields of
    the table stay as they were.  No group is ever created or removed. *)
Theorem push_touches_one_group (p : csp_pileup_t) (m : csp_mplp_t) (sid : Z)
    (gs : global_settings) :
  let m' := snd (csp_mplp_push p m sid gs) in
  map fst (hsg m') = map fst (hsg m)
  /\ (forall j, push_target p m sid gs <> Some j -> hsg m' !! j = hsg m !! j)
  /\ (forall j name g,
        push_target p m sid gs = Some j -> hsg m !! j = Some (name, g) ->
        hsg m' !! j = Some (name, plp_push p gs g))
  /\ m_bc m' = m_bc m /\ m_tc m' = m_tc m
  /\ ref_idx m' = ref_idx m /\ alt_idx m' = alt_idx m
  /\ inf_rid m' = inf_rid m /\ inf_aid m' = inf_aid m
  /\ nr_ad m' = nr_ad m /\ nr_dp m' = nr_dp m /\ nr_oth m' = nr_oth m.
Proof.
  intros m'. split; [apply push_names|]. subst m'.
  rewrite csp_mplp_push_target.
  destruct (push_target p m sid gs) as [i|] eqn:Et; cbn [snd set_hsg hsg m_bc
    m_tc ref_idx alt_idx inf_rid inf_aid nr_ad nr_dp nr_oth].
  - split_and!; try reflexivity.
    + intros j Hj. apply list_lookup_alter_ne. congruence.
    + intros j name g [= <-] Hl. by rewrite (alter_lookup_eq _ _ _ _ Hl).
  - split_and!; try reflexivity. intros j name g H. discriminate H.
Qed.

(** X5.  Starting from the table that [csp_mplp_prepare] or a reset
    leaves, after any sequence of pushes every count slot of every group
    equals the number of quality values kept in the list of that slot; in
    particular no count is negative. *)
Theorem slot_counts_match_qualities (gs : global_settings)
    (names : list string) (r a : Z) (l : list (csp_pileup_t * Z)) :
  let m := push_all gs l (set_ref_alt (mplp_of_roster names) r a) in
  Forall (fun e => plp_counted (snd e)
                   /\ forall j, 0 <= arr_get (bc (snd e)) j) (hsg m).
Proof.
  intros m.
  assert (H : Forall (fun e => plp_counted (snd e)) (hsg m)).
  { subst m. unfold push_all.
    assert (H0 : Forall (fun e => plp_counted (snd e))
                   (hsg (set_ref_alt (mplp_of_roster names) r a))).
    { cbn. apply Forall_map. apply Forall_forall. intros x _.
      apply plp_counted_empty. }
    revert H0. generalize (set_ref_alt (mplp_of_roster names) r a).
    induction l as [|e l IH]; intros m0 H0; [exact H0|].
    cbn [fold_left]. apply IH. by apply push_counted. }
  eapply Forall_impl; [|exact H].
  intros e He. split; [exact He|]. intros j. by apply plp_counted_nonneg.
Qed.

(** ** SiteDriver *)

Lemma plp_push_sum p gs g :
  length (bc g) = 5%nat ->
  (sumZ (bc (plp_push p gs g)) = sumZ (bc g)
   \/ sumZ (bc (plp_push p gs g)) = sumZ (bc g) + 1)
  /\ (use_umi gs = false -> sumZ (bc (plp_push p gs g)) = sumZ (bc g) + 1).
Proof.
  intros Hb.
  assert (Hc : forall g0, length (bc g0) = 5%nat ->
                 sumZ (bc (plp_count p g0)) = sumZ (bc g0) + 1).
  { intros g0 H0. unfold plp_count. cbn [bc].
    pose proof (seq_nt16_idx2int_range (base p)).
    apply sumZ_alter_succ; [exact H0 | lia]. }
  unfold plp_push. destruct (use_umi gs).
  - split; [|discriminate].
    destruct (umi p) as [u|]; [|by left].
    case_bool_decide; [by left|]. right.
    rewrite Hc by exact Hb. reflexivity.
  - split; [right|intros _]; by apply Hc.
Qed.

Lemma push_total p m sid gs rc m' :
  Forall (fun e => length (bc (snd e)) = 5%nat) (hsg m) ->
  csp_mplp_push p m sid gs = (rc, m') ->
  table_total m <= table_total m' <= table_total m + 1
  /\ (rc <> 0 -> table_total m' = table_total m)
  /\ (use_umi gs = false -> rc = 0 ->
      use_barcodes gs = true \/ (Z.to_nat sid < length (hsg m))%nat ->
      table_total m' = table_total m + 1).
Proof.
  intros Hl H. rewrite csp_mplp_push_target in H.
  destruct (push_target p m sid gs) as [i|] eqn:Et.
  - injection H as <- <-. unfold table_total. cbn [hsg set_hsg].
    destruct (hsg m !! i) as [[name g]|] eqn:El.
    + rewrite (sumZ_map_alter _ _ _ _ _ El). cbn [fst snd].
      assert (Hg : length (bc g) = 5%nat).
      { eapply Forall_lookup_1 in Hl; [|exact El]. exact Hl. }
      destruct (plp_push_sum p gs g Hg) as [[Hs|Hs] Hu].
      * split_and!; [lia | lia | congruence |].
        intros Hn _ _. rewrite (Hu Hn). lia.
      * split_and!; [lia | lia | congruence |].
        intros Hn _ _. rewrite (Hu Hn). lia.
    + rewrite alter_lookup_none by exact El.
      split_and!; [lia | lia | reflexivity |].
      intros _ _ Hr. apply lookup_ge_None in El.
      pose proof (push_target_lt _ _ _ _ _ Et Hr). lia.
  - injection H as <- <-. split_and!; [lia | lia | reflexivity |].
    intros _ Hrc _. destruct (use_barcodes gs); discriminate.
Qed.

Lemma pending_lengths m :
  mplp_pending m -> Forall (fun e => length (bc (snd e)) = 5%nat) (hsg m).
Proof.
  intros (_ & _ & H & _). eapply Forall_impl; [|exact H].
  intros e (Hb & _). exact Hb.
Qed.

Lemma pileup_reads_total gs t i rs : forall p m n ok p' m' n',
  mplp_pending m ->
  pileup_reads gs t i rs p m n = Some (ok, p', m', n') ->
  n <= n' /\ table_total m <= table_total m'
  /\ table_total m' - table_total m <= n' - n
  /\ (use_umi gs = false ->
      use_barcodes gs = true \/ (Z.to_nat i < length (hsg m))%nat ->
      table_total m' - table_total m = n' - n).
Proof.
  induction rs as [|r rs IH]; intros p m n ok p' m' n' Hm H; simpl in H.
  - injection H as <- <- <- <-. split_and!; try lia; intros _ _; lia.
  - destruct (pileup_read_with_fetch t (set_b p r) gs) as [[st p1]|];
      [|discriminate].
    destruct (st =? 0).
    + destruct (use_barcodes gs || use_sid gs).
      * destruct (csp_mplp_push p1 m _ gs) as [rc m1] eqn:Ep.
        assert (Hm1 : mplp_pending m1).
        { replace m1 with (snd (csp_mplp_push p1 m
                     (if use_barcodes gs then -1 else i) gs))
            by (rewrite Ep; reflexivity).
          by apply push_pending. }
        assert (Hlen : length (hsg m1) = length (hsg m)).
        { pose proof (push_names p1 m (if use_barcodes gs then -1 else i) gs)
            as Hn. rewrite Ep in Hn. cbn [snd] in Hn.
          apply (f_equal (@length _)) in Hn.
          by rewrite !length_map in Hn. }
        destruct (push_total _ _ _ _ _ _ (pending_lengths _ Hm) Ep)
          as (Hb & Hnz & Hz).
        destruct (rc <? 0) eqn:Erc; zb Erc.
        -- injection H as <- <- <- <-.
           rewrite (Hnz ltac:(lia)). split_and!; try lia; intros _ _; lia.
        -- destruct (IH _ _ _ _ _ _ _ Hm1 H) as (H1 & H2 & H3 & H4).
           destruct (rc =? 0) eqn:E0; zb E0.
           ++ split_and!; try lia. intros Hu Hr.
              assert (Hr1 : use_barcodes gs = true
                            \/ (Z.to_nat i < length (hsg m1))%nat)
                by (rewrite Hlen; exact Hr).
              specialize (H4 Hu Hr1).
              assert (Hr2 : use_barcodes gs = true
                \/ (Z.to_nat (if use_barcodes gs then -1 else i)
                    < length (hsg m))%nat).
              { destruct Hr as [Hr|Hr]; [by left|].
                destruct (use_barcodes gs); [by left | by right]. }
              specialize (Hz Hu E0 Hr2). lia.
           ++ rewrite (Hnz E0) in *. split_and!; try lia. intros Hu Hr.
              apply H4; [exact Hu|]. rewrite Hlen. exact Hr.
      * injection H as <- <- <- <-. split_and!; try lia; intros _ _; lia.
    + destruct (st <? 0).
      * injection H as <- <- <- <-. split_and!; try lia; intros _ _; lia.
      * eapply IH; [exact Hm | exact H].
Qed.

Lemma pileup_sources_total gs snp fs : forall i p m n st p' m' n',
  mplp_pending m -> 0 <= i ->
  pileup_sources gs snp fs i p m n = Some (st, p', m', n') ->
  n <= n' /\ table_total m <= table_total m'
  /\ table_total m' - table_total m <= n' - n
  /\ (use_umi gs = false ->
      use_barcodes gs = true
      \/ (Z.to_nat i + length fs <= length (hsg m))%nat ->
      table_total m' - table_total m = n' - n).
Proof.
  induction fs as [|bs fs IH]; intros i p m n st p' m' n' Hm Hi H; simpl in H.
  - injection H as <- <- <- <-. split_and!; try lia; intros _ _; lia.
  - destruct (name2id bs (chr snp) <? 0).
    { injection H as <- <- <- <-. split_and!; try lia; intros _ _; lia. }
    destruct (itr_query bs _ _ _) as [[rs ret]|].
    2:{ injection H as <- <- <- <-. split_and!; try lia; intros _ _; lia. }
    destruct (pileup_reads gs (pos snp) i rs p m n)
      as [[[[ok p1] m1] n1]|] eqn:Er; [|discriminate].
    pose proof (pileup_reads_pending _ _ _ _ _ _ _ _ _ _ _ Hm Er) as Hm1.
    destruct (pileup_reads_total _ _ _ _ _ _ _ _ _ _ _ Hm Er)
      as (R1 & R2 & R3 & R4).
    assert (Hlen : length (hsg m1) = length (hsg m)).
    { pose proof (pileup_reads_names _ _ _ _ _ _ _ _ _ _ _ Er) as Hn.
      apply (f_equal (@length _)) in Hn. by rewrite !length_map in Hn. }
    assert (Hhere : use_umi gs = false ->
              use_barcodes gs = true
              \/ (Z.to_nat i + length (bs :: fs) <= length (hsg m))%nat ->
              table_total m1 - table_total m = n1 - n).
    { intros Hu Hr. apply R4; [exact Hu|].
      destruct Hr as [Hr|Hr]; [by left|right]. cbn [length] in Hr. lia. }
    destruct ok.
    2:{ injection H as <- <- <- <-. split_and!; try lia. exact Hhere. }
    destruct (ret <? -1).
    { injection H as <- <- <- <-. split_and!; try lia. exact Hhere. }
    assert (Hi1 : 0 <= i + 1) by lia.
    destruct (IH _ _ _ _ _ _ _ _ Hm1 Hi1 H) as (S1 & S2 & S3 & S4).
    split_and!; try lia. intros Hu Hr.
    specialize (Hhere Hu Hr).
    assert (use_barcodes gs = true
            \/ (Z.to_nat (i + 1) + length fs <= length (hsg m1))%nat).
    { destruct Hr as [Hr|Hr]; [by left|right].
      cbn [length] in Hr. rewrite Hlen. lia. }
    specialize (S4 Hu H0). lia.
Qed.

Lemma sum_total m :
  mplp_pending m -> m_tc (csp_mplp_sum m) = table_total m.
Proof.
  intros Hm. destruct (sum_pending m Hm) as (_ & _ & Hg & _ & ->).
  unfold table_total, csp_mplp_sum in *. cbn [hsg] in *.
  clear Hm. revert Hg. generalize (hsg m). intros h.
  induction h as [|e h IH]; intros Hg; [reflexivity|].
  cbn [map] in *. inversion Hg as [|x l (_ & He & _) Hh]; subst.
  cbn [snd] in He. rewrite !sumZ_cons, IH by exact Hh.
  cbn [snd]. rewrite He. reflexivity.
Qed.

(** X6.  The counter [npushed] of the site driver counts every push
    that returned 0, duplicates of a UMI included, while the table counts
    bases.  So after the source loop the summed total never exceeds
    [npushed], and without UMI grouping (every source having its own
    group, or in barcode mode) the two are equal: the minimum-count test
    inside [csp_mplp_stat] then repeats the test of the driver, and with
    UMI grouping it is the stronger of the two. *)
Theorem npushed_bounds_table_total (gs : global_settings) (snp : csp_snp_t)
    (fs : list csp_bam_fs) (names : list string) (p p' : csp_pileup_t)
    (m' : csp_mplp_t) (st n : Z) :
  pileup_sources gs snp fs 0 p (mplp_set_snp (mplp_of_roster names) snp) 0
    = Some (st, p', m', n) ->
  let total := m_tc (csp_mplp_sum m') in
  0 <= total <= n
  /\ (use_umi gs = false ->
      use_barcodes gs = true \/ (length fs <= length names)%nat ->
      total = n)
  /\ (n < to_size_t (min_count gs) -> total < to_size_t (min_count gs)).
Proof.
  intros H total.
  assert (Hm0 : mplp_pending (mplp_set_snp (mplp_of_roster names) snp))
    by apply roster_pending.
  pose proof (pileup_sources_pending _ _ _ _ _ _ _ _ _ _ _ Hm0 H) as Hm'.
  destruct (pileup_sources_total _ _ _ _ _ _ _ _ _ _ _ Hm0 (Z.le_refl 0) H)
    as (H1 & H2 & H3 & H4).
  assert (Ht0 : table_total (mplp_set_snp (mplp_of_roster names) snp) = 0).
  { unfold table_total, mplp_set_snp. cbn [hsg set_ref_alt mplp_of_roster].
    clear. induction names as [|x xs IH]; [reflexivity|].
    cbn [map]. rewrite sumZ_cons, IH. reflexivity. }
  assert (Ht : total = table_total m') by (apply sum_total; exact Hm').
  rewrite Ht0 in *.
  split_and!; try lia.
  intros Hu Hr. rewrite Ht. 
  assert (Hr' : use_barcodes gs = true
            \/ (Z.to_nat 0 + length fs
                <= length (hsg (mplp_set_snp (mplp_of_roster names) snp)))%nat).
  { destruct Hr as [Hr|Hr]; [by left|right].
    cbn [hsg mplp_set_snp set_ref_alt mplp_of_roster]. rewrite length_map. lia. }
  specialize (H4 Hu Hr'). lia.
Qed.

Lemma push_code_grouped p m sid gs :
  use_barcodes gs || use_sid gs = true -> 0 <= fst (csp_mplp_push p m sid gs).
Proof.
  intros Hg. rewrite csp_mplp_push_target. unfold push_target.
  destruct (use_barcodes gs).
  - destruct (cb p) as [k|]; [|cbn; lia].
    destruct (sg_get (hsg m) k); cbn; lia.
  - cbn [orb] in Hg. rewrite Hg. cbn. lia.
Qed.

(** With a grouping and reads that span the position, the read loop runs
    through. *)
Lemma pileup_reads_through gs t i rs : forall p m n,
  use_barcodes gs || use_sid gs = true ->
  Forall (fun r => covers r t) rs ->
  exists p' m' n', pileup_reads gs t i rs p m n = Some (true, p', m', n').
Proof.
  induction rs as [|r rs IH]; intros p m n Hg Hrs; cbn [pileup_reads].
  - eauto.
  - inversion Hrs as [|x l Hr Hrest]; subst.
    destruct (resolver_returns gs (set_b p r) t Hr) as (st & p1 & -> & Hst).
    destruct (st =? 0) eqn:E0; zb E0.
    + rewrite Hg.
      pose proof (push_code_grouped p1 m (if use_barcodes gs then -1 else i)
                    gs Hg) as Hrc.
      destruct (csp_mplp_push p1 m _ gs) as [rc m1]. cbn [fst] in Hrc.
      destruct (rc <? 0) eqn:E; zb E; [lia|]. by apply IH.
    + destruct (st <? 0) eqn:E; zb E; [lia|]. by apply IH.
Qed.

Lemma stat_groups_plain gs r a h : forall nr,
  is_genotype gs = false -> fst (fst (stat_groups gs r a h nr)) = true.
Proof.
  induction h as [|[name g] h IH]; intros [[na nd] no] Hg; [reflexivity|].
  cbn [stat_groups]. rewrite Hg. cbn [andb].
  match goal with |- context [stat_groups gs r a h ?n] =>
    specialize (IH n Hg); destruct (stat_groups gs r a h n) as [[ok h'] nr'] end.
  cbn [fst] in *. exact IH.
Qed.

Lemma stat_code_plain m gs :
  is_genotype gs = false ->
  fst (csp_mplp_stat m gs) = 0 \/ fst (csp_mplp_stat m gs) = 1.
Proof.
  intros Hg. rewrite csp_mplp_stat_cases. cbv zeta.
  destruct (_ <? _); [by right|].
  destruct (below_maf _ _ _); [by right|].
  rewrite stat_groups_plain by exact Hg. by left.
Qed.

(** With a grouping, iterators that end without an error and reads that
    span the position, the source loop returns with state 0 or 1. *)
Lemma pileup_sources_through gs snp fs : forall i p m n,
  use_barcodes gs || use_sid gs = true ->
  Forall (fun bs => forall rs ret,
            itr_query bs (name2id bs (chr snp)) (pos snp) (pos snp + 1)
              = Some (rs, ret) ->
            -1 <= ret /\ Forall (fun r => covers r (pos snp)) rs) fs ->
  exists st p' m' n',
    pileup_sources gs snp fs i p m n = Some (st, p', m', n')
    /\ (st = 0 \/ st = 1).
Proof.
  induction fs as [|bs fs IH]; intros i p m n Hg Hit; cbn [pileup_sources].
  - do 4 eexists. split; [reflexivity | by left].
  - inversion Hit as [|x l Hbs Hrest]; subst.
    destruct (name2id bs (chr snp) <? 0);
      [do 4 eexists; split; [reflexivity | by right]|].
    destruct (itr_query bs _ _ _) as [[rs ret]|] eqn:Eq;
      [|do 4 eexists; split; [reflexivity | by right]].
    destruct (Hbs _ _ eq_refl) as [Hret Hrs].
    destruct (pileup_reads_through gs (pos snp) i rs p m n Hg Hrs)
      as (p1 & m1 & n1 & ->).
    destruct (ret <? -1) eqn:E; zb E; [lia|]. by apply IH.
Qed.

(** X9.  The site driver returns -1 only for one of three reasons:
    neither barcodes nor sample IDs are configured, an iterator stops with
    an error (a value below -1), or genotyping fails; and it is aborted
    only by a read that does not span the SNP position.  With a grouping
    configured, genotyping off, and iterators that end normally and yield
    only reads that span the position, the driver returns for every SNP,
    and returns 0 or 1: the resolver never reports a negative code and a
    push then never does, so the branches for them are never taken. *)
Theorem snp_never_fatal (gs : global_settings) (snp : csp_snp_t)
    (fs : list csp_bam_fs) (p : csp_pileup_t) (m : csp_mplp_t) :
  use_barcodes gs || use_sid gs = true ->
  is_genotype gs = false ->
  Forall (fun bs => forall rs ret,
            itr_query bs (name2id bs (chr snp)) (pos snp) (pos snp + 1)
              = Some (rs, ret) ->
            -1 <= ret /\ Forall (fun r => covers r (pos snp)) rs) fs ->
  exists st p' m',
    pileup_snp_with_fetch snp fs p m gs = Some (st, p', m')
    /\ (st = 0 \/ st = 1).
Proof.
  intros Hg Hgt Hit. unfold pileup_snp_with_fetch.
  destruct (pileup_sources_through gs snp fs 0 p (mplp_set_snp m snp) 0 Hg Hit)
    as (s1 & p1 & m1 & n1 & -> & Hs).
  destruct (s1 =? 0) eqn:E0; zb E0; cbn [negb].
  2:{ do 3 eexists. split; [reflexivity|].
      destruct Hs; [contradiction | by right]. }
  destruct (n1 <? to_size_t (min_count gs));
    [do 3 eexists; split; [reflexivity | by right]|].
  pose proof (stat_code_plain m1 gs Hgt) as Hc.
  destruct (csp_mplp_stat m1 gs) as [ret m2]. cbn [fst] in Hc.
  destruct Hc as [-> | ->]; cbn; do 3 eexists; (split; [reflexivity|]); auto.
Qed.

(** ** AggregateStats *)

(** What a successful [csp_mplp_stat] leaves in the table. *)
Lemma stat_ok_shape m gs res :
  csp_mplp_stat m gs = (0, res) ->
  let m1 := csp_mplp_sum m in
  let r := ref_idx res in
  let a := alt_idx res in
  m_bc res = m_bc m1 /\ m_tc res = m_tc m1
  /\ m_ad res = arr_get (m_bc m1) a
  /\ m_dp res = arr_get (m_bc m1) r + arr_get (m_bc m1) a
  /\ m_oth res = to_size_t (m_tc m1 - m_dp res)
  /\ hsg res
     = map (fun e => (fst e,
              set_adp (snd e) (arr_get (bc (snd e)) a)
                      (arr_get (bc (snd e)) r + arr_get (bc (snd e)) a)
                      (to_size_t (tc (snd e)
                         - (arr_get (bc (snd e)) r + arr_get (bc (snd e)) a)))))
           (hsg m1)
  /\ ((ref_idx m < 0 \/ alt_idx m < 0) \/ (r = ref_idx m /\ a = alt_idx m)).
Proof.
  unfold csp_mplp_stat.
  destruct (m_tc (csp_mplp_sum m) <? to_size_t (min_count gs)); [discriminate|].
  destruct (csp_infer_allele (m_bc (csp_mplp_sum m))) as [r0 a0].
  destruct (below_maf _ _ _); [discriminate|].
  change (ref_idx (set_inf (csp_mplp_sum m) r0 a0)) with (ref_idx m).
  change (alt_idx (set_inf (csp_mplp_sum m) r0 a0)) with (alt_idx m).
  assert (Hr1 : ref_idx (csp_mplp_sum m) = ref_idx m) by reflexivity.
  assert (Ha1 : alt_idx (csp_mplp_sum m) = alt_idx m) by reflexivity.
  generalize dependent (csp_mplp_sum m). intros m1 Hr1 Ha1.
  destruct ((ref_idx m <? 0) || (alt_idx m <? 0)) eqn:Ev.
  - cbv zeta.
    cbn [m_bc m_tc hsg ref_idx alt_idx nr_ad nr_dp nr_oth set_m_adp
         set_ref_alt set_inf].
    match goal with |- context [stat_groups ?g ?r ?a ?h ?n] =>
      destruct (stat_groups g r a h n) as [[ok h'] [[na nd] no]] eqn:Es end.
    destruct ok; [|discriminate]. intros H. injection H as <-.
    apply stat_groups_ok in Es.
    cbn [m_bc m_tc m_ad m_dp m_oth hsg ref_idx alt_idx set_groups set_m_adp
         set_ref_alt set_inf].
    split_and!; try reflexivity; [exact Es|].
    left. apply orb_true_iff in Ev as [Ev|Ev]; zb Ev; lia.
  - cbv zeta.
    cbn [m_bc m_tc hsg ref_idx alt_idx nr_ad nr_dp nr_oth set_m_adp
         set_ref_alt set_inf].
    match goal with |- context [stat_groups ?g ?r ?a ?h ?n] =>
      destruct (stat_groups g r a h n) as [[ok h'] [[na nd] no]] eqn:Es end.
    destruct ok; [|discriminate]. intros H. injection H as <-.
    apply stat_groups_ok in Es.
    cbn [m_bc m_tc m_ad m_dp m_oth hsg ref_idx alt_idx set_groups set_m_adp
         set_ref_alt set_inf].
    split_and!; try reflexivity; [exact Es|].
    right. split; assumption.
Qed.

Lemma one_slot_le (l : list Z) (a : Z) :
  (forall j, 0 <= arr_get l j) -> length l = 5%nat -> arr_get l a <= sumZ l.
Proof.
  intros Hn Hl.
  destruct l as [|b0 [|b1 [|b2 [|b3 [|b4 [|]]]]]]; try discriminate Hl.
  pose proof (Hn 0) as H0. pose proof (Hn 1) as H1. pose proof (Hn 2) as H2.
  pose proof (Hn 3) as H3. pose proof (Hn 4) as H4.
  change (0 <= b0) in H0. change (0 <= b1) in H1. change (0 <= b2) in H2.
  change (0 <= b3) in H3. change (0 <= b4) in H4.
  unfold arr_get in *.
  unfold sumZ. cbn [fold_left].
  destruct (Nat.lt_ge_cases (Z.to_nat a) 5) as [Hlt|Hge].
  - clear Hn. generalize dependent (Z.to_nat a).
    intros [|[|[|[|[|k]]]]] Hlt; cbn; lia.
  - rewrite nth_overflow by (cbn; lia). lia.
Qed.

Lemma two_slots_le (l : list Z) (r a : Z) :
  (forall j, 0 <= arr_get l j) -> length l = 5%nat ->
  0 <= r -> 0 <= a -> r <> a ->
  arr_get l r + arr_get l a <= sumZ l.
Proof.
  intros Hn Hl Hr Ha Hne.
  assert (Hnat : Z.to_nat r <> Z.to_nat a) by lia.
  pose proof (one_slot_le l r Hn Hl) as Hor.
  pose proof (one_slot_le l a Hn Hl) as Hoa.
  pose proof (Hn r) as Hnr. pose proof (Hn a) as Hna.
  destruct l as [|b0 [|b1 [|b2 [|b3 [|b4 [|]]]]]]; try discriminate Hl.
  pose proof (Hn 0) as H0. pose proof (Hn 1) as H1. pose proof (Hn 2) as H2.
  pose proof (Hn 3) as H3. pose proof (Hn 4) as H4.
  change (0 <= b0) in H0. change (0 <= b1) in H1. change (0 <= b2) in H2.
  change (0 <= b3) in H3. change (0 <= b4) in H4.
  unfold arr_get in *.
  unfold sumZ in *. cbn [fold_left] in *.
  destruct (Nat.lt_ge_cases (Z.to_nat r) 5) as [Hlr|Hgr].
  - destruct (Nat.lt_ge_cases (Z.to_nat a) 5) as [Hla|Hga].
    + clear Hn Hr Ha Hne. generalize dependent (Z.to_nat a).
      generalize dependent (Z.to_nat r).
      intros [|[|[|[|[|n]]]]] Hor Hnr Hlr [|[|[|[|[|k]]]]] Hnat Hoa Hna Hla;
        cbn in *; lia.
    + rewrite (nth_overflow _ _ (n:=Z.to_nat a)) by (cbn; lia). lia.
  - rewrite (nth_overflow _ _ (n:=Z.to_nat r)) by (cbn; lia). lia.
Qed.

Lemma to_size_t_id z : 0 <= z < 2 ^ 64 -> to_size_t z = z.
Proof. intros H. unfold to_size_t. apply Z.mod_small. exact H. Qed.

(** The table after pushes from a reset: pending, and slot by slot in
    step with the quality lists. *)
Lemma pushed_table gs names r a l :
  let m := push_all gs l (set_ref_alt (mplp_of_roster names) r a) in
  mplp_pending m
  /\ Forall (fun e => forall j, 0 <= arr_get (bc (snd e)) j) (hsg m)
  /\ length (hsg m) = length names.
Proof.
  intros m. split_and!.
  - apply push_all_pending, roster_pending.
  - assert (H : Forall (fun e => plp_counted (snd e)) (hsg m)).
    { subst m. unfold push_all.
      assert (H0 : Forall (fun e => plp_counted (snd e))
                     (hsg (set_ref_alt (mplp_of_roster names) r a))).
      { cbn. apply Forall_map. apply Forall_forall. intros x _.
        apply plp_counted_empty. }
      revert H0. generalize (set_ref_alt (mplp_of_roster names) r a).
      induction l as [|e l IH]; intros m0 H0; [exact H0|].
      cbn [fold_left]. apply IH. by apply push_counted. }
    eapply Forall_impl; [|exact H].
    intros e He j. by apply plp_counted_nonneg.
  - subst m. unfold push_all.
    assert (H0 : length (hsg (set_ref_alt (mplp_of_roster names) r a))
                 = length names) by (cbn; apply length_map).
    revert H0. generalize (set_ref_alt (mplp_of_roster names) r a).
    induction l as [|e l IH]; intros m0 H0; [exact H0|].
    cbn [fold_left]. apply IH.
    pose proof (push_names (fst e) m0 (snd e) gs) as Hn.
    apply (f_equal (@length _)) in Hn. rewrite !length_map in Hn. lia.
Qed.

(** The summed table keeps the counts, group by group and slot by slot. *)
Lemma summed_table m :
  mplp_pending m ->
  Forall (fun e => forall j, 0 <= arr_get (bc (snd e)) j) (hsg m) ->
  let m1 := csp_mplp_sum m in
  length (m_bc m1) = 5%nat /\ m_tc m1 = sumZ (m_bc m1)
  /\ (forall j, 0 <= arr_get (m_bc m1) j)
  /\ Forall (fun e => length (bc (snd e)) = 5%nat
                      /\ tc (snd e) = sumZ (bc (snd e))
                      /\ forall j, 0 <= arr_get (bc (snd e)) j) (hsg m1).
Proof.
  intros Hm Hn m1.
  destruct (sum_pending m Hm) as (Hl & Ht & Hg & Hs & _). fold m1 in Hl, Ht, Hg, Hs.
  assert (Hg' : Forall (fun e => length (bc (snd e)) = 5%nat
                      /\ tc (snd e) = sumZ (bc (snd e))
                      /\ forall j, 0 <= arr_get (bc (snd e)) j) (hsg m1)).
  { subst m1. unfold csp_mplp_sum in *. cbn [hsg] in *.
    revert Hg Hn. generalize (hsg m). intros h.
    induction h as [|e h IH]; intros Hg Hn; [constructor|].
    cbn [map] in *. inversion Hg as [|x l0 (H1 & H2 & _) Hh]; subst.
    inversion Hn as [|x l0 Hx Hnn]; subst.
    constructor; [|by apply IH].
    cbn [snd bc plp_sum] in *. split_and!; [exact H1 | exact H2 | exact Hx]. }
  split_and!; [exact Hl | exact Ht | | exact Hg'].
  intros j. unfold arr_get.
  destruct (Nat.lt_ge_cases (Z.to_nat j) 5) as [Hlt|Hge].
  - pose proof (Hs (Z.of_nat (Z.to_nat j)) ltac:(lia)) as Hj.
    unfold arr_get in Hj. rewrite Nat2Z.id in Hj. rewrite Hj.
    apply sumZ_nonneg. apply Forall_map.
    eapply Forall_impl; [|exact Hg']. intros e (_ & _ & He).
    specialize (He (Z.of_nat (Z.to_nat j))). unfold arr_get in He.
    rewrite Nat2Z.id in He. exact He.
  - rewrite nth_overflow by lia. lia.
Qed.

Lemma sumZ_bound {A} (f : A -> Z) (l : list A) :
  Forall (fun e => 0 <= f e) l -> Forall (fun e => f e <= sumZ (map f l)) l.
Proof.
  induction l as [|x l IH]; intros H; [constructor|].
  inversion H as [|y l0 Hx Hl]; subst. cbn [map]. rewrite sumZ_cons.
  assert (0 <= sumZ (map f l)) by (apply sumZ_nonneg, Forall_map; exact Hl).
  constructor; [lia|].
  eapply Forall_impl; [|exact (IH Hl)]. cbn. intros e He. lia.
Qed.

(** X7.  For a table filled by pushes, after a successful
    [csp_mplp_stat] with two different ref and alt slots, AD, DP and the
    total are ordered 0 <= AD <= DP <= total and OTH is exactly
    total - DP, site-wide and in every group: the unsigned subtraction of
    line 335 and line 340 cannot wrap.  (Totals are below 2^64, as any
    [size_t] is.) *)
Theorem stat_depth_split (gs : global_settings) (names : list string)
    (r a : Z) (l : list (csp_pileup_t * Z)) (res : csp_mplp_t) :
  let m := push_all gs l (set_ref_alt (mplp_of_roster names) r a) in
  csp_mplp_stat m gs = (0, res) ->
  0 <= ref_idx res -> 0 <= alt_idx res -> ref_idx res <> alt_idx res ->
  m_tc res < 2 ^ 64 ->
  (0 <= m_ad res <= m_dp res /\ m_dp res <= m_tc res
   /\ m_oth res = m_tc res - m_dp res)
  /\ Forall (fun e => 0 <= ad (snd e) <= dp (snd e)
                      /\ dp (snd e) <= tc (snd e)
                      /\ oth (snd e) = tc (snd e) - dp (snd e)
                      /\ tc (snd e) = sumZ (bc (snd e))) (hsg res).
Proof.
  intros m Hok Hr Ha Hne Hsz.
  destruct (pushed_table gs names r a l) as (Hm & Hn & _). fold m in Hm, Hn.
  destruct (summed_table m Hm Hn) as (Hl & Ht & Hs & Hg).
  destruct (stat_ok_shape m gs res Hok) as (Hbc & Htc & Had & Hdp & Hoth & Hh & _).
  pose proof (two_slots_le _ _ _ Hs Hl Hr Ha Hne) as H2.
  pose proof (Hs (ref_idx res)) as Hrn. pose proof (Hs (alt_idx res)) as Han.
  split.
  - rewrite Hoth, Had, Hdp, Htc in *. rewrite to_size_t_id by lia. lia.
  - assert (Hle : Forall (fun e => tc (snd e) <= m_tc (csp_mplp_sum m))
                    (hsg (csp_mplp_sum m))).
    { destruct (sum_pending m Hm) as (_ & _ & _ & _ & ->).
      apply (sumZ_bound (fun e => tc (snd e))).
      eapply Forall_impl; [|exact Hg]. cbn. intros e (He1 & -> & He3).
      pose proof (one_slot_le _ 0 He3 He1). pose proof (He3 0). lia. }
    rewrite Hh. apply Forall_map.
    pose proof (Forall_and Hg Hle) as Hboth.
    eapply Forall_impl; [|exact Hboth]. cbn beta.
    intros e ((He1 & He2 & He3) & He4).
    cbn [snd ad dp oth tc bc set_adp].
    pose proof (two_slots_le _ _ _ He3 He1 Hr Ha Hne) as He.
    pose proof (He3 (ref_idx res)). pose proof (He3 (alt_idx res)).
    rewrite to_size_t_id by lia. split_and!; lia.
Qed.

Lemma nonzero_le_length sel (h : list (string * csp_plp_t)) :
  0 <= nonzero sel h <= Z.of_nat (length h).
Proof.
  unfold nonzero. induction h as [|e h IH]; cbn [List.filter length]; [lia|].
  destruct (negb (sel (snd e) =? 0)); cbn [length]; lia.
Qed.

Lemma nonzero_mono sel1 sel2 (h : list (string * csp_plp_t)) :
  Forall (fun e => sel1 (snd e) <> 0 -> sel2 (snd e) <> 0) h ->
  nonzero sel1 h <= nonzero sel2 h.
Proof.
  unfold nonzero. induction h as [|e h IH]; intros H; [reflexivity|].
  inversion H as [|x l He Hh]; subst. specialize (IH Hh).
  cbn [List.filter].
  destruct (sel1 (snd e) =? 0) eqn:E1; zb E1;
    destruct (sel2 (snd e) =? 0) eqn:E2; zb E2; cbn [negb length]; lia.
Qed.

Lemma stat_ok_records m gs res :
  mplp_pending m ->
  Forall (fun e => forall j, 0 <= arr_get (bc (snd e)) j) (hsg m) ->
  csp_mplp_stat m gs = (0, res) ->
  Forall (fun e => 0 <= ad (snd e) <= dp (snd e)
                   /\ (ad (snd e) <> 0 -> dp (snd e) <> 0)) (hsg res)
  /\ 0 <= nr_ad res <= nr_dp res
  /\ nr_dp res <= Z.of_nat (length (hsg m))
  /\ 0 <= nr_oth res <= Z.of_nat (length (hsg m)).
Proof.
  intros Hm Hn Hok.
  destruct (summed_table m Hm Hn) as (Hl & Ht & Hs & Hg).
  destruct (stat_ok_shape m gs res Hok) as (_ & _ & _ & _ & _ & Hh & _).
  destruct (stat_ok_counts m gs res Hm Hok) as (-> & -> & ->).
  assert (HF : Forall (fun e => 0 <= ad (snd e) <= dp (snd e)
                   /\ (ad (snd e) <> 0 -> dp (snd e) <> 0)) (hsg res)).
  { rewrite Hh. apply Forall_map.
    eapply Forall_impl; [|exact Hg]. cbn beta. intros e (_ & _ & He).
    cbn [snd ad dp set_adp].
    pose proof (He (ref_idx res)). pose proof (He (alt_idx res)). lia. }
  assert (Hlr : length (hsg res) = length (hsg m)).
  { rewrite Hh, length_map. unfold csp_mplp_sum. cbn [hsg].
    by rewrite length_map. }
  pose proof (nonzero_le_length ad (hsg res)).
  pose proof (nonzero_le_length dp (hsg res)).
  pose proof (nonzero_le_length oth (hsg res)).
  assert (nonzero ad (hsg res) <= nonzero dp (hsg res)).
  { apply nonzero_mono. eapply Forall_impl; [|exact HF].
    cbn beta. intros e (_ & He). exact He. }
  rewrite Hlr in *. split_and!; try lia. exact HF.
Qed.

(** X8.  After a successful [csp_mplp_stat] on a table filled by
    pushes, a group with a nonzero AD has a nonzero DP, so every record of
    the AD matrix has a record at the same site and sample in the DP
    matrix; the record tallies of the site are ordered
    0 <= nr_ad <= nr_dp <= number of groups. *)
Theorem ad_records_within_dp_records (gs : global_settings)
    (names : list string) (r a : Z) (l : list (csp_pileup_t * Z))
    (res : csp_mplp_t) :
  let m := push_all gs l (set_ref_alt (mplp_of_roster names) r a) in
  csp_mplp_stat m gs = (0, res) ->
  Forall (fun e => 0 <= ad (snd e) <= dp (snd e)
                   /\ (ad (snd e) <> 0 -> dp (snd e) <> 0)) (hsg res)
  /\ 0 <= nr_ad res <= nr_dp res
  /\ nr_dp res <= Z.of_nat (length names)
  /\ 0 <= nr_oth res <= Z.of_nat (length names).
Proof.
  intros m Hok.
  destruct (pushed_table gs names r a l) as (Hm & Hn & Hlen).
  fold m in Hm, Hn, Hlen. rewrite <- Hlen.
  by apply (stat_ok_records m gs res).
Qed.

(** ** Worker *)

Lemma pileup_loop_prefix gs fs names pre : forall ps p d rest,
  passing gs fs names pre = Some ps ->
  exists p1,
    pileup_loop gs fs (pre ++ rest) p (mplp_of_roster names) d
    = pileup_loop gs fs rest p1 (mplp_of_roster names) (emit gs ps d).
Proof.
  induction pre as [|snp pre IH]; intros ps p d rest H; simpl in H.
  - injection H as <-. exists p. reflexivity.
  - cbn [app pileup_loop].
    pose proof (pileup_snp_indep gs snp fs (mplp_of_roster names)
                  csp_pileup_init p) as Hi.
    destruct (pileup_snp_with_fetch snp fs csp_pileup_init
                (mplp_of_roster names) gs) as [[[ret p0] m0]|] eqn:E0;
      [|discriminate].
    destruct (pileup_snp_with_fetch snp fs p (mplp_of_roster names) gs)
      as [[[ret' p1] m1]|]; [|done].
    destruct Hi as [<- <-].
    rewrite (reset_after_snp _ _ _ _ _ _ _ _ E0).
    destruct (ret <? 0) eqn:En; [discriminate|].
    destruct (passing gs fs names pre) as [ps'|] eqn:Ep; [|discriminate].
    injection H as <-.
    destruct (ret =? 0); cbn [negb].
    + destruct (IH ps' p1 (output_snp gs snp m0 d) rest eq_refl) as [p2 Hp2].
      exists p2. rewrite Hp2. reflexivity.
    + apply IH. reflexivity.
Qed.

Lemma pileup_loop_fatal gs fs names snp post p d st p1 m1 :
  pileup_snp_with_fetch snp fs csp_pileup_init (mplp_of_roster names) gs
    = Some (st, p1, m1) ->
  st < 0 ->
  pileup_loop gs fs (snp :: post) p (mplp_of_roster names) d = Some d.
Proof.
  intros E0 Hst. cbn [pileup_loop].
  pose proof (pileup_snp_indep gs snp fs (mplp_of_roster names)
                csp_pileup_init p) as Hi.
  rewrite E0 in Hi.
  destruct (pileup_snp_with_fetch snp fs p (mplp_of_roster names) gs)
    as [[[ret' p2] m2]|]; [|done].
  destruct Hi as [<- <-].
  destruct (st =? 0) eqn:E; zb E; [lia|]. cbn [negb].
  destruct (st <? 0) eqn:E1; zb E1; [reflexivity | lia].
Qed.

Lemma worker_fatal gs fs names d pre post snp ps st p1 m1 :
  roster gs = Some names ->
  shard_snps gs d = pre ++ snp :: post ->
  passing gs fs names pre = Some ps ->
  pileup_snp_with_fetch snp fs csp_pileup_init (mplp_of_roster names) gs
    = Some (st, p1, m1) ->
  st < 0 ->
  pileup_positions_with_fetch gs fs d
  = Some (emit gs ps (thdata_init (d_n d) (d_m d) (d_out d))).
Proof.
  intros Hr Hsh Hp Hs Hst.
  unfold pileup_positions_with_fetch. rewrite prepare_roster, Hr.
  unfold shard_snps in Hsh. rewrite Hsh.
  destruct (pileup_loop_prefix gs fs names pre ps csp_pileup_init
              (thdata_init (d_n d) (d_m d) (d_out d)) (snp :: post) Hp)
    as [p2 ->].
  by apply (pileup_loop_fatal gs fs names snp post p2 _ st p1 m1).
Qed.

(** X10.  A worker stops at the first SNP of its shard that fails with
    an error: it reports -1, its files keep the records of the passing
    SNPs before that one and get nothing for the SNPs after it, and its
    tallies are those of the SNPs before. *)
Theorem worker_stops_at_failure (gs : global_settings) (fs : list csp_bam_fs)
    (names : list string) (d : thread_data) (pre post : list csp_snp_t)
    (snp : csp_snp_t) (ps : list (csp_snp_t * csp_mplp_t)) (st : Z)
    (p1 : csp_pileup_t) (m1 : csp_mplp_t) :
  roster gs = Some names ->
  shard_snps gs d = pre ++ snp :: post ->
  passing gs fs names pre = Some ps ->
  pileup_snp_with_fetch snp fs csp_pileup_init (mplp_of_roster names) gs
    = Some (st, p1, m1) ->
  st < 0 ->
  let d' := emit gs ps (thdata_init (d_n d) (d_m d) (d_out d)) in
  pileup_positions_with_fetch gs fs d = Some d'
  /\ d_ret d' = -1
  /\ d_ns d' = Z.of_nat (length ps)
  /\ data (out_vcf_base (d_out d'))
     = data (out_vcf_base (d_out d)) ++ vcf_base_body ps.
Proof.
  intros Hr Hsh Hp Hs Hst d'.
  split_and!.
  - by apply (worker_fatal gs fs names d pre post snp ps st p1 m1).
  - subst d'. rewrite emit_ret. reflexivity.
  - subst d'. rewrite emit_spec. cbn [d_ns thdata_init]. lia.
  - subst d'. rewrite emit_spec. reflexivity.
Qed.

Lemma pileup_reads_counted gs t i rs : forall p m n ok p' m' n',
  Forall (fun e => plp_counted (snd e)) (hsg m) ->
  pileup_reads gs t i rs p m n = Some (ok, p', m', n') ->
  Forall (fun e => plp_counted (snd e)) (hsg m').
Proof.
  induction rs as [|r rs IH]; intros p m n ok p' m' n' Hm H; simpl in H.
  - by inversion H; subst.
  - destruct (pileup_read_with_fetch t (set_b p r) gs) as [[st p1]|];
      [|discriminate].
    destruct (st =? 0).
    + destruct (use_barcodes gs || use_sid gs).
      * destruct (csp_mplp_push p1 m _ gs) as [rc m1] eqn:Ep.
        assert (Hm1 : Forall (fun e => plp_counted (snd e)) (hsg m1)).
        { replace m1 with (snd (csp_mplp_push p1 m
                     (if use_barcodes gs then -1 else i) gs))
            by (rewrite Ep; reflexivity).
          by apply push_counted. }
        destruct (rc <? 0).
        -- by inversion H; subst.
        -- eapply IH; [exact Hm1 | exact H].
      * by inversion H; subst.
    + destruct (st <? 0).
      * by inversion H; subst.
      * eapply IH; [exact Hm | exact H].
Qed.

Lemma pileup_sources_counted gs snp fs : forall i p m n st p' m' n',
  Forall (fun e => plp_counted (snd e)) (hsg m) ->
  pileup_sources gs snp fs i p m n = Some (st, p', m', n') ->
  Forall (fun e => plp_counted (snd e)) (hsg m').
Proof.
  induction fs as [|bs fs IH]; intros i p m n st p' m' n' Hm H; simpl in H.
  - by inversion H; subst.
  - destruct (name2id bs (chr snp) <? 0); [by inversion H; subst|].
    destruct (itr_query bs _ _ _) as [[rs ret]|]; [|by inversion H; subst].
    destruct (pileup_reads gs (pos snp) i rs p m n)
      as [[[[ok p1] m1] n1]|] eqn:Er; [|discriminate].
    pose proof (pileup_reads_counted _ _ _ _ _ _ _ _ _ _ _ Hm Er) as Hm1.
    destruct ok; [|by inversion H; subst].
    destruct (ret <? -1); [by inversion H; subst|].
    eapply IH; [exact Hm1 | exact H].
Qed.

Lemma snp_ok_records gs fs p names snp p' m' :
  pileup_snp_with_fetch snp fs p (mplp_of_roster names) gs = Some (0, p', m') ->
  0 <= nr_ad m' <= nr_dp m'
  /\ nr_dp m' <= Z.of_nat (length names)
  /\ 0 <= nr_oth m' <= Z.of_nat (length names).
Proof.
  unfold pileup_snp_with_fetch.
  destruct (pileup_sources gs snp fs 0 p _ 0)
    as [[[[st p1] m1] n1]|] eqn:Es; [|discriminate].
  assert (Hm0 : mplp_pending (mplp_set_snp (mplp_of_roster names) snp))
    by apply roster_pending.
  assert (Hc0 : Forall (fun e => plp_counted (snd e))
                  (hsg (mplp_set_snp (mplp_of_roster names) snp))).
  { cbn. apply Forall_map, Forall_forall. intros x _. apply plp_counted_empty. }
  pose proof (pileup_sources_pending _ _ _ _ _ _ _ _ _ _ _ Hm0 Es) as Hm1.
  pose proof (pileup_sources_counted _ _ _ _ _ _ _ _ _ _ _ Hc0 Es) as Hc1.
  pose proof (pileup_sources_names _ _ _ _ _ _ _ _ _ _ _ Es) as Hn1.
  destruct (st =? 0) eqn:E0; zb E0; cbn [negb];
    [|intros H; injection H as H0 _ _; contradiction].
  destruct (n1 <? to_size_t (min_count gs)); [discriminate|].
  destruct (csp_mplp_stat m1 gs) as [ret m2] eqn:Est.
  destruct (ret =? 0) eqn:E; zb E; cbn [negb].
  2:{ destruct (ret >? 0); discriminate. }
  subst ret. intros H. injection H as _ <-.
  assert (Hnn : Forall (fun e => forall j, 0 <= arr_get (bc (snd e)) j) (hsg m1)).
  { eapply Forall_impl; [|exact Hc1]. intros e He j.
    by apply plp_counted_nonneg. }
  destruct (stat_ok_records m1 gs m2 Hm1 Hnn Est) as (_ & H1 & H2 & H3).
  assert (Hlen : length (hsg m1) = length names).
  { apply (f_equal (@length _)) in Hn1. rewrite !length_map in Hn1.
    rewrite Hn1. cbn. by rewrite length_map. }
  rewrite Hlen in *. lia.
Qed.

Lemma passing_records gs fs names snps : forall ps,
  passing gs fs names snps = Some ps ->
  (length ps <= length snps)%nat
  /\ Forall (fun e => 0 <= nr_ad (snd e) <= nr_dp (snd e)
                      /\ nr_dp (snd e) <= Z.of_nat (length names)
                      /\ 0 <= nr_oth (snd e) <= Z.of_nat (length names)) ps.
Proof.
  induction snps as [|snp snps IH]; intros ps H; simpl in H.
  - injection H as <-. split; [reflexivity | constructor].
  - destruct (pileup_snp_with_fetch snp fs csp_pileup_init
                (mplp_of_roster names) gs) as [[[ret p0] m0]|] eqn:E0;
      [|discriminate].
    destruct (ret <? 0); [discriminate|].
    destruct (passing gs fs names snps) as [ps'|]; [|discriminate].
    destruct (IH ps' eq_refl) as [Hl HF].
    injection H as <-.
    destruct (ret =? 0) eqn:E; zb E.
    + subst ret. cbn [length]. split; [lia|].
      constructor; [|exact HF]. cbn [snd].
      by apply (snp_ok_records gs fs csp_pileup_init names snp p0).
    + cbn [length]. split; [lia | exact HF].
Qed.

Lemma sums_bounded {A} (f g : A -> Z) (c : Z) (l : list A) :
  Forall (fun e => 0 <= f e <= g e /\ g e <= c) l ->
  0 <= sumZ (map f l) <= sumZ (map g l)
  /\ sumZ (map g l) <= Z.of_nat (length l) * c.
Proof.
  induction l as [|x l IH]; intros H; [cbn; lia|].
  inversion H as [|y l0 Hx Hl]; subst. specialize (IH Hl).
  cbn [map length]. rewrite !sumZ_cons. lia.
Qed.

(** X11.  A worker that runs through its shard reports 0, and its
    tallies are consistent with the matrices it describes: the number of
    passing sites is at most the shard size, the AD records are at most the
    DP records, and no matrix has more records than sites times sample
    groups. *)
Theorem worker_tallies_bounded (gs : global_settings) (fs : list csp_bam_fs)
    (names : list string) (d : thread_data)
    (ps : list (csp_snp_t * csp_mplp_t)) :
  roster gs = Some names ->
  passing gs fs names (shard_snps gs d) = Some ps ->
  exists d',
    pileup_positions_with_fetch gs fs d = Some d'
    /\ d_ret d' = 0
    /\ 0 <= d_ns d' <= Z.of_nat (d_m d)
    /\ 0 <= d_nr_ad d' <= d_nr_dp d'
    /\ d_nr_dp d' <= d_ns d' * Z.of_nat (length names)
    /\ 0 <= d_nr_oth d' <= d_ns d' * Z.of_nat (length names).
Proof.
  intros Hr Hp. eexists. split; [by apply (worker_ok gs fs names d ps)|].
  destruct (passing_records gs fs names _ ps Hp) as [Hlen HF].
  assert (Hsh : (length (shard_snps gs d) <= d_m d)%nat).
  { unfold shard_snps. rewrite length_take. lia. }
  rewrite emit_spec.
  cbn [d_ret d_ns d_nr_ad d_nr_dp d_nr_oth set_ret thdata_init].
  destruct (sums_bounded (fun e => nr_ad (snd e)) (fun e => nr_dp (snd e))
              (Z.of_nat (length names)) ps) as [H1 H2].
  { eapply Forall_impl; [|exact HF]. cbn beta. intros e He. lia. }
  destruct (sums_bounded (fun e => nr_oth (snd e)) (fun e => nr_oth (snd e))
              (Z.of_nat (length names)) ps) as [H3 H4].
  { eapply Forall_impl; [|exact HF]. cbn beta. intros e He. lia. }
  split_and!; try lia.
Qed.

(** ** Merging and rewriting *)

Lemma file_lines_row (l rest : list ascii) :
  one_line l -> file_lines (l ++ nl :: rest) = l :: file_lines rest.
Proof.
  induction l as [|c l IH]; intros H.
  - cbn. reflexivity.
  - inversion H as [|x l0 Hc Hl]; subst. cbn [app file_lines].
    rewrite (eqb_nl_false c Hc), (IH Hl). reflexivity.
Qed.

Lemma read_line_row (l rest : list ascii) :
  one_line l -> read_line (l ++ nl :: rest) = (l, rest).
Proof.
  induction l as [|c l IH]; intros H.
  - cbn. reflexivity.
  - inversion H as [|x l0 Hc Hl]; subst. cbn [app read_line].
    rewrite (eqb_nl_false c Hc), (IH Hl). reflexivity.
Qed.

Lemma merge_site rows : forall k m out tail,
  Forall is_row rows ->
  fold_left merge_line (file_lines (lines_text rows ++ nl :: tail)) (k, m, out)
  = fold_left merge_line (file_lines tail)
      (k + 1, m + Z.of_nat (length rows),
       csp_fs_puts (lines_text (map (fun l => dec k ++ [tab] ++ l) rows)) out).
Proof.
  induction rows as [|l rows IH]; intros k m out tail H.
  - cbn [lines_text map concat app file_lines length].
    change (Ascii.eqb nl nl) with true. cbn [fold_left merge_line].
    rewrite csp_fs_puts_nil. do 3 f_equal. lia.
  - inversion H as [|x l0 [Hne Hl] Hrows]; subst.
    unfold lines_text. cbn [map concat]. fold (lines_text rows).
    fold (lines_text (map (fun l0 => dec k ++ [tab] ++ l0) rows)).
    rewrite <- !app_assoc. cbn [app].
    rewrite (file_lines_row l _ Hl). cbn [fold_left].
    destruct l as [|c l]; [contradiction|]. cbn [merge_line].
    rewrite (IH k (m + 1) _ tail Hrows).
    rewrite csp_fs_puts_puts. do 3 f_equal; [cbn [length]; lia|].
    rewrite <- !app_assoc. reflexivity.
Qed.

Lemma merge_sites sites : forall k m out,
  Forall (Forall is_row) sites ->
  fold_left merge_line (file_lines (frag_text sites)) (k, m, out)
  = (k + Z.of_nat (length sites), m + Z.of_nat (length (concat sites)),
     csp_fs_puts (numbered k sites) out).
Proof.
  induction sites as [|rows sites IH]; intros k m out H.
  - cbn. rewrite csp_fs_puts_nil. do 2 f_equal; lia.
  - inversion H as [|x l0 Hrows Hsites]; subst.
    unfold frag_text. cbn [map concat]. fold (frag_text sites).
    rewrite <- app_assoc. cbn [app].
    rewrite (merge_site rows k m out _ Hrows), (IH _ _ _ Hsites).
    rewrite csp_fs_puts_puts. cbn [numbered concat length].
    rewrite length_app. do 2 f_equal; lia.
Qed.

Lemma merge_frags frags : forall k m out,
  Forall (Forall (Forall is_row)) frags ->
  fold_left (fun st f => fold_left merge_line (file_lines (data f)) st)
            (map (fun s => {| is_tmp := true; data := frag_text s |}) frags)
            (k, m, out)
  = (k + Z.of_nat (length (concat frags)),
     m + Z.of_nat (length (concat (concat frags))),
     csp_fs_puts (numbered k (concat frags)) out).
Proof.
  induction frags as [|sites frags IH]; intros k m out H.
  - cbn. rewrite csp_fs_puts_nil. do 2 f_equal; lia.
  - inversion H as [|x l0 Hs Hf]; subst.
    cbn [map fold_left data]. rewrite (merge_sites _ _ _ _ Hs), (IH _ _ _ Hf).
    rewrite csp_fs_puts_puts. cbn [concat].
    rewrite !length_app, concat_app, length_app.
    assert (Hnum : forall s1 s2 j,
              numbered j (s1 ++ s2)
              = numbered j s1 ++ numbered (j + Z.of_nat (length s1)) s2).
    { clear. induction s1 as [|r s1 IH1]; intros s2 j.
      - cbn. f_equal. lia.
      - cbn [app numbered length]. rewrite IH1, <- app_assoc.
        do 3 f_equal. lia. }
    rewrite Hnum. do 2 f_equal; lia.
Qed.

(** X12.  [merge_mtx] renumbers sites across fragments.  When every
    fragment consists of sites, each made of non-empty rows and closed by
    a blank line, the merged file receives every row once, in fragment
    order, prefixed with the ordinal of its site counted from 1 through
    all fragments; the reported site count is the number of blank lines
    and the reported record count the number of rows.  Empty fragments
    and sites without rows are counted correctly. *)
Theorem merge_mtx_renumbers (out : csp_fs_t)
    (frags : list (list (list (list ascii)))) :
  Forall (Forall (Forall is_row)) frags ->
  merge_mtx out (map (fun s => {| is_tmp := true; data := frag_text s |}) frags)
  = (csp_fs_puts (numbered 1 (concat frags)) out,
     Z.of_nat (length (concat frags)),
     Z.of_nat (length (concat (concat frags))), 0).
Proof.
  intros H. unfold merge_mtx. rewrite (merge_frags _ _ _ _ H).
  do 3 f_equal; lia.
Qed.

(** X13.  [merge_vcf] appends the bytes of the fragments to the output in
    fragment order and changes nothing else; merging in two batches gives
    the same file as merging at once. *)
Theorem merge_vcf_appends (out : csp_fs_t) (ins1 ins2 : list csp_fs_t) :
  merge_vcf out (ins1 ++ ins2)
  = merge_vcf (fst (merge_vcf out ins1)) ins2
  /\ data (fst (merge_vcf out ins1)) = data out ++ concat (map data ins1)
  /\ is_tmp (fst (merge_vcf out ins1)) = is_tmp out
  /\ snd (merge_vcf out ins1) = 0.
Proof.
  split_and!.
  - unfold merge_vcf. cbn [fst]. rewrite fold_left_app. reflexivity.
  - rewrite merge_vcf_concat. reflexivity.
  - rewrite merge_vcf_concat. reflexivity.
  - reflexivity.
Qed.

Lemma lines_text_length (ls : list (list ascii)) :
  (length ls <= length (lines_text ls))%nat.
Proof.
  unfold lines_text. induction ls as [|l ls IH]; cbn [map concat length]; [lia|].
  rewrite !length_app. cbn [length]. lia.
Qed.

Lemma skip_comments_header hdr : forall fuel tail new,
  Forall is_comment hdr -> (length hdr < fuel)%nat ->
  skip_comments fuel (lines_text hdr ++ tail) new
  = skip_comments (fuel - length hdr) tail (new ++ lines_text hdr).
Proof.
  induction hdr as [|l hdr IH]; intros fuel tail new H Hf.
  - cbn. rewrite Nat.sub_0_r, app_nil_r. reflexivity.
  - inversion H as [|x l0 [Hl [l' ->]] Hh]; subst.
    destruct fuel as [|n]; [cbn in Hf; lia|].
    unfold lines_text. cbn [map concat]. fold (lines_text hdr).
    rewrite <- !app_assoc.
    cbn [skip_comments]. unfold csp_fs_getln. cbn [app].
    change ("%"%char :: l' ++ nl :: lines_text hdr ++ tail)
      with (("%"%char :: l') ++ nl :: lines_text hdr ++ tail).
    rewrite (read_line_row _ _ Hl). cbn [Ascii.eqb Bool.eqb andb].
    change (Ascii.eqb "%" "%") with true. cbv iota.
    rewrite (IH n tail _ Hh) by (cbn [length] in Hf; lia).
    cbn [length Nat.sub]. f_equal. rewrite <- !app_assoc. reflexivity.
Qed.

(** X14.  [rewrite_mtx] on a file made of comment lines followed by a
    first record line: it returns 0 and keeps the comment lines in place,
    puts the summary line "ns<TAB>nsmp<TAB>nr" right after them and, when
    [nr] is not 0, copies every record unchanged after it.  When [nr] is 0
    although the file has records, the first record line is dropped. *)
Theorem rewrite_mtx_inserts_summary (f : csp_fs_t) (hdr : list (list ascii))
    (c : ascii) (r rest : list ascii) (ns nsmp nr : Z) :
  Forall is_comment hdr -> one_line (c :: r) -> c <> "%"%char ->
  data f = lines_text hdr ++ (c :: r) ++ nl :: rest ->
  rewrite_mtx f ns nsmp nr
  = (0, {| is_tmp := is_tmp f;
           data := lines_text hdr ++ mtx_summary ns nsmp nr
                   ++ (if nr =? 0 then rest else (c :: r) ++ nl :: rest) |}).
Proof.
  intros Hh Hl Hc Hd. unfold rewrite_mtx. rewrite Hd.
  pose proof (lines_text_length hdr) as Hlen.
  rewrite skip_comments_header; [|exact Hh|rewrite length_app; lia].
  replace (S (length (lines_text hdr ++ (c :: r) ++ nl :: rest)) - length hdr)%nat
    with (S (length (lines_text hdr ++ (c :: r) ++ nl :: rest) - length hdr))
    by (rewrite length_app; lia).
  cbn [skip_comments]. unfold csp_fs_getln. cbn [app].
  change (c :: r ++ nl :: rest) with ((c :: r) ++ nl :: rest).
  rewrite (read_line_row _ _ Hl).
  assert (Hp : Ascii.eqb c "%" = false) by (by apply Ascii.eqb_neq).
  rewrite Hp. cbn [app].
  rewrite bool_decide_false by discriminate. cbn [andb].
  destruct (nr =? 0); cbn [negb]; do 2 f_equal; list_eq.
Qed.

(** X15.  [rewrite_mtx] on a file without records, that is, comment
    lines followed by nothing or by a blank line: with [nr] = 0 it inserts
    the summary line after the comment lines (a blank line is consumed)
    and returns 0; with any other [nr] it returns 1 and leaves the file
    as it is. *)
Theorem rewrite_mtx_without_records (f : csp_fs_t) (hdr : list (list ascii))
    (tail : list ascii) (ns nsmp nr : Z) :
  Forall is_comment hdr ->
  tail = [] \/ (exists rest, tail = nl :: rest) ->
  data f = lines_text hdr ++ tail ->
  rewrite_mtx f ns nsmp nr
  = if nr =? 0
    then (0, {| is_tmp := is_tmp f;
                data := lines_text hdr ++ mtx_summary ns nsmp nr ++ tl tail |})
    else (1, f).
Proof.
  intros Hh Ht Hd. unfold rewrite_mtx. rewrite Hd.
  pose proof (lines_text_length hdr) as Hlen.
  rewrite skip_comments_header; [|exact Hh|rewrite length_app; lia].
  replace (S (length (lines_text hdr ++ tail)) - length hdr)%nat
    with (S (length (lines_text hdr ++ tail) - length hdr))
    by (rewrite length_app; lia).
  cbn [skip_comments]. unfold csp_fs_getln.
  destruct Ht as [-> | [rest ->]].
  - cbn [app]. rewrite bool_decide_true by reflexivity. cbn [andb].
    destruct (nr =? 0); cbn [negb tl]; [|reflexivity].
    do 2 f_equal; list_eq.
  - cbn [read_line]. change (Ascii.eqb nl nl) with true. cbv iota.
    rewrite bool_decide_true by reflexivity. cbn [andb app].
    destruct (nr =? 0); cbn [negb tl]; [|reflexivity].
    do 2 f_equal; list_eq.
Qed.

(** ** ShardCoordinator *)

(** X16.  The shards of a run with [n] workers over [size] SNPs: the
    first [n - 1] workers get [size / n] SNPs each, one after the other
    from the start of the list, and the last worker gets all that is
    left, between [size / n] and [size / n + n - 1] SNPs.  With more
    workers than SNPs every worker but the last gets an empty shard. *)
Theorem shard_layout (size n : nat) :
  (0 < size)%nat -> (0 < n)%nat ->
  let mpos := (size / n)%nat in
  let sh := make_shards size n in
  length sh = n
  /\ (forall k, (k < n - 1)%nat ->
        sh !! k = Some (thdata_init (k * mpos) mpos tmp_out))
  /\ sh !! (n - 1)%nat
     = Some (thdata_init ((n - 1) * mpos) (size - (n - 1) * mpos) tmp_out)
  /\ (mpos <= size - (n - 1) * mpos < mpos + n)%nat
  /\ ((size < n)%nat -> mpos = 0%nat).
Proof.
  intros Hs Hn mpos sh.
  pose proof (last_shard_start size n Hs Hn) as Hlast. fold mpos in Hlast.
  assert (Hsh : sh = map (fun ntd => thdata_init (ntd * mpos) mpos tmp_out)
                         (seq 0 (n - 1))
                     ++ [thdata_init ((n - 1) * mpos)
                                     (size - (n - 1) * mpos) tmp_out]).
  { subst sh. unfold make_shards. fold mpos.
    destruct ((n - 1) * mpos <? size)%nat eqn:E; [reflexivity|].
    apply Nat.ltb_ge in E. lia. }
  assert (Hlen : length (map (fun ntd => thdata_init (ntd * mpos) mpos tmp_out)
                             (seq 0 (n - 1))) = (n - 1)%nat)
    by (rewrite length_map, length_seq; reflexivity).
  split; [|split; [|split; [|split]]].
  - rewrite Hsh, length_app, Hlen. cbn [length]. lia.
  - intros k Hk. rewrite Hsh, lookup_app_l by (rewrite Hlen; exact Hk).
    rewrite list_lookup_fmap, lookup_seq_lt by exact Hk. reflexivity.
  - rewrite Hsh, lookup_app_r by (rewrite Hlen; lia).
    rewrite Hlen, Nat.sub_diag. reflexivity.
  - pose proof (Nat.div_mod_eq size n) as Hdm. fold mpos in Hdm.
    pose proof (Nat.mod_upper_bound size n ltac:(lia)) as Hmod.
    assert (Hmul : (n * mpos = (n - 1) * mpos + mpos)%nat).
    { destruct n as [|n']; [lia|]. cbn [Nat.sub]. rewrite Nat.sub_0_r. lia. }
    lia.
  - intros Hlt. subst mpos. by apply Nat.div_small.
Qed.

Lemma passing_fatal gs fs names pre snp post st p1 m1 :
  pileup_snp_with_fetch snp fs csp_pileup_init (mplp_of_roster names) gs
    = Some (st, p1, m1) ->
  st < 0 ->
  passing gs fs names (pre ++ snp :: post) = None.
Proof.
  intros Hs Hst. rewrite passing_app. cbn [passing]. rewrite Hs.
  destruct (st <? 0) eqn:E; zb E; [|lia].
  destruct (passing gs fs names pre); reflexivity.
Qed.

(** A SNP that fails with an error on the single-worker path: the run
    returns -1 with the records of the earlier passing SNPs appended to
    the final files and no summary line written. *)
Lemma run_single_fatal gs fs o names pre post snp ps st p1 m1 :
  roster gs = Some names ->
  pl gs = pre ++ snp :: post ->
  passing gs fs names pre = Some ps ->
  pileup_snp_with_fetch snp fs csp_pileup_init (mplp_of_roster names) gs
    = Some (st, p1, m1) ->
  st < 0 ->
  exists o',
    run_single gs fs o = Some (-1, o')
    /\ data (out_mtx_ad o')
       = data (out_mtx_ad o) ++ mtx_body ad (is_tmp (out_mtx_ad o)) 0 ps
    /\ data (out_vcf_base o') = data (out_vcf_base o) ++ vcf_base_body ps.
Proof.
  intros Hr Hpl Hp Hs Hst. unfold run_single.
  rewrite (worker_fatal gs fs names _ pre post snp ps st p1 m1 Hr);
    try assumption.
  2:{ unfold shard_snps. cbn [d_n d_m thdata_init skipn].
      rewrite firstn_all. exact Hpl. }
  rewrite emit_ret. cbn [d_ret d_n d_m d_out thdata_init].
  change (-1 <? 0) with true. cbv iota.
  eexists. split; [reflexivity|]. rewrite emit_spec.
  cbn [d_out d_ns thdata_init out_mtx_ad out_vcf_base csp_fs_puts data].
  split; reflexivity.
Qed.

(** The same SNP on the multi-worker path: the merge is never started. *)
Lemma run_multi_fatal gs fs o names pre post snp st p1 m1 :
  roster gs = Some names ->
  pl gs = pre ++ snp :: post ->
  pileup_snp_with_fetch snp fs csp_pileup_init (mplp_of_roster names) gs
    = Some (st, p1, m1) ->
  st < 0 ->
  0 < nthread gs ->
  run_multi gs fs o = None \/ run_multi gs fs o = Some (-1, o).
Proof.
  intros Hr Hpl Hs Hst Hn. unfold run_multi.
  set (n := Z.to_nat (nthread gs)).
  assert (Hn' : (0 < n)%nat) by (unfold n; lia).
  assert (Hsz : (0 < length (pl gs))%nat)
    by (rewrite Hpl, length_app; cbn [length]; lia).
  destruct (shards_cover gs n Hsz Hn') as (Hlen & Hcat & Htmp).
  set (tds := make_shards (length (pl gs)) n) in *.
  rewrite Hlen, Nat.eqb_refl. cbn [negb].
  pose proof (passing_concat gs fs names (map (shard_snps gs) tds)) as Hpc.
  rewrite Hcat, Hpl in Hpc.
  rewrite (passing_fatal gs fs names pre snp post st p1 m1 Hs Hst) in Hpc.
  assert (Hex : Exists (fun d =>
            pileup_positions_with_fetch gs fs d = None
            \/ exists d', pileup_positions_with_fetch gs fs d = Some d'
                          /\ d_ret d' = -1) tds).
  { apply Exists_fmap in Hpc. eapply Exists_impl; [|exact Hpc].
    intros d Hd. apply worker_fail. by rewrite Hr. }
  destruct (thpool_fail gs fs tds Hex) as [-> | (ds & -> & ->)];
    [by left | by right].
Qed.

(** X17.  What a SNP that fails with an error does to a run.  On the
    single-worker path the run returns -1 and the final files keep what
    was written before the failure: the headers and the records of the
    earlier passing SNPs, without any summary line.  On the multi-worker
    path the run returns -1 with the final files exactly as [main] left
    them (unless an assertion aborts the process): the merge is never
    started. *)
Theorem fatal_snp_outcomes (gs : global_settings) (fs : list csp_bam_fs)
    (o : out_files) (names : list string) (pre post : list csp_snp_t)
    (snp : csp_snp_t) (ps : list (csp_snp_t * csp_mplp_t)) (st : Z)
    (p1 : csp_pileup_t) (m1 : csp_mplp_t) :
  roster gs = Some names ->
  pl gs = pre ++ snp :: post ->
  passing gs fs names pre = Some ps ->
  pileup_snp_with_fetch snp fs csp_pileup_init (mplp_of_roster names) gs
    = Some (st, p1, m1) ->
  st < 0 ->
  (exists o',
     run_single gs fs o = Some (-1, o')
     /\ data (out_mtx_ad o')
        = data (out_mtx_ad o) ++ mtx_body ad (is_tmp (out_mtx_ad o)) 0 ps
     /\ data (out_vcf_base o') = data (out_vcf_base o) ++ vcf_base_body ps)
  /\ (0 < nthread gs ->
      run_multi gs fs o = None \/ run_multi gs fs o = Some (-1, o)).
Proof.
  intros Hr Hpl Hp Hs Hst. split.
  - by apply (run_single_fatal gs fs o names pre post snp ps st p1 m1).
  - intros Hn. by apply (run_multi_fatal gs fs o names pre post snp st p1 m1).
Qed.


(** ** Shard-count determinism *)

Lemma roster_workers gs k t0 : roster (set_workers gs k t0) = roster gs.
Proof. reflexivity. Qed.

(** The guard of lines 800-803 with input files, a roster and SNPs. *)
Lemma run_guard_open gs (fs : list csp_bam_fs) names :
  fs <> [] -> names <> [] -> pl gs <> [] -> roster gs = Some names ->
  (length fs =? 0)%nat
  || ((length (barcodes gs) =? 0)%nat
      && (match sample_ids gs with
          | Some ids => (length ids =? 0)%nat
          | None => true
          end))
  || (length (pl gs) =? 0)%nat = false.
Proof.
  intros Hfs Hn Hpl Hr.
  destruct fs; [done|]. destruct (pl gs); [done|]. cbn [length Nat.eqb orb].
  rewrite orb_false_r. unfold roster in Hr.
  destruct (use_barcodes gs).
  - injection Hr as Hr. rewrite Hr. destruct names; [done|]. reflexivity.
  - rewrite Hr. destruct names; [done|]. apply andb_false_r.
Qed.

(** C1, as the code has it.  Fix the settings, the input files and the
    output files as [main] leaves them.  The run with one worker (direct
    writes, then the header rewrite of the three matrices) completes
    successfully with the final files [out] exactly when the run with four
    workers (temporary fragments per shard, then merge and renumbering)
    completes successfully with the same final files [out]: the AD, DP
    and OTH matrices and the two VCF files are byte for byte the same.
    When a SNP fails with an error, both runs fail, but not with the same
    files: the run with one worker returns -1 after it appended the
    records of the earlier passing SNPs to the final files (the matrices
    get no summary line), while the run with four workers returns -1 with
    the final files as they were before the run, or is aborted. *)
Theorem shard_count_determinism (gs : global_settings)
    (fs : list csp_bam_fs) (vb vc : list ascii) :
  let o := main_outputs vb vc in
  let run1 := run_mode_with_fetch (set_workers gs 1 false) fs o in
  let run4 := run_mode_with_fetch (set_workers gs 4 true) fs o in
  (forall out, run1 = Some (0, out) <-> run4 = Some (0, out))
  /\ (forall names pre snp post ps st p1 m1,
        fs <> [] -> names <> [] ->
        roster gs = Some names ->
        pl gs = pre ++ snp :: post ->
        passing gs fs names pre = Some ps ->
        pileup_snp_with_fetch snp fs csp_pileup_init (mplp_of_roster names) gs
          = Some (st, p1, m1) ->
        st < 0 ->
        (exists o1,
           run1 = Some (-1, o1)
           /\ data (out_mtx_ad o1) = CSP_MTX_HEADER ++ mtx_body ad false 0 ps
           /\ data (out_vcf_base o1) = vb ++ vcf_base_body ps)
        /\ (run4 = None \/ run4 = Some (-1, o))).
Proof.
  cbv zeta. split.
  - intros out. unfold run_mode_with_fetch.
    change (barcodes (set_workers gs 1 false)) with (barcodes gs).
    change (barcodes (set_workers gs 4 true)) with (barcodes gs).
    change (sample_ids (set_workers gs 1 false)) with (sample_ids gs).
    change (sample_ids (set_workers gs 4 true)) with (sample_ids gs).
    change (pl (set_workers gs 1 false)) with (pl gs).
    change (pl (set_workers gs 4 true)) with (pl gs).
    destruct ((length fs =? 0)%nat || _ || (length (pl gs) =? 0)%nat) eqn:Eg.
    + split; discriminate.
    + apply orb_false_iff in Eg as [_ Epl].
      apply Nat.eqb_neq in Epl.
      change (tp (set_workers gs 1 false)
              && (nthread (set_workers gs 1 false) >? 1)) with false.
      change (nthread (set_workers gs 1 false) =? 1) with true.
      change (tp (set_workers gs 4 true)
              && (nthread (set_workers gs 4 true) >? 1)) with true.
      cbv iota.
      rewrite run_single_iff.
      rewrite run_multi_iff
        by (cbn [pl nthread set_workers]; lia).
      change (roster (set_workers gs 1 false)) with (roster gs).
      change (roster (set_workers gs 4 true)) with (roster gs).
      change (pl (set_workers gs 1 false)) with (pl gs).
      change (pl (set_workers gs 4 true)) with (pl gs).
      split; intros (names & ps & Hr & Hp & ->); exists names, ps;
        rewrite passing_workers in *; (split_and!; [exact Hr | exact Hp |]);
        reflexivity.
  - intros names pre snp post ps st p1 m1 Hfs Hn Hr Hpl Hp Hs Hst.
    assert (Hne : pl gs <> []) by (rewrite Hpl; by destruct pre).
    unfold run_mode_with_fetch.
    rewrite (run_guard_open (set_workers gs 1 false) fs names),
            (run_guard_open (set_workers gs 4 true) fs names)
      by assumption.
    change (tp (set_workers gs 1 false)
            && (nthread (set_workers gs 1 false) >? 1)) with false.
    change (nthread (set_workers gs 1 false) =? 1) with true.
    change (tp (set_workers gs 4 true)
            && (nthread (set_workers gs 4 true) >? 1)) with true.
    cbv iota. split.
    + destruct (run_single_fatal (set_workers gs 1 false) fs
                  (main_outputs vb vc) names pre post snp ps st p1 m1)
        as (o1 & H1 & H2 & H3);
        rewrite ?passing_workers, ?pileup_snp_workers; try assumption.
      exists o1. split; [exact H1|]. split; [exact H2 | exact H3].
    + apply (run_multi_fatal (set_workers gs 4 true) fs
               (main_outputs vb vc) names pre post snp st p1 m1);
        rewrite ?pileup_snp_workers; try assumption. reflexivity.
Qed.

(** ** Settings check *)

Lemma string_compare_trans a : forall b c,
  String.compare a b <> Gt -> String.compare b c <> Gt ->
  String.compare a c <> Gt.
Proof.
  induction a as [|x a IH]; intros [|y b] [|z c]; cbn; try congruence.
  unfold Ascii.compare.
  destruct (N.compare_spec (N_of_ascii x) (N_of_ascii y)) as [Exy|Exy|Exy];
    destruct (N.compare_spec (N_of_ascii y) (N_of_ascii z)) as [Eyz|Eyz|Eyz];
    destruct (N.compare_spec (N_of_ascii x) (N_of_ascii z)) as [Exz|Exz|Exz];
    try congruence; try lia.
  apply IH.
Qed.

Lemma str_le_compare x y : str_le x y <-> String.compare x y <> Gt.
Proof.
  unfold str_le, csp_cmp_barcodes.
  destruct (String.compare x y); split; intros H; try lia; congruence.
Qed.

Lemma str_le_trans x y z : str_le x y -> str_le y z -> str_le x z.
Proof. rewrite !str_le_compare. apply string_compare_trans. Qed.

Lemma str_le_total x y : str_le x y \/ str_le y x.
Proof.
  rewrite !str_le_compare, (String.compare_antisym x y).
  destruct (String.compare y x); cbn; [left|right|left]; congruence.
Qed.

Lemma str_le_antisym x y : str_le x y -> str_le y x -> x = y.
Proof.
  rewrite !str_le_compare, (String.compare_antisym x y).
  destruct (String.compare y x) eqn:E; cbn; try congruence.
  intros _ _. symmetry. by apply String.compare_eq_iff.
Qed.

Lemma qsort_insert_perm x l :
  Permutation (qsort_insert csp_cmp_barcodes x l) (x :: l).
Proof.
  induction l as [|y l IH]; cbn [qsort_insert]; [reflexivity|].
  destruct (csp_cmp_barcodes x y <=? 0); [reflexivity|].
  rewrite IH. apply perm_swap.
Qed.

Lemma qsort_insert_sorted x l :
  StronglySorted str_le l ->
  StronglySorted str_le (qsort_insert csp_cmp_barcodes x l).
Proof.
  induction l as [|y l IH]; intros H; cbn [qsort_insert].
  - constructor; constructor.
  - inversion H as [|y0 l0 Hl Hy]; subst.
    destruct (csp_cmp_barcodes x y <=? 0) eqn:E; zb E.
    + constructor; [exact H|]. constructor; [exact E|].
      eapply Forall_impl; [|exact Hy]. intros z Hz.
      by apply (str_le_trans x y z).
    + constructor; [by apply IH|].
      assert (Hyx : str_le y x).
      { destruct (str_le_total x y) as [Hxy|Hyx]; [unfold str_le in Hxy; lia|].
        exact Hyx. }
      eapply Permutation_Forall; [symmetry; apply qsort_insert_perm|].
      constructor; [exact Hyx | exact Hy].
Qed.

Lemma sorted_unique (l1 : list string) : forall l2,
  StronglySorted str_le l1 -> StronglySorted str_le l2 ->
  Permutation l1 l2 -> l1 = l2.
Proof.
  induction l1 as [|x l1 IH]; intros l2 H1 H2 Hp.
  - apply Permutation_nil in Hp. by subst.
  - destruct l2 as [|y l2]; [by apply Permutation_sym, Permutation_nil in Hp|].
    inversion H1 as [|x0 l0 Hs1 Hx]; subst.
    inversion H2 as [|y0 l0 Hs2 Hy]; subst.
    assert (Hxy : x = y).
    { assert (Hin1 : In y (x :: l1))
        by (eapply Permutation_in; [symmetry; exact Hp | by left]).
      assert (Hin2 : In x (y :: l2))
        by (eapply Permutation_in; [exact Hp | by left]).
      destruct Hin1 as [->|Hin1]; [reflexivity|].
      destruct Hin2 as [->|Hin2]; [reflexivity|].
      rewrite Forall_forall in Hx, Hy.
      apply str_le_antisym; [apply Hx | apply Hy];
        first [assumption | by apply list_elem_of_In]. }
    subst y. f_equal. apply IH; [exact Hs1 | exact Hs2|].
    by apply Permutation_cons_inv in Hp.
Qed.

(** X18.  The barcodes that [check_global_args] stores are the lines of
    the barcode file in the order of [strcmp], not in file order: the
    sorted list holds the same barcodes the same number of times, each
    entry is at most every later one, and it is the only arrangement with
    these two properties, so the result does not depend on how [qsort]
    works. *)
Theorem qsort_barcodes_sorted (l : list string) :
  let s := qsort csp_cmp_barcodes l in
  Permutation s l
  /\ StronglySorted str_le s
  /\ (forall l', Permutation l' l -> StronglySorted str_le l' -> l' = s).
Proof.
  intros s.
  assert (Hp : Permutation s l).
  { subst s. induction l as [|x l IH]; [reflexivity|].
    cbn [qsort fold_right]. fold (qsort csp_cmp_barcodes l).
    rewrite qsort_insert_perm. by constructor. }
  assert (Hs : StronglySorted str_le s).
  { subst s. clear Hp. induction l as [|x l IH]; [constructor|].
    cbn [qsort fold_right]. fold (qsort csp_cmp_barcodes l).
    by apply qsort_insert_sorted. }
  split_and!; [exact Hp | exact Hs |].
  intros l' Hp' Hs'. apply sorted_unique; [exact Hs' | exact Hs|].
  by rewrite Hp', Hp.
Qed.

(** Destruct whatever a stage of the check branches on. *)
Ltac stage_cases :=
  repeat match goal with
         | |- context [match ?x with _ => _ end] => destruct x eqn:?
         end.

Lemma check_in_fns_ret env gs c g :
  Cli.check_in_fns env gs = Cli.Ret c g -> c < 0.
Proof.
  unfold Cli.check_in_fns. stage_cases; intros H; try discriminate;
    injection H as <- _; lia.
Qed.

Lemma check_in_exist_ret env gs c g :
  Cli.check_in_exist env gs = Cli.Ret c g -> c < 0.
Proof.
  unfold Cli.check_in_exist. stage_cases; intros H; try discriminate;
    injection H as <- _; lia.
Qed.

Lemma check_out_dir_ret env gs c g :
  Cli.check_out_dir env gs = Cli.Ret c g -> c < 0.
Proof.
  unfold Cli.check_out_dir. stage_cases; intros H; try discriminate;
    injection H as <- _; lia.
Qed.

Lemma check_cell_tag_ret gs c g :
  Cli.check_cell_tag gs = Cli.Ret c g -> c < 0.
Proof.
  unfold Cli.check_cell_tag. cbv zeta. stage_cases; intros H;
    try discriminate; injection H as <- _; lia.
Qed.

Lemma check_sample_ids_ret env gs c g :
  Cli.check_sample_ids env gs = Cli.Ret c g -> c < 0.
Proof.
  unfold Cli.check_sample_ids. cbv zeta. stage_cases; intros H;
    try discriminate; injection H as <- _; lia.
Qed.

Lemma check_grouping_ret env gs c g :
  Cli.check_grouping env gs = Cli.Ret c g -> c < 0.
Proof.
  unfold Cli.check_grouping.
  destruct (Cli.cell_tag gs), (Cli.barcode_file gs);
    try apply check_sample_ids_ret;
    stage_cases; intros H; try discriminate; injection H as <- _; lia.
Qed.

Lemma check_regions_ret gs c g :
  Cli.check_regions gs = Cli.Ret c g -> c < 0.
Proof.
  unfold Cli.check_regions. cbv zeta. stage_cases; intros H;
    try discriminate; injection H as <- _; lia.
Qed.

Lemma check_umi_tag_go gs : exists g, Cli.check_umi_tag gs = Cli.Go g.
Proof. unfold Cli.check_umi_tag. stage_cases; eauto. Qed.

Lemma and_then_go c f g :
  Cli.and_then c f = Cli.Go g -> exists g0, c = Cli.Go g0 /\ f g0 = Cli.Go g.
Proof. destruct c; cbn; intros H; try discriminate. eauto. Qed.

Lemma and_then_ret c f code g :
  Cli.and_then c f = Cli.Ret code g ->
  c = Cli.Ret code g \/ exists g0, c = Cli.Go g0 /\ f g0 = Cli.Ret code g.
Proof. destruct c; cbn; intros H; try discriminate; eauto. Qed.

(** The return code of the check is 0, -1 or below; 0 means that every
    stage went through. *)
Lemma check_stages_ok env gs gs' :
  Cli.check_global_args env gs = Some (0, gs') ->
  exists g1 g2 g3 g4 g5 g6,
    Cli.check_in_fns env gs = Cli.Go g1
    /\ Cli.check_in_exist env g1 = Cli.Go g2
    /\ Cli.check_out_dir env g2 = Cli.Go g3
    /\ Cli.check_cell_tag g3 = Cli.Go g4
    /\ Cli.check_grouping env g4 = Cli.Go g5
    /\ Cli.check_regions g5 = Cli.Go g6
    /\ Cli.check_umi_tag g6 = Cli.Go gs'.
Proof.
  unfold Cli.check_global_args.
  destruct (Cli.check_stages env gs) as [g|c g|] eqn:E; [| |discriminate].
  - intros H. injection H as <-. unfold Cli.check_stages in E.
    apply and_then_go in E as (g6 & E & H7).
    apply and_then_go in E as (g5 & E & H6).
    apply and_then_go in E as (g4 & E & H5).
    apply and_then_go in E as (g3 & E & H4).
    apply and_then_go in E as (g2 & E & H3).
    apply and_then_go in E as (g1 & E & H2).
    exists g1, g2, g3, g4, g5, g6. by split_and!.
  - intros H. injection H as -> <-. exfalso.
    unfold Cli.check_stages in E.
    apply and_then_ret in E as [E | (g6 & _ & E)].
    2:{ destruct (check_umi_tag_go g6) as [g' Hg]. congruence. }
    apply and_then_ret in E as [E | (g5 & _ & E)].
    2:{ apply check_regions_ret in E. lia. }
    apply and_then_ret in E as [E | (g4 & _ & E)].
    2:{ apply check_grouping_ret in E. lia. }
    apply and_then_ret in E as [E | (g3 & _ & E)].
    2:{ apply check_cell_tag_ret in E. lia. }
    apply and_then_ret in E as [E | (g2 & _ & E)].
    2:{ apply check_out_dir_ret in E. lia. }
    apply and_then_ret in E as [E | (g1 & _ & E)].
    2:{ apply check_in_exist_ret in E. lia. }
    apply check_in_fns_ret in E. lia.
Qed.

(** What the stages before the grouping leave untouched. *)
Lemma check_in_fns_go env gs g :
  Cli.check_in_fns env gs = Cli.Go g ->
  exists l, g = Cli.set_in_fns gs (Some l).
Proof.
  unfold Cli.check_in_fns. stage_cases; intros H; try discriminate;
    injection H as <-; eauto.
  eexists. destruct gs. cbn in *. subst. reflexivity.
Qed.

Lemma check_in_exist_go env gs g :
  Cli.check_in_exist env gs = Cli.Go g -> g = gs.
Proof.
  unfold Cli.check_in_exist. stage_cases; intros H; try discriminate;
    by injection H as <-.
Qed.

Lemma check_out_dir_go env gs g :
  Cli.check_out_dir env gs = Cli.Go g -> g = gs.
Proof.
  unfold Cli.check_out_dir. stage_cases; intros H; try discriminate;
    by injection H as <-.
Qed.

Lemma check_cell_tag_go gs g :
  Cli.check_cell_tag gs = Cli.Go g ->
  exists t, g = Cli.set_cell_tag gs t
            /\ (t = None \/ (t = Cli.cell_tag gs
                             /\ Cli.sample_ids gs = None
                             /\ Cli.sid_list_file gs = None)).
Proof.
  unfold Cli.check_cell_tag. cbv zeta.
  destruct gs as [a1 a2 a3 a4 a5 a6 a7 a8 a9 a10 a11 tag a13 a14 a15 a16 a17
                   a18 a19 a20].
  cbn [Cli.cell_tag Cli.sample_ids Cli.sid_list_file Cli.barcode_file
       Cli.set_cell_tag].
  destruct tag as [t|]; [destruct (Cli.is_none_word t)|];
    cbn [Cli.cell_tag Cli.sample_ids Cli.sid_list_file Cli.barcode_file
         Cli.set_cell_tag];
    destruct a10, a9, a7; cbn; intros H; try discriminate;
    injection H as <-; eexists; (split; [reflexivity|]); auto.
Qed.

Lemma check_sample_ids_go env gs g :
  Cli.check_sample_ids env gs = Cli.Go g ->
  Cli.nsid g = Cli.nin g
  /\ (g = gs \/ exists l, g = Cli.set_sample_ids gs (Some l)).
Proof.
  unfold Cli.check_sample_ids. cbv zeta.
  destruct (Cli.sample_ids gs) eqn:Es.
  - destruct (Cli.is_set (Cli.sid_list_file gs)); [discriminate|].
    destruct (Cli.nin gs =? Cli.nsid gs)%nat eqn:E; [|discriminate].
    cbn [negb]. intros H. injection H as <-.
    apply Nat.eqb_eq in E. split; [lia | by left].
  - destruct (Cli.sid_list_file gs).
    + destruct (hts_readlines env s) as [l|]; [|discriminate].
      destruct (Cli.nin _ =? Cli.nsid _)%nat eqn:E; [|discriminate].
      cbn [negb]. intros H. injection H as <-.
      apply Nat.eqb_eq in E. split; [lia | right; eauto].
    + destruct (Cli.nin gs =? 0)%nat; [|discriminate].
      destruct (Cli.nin gs =? Cli.nsid gs)%nat eqn:E; [|discriminate].
      cbn [negb]. intros H. injection H as <-.
      apply Nat.eqb_eq in E. split; [lia | by left].
Qed.

Lemma check_grouping_go env gs g :
  Cli.check_grouping env gs = Cli.Go g ->
  (exists t f l,
     Cli.cell_tag gs = Some t /\ Cli.barcode_file gs = Some f
     /\ hts_readlines env f = Some l
     /\ Cli.sample_ids gs = None /\ Cli.sid_list_file gs = None
     /\ g = Cli.set_barcodes gs (Some (qsort csp_cmp_barcodes l)))
  \/ (Cli.cell_tag gs = None /\ Cli.barcode_file gs = None
      /\ Cli.nsid g = Cli.nin g
      /\ (g = gs \/ exists l, g = Cli.set_sample_ids gs (Some l))).
Proof.
  unfold Cli.check_grouping.
  destruct (Cli.cell_tag gs) as [t|] eqn:Et,
           (Cli.barcode_file gs) as [f|] eqn:Ef; try discriminate.
  - destruct (Cli.sample_ids gs), (Cli.sid_list_file gs); cbn;
      try discriminate.
    destruct (hts_readlines env f) as [l|] eqn:El; [|discriminate].
    intros H. injection H as <-. left. exists t, f, l. by split_and!.
  - intros H. right. destruct (check_sample_ids_go env gs g H) as [H1 H2].
    by split_and!.
Qed.

Lemma check_regions_go gs g :
  Cli.check_regions gs = Cli.Go g ->
  exists f c, g = Cli.set_regions gs f c
    /\ ((f = None /\ c = Cli.chrom_all gs /\ c <> None
         /\ match Cli.pos_list_file gs with
            | Some w => Cli.is_none_word w = true
            | None => True
            end)
        \/ (exists w, f = Some w /\ Cli.pos_list_file gs = Some w
                      /\ Cli.is_none_word w = false /\ c = None)).
Proof.
  unfold Cli.check_regions. cbv zeta.
  destruct (Cli.pos_list_file gs) as [w|] eqn:Ep.
  - destruct (Cli.is_none_word w) eqn:Ew.
    + destruct (Cli.chrom_all gs) as [c|] eqn:Ec; [|discriminate].
      intros H. injection H as <-. exists None, (Some c).
      split; [reflexivity|]. left. by split_and!.
    + intros H. injection H as <-. exists (Some w), None.
      split; [reflexivity|]. right. exists w. by split_and!.
  - destruct (Cli.chrom_all gs) as [c|] eqn:Ec; [|discriminate].
    intros H. injection H as <-. exists None, (Some c).
    split; [reflexivity|]. left. by split_and!.
Qed.

Lemma check_umi_tag_eq gs g :
  Cli.check_umi_tag gs = Cli.Go g ->
  g = Cli.set_umi_tag gs
        match Cli.umi_tag gs with
        | Some t =>
            if String.eqb t "Auto"
            then (if Cli.is_set (Cli.barcodes gs) then Some "UR"%string
                  else None)
            else if Cli.is_none_word t then None else Some t
        | None => None
        end.
Proof.
  unfold Cli.check_umi_tag.
  destruct gs as [a1 a2 a3 a4 a5 a6 a7 a8 a9 a10 a11 a12 tag a14 a15 a16 a17
                   a18 a19 a20].
  cbn [Cli.umi_tag Cli.barcodes Cli.set_umi_tag].
  destruct tag as [t|]; [|intros H; by injection H as <-].
  destruct (String.eqb t "Auto"); [intros H; by injection H as <-|].
  destruct (Cli.is_none_word t); intros H; by injection H as <-.
Qed.

(** X19.  After a successful [check_global_args] exactly one grouping
    is in force.  Either a cell tag is set and the barcodes are the sorted
    lines of the barcode file, no sample IDs being given; or the cell tag
    is off, no barcode file is given, the barcode array is untouched and
    there are as many sample IDs as input files. *)
Theorem check_args_grouping (env : sys_env) (gs gs' : Cli.gll_settings) :
  Cli.check_global_args env gs = Some (0, gs') ->
  (exists t f l,
     Cli.cell_tag gs' = Some t /\ Cli.barcode_file gs = Some f
     /\ hts_readlines env f = Some l
     /\ Cli.barcodes gs' = Some (qsort csp_cmp_barcodes l)
     /\ Cli.sample_ids gs' = None /\ Cli.sid_list_file gs = None)
  \/ (Cli.cell_tag gs' = None /\ Cli.barcode_file gs = None
      /\ Cli.barcodes gs' = Cli.barcodes gs
      /\ Cli.nsid gs' = Cli.nin gs'
      /\ (Cli.nin gs' <> 0%nat -> exists ids, Cli.sample_ids gs' = Some ids)).
Proof.
  intros H.
  destruct (check_stages_ok env gs gs' H)
    as (g1 & g2 & g3 & g4 & g5 & g6 & H1 & H2 & H3 & H4 & H5 & H6 & H7).
  apply check_in_fns_go in H1 as [l1 ->].
  apply check_in_exist_go in H2 as ->.
  apply check_out_dir_go in H3 as ->.
  apply check_cell_tag_go in H4 as (t4 & -> & Ht4).
  apply check_regions_go in H6 as (f6 & c6 & -> & _).
  apply check_umi_tag_eq in H7 as ->.
  apply check_grouping_go in H5
    as [(t & f & l & Ht & Hf & Hl & Hs & Hi & ->)
       | (Ht & Hf & Hn & Hg)].
  - left. exists t, f, l. cbn in *. by split_and!.
  - right.
    assert (Hnn : Cli.nsid g5 = Cli.nin g5 ->
                  Cli.nin g5 <> 0%nat -> exists ids, Cli.sample_ids g5 = Some ids).
    { unfold Cli.nsid. destruct (Cli.sample_ids g5); [eauto | lia]. }
    destruct Hg as [-> | [l ->]]; cbn in *; split_and!; try done;
      by apply Hnn.
Qed.

(** X20.  After a successful [check_global_args] the UMI tag is: "UR"
    or none for "Auto", according to whether barcodes were loaded; none
    for "None" and "none"; and any other tag as given.  The default "UR"
    therefore stays in force with sample IDs as well. *)
Theorem check_args_umi_tag (env : sys_env) (gs gs' : Cli.gll_settings) :
  Cli.check_global_args env gs = Some (0, gs') ->
  Cli.umi_tag gs'
  = match Cli.umi_tag gs with
    | Some t =>
        if String.eqb t "Auto"
        then (if Cli.is_set (Cli.barcodes gs') then Some "UR"%string else None)
        else if Cli.is_none_word t then None else Some t
    | None => None
    end.
Proof.
  intros H.
  destruct (check_stages_ok env gs gs' H)
    as (g1 & g2 & g3 & g4 & g5 & g6 & H1 & H2 & H3 & H4 & H5 & H6 & H7).
  apply check_in_fns_go in H1 as [l1 ->].
  apply check_in_exist_go in H2 as ->.
  apply check_out_dir_go in H3 as ->.
  apply check_cell_tag_go in H4 as (t4 & -> & Ht4).
  apply check_regions_go in H6 as (f6 & c6 & -> & _).
  apply check_umi_tag_eq in H7 as ->.
  apply check_grouping_go in H5
    as [(t & f & l & Ht & Hf & Hl & Hs & Hi & ->)
       | (Ht & Hf & Hn & [-> | [l ->]])]; reflexivity.
Qed.

(** X21.  After a successful [check_global_args] exactly one of the SNP
    list and the chromosome list is left: without a list file (or with
    "None"/"none") the chromosomes stay and must have been there; with a
    list file the chromosomes, the default ones included, are dropped. *)
Theorem check_args_regions (env : sys_env) (gs gs' : Cli.gll_settings) :
  Cli.check_global_args env gs = Some (0, gs') ->
  (Cli.pos_list_file gs' = None
   /\ Cli.chrom_all gs' = Cli.chrom_all gs /\ Cli.chrom_all gs <> None
   /\ match Cli.pos_list_file gs with
      | Some w => Cli.is_none_word w = true
      | None => True
      end)
  \/ (exists w, Cli.pos_list_file gs' = Some w /\ Cli.pos_list_file gs = Some w
                /\ Cli.is_none_word w = false /\ Cli.chrom_all gs' = None).
Proof.
  intros H.
  destruct (check_stages_ok env gs gs' H)
    as (g1 & g2 & g3 & g4 & g5 & g6 & H1 & H2 & H3 & H4 & H5 & H6 & H7).
  apply check_in_fns_go in H1 as [l1 ->].
  apply check_in_exist_go in H2 as ->.
  apply check_out_dir_go in H3 as ->.
  apply check_cell_tag_go in H4 as (t4 & -> & Ht4).
  apply check_umi_tag_eq in H7 as ->.
  apply check_regions_go in H6 as (f6 & c6 & -> & Hr).
  apply check_grouping_go in H5
    as [(t & f & l & Ht & Hf & Hl & Hs & Hi & ->)
       | (Ht & Hf & Hn & [-> | [l ->]])];
    cbn in *;
    (destruct Hr as [(-> & -> & Hc & Hw) | (w & -> & Hw1 & Hw2 & ->)];
     [left; by split_and! | right; exists w; by split_and!]).
Qed.

(** X22.  Input files and output directory in order, but neither a
    barcode file nor sample IDs: with a cell tag in force (the default
    "CB" included) the check returns -1; with the cell tag switched off it
    reaches the loop of line 1135, which stores the default names
    through the NULL sample-ID array, so no default sample ID is ever
    produced. *)
Theorem check_args_without_sample_ids (env : sys_env)
    (gs : Cli.gll_settings) (f : string) (fns : list string) (d : string) :
  Cli.in_fn_file gs = None -> Cli.in_fns gs = Some (f :: fns) ->
  forallb (access env) (f :: fns) = true ->
  Cli.out_dir gs = Some d -> access env d || mkdir env d = true ->
  Cli.barcode_file gs = None -> Cli.sample_ids gs = None ->
  Cli.sid_list_file gs = None ->
  let off := match Cli.cell_tag gs with
             | Some t => Cli.is_none_word t
             | None => true
             end in
  (off = true -> Cli.check_global_args env gs = None)
  /\ (off = false -> exists g, Cli.check_global_args env gs = Some (-1, g)).
Proof.
  intros Hf Hi Ha Ho Hd Hb Hs Hl off.
  assert (H3 : Cli.and_then (Cli.and_then (Cli.check_in_fns env gs)
                               (Cli.check_in_exist env)) (Cli.check_out_dir env)
               = Cli.Go gs).
  { unfold Cli.check_in_fns. rewrite Hf, Hi. cbn [Cli.and_then].
    unfold Cli.check_in_exist. rewrite Hi, Ha. cbn [Cli.and_then].
    unfold Cli.check_out_dir. rewrite Ho.
    destruct (access env d); cbn in Hd |- *; [reflexivity|].
    rewrite Hd. reflexivity. }
  unfold Cli.check_global_args, Cli.check_stages. rewrite H3.
  cbn [Cli.and_then]. unfold Cli.check_cell_tag. cbv zeta. subst off.
  destruct gs as [a1 a2 a3 a4 a5 a6 a7 a8 a9 a10 a11 tag a13 a14 a15 a16 a17
                   a18 a19 a20].
  cbn [Cli.cell_tag Cli.sample_ids Cli.sid_list_file Cli.barcode_file
       Cli.in_fns Cli.in_fn_file Cli.out_dir] in *. subst.
  destruct tag as [t|]; [destruct (Cli.is_none_word t) eqn:Ew|];
    cbn [Cli.cell_tag Cli.sample_ids Cli.sid_list_file Cli.barcode_file
         Cli.set_cell_tag Cli.is_set orb Cli.and_then Cli.check_grouping
         Cli.check_sample_ids Cli.nin Cli.in_fns length Nat.eqb];
    (split; intros Hoff; try discriminate Hoff); try reflexivity.
  eexists. reflexivity.
Qed.

(** ** main *)

Lemma check_in_fns_given env gs g :
  Cli.check_in_fns env gs = Cli.Go g ->
  exists l, Cli.in_fns g = Some l /\ (Cli.in_fns gs <> Some [] -> l <> []).
Proof.
  unfold Cli.check_in_fns.
  destruct (Cli.in_fn_file gs) as [f|], (Cli.in_fns gs) as [l0|] eqn:E0;
    try discriminate.
  - destruct (hts_readlines env f) as [l|]; [|discriminate].
    destruct (length l =? 0)%nat eqn:El; [discriminate|].
    intros H. injection H as <-. exists l. split; [reflexivity|].
    intros _ ->. discriminate.
  - intros H. injection H as <-. exists l0. split; [exact E0|].
    intros Hn ->. by apply Hn.
Qed.

(** What a successful check leaves for [main] to work with. *)
Lemma check_ok_for_main env gs gs1 :
  Cli.check_global_args env gs = Some (0, gs1) ->
  Cli.is_genotype gs1 = Cli.is_genotype gs
  /\ (exists l, Cli.in_fns gs1 = Some l
                /\ (Cli.in_fns gs <> Some [] -> l <> []))
  /\ ((exists t f l,
         Cli.cell_tag gs1 = Some t /\ Cli.barcode_file gs = Some f
         /\ hts_readlines env f = Some l
         /\ Cli.barcodes gs1 = Some (qsort csp_cmp_barcodes l))
      \/ (Cli.cell_tag gs1 = None /\ Cli.barcode_file gs = None
          /\ Cli.nsid gs1 = Cli.nin gs1))
  /\ ((Cli.pos_list_file gs1 = None /\ Cli.chrom_all gs1 <> None
       /\ match Cli.pos_list_file gs with
          | Some w => Cli.is_none_word w = true
          | None => True
          end)
      \/ (exists w, Cli.pos_list_file gs1 = Some w
                    /\ Cli.pos_list_file gs = Some w
                    /\ Cli.is_none_word w = false)).
Proof.
  intros H.
  destruct (check_stages_ok env gs gs1 H)
    as (g1 & g2 & g3 & g4 & g5 & g6 & H1 & H2 & H3 & H4 & H5 & H6 & H7).
  destruct (check_in_fns_given _ _ _ H1) as (l0 & Hl0 & Hne).
  apply check_in_fns_go in H1 as [l1 ->].
  apply check_in_exist_go in H2 as ->.
  apply check_out_dir_go in H3 as ->.
  apply check_cell_tag_go in H4 as (t4 & -> & Ht4).
  apply check_umi_tag_eq in H7 as ->.
  apply check_regions_go in H6 as (f6 & c6 & -> & Hr).
  assert (Hreg :
    (f6 = None /\ c6 <> None
     /\ match Cli.pos_list_file gs with
        | Some w => Cli.is_none_word w = true
        | None => True
        end)
    \/ (exists w, f6 = Some w /\ Cli.pos_list_file gs = Some w
                  /\ Cli.is_none_word w = false)).
  { apply check_grouping_go in H5
      as [(t & f & l & Ht & Hf & Hl & Hs & Hi & ->)
         | (Ht & Hf & Hn & [-> | [l ->]])];
      cbn in *;
      (destruct Hr as [(-> & -> & Hc & Hw) | (w & -> & Hw1 & Hw2 & ->)];
       [left; by split_and! | right; exists w; by split_and!]). }
  apply check_grouping_go in H5
    as [(t & f & l & Ht & Hf & Hl & Hs & Hi & ->)
       | (Ht & Hf & Hn & Hg)].
  - cbn in *. split_and!; [reflexivity | by exists l0 | | exact Hreg].
    left. exists t, f, l. by split_and!.
  - destruct Hg as [-> | [l ->]]; cbn in *;
      (split_and!; [reflexivity | by exists l0 | by right | exact Hreg]).
Qed.

(** X23.  Without a SNP list the program counts nothing.  When the
    check passes and no list file is given (or "None"/"none"), [main]
    returns 0 whatever the input files hold: the three matrices are left
    with the two comment lines only (no size line, no record), the base
    VCF with its header, the cells VCF with its header when genotyping is
    on, and no alignment file nor SNP list is opened. *)
Theorem main_without_snp_list (env : sys_env) (renv : run_env)
    (gs gs1 : Cli.gll_settings) :
  Cli.check_global_args env gs = Some (0, gs1) ->
  match Cli.pos_list_file gs with
  | Some w => Cli.is_none_word w = true
  | None => True
  end ->
  Cli.in_fns gs <> Some [] ->
  exists vc,
    main_run env renv gs
    = Some (0, Some {| m_out := main_outputs
                                  (CSP_VCF_BASE_HEADER ++ vcf_columns ++ [nl])
                                  vc;
                       m_samples := samples_text gs1 |})
    /\ (if Cli.is_genotype gs then vcf_cells_header gs1 = Some vc
        else vc = []).
Proof.
  intros H Hw Hin.
  destruct (check_ok_for_main env gs gs1 H) as (Hg & (l & Hl & Hne) & Hgr & Hr).
  specialize (Hne Hin).
  destruct Hr as [(Hp & Hc & _) | (w & _ & Hp & Hn)];
    [|rewrite Hp in Hw; congruence].
  assert (Hvc : exists vc, vcf_cells_header gs1 = Some vc).
  { unfold vcf_cells_header. cbv zeta.
    destruct Hgr as [(t & f & lb & -> & _ & _ & ->) | (-> & _ & Hn)];
      [eauto|].
    unfold Cli.nsid, Cli.nin in Hn. rewrite Hl in Hn.
    destruct (Cli.sample_ids gs1) as [ids|]; [eauto|].
    destruct l; [done | discriminate]. }
  destruct Hvc as [vc0 Hvc].
  exists (if Cli.is_genotype gs then vc0 else []).
  unfold main_run. rewrite H. change (0 <? 0) with false. cbv iota zeta.
  rewrite Hg, Hp, Hvc.
  destruct (Cli.chrom_all gs1); [|done].
  unfold run_mode2. change (0 <? 0) with false. cbv iota.
  destruct (Cli.is_genotype gs); by split.
Qed.

(** X24.  The samples file lists the groups of the count table in table
    order.  After a successful check (with at least one input file) the
    roster the engine prepares its table with, the lines of the samples
    file and the sample columns of the cells VCF header are one and the
    same list of names; with a barcode file it is the sorted list of the
    file's lines, not the file's own order; with sample IDs it has one
    name per input file. *)
Theorem samples_file_follows_roster (env : sys_env)
    (gs gs1 : Cli.gll_settings) (snps : list csp_snp_t) :
  Cli.check_global_args env gs = Some (0, gs1) ->
  Cli.in_fns gs <> Some [] ->
  exists names,
    roster (engine_settings gs1 snps) = Some names
    /\ samples_text gs1 = name_lines names
    /\ vcf_cells_header gs1
       = Some (CSP_VCF_CELLS_HEADER ++ CSP_VCF_CELLS_CONTIG ++ vcf_columns
               ++ [tab] ++ bytes "FORMAT" ++ name_columns names ++ [nl])
    /\ match Cli.barcode_file gs with
       | Some f =>
           exists l, hts_readlines env f = Some l
                     /\ names = qsort csp_cmp_barcodes l
       | None => length names = Cli.nin gs1
       end.
Proof.
  intros H Hin.
  destruct (check_ok_for_main env gs gs1 H) as (Hg & (l & Hl & Hne) & Hgr & Hr).
  specialize (Hne Hin).
  unfold roster, use_barcodes, samples_text, vcf_cells_header.
  cbn [engine_settings cell_tag barcodes sample_ids]. cbv zeta.
  destruct Hgr as [(t & f & lb & -> & -> & Hlb & ->) | (-> & -> & Hn)].
  - exists (qsort csp_cmp_barcodes lb).
    rewrite <- !app_assoc. split_and!; try reflexivity. by exists lb.
  - unfold Cli.nsid, Cli.nin in *. rewrite Hl in *.
    destruct (Cli.sample_ids gs1) as [ids|].
    + exists ids. rewrite <- !app_assoc.
      destruct (Cli.barcodes gs1); by split_and!.
    + destruct l; [done | discriminate].
Qed.

End Engine.

(** * Examples and witnesses *)

(** ** ReadResolver *)

(** Witness of C7: the read 5M 2D 10M from position 100 with target 108;
    the covering operation is the 10M starting at reference 107 and query
    5, so the base is read at query offset 6, and 15 aligned bases are
    counted. *)
Lemma resolver_site_and_length_witness :
  exists p',
    pileup_read_with_fetch 108 ex_pileup (ex_gs_bulk ["S0"%string] 0 0)
    = Some (0, p')
    /\ qpos p' = 6 /\ base p' = 2 /\ qual p' = 30 /\ laln p' = 15.
Proof.
  destruct (resolver_site_and_length (ex_gs_bulk ["S0"%string] 0 0)
              ex_pileup 108 [80; 34]%N [] 160%N) as [Hm _].
  - intros k H. discriminate H.
  - intros k H. discriminate H.
  - vm_compute. discriminate.
  - vm_compute. discriminate.
  - vm_compute. discriminate.
  - reflexivity.
  - vm_compute. split; [discriminate | reflexivity].
  - destruct (Hm eq_refl) as (p' & He & Hq & Hb & Hql & Hl).
    exists p'. split; [exact He|]. split; [exact Hq|]. split; [exact Hb|].
    split; [exact Hql|]. apply Hl. vm_compute. discriminate.
Defined.

(** ** GroupTable *)

(** Witness of C3: three reads with the UMI "U1" pushed into the group of
    sample 0; the table after the three pushes is the table after the
    first, which counted one C. *)
Lemma umi_dedup_idempotent_witness :
  push_all ex_gs_umi
    [(ex_umi_pileup "U1" 2, 0); (ex_umi_pileup "U1" 8, 0);
     (ex_umi_pileup "U1" 2, 0)]
    (mplp_of_roster ["S0"%string])
  = snd (csp_mplp_push (ex_umi_pileup "U1" 2) (mplp_of_roster ["S0"%string])
                       0 ex_gs_umi)
  /\ sumZ (bc (plp_count (ex_umi_pileup "U1" 2)
                         (plp_add_umi "U1" plp_empty))) = 0 + 1.
Proof.
  destruct (umi_dedup_idempotent ex_gs_umi (mplp_of_roster ["S0"%string]) 0
              (ex_umi_pileup "U1" 2)
              [ex_umi_pileup "U1" 8; ex_umi_pileup "U1" 2]
              "U1" 0%nat "S0" plp_empty)
    as (_ & _ & _ & Hs & _ & Hall).
  - reflexivity.
  - repeat (constructor; [split; reflexivity|]). constructor.
  - reflexivity.
  - apply not_elem_of_empty.
  - reflexivity.
  - split; [exact Hall | exact Hs].
Defined.

(** Counterexample to C5 as stated: no reading of the return value tells
    the four outcomes apart.  The first push of a read with UMI "U1" is
    counted, the second is a duplicate, and both return 0. *)
Lemma push_outcomes_not_distinguishable :
  ~ exists decode : Z -> PushOutcome,
      forall p m sid gs,
        decode (fst (csp_mplp_push p m sid gs)) = push_outcome p m sid gs.
Proof.
  intros [decode H].
  pose (p := ex_umi_pileup "U1" 2).
  pose (m := mplp_of_roster ["S0"%string]).
  pose (m1 := snd (csp_mplp_push p m 0 ex_gs_umi)).
  pose proof (H p m 0 ex_gs_umi) as H1.
  pose proof (H p m1 0 ex_gs_umi) as H2.
  assert (R1 : fst (csp_mplp_push p m 0 ex_gs_umi) = 0) by reflexivity.
  assert (R2 : fst (csp_mplp_push p m1 0 ex_gs_umi) = 0) by reflexivity.
  assert (O1 : push_outcome p m 0 ex_gs_umi = Counted) by (vm_compute; reflexivity).
  assert (O2 : push_outcome p m1 0 ex_gs_umi = DuplicateUMI)
    by (vm_compute; reflexivity).
  rewrite R1, O1 in H1. rewrite R2, O2 in H2. congruence.
Qed.

(** ** AggregateStats *)

(** Witness of C6: A:10, C:1, G:5 with supplied ref A and alt C and a
    minimum count of 0; the inference yields (A, G) and the supplied pair
    is kept. *)
Lemma stat_inference_and_install_witness :
  let res := snd (csp_mplp_stat ex_genotype ex_maf_mplp
                                (ex_gs_bulk ["S0"%string] 0 0)) in
  (inf_rid res = 0 /\ inf_aid res = 2)
  /\ ref_idx res = 0 /\ alt_idx res = 1 /\ m_ad res = 1 /\ m_dp res = 11.
Proof.
  destruct (stat_inference_and_install ex_genotype ex_maf_mplp
              (ex_gs_bulk ["S0"%string] 0 0)) as [Hinf Hrest].
  - vm_compute. discriminate.
  - destruct Hrest as (_ & Hkeep & Had & Hdp & _).
    + vm_compute. discriminate.
    + destruct Hkeep as [Hr Ha]; [vm_compute; split; discriminate|].
      split; [exact Hinf|]. split; [exact Hr|]. split; [exact Ha|].
      vm_compute. split; reflexivity.
Defined.

(** ** SiteDriver *)

(** Witness of the amended C4: the first input file lacks chromosome "1",
    so the SNP is rejected with state 1 and the table untouched. *)
Lemma missing_chrom_rejects_snp_witness :
  pileup_snp_with_fetch ex_genotype (ex_snp "1" 108) [ex_missing; ex_good]
    csp_pileup_init (mplp_of_roster ["S0"; "S1"]%string)
    (ex_gs_bulk ["S0"; "S1"]%string 1 0)
  = Some (1, csp_pileup_init,
          mplp_set_snp (mplp_of_roster ["S0"; "S1"]%string) (ex_snp "1" 108)).
Proof.
  apply (missing_chrom_rejects_snp ex_genotype ex_to_vcf
           (ex_gs_bulk ["S0"; "S1"]%string 1 0) (ex_snp "1" 108)
           [] [ex_good] ex_missing csp_pileup_init csp_pileup_init
           (mplp_of_roster ["S0"; "S1"]%string)
           (mplp_set_snp (mplp_of_roster ["S0"; "S1"]%string) (ex_snp "1" 108))
           0 [] (thdata_init 0 0 tmp_out)).
  - reflexivity.
  - reflexivity.
Defined.

(** Counterexample to C4 as stated: with the input files [missing; good]
    the code stops at the first file with state 1 and pushes nothing,
    while a per-source skip would go on to the second file, push its read
    and finish the loop. *)
Lemma missing_chrom_not_skipped :
  pileup_sources (ex_gs_bulk ["S0"; "S1"]%string 1 0) (ex_snp "1" 108)
    [ex_missing; ex_good] 0 csp_pileup_init
    (mplp_of_roster ["S0"; "S1"]%string) 0
  = Some (1, csp_pileup_init, mplp_of_roster ["S0"; "S1"]%string, 0)
  /\ (exists p' m',
        pileup_sources_skip (ex_gs_bulk ["S0"; "S1"]%string 1 0)
          (ex_snp "1" 108) [ex_missing; ex_good] 0 csp_pileup_init
          (mplp_of_roster ["S0"; "S1"]%string) 0
        = Some (0, p', m', 1))
  /\ snp_passes ex_genotype (ex_gs_bulk ["S0"; "S1"]%string 1 0)
       [ex_missing; ex_good] csp_pileup_init ["S0"; "S1"]%string
       (ex_snp "1" 108) = false
  /\ ~ (forall gs snp fs i p m n,
          pileup_sources gs snp fs i p m n
          = pileup_sources_skip gs snp fs i p m n).
Proof.
  assert (H1 : pileup_sources (ex_gs_bulk ["S0"; "S1"]%string 1 0)
                 (ex_snp "1" 108) [ex_missing; ex_good] 0 csp_pileup_init
                 (mplp_of_roster ["S0"; "S1"]%string) 0
               = Some (1, csp_pileup_init,
                       mplp_of_roster ["S0"; "S1"]%string, 0))
    by reflexivity.
  assert (H2 : exists p' m',
        pileup_sources_skip (ex_gs_bulk ["S0"; "S1"]%string 1 0)
          (ex_snp "1" 108) [ex_missing; ex_good] 0 csp_pileup_init
          (mplp_of_roster ["S0"; "S1"]%string) 0
        = Some (0, p', m', 1))
    by (do 2 eexists; vm_compute; reflexivity).
  split_and!; [exact H1 | exact H2 | vm_compute; reflexivity |].
  intros H. destruct H2 as (p' & m' & H2).
  rewrite <- H, H1 in H2. discriminate.
Qed.

(** Witness of the amended C8: raising the thresholds from (2, 0) to
    (3, 1/4) on the example run does not raise the number of passing
    SNPs. *)
Lemma thresholds_monotone_witness :
  (count_passing ex_genotype (set_thresholds ex_run_gs 3 (1 # 4)) ex_run_fs
     csp_pileup_init ["S0"; "S1"]%string (pl ex_run_gs)
   <= count_passing ex_genotype (set_thresholds ex_run_gs 2 0) ex_run_fs
        csp_pileup_init ["S0"; "S1"]%string (pl ex_run_gs))%nat.
Proof.
  apply (thresholds_monotone ex_genotype ex_run_gs ex_run_fs csp_pileup_init
           ["S0"; "S1"]%string (pl ex_run_gs) 2 3 0 (1 # 4)).
  - lia.
  - lia.
  - lia.
  - unfold Qle. simpl. lia.
Defined.

(** Counterexample to C8 as stated: the minimum count is an [int] and is
    compared with the [size_t] counter [npushed], so -1 acts as the largest
    threshold.  Raising it from -1 to 0 raises the number of passing SNPs
    from 0 to 1. *)
Lemma min_count_not_monotone :
  -1 <= 0
  /\ count_passing ex_genotype (set_thresholds (ex_gs_bulk ["S0"%string] 0 0) (-1) 0)
       [ex_empty] csp_pileup_init ["S0"%string] [ex_snp "1" 108] = 0%nat
  /\ count_passing ex_genotype (set_thresholds (ex_gs_bulk ["S0"%string] 0 0) 0 0)
       [ex_empty] csp_pileup_init ["S0"%string] [ex_snp "1" 108] = 1%nat
  /\ ~ (forall gs fs p names snps c1 c2 f,
          c1 <= c2 ->
          (count_passing ex_genotype (set_thresholds gs c2 f) fs p names snps
           <= count_passing ex_genotype (set_thresholds gs c1 f) fs p names snps)%nat).
Proof.
  split_and!; [lia | vm_compute; reflexivity | vm_compute; reflexivity |].
  intros H.
  specialize (H (ex_gs_bulk ["S0"%string] 0 0) [ex_empty] csp_pileup_init
                ["S0"%string] [ex_snp "1" 108] (-1) 0 0%Q ltac:(lia)).
  vm_compute in H. lia.
Qed.

(** ** ShardCoordinator *)

(** Witness of the amended C1: the example run with one worker succeeds;
    by the theorem the run with four workers succeeds with the same
    files. *)
Lemma shard_count_determinism_witness :
  exists out,
    run_mode_with_fetch ex_genotype ex_to_vcf (set_workers ex_run_gs 4 true)
      ex_run_fs (main_outputs [] []) = Some (0, out)
    /\ data (out_mtx_ad out)
       = CSP_MTX_HEADER ++ mtx_summary 4 2 4
         ++ (dec 1 ++ [tab] ++ dec 1 ++ [tab] ++ dec 1 ++ [nl])
         ++ (dec 2 ++ [tab] ++ dec 1 ++ [tab] ++ dec 1 ++ [nl])
         ++ (dec 3 ++ [tab] ++ dec 1 ++ [tab] ++ dec 1 ++ [nl])
         ++ (dec 4 ++ [tab] ++ dec 1 ++ [tab] ++ dec 1 ++ [nl]).
Proof.
  eexists. split.
  - apply (proj1 (proj1 (shard_count_determinism ex_genotype ex_to_vcf
                           ex_run_gs ex_run_fs [] []) _)).
    vm_compute. reflexivity.
  - vm_compute. reflexivity.
Defined.

(** Counterexample to C1 as stated: the same input with one and with four
    workers.  The iterator of the input file breaks at the second SNP, so
    both runs return -1; the run with one worker has by then written the
    record of the first SNP to the final AD matrix and base VCF, the run
    with four workers leaves the final files as [main] wrote them. *)
Lemma shard_count_changes_failed_output :
  (exists o1 o4,
     run_mode_with_fetch ex_genotype ex_to_vcf (set_workers ex_fail_gs 1 false)
       [ex_broken] (main_outputs [] []) = Some (-1, o1)
     /\ run_mode_with_fetch ex_genotype ex_to_vcf (set_workers ex_fail_gs 4 true)
          [ex_broken] (main_outputs [] []) = Some (-1, o4)
     /\ data (out_mtx_ad o1)
        = CSP_MTX_HEADER ++ dec 1 ++ [tab] ++ dec 1 ++ [tab] ++ dec 1 ++ [nl]
     /\ data (out_mtx_ad o4) = CSP_MTX_HEADER
     /\ data (out_vcf_base o1) <> data (out_vcf_base o4))
  /\ ~ (forall gs fs vb vc r1 r4 o1 o4,
          run_mode_with_fetch ex_genotype ex_to_vcf (set_workers gs 1 false) fs
            (main_outputs vb vc) = Some (r1, o1) ->
          run_mode_with_fetch ex_genotype ex_to_vcf (set_workers gs 4 true) fs
            (main_outputs vb vc) = Some (r4, o4) ->
          o1 = o4).
Proof.
  eassert (H1 : run_mode_with_fetch ex_genotype ex_to_vcf
                  (set_workers ex_fail_gs 1 false) [ex_broken]
                  (main_outputs [] []) = Some (-1, _))
    by (vm_compute; reflexivity).
  eassert (H4 : run_mode_with_fetch ex_genotype ex_to_vcf
                  (set_workers ex_fail_gs 4 true) [ex_broken]
                  (main_outputs [] []) = Some (-1, _))
    by (vm_compute; reflexivity).
  split.
  - do 2 eexists. split; [exact H1|]. split; [exact H4|].
    vm_compute. split_and!; [reflexivity | reflexivity | discriminate].
  - intros H. specialize (H _ _ _ _ _ _ _ _ H1 H4).
    apply (f_equal (fun o => length (data (out_mtx_ad o)))) in H.
    vm_compute in H. discriminate H.
Qed.

(** Counterexample to C9 as stated: the worker reported one AD record
    while its fragment holds two.  The merging stage returns -1, yet the
    final AD matrix has received its summary line and both merged
    records and is left that way. *)
Lemma merge_mismatch_leaves_output :
  let res := merge_shards ex_run_gs 2 [ex_report] (main_outputs [] []) in
  fst res = -1
  /\ data (out_mtx_ad (snd res))
     = CSP_MTX_HEADER ++ mtx_summary 1 2 1
       ++ (dec 1 ++ [tab] ++ dec 1 ++ [tab] ++ dec 3 ++ [nl])
       ++ (dec 1 ++ [tab] ++ dec 2 ++ [tab] ++ dec 4 ++ [nl])
  /\ data (out_mtx_ad (snd res)) <> data (out_mtx_ad (main_outputs [] [])).
Proof.
  vm_compute. split_and!; [reflexivity | reflexivity | discriminate].
Qed.

(** * Examples for the further properties *)

(** Witness of X2: the read 5M 2D 10M from position 100 is accepted at
    position 108 with query offset 6, inside its 15 query bases. *)
Lemma resolver_offset_in_read_witness :
  exists p',
    pileup_read_with_fetch 108 ex_pileup (ex_gs_bulk ["S0"%string] 0 0)
    = Some (0, p')
    /\ 0 <= qpos p' < qry_len ex_cigar /\ qpos p' = 6.
Proof.
  eassert (E : pileup_read_with_fetch 108 ex_pileup
                 (ex_gs_bulk ["S0"%string] 0 0) = Some (0, _))
    by (vm_compute; reflexivity).
  eexists. split; [exact E|].
  destruct (resolver_offset_in_read _ _ _ _ E) as (_ & _ & H & _).
  split; [exact H | reflexivity].
Defined.

(** Witness of X3: with UMI grouping, a read without the UR tag is
    reported with code 1. *)
Lemma resolver_codes_witness :
  ~ has_tags ex_gs_umi (b ex_pileup).
Proof.
  eassert (E : pileup_read_with_fetch 108 ex_pileup ex_gs_umi = Some (1, _))
    by (vm_compute; reflexivity).
  destruct (resolver_codes _ _ _ _ _ E) as (_ & H & _).
  apply H. reflexivity.
Defined.

(** Witness of X6: two files with three accepted reads each and no UMI
    grouping: [npushed] and the summed total are both 6. *)
Lemma npushed_bounds_table_total_witness :
  exists st p' m',
    pileup_sources (ex_gs_bulk ["S0"; "S1"]%string 1 0) (ex_snp "1" 108)
      ex_run_fs 0 csp_pileup_init
      (mplp_set_snp (mplp_of_roster ["S0"; "S1"]%string) (ex_snp "1" 108)) 0
    = Some (st, p', m', 6)
    /\ m_tc (csp_mplp_sum m') = 6.
Proof.
  eassert (E : pileup_sources (ex_gs_bulk ["S0"; "S1"]%string 1 0)
                 (ex_snp "1" 108) ex_run_fs 0 csp_pileup_init
                 (mplp_set_snp (mplp_of_roster ["S0"; "S1"]%string)
                               (ex_snp "1" 108)) 0
               = Some (_, _, _, 6))
    by (vm_compute; reflexivity).
  do 3 eexists. split; [exact E|].
  destruct (npushed_bounds_table_total _ _ _ _ _ _ _ _ _ E) as (_ & H & _).
  apply H; [reflexivity | right; cbn; lia].
Defined.

(** Witness of X7: C, G, C pushed into one group, alleles inferred as
    C and G: AD = 1, DP = 3, OTH = 0. *)
Lemma stat_depth_split_witness :
  exists res,
    csp_mplp_stat ex_genotype
      (push_all (ex_gs_bulk ["S0"%string] 0 0) ex_pushes
                (set_ref_alt (mplp_of_roster ["S0"%string]) (-1) (-1)))
      (ex_gs_bulk ["S0"%string] 0 0) = (0, res)
    /\ 0 <= m_ad res <= m_dp res /\ m_dp res <= m_tc res
    /\ m_oth res = m_tc res - m_dp res.
Proof.
  eassert (E : csp_mplp_stat ex_genotype
                 (push_all (ex_gs_bulk ["S0"%string] 0 0) ex_pushes
                    (set_ref_alt (mplp_of_roster ["S0"%string]) (-1) (-1)))
                 (ex_gs_bulk ["S0"%string] 0 0) = (0, _))
    by (vm_compute; reflexivity).
  eexists. split; [exact E|].
  apply (stat_depth_split ex_genotype _ _ _ _ _ _ E).
  - vm_compute. discriminate.
  - vm_compute. discriminate.
  - vm_compute. discriminate.
  - vm_compute. reflexivity.
Defined.

(** Witness of X8: on the same table one AD record and one DP record. *)
Lemma ad_records_within_dp_records_witness :
  exists res,
    csp_mplp_stat ex_genotype
      (push_all (ex_gs_bulk ["S0"%string] 0 0) ex_pushes
                (set_ref_alt (mplp_of_roster ["S0"%string]) (-1) (-1)))
      (ex_gs_bulk ["S0"%string] 0 0) = (0, res)
    /\ 0 <= nr_ad res <= nr_dp res
    /\ nr_dp res <= 1.
Proof.
  eassert (E : csp_mplp_stat ex_genotype
                 (push_all (ex_gs_bulk ["S0"%string] 0 0) ex_pushes
                    (set_ref_alt (mplp_of_roster ["S0"%string]) (-1) (-1)))
                 (ex_gs_bulk ["S0"%string] 0 0) = (0, _))
    by (vm_compute; reflexivity).
  eexists. split; [exact E|].
  destruct (ad_records_within_dp_records ex_genotype _ _ _ _ _ _ E)
    as (_ & H1 & H2 & _).
  split; [exact H1 | exact H2].
Defined.

(** Witness of X9: the example SNP at 108 over the two example files,
    whose reads all span 100 to 116, ends with 0 or 1. *)
Lemma snp_never_fatal_witness :
  exists st p' m',
    pileup_snp_with_fetch ex_genotype (ex_snp "1" 108) ex_run_fs
      csp_pileup_init (mplp_of_roster ["S0"; "S1"]%string) ex_run_gs
    = Some (st, p', m')
    /\ (st = 0 \/ st = 1).
Proof.
  apply (snp_never_fatal ex_genotype ex_run_gs (ex_snp "1" 108) ex_run_fs
           csp_pileup_init (mplp_of_roster ["S0"; "S1"]%string)).
  - reflexivity.
  - reflexivity.
  - unfold ex_run_fs.
    apply Forall_cons; [|apply Forall_cons; [|apply Forall_nil]];
      intros rs ret H; vm_compute in H; injection H as <- <-;
      (split; [lia|]);
      repeat (apply Forall_cons; [vm_compute; split; [discriminate | reflexivity]|]);
      apply Forall_nil.
Defined.

(** Witness of X10: over the broken file the worker writes the record
    of the SNP at 108, stops at 110 with -1 and never reaches 111. *)
Lemma worker_stops_at_failure_witness :
  exists d',
    pileup_positions_with_fetch ex_genotype ex_to_vcf ex_fail_gs [ex_broken]
      (thdata_init 0 3 tmp_out) = Some d'
    /\ d_ret d' = -1 /\ d_ns d' = 1.
Proof.
  eassert (Hp : passing ex_genotype ex_fail_gs [ex_broken] ["S0"%string]
                  [ex_snp "1" 108] = Some [_])
    by (vm_compute; reflexivity).
  eassert (Hs : pileup_snp_with_fetch ex_genotype (ex_snp "1" 110) [ex_broken]
                  csp_pileup_init (mplp_of_roster ["S0"%string]) ex_fail_gs
                = Some (-1, _, _))
    by (vm_compute; reflexivity).
  destruct (worker_stops_at_failure ex_genotype ex_to_vcf ex_fail_gs
              [ex_broken] ["S0"%string] (thdata_init 0 3 tmp_out)
              [ex_snp "1" 108] [ex_snp "1" 111] (ex_snp "1" 110) _ _ _ _
              eq_refl eq_refl Hp Hs ltac:(reflexivity))
    as (H1 & H2 & H3 & _).
  eexists. split; [exact H1|]. split; [exact H2 | exact H3].
Defined.

(** Witness of X11: the example run as one shard: four passing sites,
    four AD and eight DP records, within 4 x 2. *)
Lemma worker_tallies_bounded_witness :
  exists d',
    pileup_positions_with_fetch ex_genotype ex_to_vcf ex_run_gs ex_run_fs
      (thdata_init 0 5 tmp_out) = Some d'
    /\ d_ret d' = 0
    /\ 0 <= d_ns d' <= 5
    /\ 0 <= d_nr_ad d' <= d_nr_dp d'
    /\ d_nr_dp d' <= d_ns d' * 2.
Proof.
  eassert (Hp : passing ex_genotype ex_run_gs ex_run_fs ["S0"; "S1"]%string
                  (shard_snps ex_run_gs (thdata_init 0 5 tmp_out)) = Some _)
    by (vm_compute; reflexivity).
  destruct (worker_tallies_bounded ex_genotype ex_to_vcf ex_run_gs ex_run_fs
              ["S0"; "S1"]%string (thdata_init 0 5 tmp_out) _ eq_refl Hp)
    as (d' & H1 & H2 & H3 & H4 & H5 & _).
  exists d'. split; [exact H1|]. split; [exact H2|]. split; [exact H3|].
  split; [exact H4 | exact H5].
Defined.

(** Witness of X12: two fragments with three sites and three rows. *)
Lemma merge_mtx_renumbers_witness :
  merge_mtx {| is_tmp := false; data := [] |}
    (map (fun s => {| is_tmp := true; data := frag_text s |}) ex_frags)
  = ({| is_tmp := false;
        data := (dec 1 ++ [tab] ++ dec 1 ++ [tab] ++ dec 3 ++ [nl])
                ++ (dec 3 ++ [tab] ++ dec 2 ++ [tab] ++ dec 1 ++ [nl])
                ++ (dec 3 ++ [tab] ++ dec 3 ++ [tab] ++ dec 4 ++ [nl]) |},
     3, 3, 0).
Proof.
  rewrite (merge_mtx_renumbers _ ex_frags); [vm_compute; reflexivity|].
  repeat constructor; try discriminate.
Defined.

(** Witness of X14: the summary line goes between the two comment lines
    and the first record. *)
Lemma rewrite_mtx_inserts_summary_witness :
  rewrite_mtx {| is_tmp := false;
                 data := CSP_MTX_HEADER
                         ++ dec 1 ++ [tab] ++ dec 1 ++ [tab] ++ dec 5 ++ [nl] |}
              1 2 1
  = (0, {| is_tmp := false;
           data := CSP_MTX_HEADER ++ mtx_summary 1 2 1
                   ++ dec 1 ++ [tab] ++ dec 1 ++ [tab] ++ dec 5 ++ [nl] |}).
Proof.
  rewrite (rewrite_mtx_inserts_summary _ ex_mtx_comments "1"%char
             ([tab] ++ dec 1 ++ [tab] ++ dec 5) [] 1 2 1).
  - vm_compute. reflexivity.
  - repeat constructor; try discriminate; eexists; reflexivity.
  - repeat constructor; discriminate.
  - discriminate.
  - vm_compute. reflexivity.
Defined.

(** Witness of X15: a matrix of comment lines only and a record count
    of 2: the call returns 1 and the file is as before. *)
Lemma rewrite_mtx_without_records_witness :
  rewrite_mtx {| is_tmp := false; data := CSP_MTX_HEADER |} 1 2 2
  = (1, {| is_tmp := false; data := CSP_MTX_HEADER |}).
Proof.
  rewrite (rewrite_mtx_without_records _ ex_mtx_comments [] 1 2 2).
  - reflexivity.
  - repeat constructor; try discriminate; eexists; reflexivity.
  - left. reflexivity.
  - vm_compute. reflexivity.
Defined.

(** Witness of X16: ten SNPs and four workers: 2, 2, 2 and 4 SNPs. *)
Lemma shard_layout_witness :
  make_shards 10 4 !! 3%nat = Some (thdata_init 6 4 tmp_out)
  /\ make_shards 10 4 !! 1%nat = Some (thdata_init 2 2 tmp_out).
Proof.
  destruct (shard_layout 10 4 ltac:(lia) ltac:(lia)) as (_ & H1 & H2 & _).
  split; [exact H2|]. apply (H1 1%nat). lia.
Defined.

(** Witness of X17: over the broken file the single-worker run returns
    -1 with the record of the SNP at 108 left in the final AD matrix. *)
Lemma fatal_snp_outcomes_witness :
  exists o',
    run_single ex_genotype ex_to_vcf ex_fail_gs [ex_broken]
      (main_outputs [] []) = Some (-1, o')
    /\ data (out_mtx_ad o')
       = CSP_MTX_HEADER ++ dec 1 ++ [tab] ++ dec 1 ++ [tab] ++ dec 1 ++ [nl].
Proof.
  eassert (Hp : passing ex_genotype ex_fail_gs [ex_broken] ["S0"%string]
                  [ex_snp "1" 108] = Some [_])
    by (vm_compute; reflexivity).
  eassert (Hs : pileup_snp_with_fetch ex_genotype (ex_snp "1" 110) [ex_broken]
                  csp_pileup_init (mplp_of_roster ["S0"%string]) ex_fail_gs
                = Some (-1, _, _))
    by (vm_compute; reflexivity).
  destruct (fatal_snp_outcomes ex_genotype ex_to_vcf ex_fail_gs [ex_broken]
              (main_outputs [] []) ["S0"%string]
              [ex_snp "1" 108] [ex_snp "1" 111] (ex_snp "1" 110) _ _ _ _
              eq_refl eq_refl Hp Hs ltac:(reflexivity))
    as ((o' & H1 & H2 & _) & _).
  exists o'. split; [exact H1|]. rewrite H2. vm_compute. reflexivity.
Defined.

(** Witness of X19: with a barcode file the check succeeds, keeps the
    cell tag and stores the barcodes sorted. *)
Lemma check_args_grouping_witness :
  exists gs',
    Cli.check_global_args ex_env ex_cli_barcodes = Some (0, gs')
    /\ Cli.barcodes gs' = Some ["AAC"; "CCA"; "TTG"]%string
    /\ Cli.sample_ids gs' = None.
Proof.
  eassert (E : Cli.check_global_args ex_env ex_cli_barcodes = Some (0, _))
    by (vm_compute; reflexivity).
  eexists. split; [exact E|].
  destruct (check_args_grouping _ _ _ E)
    as [(t & f & l & _ & Hf & Hl & Hb & Hs & _) | (Ht & _)];
    [|discriminate Ht].
  injection Hf as <-. injection Hl as <-.
  split; [rewrite Hb; reflexivity | exact Hs].
Defined.

(** Witness of X20: with sample IDs the default UMI tag "UR" stays. *)
Lemma check_args_umi_tag_witness :
  exists gs',
    Cli.check_global_args ex_env ex_cli_bulk = Some (0, gs')
    /\ Cli.umi_tag gs' = Some "UR"%string.
Proof.
  eassert (E : Cli.check_global_args ex_env ex_cli_bulk = Some (0, _))
    by (vm_compute; reflexivity).
  eexists. split; [exact E|].
  rewrite (check_args_umi_tag _ _ _ E). reflexivity.
Defined.

(** Witness of X21: with a SNP list the default chromosomes are
    dropped. *)
Lemma check_args_regions_witness :
  exists gs',
    Cli.check_global_args ex_env ex_cli_bulk = Some (0, gs')
    /\ Cli.pos_list_file gs' = Some "snps.vcf"%string
    /\ Cli.chrom_all gs' = None.
Proof.
  eassert (E : Cli.check_global_args ex_env ex_cli_bulk = Some (0, _))
    by (vm_compute; reflexivity).
  eexists. split; [exact E|].
  destruct (check_args_regions _ _ _ E)
    as [(Hp & _) | (w & Hw & Hw0 & _ & Hc)]; [discriminate Hp|].
  injection Hw0 as <-. split; [exact Hw | exact Hc].
Defined.

(** Witness of X22: one input file, cell tag "None", no sample IDs: the
    check stores through the NULL array; with the default cell tag it
    returns -1. *)
Lemma check_args_without_sample_ids_witness :
  Cli.check_global_args ex_env ex_cli_bare = None
  /\ exists g,
       Cli.check_global_args ex_env
         (ex_cli None None (Some "CB"%string) ["a.bam"%string])
       = Some (-1, g).
Proof.
  split.
  - apply (check_args_without_sample_ids ex_env ex_cli_bare "a.bam" [] "out");
      reflexivity.
  - apply (check_args_without_sample_ids ex_env
             (ex_cli None None (Some "CB"%string) ["a.bam"%string])
             "a.bam" [] "out"); reflexivity.
Defined.

(** Witness of X23: barcodes and input in order, no SNP list: exit 0 and
    matrices that hold their two comment lines only. *)
Lemma main_without_snp_list_witness :
  exists gs1 vc,
    Cli.check_global_args ex_env ex_cli_chroms = Some (0, gs1)
    /\ main_run ex_genotype ex_to_vcf "1.0" ex_env ex_renv ex_cli_chroms
       = Some (0, Some {| m_out := main_outputs
                                     (CSP_VCF_BASE_HEADER ++ vcf_columns
                                      ++ [nl]) vc;
                          m_samples := samples_text gs1 |}).
Proof.
  eassert (E : Cli.check_global_args ex_env ex_cli_chroms = Some (0, _))
    by (vm_compute; reflexivity).
  assert (Hin : Cli.in_fns ex_cli_chroms <> Some []) by (vm_compute; discriminate).
  destruct (main_without_snp_list ex_genotype ex_to_vcf "1.0" ex_env ex_renv
              _ _ E I Hin) as (vc & Hm & _).
  eexists. exists vc. split; [exact E | exact Hm].
Defined.

(** Witness of X24: the barcode file lists TTG, AAC, CCA; the samples
    file and the table have AAC, CCA, TTG. *)
Lemma samples_file_follows_roster_witness :
  exists gs1,
    Cli.check_global_args ex_env ex_cli_barcodes = Some (0, gs1)
    /\ roster (engine_settings gs1 []) = Some ["AAC"; "CCA"; "TTG"]%string
    /\ samples_text gs1 = name_lines ["AAC"; "CCA"; "TTG"]%string.
Proof.
  eassert (E : Cli.check_global_args ex_env ex_cli_barcodes = Some (0, _))
    by (vm_compute; reflexivity).
  assert (Hin : Cli.in_fns ex_cli_barcodes <> Some [])
    by (vm_compute; discriminate).
  destruct (samples_file_follows_roster "1.0" ex_env _ _ [] E Hin)
    as (names & Hr & Hs & _ & l & Hl & ->).
  injection Hl as <-.
  eexists. split; [exact E|]. split; [exact Hr | exact Hs].
Defined.
